(* ===== verification/_CoqProject ===== *)
-Q . S2P
Prelude.v
Paths.v
F64.v
JsonLines.v
Hybrid.v
Types.v
Codecs.v
Concrete.v
Crypto.v
Sessions.v
Handshakes.v
Ledger.v
Consensus.v
Policy.v
Network.v
Channel.v
Snapshots.v
NodeState.v
Branches.v
Receipts.v
SyncServe.v
Service.v
Votes.v
Safety.v
Durable.v
Termination.v
Blocks.v
Handlers.v
Invariants.v
StorageFiles.v
Acceptance.v
Delivery.v
Scenario.v
Cluster.v
Rollback.v
Queries.v
Steady.v
Catchup.v
Crash.v
Localnet.v
Measure.v
Load.v
Startup.v
Reports.v
Flood.v
Matrix.v
Processes.v
Render.v
Cli.v
Verdicts.v
