(* ===== verification/Prelude.v ===== *)
(** * Entangrid: a verification development

    Entangrid is a proof-of-stake chain in which validators earn the right to
    propose by relaying for each other.  A validator is one process
    (crates/entangrid-node): it holds a chain of blocks, proposes in its
    slots, votes, collects two-thirds certificates, measures the service of
    its peers, and synchronises with them over authenticated sessions
    (crates/entangrid-network, crates/entangrid-crypto).  A simulator
    (crates/entangrid-sim) creates networks of such processes, puts load on
    them and judges what they leave on disk.  This library models these
    crates, all under src/, and proves what makes them correct.

    ** Conventions

    Definitions keep the names of the source and are executable.  A u64 or
    usize is a Z, with [wadd] and [wmul] where the source wraps (a
    release build) and [saturating_sub] and the like where it says so; an f64
    is a [SpecFloat] at 53 bits; a 32-byte hash is a Z, which keeps the order
    of the byte strings; BTreeMap and BTreeSet are [gmap] and [gset], and
    lists sorted by key where the source iterates.  A fallible function
    returns [result]; a method of the node runs in a state monad whose outcome
    is a value, an error, a panic, or the end of the model's fuel, and an
    error keeps what was mutated before it.  Third-party code is a class of
    parameters with its laws: BLAKE3 and bincode for hashing ([Hashing]),
    bincode for the wire ([Bincode]), ML-DSA ([MlDsa]), ML-KEM ([MlKem]),
    ChaCha20-Poly1305 ([Aead]), serde_json ([JsonLine], [JsonDocument]).  The
    operating system is an oracle the theorems quantify over: sockets and
    clock ([Environment] of Network), processes ([Machine] of Processes), the
    clock of a node's event as an argument.

    ** The parts

    Foundations.
    - Prelude: the [result] monad, sorting, list and arithmetic lemmas, tactics.
    - Paths, F64, JsonLines: file names, floats, files of JSON lines.
    - Hybrid, Types: entangrid-types.  The scheme-tagged containers and their
      two encodings; every record and message.
    - Concrete, Codecs: lawful instances of the parameters, for examples only.

    Cryptography and transport.
    - Crypto, Sessions: entangrid-crypto.  Signing and verifying, handshakes,
      session keys, sealing of frames, key loading.  Clients are written
      against the classes [CryptoBackend] and [HandshakeProvider]; both the
      deterministic and the configured backend implement them.
    - Handshakes: what a completed handshake establishes.
    - Network, Channel: entangrid-network, and what a connection guarantees.

    Chain.
    - Ledger: entangrid-ledger.  - Consensus: entangrid-consensus.

    Node (entangrid-node/src/lib.rs).
    - Policy, Snapshots: its pure functions.  - NodeState: NodeRunner, its
      storage and monad.  - Branches: known blocks and chains.  - Receipts:
      receipts and transactions.  - SyncServe: serving and requesting
      synchronisation.  - Service: attestations, aggregates, scores, gating.
      - Votes: the voting cycle.  - Blocks: acceptance, proposing, imports.
      - Handlers: messages, events, the run loop, start and restart.
    - Safety, Durable, Invariants: the invariants of the voting core, of the
      files, and of every reachable state.  - Termination: the voting cycle
      ends.  - Acceptance: block acceptance, proposing and certified
      synchronisation.  - Delivery: transport events into the node.
    - StorageFiles, Crash: the node's files as text, and crashes.
    - Scenario: a concrete network that the theorems are applied to.
    - Cluster, Rollback: several nodes as one transition system, its
      agreement, and runs of it.  - Queries, Steady, Catchup: serving a peer,
      and what a node that is served ends with.

    Simulator (entangrid-sim/src/lib.rs).
    - Localnet, Load, Startup: creating networks and load, and that both work.
    - Reports, Verdicts: the reports and what a verdict means.
    - Flood: abuse traffic.  - Matrix: the scenarios.  - Measure: the signing
      measurements.  - Processes: starting and stopping nodes, scenario runs.
    - Render, Cli: texts and commands.

    The parts meet in these places.  [cluster_step] of Cluster lets a node
    handle what another one has put into its outbox.  [process_events] of Delivery gives the
    node what [handle_inbound] of Network reports.  [restore] and
    [loaded_node] of Handlers start from the lists that [load_storage] of
    StorageFiles reads from text.  [crash_while_accepting] feeds what a crash
    leaves of two writes to [start_node].  [run_matrix_scenario] of Processes
    composes [init_localnet], the spawned nodes, [load_scenario],
    [run_abuse_pattern] and the wait of Reports.

    ** What is shown

    - A node's ledger always is the replay of its chain, its files hold what
      it has in memory, and a restart resumes from the same state
      ([reachable_node_consistent], [restart_resumes_same_chain]).
    - A node never holds two contradicting votes of a validator, and stores
      only well-formed certificates of sufficient weight
      ([stored_votes_never_equivocate], [stored_certificates_checked]).  A
      network agrees on every height as long as at most a third of its
      validators have contradicting votes counted ([cluster_agreement]).
      Such validators need not be cheats: before a first certificate a node
      replaces its vote, and four nodes without faults reach a split by delay
      alone ([honest_nodes_certify_conflicting_blocks]).
    - A node that asks a peer for its chain, whole or only what is missing,
      ends with that chain ([full_sync_catches_up],
      [incremental_sync_catches_up]), unless votes can move it: a late vote
      can undo a block ([late_vote_rolls_back_chain]).  Queries cost the
      asked node two messages at most and change nothing of it
      ([queries_answered_within_bounds]).
    - Blocks that fail a check change nothing, built blocks extend the tip,
      certified synchronisation adopts only certified branches, snapshots
      validate only as linked signed chains, transfers conserve the supply.
    - Honest handshakes complete, completed ones authenticate the peer, and a
      connection is a FIFO of authentic messages under fresh nonces, with
      bounded effort per request.
    - The files refine the lists of the model; a crash in an append loses at
      most its entry; a crash between block and snapshot does more harm.
    - The networks the simulator creates are consistent, start, connect and
      execute their load; a pass means that all nodes agree; a scenario run
      stops the nodes it started; a measurement completes with true medians.
    - Flaws are theorems or lemmas too: orphan promotion that never ends,
      certificates that count a repeated vote, misnumbered certified blocks
      that panic, hybrid identities without components, the crash above, and
      others the lemmas' comments name.

    ** Fuel

    The voting cycle (Votes) and orphan promotion (Blocks) take fuel.  The
    number of known blocks plus two always is enough for the cycle
    ([import_proposal_vote_terminates]).  Invariants hold for any fuel.  Promotion
    has none that always is enough, by [orphan_promotion_diverges].  The
    receiving loop takes rounds, one more than bytes arriving is enough
    ([channel_delivers_in_order]); the doubling of the witness count 64 for a
    64-bit count ([recommended_witness_count]); the flood one round per
    millisecond of its duration ([sync_control_flood_ends]).

    ** Not modelled

    - The main functions, clap's parsing, tracing, signal handlers, and the
      texts of the node's event log (the names of the entries are kept).
    - Failures of the node's own storage and queues: a write succeeds or the
      process crashes in it (Crash); a crash in the middle of a UTF-8
      character is one at its boundary.  Directories exist.
    - Time inside an event: a handler reads the clock once.
    - Concurrency inside the transport: every task is modelled by itself, the
      counters it shares with others as its own view; the select loop of the
      node as a sequence of events in any order.
    - Windows, and builds without the post-quantum features.

    ** Plan

    What further work would add: a bound on all messages one event can cause,
    votes included; the conditions under which a certificate on a chain is
    never given up again by any member of a network; lossy text for the log
    files. *)
From stdpp Require Export base gmap sets list strings sorting.
From Stdlib Require Export ZArith Lia.

Open Scope Z_scope.

(** ** Hint databases and tactics of the development *)

Create HintDb entangrid.
Create HintDb u64.

(** [case_match] until no [match] or [if] of the goal or of a hypothesis is
    left, closing what is inconsistent on the way. *)
Ltac split_matches :=
  repeat (case_match; simplify_eq/=; try done).

(** Invert every equation that equates constructors, keeping the context
    in normal form. *)
Ltac crush := repeat (simplify_eq/=; try done; try case_match).

(** Split boolean conjunctions and comparisons into propositions. *)
Ltac bool_to_prop :=
  repeat match goal with
  | H : (_ && _)%bool = true |- _ => apply andb_true_iff in H as [? ?]
  | H : (_ || _)%bool = false |- _ => apply orb_false_iff in H as [? ?]
  | H : negb _ = true |- _ => apply negb_true_iff in H
  | H : negb _ = false |- _ => apply negb_false_iff in H
  | H : (_ =? _) = true |- _ => apply Z.eqb_eq in H
  | H : (_ =? _) = false |- _ => apply Z.eqb_neq in H
  | H : (_ <? _) = true |- _ => apply Z.ltb_lt in H
  | H : (_ <? _) = false |- _ => apply Z.ltb_ge in H
  | H : (_ <=? _) = true |- _ => apply Z.leb_le in H
  | H : (_ <=? _) = false |- _ => apply Z.leb_gt in H
  | H : bool_decide _ = true |- _ => apply bool_decide_eq_true in H
  | H : bool_decide _ = false |- _ => apply bool_decide_eq_false in H
  end.

(** ** Results: Rust's [Result] with [anyhow] messages as strings *)

Inductive result (A : Type) : Type :=
| Ok (a : A)
| Err (message : string).
Arguments Ok {A} a.
Arguments Err {A} message.

#[export] Instance result_ret : MRet result := fun A a => Ok a.
#[export] Instance result_bind : MBind result := fun A B f r =>
  match r with Ok a => f a | Err e => Err e end.
#[export] Instance result_fmap : FMap result := fun A B f r =>
  match r with Ok a => Ok (f a) | Err e => Err e end.

(** [Result::is_ok]. *)
Definition is_ok {A} (r : result A) : bool :=
  match r with Ok _ => true | Err _ => false end.

(** [Option::ok_or_else]. *)
Definition ok_or {A} (o : option A) (e : string) : result A :=
  match o with Some a => Ok a | None => Err e end.

(** [if !cond { bail!(e) }]. *)
Definition ensure (cond : bool) (e : string) : result unit :=
  if cond then Ok tt else Err e.

Lemma result_bind_ok {A B} (f : A -> result B) (r : result A) (b : B) :
  (r ≫= f) = Ok b <-> exists a, r = Ok a /\ f a = Ok b.
Proof. split; [destruct r as [a|e]; [by eauto | done] | by intros (a & -> & ?)]. Qed.

Lemma ensure_ok (c : bool) (e : string) (u : unit) : ensure c e = Ok u <-> c = true.
Proof. destruct c, u; split; done. Qed.

Lemma is_ok_exists {A} (r : result A) : is_ok r = true <-> exists a, r = Ok a.
Proof. destruct r; split; [eauto | done | done | by intros (? & ?)]. Qed.

(** Invert a chain of [result] binds that returned [Ok]. *)
Ltac inv_ok :=
  repeat match goal with
  | H : (_ ≫= _) = Ok _ |- _ =>
      let a := fresh "a" in let Ha := fresh "Ha" in
      apply result_bind_ok in H as (a & Ha & H)
  | H : ensure _ _ = Ok _ |- _ => apply ensure_ok in H
  | H : Ok _ = Ok _ |- _ => injection H as H
  | H : Err _ = Ok _ |- _ => discriminate H
  | u : unit |- _ => destruct u
  end.

(** ** [u64] arithmetic

    A [u64] is a [Z] in [[0, 2^64)].  Plain [+] is the wrapping addition of a
    release build; [saturating_*] are Rust's methods of the same name. *)

Definition U64_MOD : Z := 2 ^ 64.
Definition U64_MAX : Z := U64_MOD - 1.
Definition is_u64 (x : Z) : Prop := 0 <= x < U64_MOD.

Definition wadd (a b : Z) : Z := (a + b) mod U64_MOD.
Definition wmul (a b : Z) : Z := (a * b) mod U64_MOD.
Definition saturating_sub (a b : Z) : Z := Z.max 0 (a - b).
Definition saturating_add (a b : Z) : Z := Z.min U64_MAX (a + b).
Definition saturating_mul (a b : Z) : Z := Z.min U64_MAX (a * b).

(** Integer division: Rust panics on a zero divisor ([None]). *)
Definition checked_div (a b : Z) : option Z :=
  if b =? 0 then None else Some (a / b).

Lemma wadd_u64 a b : is_u64 (wadd a b).
Proof. apply Z.mod_pos_bound. reflexivity. Qed.

Lemma wadd_small a b : 0 <= a + b < U64_MOD -> wadd a b = a + b.
Proof. apply Z.mod_small. Qed.

Lemma saturating_sub_le a b : 0 <= a -> 0 <= b -> 0 <= saturating_sub a b <= a.
Proof. unfold saturating_sub. lia. Qed.

Lemma saturating_add_u64 a b : is_u64 a -> is_u64 b -> is_u64 (saturating_add a b).
Proof. unfold is_u64, saturating_add, U64_MAX, U64_MOD. lia. Qed.

Lemma saturating_mul_u64 a b : is_u64 a -> is_u64 b -> is_u64 (saturating_mul a b).
Proof. unfold is_u64, saturating_mul, U64_MAX, U64_MOD. nia. Qed.

#[export] Hint Resolve wadd_u64 saturating_add_u64 saturating_mul_u64 : u64.

(** ** Comparisons: [Ordering], tuples and slices compare lexicographically *)

Fixpoint lex_compare (l k : list Z) : comparison :=
  match l, k with
  | [], [] => Eq
  | [], _ :: _ => Lt
  | _ :: _, [] => Gt
  | x :: l', y :: k' =>
      match x ?= y with Eq => lex_compare l' k' | c => c end
  end.

Definition lex_ltb (l k : list Z) : bool :=
  match lex_compare l k with Lt => true | _ => false end.

(** [Ordering::then]. *)
Definition cmp_then (c d : comparison) : comparison :=
  match c with Eq => d | _ => c end.

Lemma lex_compare_antisym l k : lex_compare k l = CompOpp (lex_compare l k).
Proof.
  revert k. induction l as [|x l IHl]; intros [|y k]; simpl; try done.
  rewrite (Z.compare_antisym x y). destruct (x ?= y); simpl; auto.
Qed.

Lemma lex_compare_eq l k : lex_compare l k = Eq <-> l = k.
Proof.
  revert k. induction l as [|x l IH]; intros [|y k]; simpl; try done.
  destruct (Z.compare_spec x y) as [->| |].
  - rewrite IH. split; [by intros -> | by intros [= ->]].
  - split; [done | intros [= -> ->]; lia].
  - split; [done | intros [= -> ->]; lia].
Qed.

Lemma lex_compare_refl l : lex_compare l l = Eq.
Proof. by apply lex_compare_eq. Qed.

Lemma lex_compare_lt_trans l k m :
  lex_compare l k = Lt -> lex_compare k m = Lt -> lex_compare l m = Lt.
Proof.
  revert k m. induction l as [|x l IH]; intros [|y k] [|z m]; simpl; try done.
  destruct (Z.compare_spec x y), (Z.compare_spec y z), (Z.compare_spec x z);
    subst; try done; try lia; eauto.
Qed.

Lemma lex_ltb_irrefl l : lex_ltb l l = false.
Proof. unfold lex_ltb. by rewrite lex_compare_refl. Qed.

Lemma lex_ltb_trans l k m :
  lex_ltb l k = true -> lex_ltb k m = true -> lex_ltb l m = true.
Proof.
  unfold lex_ltb. destruct (lex_compare l k) eqn:H1, (lex_compare k m) eqn:H2; try done.
  by rewrite (lex_compare_lt_trans _ _ _ H1 H2).
Qed.

Lemma lex_ltb_asym l k : lex_ltb l k = true -> lex_ltb k l = false.
Proof. unfold lex_ltb. rewrite (lex_compare_antisym l k). by destruct lex_compare. Qed.

Lemma lex_ltb_total l k : lex_ltb l k = false -> lex_ltb k l = false -> l = k.
Proof.
  unfold lex_ltb. rewrite (lex_compare_antisym l k). intros.
  apply lex_compare_eq. by destruct lex_compare.
Qed.

Lemma lex_compare_flip l k : lex_compare l k = Gt <-> lex_compare k l = Lt.
Proof. rewrite (lex_compare_antisym l k). by destruct lex_compare. Qed.

#[export] Hint Resolve lex_ltb_irrefl lex_ltb_trans lex_ltb_asym : entangrid.

(** ** Lists: the iterator operations the source uses *)

Section lists.
Context {A : Type}.

(** [slice::sort_by] (stable): insertion before the first element that is
    not smaller, folded from the right. *)
Fixpoint insert_by (cmp : A -> A -> comparison) (x : A) (l : list A) : list A :=
  match l with
  | [] => [x]
  | y :: l' => match cmp x y with
               | Gt => y :: insert_by cmp x l'
               | _ => x :: l
               end
  end.

Definition sort_by (cmp : A -> A -> comparison) (l : list A) : list A :=
  foldr (insert_by cmp) [] l.

(** [Iterator::max_by]: the last of the greatest elements. *)
Fixpoint max_by_from (cmp : A -> A -> comparison) (best : A) (l : list A) : A :=
  match l with
  | [] => best
  | x :: l' => max_by_from cmp (match cmp best x with Gt => best | _ => x end) l'
  end.

Definition max_by (cmp : A -> A -> comparison) (l : list A) : option A :=
  match l with [] => None | x :: l' => Some (max_by_from cmp x l') end.

(** [Iterator::find]. *)
Fixpoint find_first (p : A -> bool) (l : list A) : option A :=
  match l with
  | [] => None
  | x :: l' => if p x then Some x else find_first p l'
  end.

(** [Iterator::position]. *)
Fixpoint position (p : A -> bool) (l : list A) : option nat :=
  match l with
  | [] => None
  | x :: l' => if p x then Some 0%nat else S <$> position p l'
  end.

(** [Vec::dedup_by] with an equality test on neighbours. *)
Fixpoint dedup_by (same : A -> A -> bool) (l : list A) : list A :=
  match l with
  | [] => []
  | x :: l' => match dedup_by same l' with
               | [] => [x]
               | y :: k => if same y x then x :: k else x :: y :: k
               end
  end.

Definition sorted_by (cmp : A -> A -> comparison) : list A -> Prop :=
  StronglySorted (fun x y => cmp x y <> Gt).

Lemma insert_by_perm cmp x l : insert_by cmp x l ≡ₚ x :: l.
Proof.
  induction l as [|y l IH]; simpl; [done|].
  destruct (cmp x y); try done. by rewrite IH, (Permutation_swap y x l).
Qed.

Lemma sort_by_perm cmp l : sort_by cmp l ≡ₚ l.
Proof.
  induction l as [|x l IH]; simpl; [done|]. by rewrite insert_by_perm, IH.
Qed.

Lemma sort_by_elem_of cmp x l : x ∈ sort_by cmp l <-> x ∈ l.
Proof. by rewrite sort_by_perm. Qed.

Lemma sort_by_length cmp l : length (sort_by cmp l) = length l.
Proof. by rewrite sort_by_perm. Qed.

Section sorted.
Context (cmp : A -> A -> comparison).
Hypothesis cmp_flip : forall x y, cmp x y = Gt -> cmp y x <> Gt.
Hypothesis cmp_trans : forall x y z, cmp x y <> Gt -> cmp y z <> Gt -> cmp x z <> Gt.

Lemma insert_by_sorted x l : sorted_by cmp l -> sorted_by cmp (insert_by cmp x l).
Proof.
  induction 1 as [|y l Hl IH Hy]; simpl; [by repeat constructor|].
  destruct (cmp x y) eqn:E.
  - constructor; [by constructor|]. constructor; [congruence|].
    eapply Forall_impl; [done|]. intros z Hz. eapply cmp_trans; [|exact Hz]. congruence.
  - constructor; [by constructor|]. constructor; [congruence|].
    eapply Forall_impl; [done|]. intros z Hz. eapply cmp_trans; [|exact Hz]. congruence.
  - constructor; [done|]. rewrite insert_by_perm. constructor; auto.
Qed.

Lemma sort_by_sorted l : sorted_by cmp (sort_by cmp l).
Proof. induction l; simpl; [constructor | by apply insert_by_sorted]. Qed.
End sorted.

Lemma find_first_some p l x :
  find_first p l = Some x -> x ∈ l /\ p x = true.
Proof.
  induction l as [|y l IH]; simpl; [done|].
  destruct (p y) eqn:E; intros; simplify_eq; [split; [by left | done]|].
  destruct IH; [done|]. split; [by right | done].
Qed.

Lemma find_first_none p l : find_first p l = None <-> forall x, x ∈ l -> p x = false.
Proof.
  induction l as [|y l IH]; simpl; [by split; [intros _ x ?%elem_of_nil|]|].
  destruct (p y) eqn:E.
  - split; [done|]. intros H. rewrite H in E; [done | by left].
  - rewrite IH. split; [intros H x [->|Hx]%elem_of_cons; auto | intros H x Hx; apply H; by right].
Qed.

Lemma find_first_exists p l x :
  x ∈ l -> p x = true -> exists y, find_first p l = Some y.
Proof.
  intros Hx Hp. destruct (find_first p l) eqn:E; [eauto|].
  rewrite find_first_none in E. rewrite E in Hp; done.
Qed.

Lemma position_some p l n :
  position p l = Some n -> exists x, l !! n = Some x /\ p x = true.
Proof.
  revert n. induction l as [|y l IH]; simpl; intros n; [done|].
  destruct (p y) eqn:E; [intros [= <-]; by eexists|].
  intros (m & Hm & ->)%fmap_Some. by apply IH.
Qed.

Lemma max_by_from_elem cmp b l : max_by_from cmp b l ∈ b :: l.
Proof.
  revert b. induction l as [|y l IH]; intros b; simpl; [by left|].
  specialize (IH (match cmp b y with Gt => b | _ => y end)).
  destruct (cmp b y); rewrite !elem_of_cons in *; naive_solver.
Qed.

Lemma max_by_elem cmp l x : max_by cmp l = Some x -> x ∈ l.
Proof. destruct l as [|y l]; intros [= <-]. apply max_by_from_elem. Qed.

Lemma max_by_none cmp l : max_by cmp l = None <-> l = [].
Proof. by destruct l. Qed.

Section max.
Context (cmp : A -> A -> comparison).
Hypothesis cmp_flip : forall x y, cmp x y = Gt -> cmp y x <> Gt.
Hypothesis cmp_refl : forall x, cmp x x <> Gt.
Hypothesis cmp_trans : forall x y z, cmp x y <> Gt -> cmp y z <> Gt -> cmp x z <> Gt.

Lemma max_by_from_ge b l x : x ∈ b :: l -> cmp x (max_by_from cmp b l) <> Gt.
Proof.
  revert b x. induction l as [|y l IH]; intros b x.
  - rewrite list_elem_of_singleton. intros ->. apply cmp_refl.
  - simpl. intros [->|[->|H]%elem_of_cons]%elem_of_cons.
    + destruct (cmp b y) eqn:E; [..|apply IH; by left].
      all: eapply (cmp_trans _ y); [congruence | apply IH; by left].
    + destruct (cmp b y) eqn:E; [apply IH; by left..|].
      eapply (cmp_trans _ b); [by apply cmp_flip | apply IH; by left].
    + destruct (cmp b y); apply IH; by right.
Qed.

Lemma max_by_ge l m x : max_by cmp l = Some m -> x ∈ l -> cmp x m <> Gt.
Proof. destruct l as [|y l]; intros [= <-]. apply max_by_from_ge. Qed.
End max.
End lists.

(** Inserting a list of bindings with distinct keys, one by one. *)
Lemma foldl_insert_notin `{Countable K} {A V} (f : A -> K) (g : A -> V) (l : list A)
    (m : gmap K V) (k : K) :
  k ∉ f <$> l -> foldl (fun m a => <[f a := g a]> m) m l !! k = m !! k.
Proof.
  revert m. induction l as [|a l IHl]; intros m Hk; simpl; [done|].
  rewrite fmap_cons, not_elem_of_cons in Hk. destruct Hk as [Hne Hk].
  rewrite IHl by done. by apply lookup_insert_ne.
Qed.

Lemma foldl_insert_lookup `{Countable K} {A V} (f : A -> K) (g : A -> V) (l : list A)
    (m : gmap K V) (x : A) :
  NoDup (f <$> l) -> x ∈ l -> foldl (fun m a => <[f a := g a]> m) m l !! f x = Some (g x).
Proof.
  revert m. induction l as [|a l IHl]; intros m Hnd Hx; [by apply elem_of_nil in Hx|].
  rewrite fmap_cons in Hnd. apply NoDup_cons in Hnd as [Hni Hnd]. simpl.
  apply elem_of_cons in Hx as [->|Hx]; [|by apply IHl].
  rewrite foldl_insert_notin by done. apply lookup_insert_eq.
Qed.

Lemma omap_all_some {A B} (f : A -> option B) (g : A -> B) (l : list A) :
  (forall x, x ∈ l -> f x = Some (g x)) -> omap f l = g <$> l.
Proof.
  induction l as [|x l IHl]; intros Hf; [done|]. simpl.
  rewrite (Hf x) by (by left). simpl. f_equal. apply IHl. intros y Hy. apply Hf. by right.
Qed.

Lemma filter_true {A} (P : A -> Prop) `{forall x, Decision (P x)} (l : list A) :
  (forall x, x ∈ l -> P x) -> filter P l = l.
Proof.
  induction l as [|x l IHl]; intros Hl; [done|].
  rewrite filter_cons_True by (apply Hl; by left). f_equal. apply IHl.
  intros y Hy. apply Hl. by right.
Qed.

Lemma mod_below_twice (x n : nat) :
  (x < 2 * n)%nat -> (x `mod` n = if x <? n then x else x - n)%nat.
Proof.
  intros Hx. destruct (Nat.ltb_spec x n); [by apply Nat.mod_small|].
  replace x with ((x - n) + 1 * n)%nat at 1 by lia.
  rewrite Nat.Div0.mod_add. apply Nat.mod_small. lia.
Qed.

(** Sorting integers: the result depends on the elements only. *)
Lemma sort_by_Z_sorted (l : list Z) : StronglySorted Z.le (sort_by Z.compare l).
Proof.
  assert (Hs : sorted_by Z.compare (sort_by Z.compare l)).
  { apply sort_by_sorted.
    - intros x y ->%Z.compare_gt_iff%Z.compare_lt_iff. done.
    - intros x y z Hxy Hyz. apply Z.compare_ngt_iff in Hxy, Hyz. apply Z.compare_ngt_iff. lia. }
  induction Hs; constructor; auto.
Qed.

Lemma sort_by_Z_perm (l k : list Z) : l ≡ₚ k -> sort_by Z.compare l = sort_by Z.compare k.
Proof.
  intros Hp. apply (StronglySorted_unique Z.le); [apply sort_by_Z_sorted..|].
  by rewrite !sort_by_perm.
Qed.

(** The orders of a three-element list. *)
Lemma perm3 {A} (l : list A) (x y z : A) :
  l ≡ₚ [x; y; z] ->
  l = [x; y; z] \/ l = [x; z; y] \/ l = [y; x; z] \/
  l = [y; z; x] \/ l = [z; x; y] \/ l = [z; y; x].
Proof.
  intros Hp. assert (Hlen : length l = 3%nat) by by rewrite Hp.
  destruct l as [|a [|b [|c [|]]]]; simplify_eq/=.
  assert (Ha : a ∈ [x; y; z]) by (rewrite <- Hp; set_solver).
  repeat rewrite elem_of_cons in Ha. destruct Ha as [->|[->|[->|Ha]]];
    [| | |by apply elem_of_nil in Ha].
  - apply Permutation_cons_inv, Permutation_length_2_inv in Hp as [|]; simplify_eq; auto.
  - rewrite (Permutation_swap y x [z]) in Hp.
    apply Permutation_cons_inv, Permutation_length_2_inv in Hp as [|]; simplify_eq; auto 10.
  - assert (Hz : [x; y; z] ≡ₚ [z; x; y]) by (symmetry; apply (Permutation_cons_append [x; y] z)).
    rewrite Hz in Hp.
    apply Permutation_cons_inv, Permutation_length_2_inv in Hp as [|]; simplify_eq; auto 10.
Qed.

(** ** [BTreeMap]: a finite map whose iteration order is the key order

    Maps are stdpp's [gmap]; the operations that expose the order sort the
    bindings by key. *)

Definition key_cmp {V} (x y : Z * V) : comparison := fst x ?= fst y.

Definition bt_entries {V} (m : gmap Z V) : list (Z * V) := sort_by key_cmp (map_to_list m).
Definition bt_keys {V} (m : gmap Z V) : list Z := fst <$> bt_entries m.
Definition bt_values {V} (m : gmap Z V) : list V := snd <$> bt_entries m.

Lemma bt_entries_elem {V} (m : gmap Z V) k v : (k, v) ∈ bt_entries m <-> m !! k = Some v.
Proof. unfold bt_entries. by rewrite sort_by_elem_of, elem_of_map_to_list. Qed.

Lemma bt_values_elem {V} (m : gmap Z V) v : v ∈ bt_values m <-> exists k, m !! k = Some v.
Proof.
  unfold bt_values. rewrite list_elem_of_fmap. split.
  - intros ([k w] & -> & H). exists k. by apply bt_entries_elem.
  - intros [k H]. exists (k, v). by rewrite bt_entries_elem.
Qed.

Lemma bt_values_length {V} (m : gmap Z V) : length (bt_values m) = size m.
Proof.
  unfold bt_values, bt_entries. by rewrite length_fmap, sort_by_length, length_map_to_list.
Qed.

Lemma bt_keys_NoDup {V} (m : gmap Z V) : NoDup (bt_keys m).
Proof.
  unfold bt_keys, bt_entries. rewrite sort_by_perm. apply NoDup_fst_map_to_list.
Qed.

(** Two lists of distinct elements of [u] have at least as many elements in
    common as they are together longer than [u]: the quorum argument. *)
Lemma quorum_intersection {A} `{EqDecision A} (u l k : list A) :
  NoDup l -> NoDup k -> l ⊆ u -> k ⊆ u ->
  exists xs, NoDup xs /\ xs ⊆ l /\ xs ⊆ k /\ (length l + length k <= length u + length xs)%nat.
Proof.
  intros Hl Hk Hlu Hku. exists (filter (.∈ k) l). split_and!.
  - by apply NoDup_filter.
  - by intros x [_ ?]%list_elem_of_filter.
  - by intros x [? _]%list_elem_of_filter.
  - assert (Hnd : NoDup (filter (.∉ k) l ++ k)).
    { apply NoDup_app. split_and!; [by apply NoDup_filter| |done]. by intros x [? _]%list_elem_of_filter. }
    assert (Hsub : filter (.∉ k) l ++ k ⊆+ u).
    { apply NoDup_submseteq; [done|]. intros x [[_ ?]%list_elem_of_filter|?]%elem_of_app; auto. }
    apply submseteq_length in Hsub. rewrite length_app in Hsub.
    assert (Hsplit : (length (filter (.∈ k) l) + length (filter (.∉ k) l) = length l)%nat).
    { clear. induction l as [|x l IHl]; [done|]. rewrite !filter_cons.
      repeat case_decide; simpl; first [lia|done|contradiction]. }
    lia.
Qed.

Lemma quorum_overlap {A} `{EqDecision A} (u l k : list A) :
  NoDup l -> NoDup k -> l ⊆ u -> k ⊆ u -> (length u < length l + length k)%nat ->
  exists x, x ∈ l /\ x ∈ k.
Proof.
  intros Hl Hk Hlu Hku Hlen.
  destruct (quorum_intersection u l k Hl Hk Hlu Hku) as ([|x xs] & _ & Hxl & Hxk & Hn);
    simpl in Hn; [lia|]. exists x. split; [apply Hxl|apply Hxk]; by left.
Qed.

(** A quorum of two thirds and one more of [n]. *)
Lemma two_thirds_overlap (n a b : Z) :
  0 <= n -> n * 2 / 3 + 1 <= a -> n * 2 / 3 + 1 <= b -> n < a + b.
Proof.
  intros Hn Ha Hb. pose proof (Z.mul_div_le (n * 2) 3 ltac:(lia)).
  pose proof (Z.mul_succ_div_gt (n * 2) 3 ltac:(lia)). lia.
Qed.

Lemma perm_filter_length {A} (P : A -> Prop) `{forall x, Decision (P x)} (l k : list A) :
  l ≡ₚ k -> length (filter P l) = length (filter P k).
Proof. by intros ->. Qed.
