(* ===== verification/Paths.v ===== *)
(** * File names

    [Path::join] with a relative name, on strings, as both the node's storage
    and the simulator build the names of their files. *)
From Stdlib Require Import Ascii.
From S2P Require Import Prelude.

Definition ends_with_slash (s : string) : bool :=
  match last (String.list_ascii_of_string s) with
  | Some c => bool_decide (c = "/"%char)
  | None => true
  end.
Definition path_join (base name : string) : string :=
  if ends_with_slash base then base +:+ name else base +:+ "/" +:+ name.

Lemma list_ascii_app s t :
  String.list_ascii_of_string (s +:+ t) = String.list_ascii_of_string s ++ String.list_ascii_of_string t.
Proof. induction s as [|c s IH]; simpl; [done|]. by rewrite IH. Qed.

(** What is appended decides the end. *)
Lemma ends_with_slash_app s t : t <> ""%string -> ends_with_slash (s +:+ t) = ends_with_slash t.
Proof.
  intros Ht. unfold ends_with_slash. rewrite list_ascii_app, last_app.
  destruct t as [|c t]; [done|]. simpl. by destruct (last (c :: _)) eqn:E; [|apply last_None in E].
Qed.

Lemma string_app_inv_r (s s' t : string) : s +:+ t = s' +:+ t -> s = s'.
Proof.
  intros E. apply (f_equal String.list_ascii_of_string) in E. rewrite !list_ascii_app in E.
  apply app_inv_tail in E. rewrite <- (String.string_of_list_ascii_of_string s), E.
  apply String.string_of_list_ascii_of_string.
Qed.

(** Different names in one directory are different files. *)
#[export] Instance path_join_inj base : Inj (=) (=) (path_join base).
Proof. intros x y. unfold path_join. destruct (ends_with_slash base); intros E; by repeat apply (inj _) in E. Qed.
