(* ===== verification/F64.v ===== *)
(** * Binary64 arithmetic

    Rust's [f64] as the Standard Library's executable IEEE-754 specification
    ([SpecFloat]) at precision 53 and maximal exponent 1024: round to nearest,
    ties to even, with infinities, signed zeros and NaN.  Holds the literals
    and the operations the scoring code uses. *)
From Stdlib Require Export SpecFloat.
From S2P Require Import Prelude.

Open Scope Z_scope.

Notation f64 := spec_float.

Definition f64_add : f64 -> f64 -> f64 := SFadd 53 1024.
Definition f64_sub : f64 -> f64 -> f64 := SFsub 53 1024.
Definition f64_mul : f64 -> f64 -> f64 := SFmul 53 1024.
Definition f64_div : f64 -> f64 -> f64 := SFdiv 53 1024.

(** [x < y], [x >= y], [x == y]: all false on NaN. *)
Definition f64_ltb (x y : f64) : bool := SFltb x y.
Definition f64_geb (x y : f64) : bool := SFleb y x.
Definition f64_eqb (x y : f64) : bool := SFeqb x y.

(** [n as f64] for an integer, and the literal [m * 2^e]. *)
Definition f64_of_u64 (n : Z) : f64 := binary_normalize 53 1024 n 0 false.
Definition f64_lit (m e : Z) : f64 := binary_normalize 53 1024 m e false.

(** The decimal literal [n / d]: the quotient of two integers that are exact. *)
Definition f64_decimal (n d : Z) : f64 := f64_div (f64_of_u64 n) (f64_of_u64 d).

Definition f64_zero : f64 := S754_zero false.
Definition f64_one : f64 := f64_lit 1 0.

Definition is_nan (x : f64) : bool :=
  match x with S754_nan => true | _ => false end.

(** [f64::clamp]: [if x < min { x = min }; if x > max { x = max }]. *)
Definition f64_clamp (x lo hi : f64) : f64 :=
  let x := if f64_ltb x lo then lo else x in
  if f64_ltb hi x then hi else x.

(** ** Lemmas *)

Lemma pos_compare_cont_antisym (m n : positive) :
  Pos.compare_cont Eq n m = CompOpp (Pos.compare_cont Eq m n).
Proof. exact (Pos.compare_antisym m n). Qed.

Lemma SFcompare_antisym (x y : f64) :
  SFcompare y x = option_map CompOpp (SFcompare x y).
Proof.
  destruct x as [[]|[]| |[] m e], y as [[]|[]| |[] n f]; try reflexivity; simpl;
    rewrite (Z.compare_antisym e f), (pos_compare_cont_antisym m n);
    destruct (e ?= f); reflexivity.
Qed.

Lemma SFcompare_nan_l (x y : f64) : SFcompare x y = None -> is_nan x = true \/ is_nan y = true.
Proof. destruct x as [[]|[]| |[] m e], y as [[]|[]| |[] n f]; simpl; auto; discriminate. Qed.

(** For numbers, [not (x < y)] is [x >= y]. *)
Lemma f64_not_lt_geb (x y : f64) :
  is_nan x = false -> is_nan y = false -> f64_ltb x y = false -> f64_geb x y = true.
Proof.
  unfold f64_ltb, f64_geb, SFltb, SFleb. intros Hx Hy.
  rewrite (SFcompare_antisym x y).
  destruct (SFcompare x y) as [[]|] eqn:E; simpl; try done.
  apply SFcompare_nan_l in E as [E|E]; congruence.
Qed.

Lemma f64_lt_not_geb (x y : f64) : f64_ltb x y = true -> f64_geb x y = false.
Proof.
  unfold f64_ltb, f64_geb, SFltb, SFleb. rewrite (SFcompare_antisym x y).
  by destruct (SFcompare x y) as [[]|].
Qed.

Lemma f64_lt_not_nan (x y : f64) : f64_ltb x y = true -> is_nan x = false /\ is_nan y = false.
Proof. by destruct x, y. Qed.

(** A clamped value is NaN or lies between the bounds. *)
Lemma f64_clamp_bounds (x lo hi : f64) :
  is_nan lo = false -> is_nan hi = false -> f64_ltb hi lo = false ->
  f64_clamp x lo hi = S754_nan \/
  (f64_geb (f64_clamp x lo hi) lo = true /\ f64_geb hi (f64_clamp x lo hi) = true).
Proof.
  intros Hlo Hhi Hle. unfold f64_clamp.
  destruct (is_nan x) eqn:Hx.
  { destruct x; try done. left. by destruct lo, hi. }
  right. destruct (f64_ltb x lo) eqn:E1; simpl.
  - rewrite Hle. split; [|by apply f64_not_lt_geb].
    apply f64_not_lt_geb; [done..|].
    unfold f64_ltb, SFltb. pose proof (SFcompare_antisym lo lo) as H.
    by destruct (SFcompare lo lo) as [[]|].
  - destruct (f64_ltb hi x) eqn:E2.
    + split; [by apply f64_not_lt_geb|]. apply f64_not_lt_geb; [done..|].
      unfold f64_ltb, SFltb. pose proof (SFcompare_antisym hi hi) as H.
      by destruct (SFcompare hi hi) as [[]|].
    + split; by apply f64_not_lt_geb.
Qed.
