(* ===== verification/JsonLines.v ===== *)
(** * Files of JSON lines

    The file layer of [Storage] in crates/entangrid-node/src/lib.rs
    ([load_json_lines], [append_json_line], [overwrite_json_lines]) and the
    simulator's reader [read_json_lines]: one JSON document per line, appended
    to on every change.  The node's model keeps the lists these files stand
    for; here the files are text, writes can be cut short, and the reader's
    tolerance for a truncated last line is put to the test.

    serde_json is a parameter ([JsonLine]): what the development relies on is
    that a record is written as one printable object, that reading it back
    gives the record, and that a text that stops early is an end-of-file
    error.  Text is a list of Unicode scalar values. *)
From S2P Require Import Prelude.

Open Scope Z_scope.

Abbreviation text := (list Z).

Definition newline : Z := 10.
Definition carriage_return : Z := 13.
Definition open_brace : Z := 123.

(** [serde_json::from_str]: a value, an error of category [Eof], another. *)
Inductive Parsed (T : Type) := Value (v : T) | Eof | Malformed.
Arguments Value {T} v.
Arguments Eof {T}.
Arguments Malformed {T}.

Class JsonLine (T : Type) := {
  to_json : T -> text;
  from_str : text -> Parsed T }.

Class JsonLineLaws (T : Type) `{JsonLine T} := {
  json_printable : forall v : T, Forall (fun c => 32 <= c) (to_json v);
  json_object : forall v : T, head (to_json v) = Some open_brace;
  json_parses : forall v : T, from_str (to_json v) = Value v;
  json_truncated : forall (v : T) p s, to_json v = p ++ s -> p <> [] -> s <> [] -> from_str p = Eof }.

(** A cut object followed by another object is not a document. *)
Class JsonTorn (T : Type) `{JsonLine T} :=
  json_torn : forall (v w u : T) p s, to_json w = p ++ s -> p <> [] -> from_str (p ++ to_json v) <> Value u.

(** [char::is_whitespace]. *)
Definition is_whitespace (c : Z) : bool :=
  (9 <=? c) && (c <=? 13) || (8192 <=? c) && (c <=? 8202)
  || bool_decide (c ∈ [32; 133; 160; 5760; 8232; 8233; 8239; 8287; 12288]).

(** [line.trim().is_empty()]. *)
Definition is_blank (line : text) : bool := forallb is_whitespace line.

(** [str::lines]: split after each newline; the newline and a carriage return
    before it do not belong to the line. *)
Definition strip_carriage_return (line : text) : text :=
  match last line with
  | Some c => if c =? carriage_return then removelast line else line
  | None => line
  end.
Fixpoint lines_from (line : text) (s : text) : list text :=
  match s with
  | [] => if bool_decide (line = []) then [] else [line]
  | c :: s' => if c =? newline then strip_carriage_return line :: lines_from [] s'
               else lines_from (line ++ [c]) s'
  end.
Definition lines (s : text) : list text := lines_from [] s.

(** A file that does not exist is [None]. *)
Abbreviation file := (option text).

Section json_lines.
Context {T : Type} `{JsonLine T}.

(** The loop of [load_json_lines] and [read_json_lines]. *)
Fixpoint load_lines (ls : list text) : result (list T) :=
  match ls with
  | [] => Ok []
  | line :: ls' =>
      match from_str line with
      | Value v => vs ← load_lines ls'; Ok (v :: vs)
      | Eof => match ls' with [] => Ok [] | _ => Err "unexpected end of a line" end
      | Malformed => Err "malformed line"
      end
  end.

Definition load_json_lines (f : file) : result (list T) :=
  match f with
  | None => Ok []
  | Some contents => load_lines (filter (fun line => negb (is_blank line)) (lines contents))
  end.

(** The simulator has its own copy of the reader. *)
Definition read_json_lines (f : file) : result (list T) := load_json_lines f.

Definition json_line (v : T) : text := to_json v ++ [newline].

Definition append_json_line (f : file) (v : T) : file := Some (default [] f ++ json_line v).
Definition overwrite_json_lines (vs : list T) : file := Some (concat (json_line <$> vs)).

(** An append that a crash cuts after [k] characters. *)
Definition torn_append (k : nat) (f : file) (v : T) : file :=
  Some (default [] f ++ take k (json_line v)).

(** ** Reading lines *)

Context `{!JsonLineLaws T}.

Lemma lines_from_printable line p s :
  Forall (fun c => 32 <= c) p -> lines_from line (p ++ s) = lines_from (line ++ p) s.
Proof.
  revert line. induction p as [|c p IH]; intros line Hp; simpl; [by rewrite app_nil_r|].
  inversion Hp as [|? ? Hc Hp']; subst. unfold newline.
  destruct (Z.eqb_spec c 10); [lia|]. by rewrite IH, <- app_assoc.
Qed.

Lemma strip_printable p : Forall (fun c => 32 <= c) p -> strip_carriage_return p = p.
Proof.
  intros Hp. unfold strip_carriage_return. destruct (last p) as [c|] eqn:E; [|done].
  assert (32 <= c) by (eapply Forall_forall; [exact Hp|]; by apply last_Some_elem_of).
  unfold carriage_return. destruct (Z.eqb_spec c 13); [lia|done].
Qed.

(** A printable line with its newline is the first line of the text. *)
Lemma lines_cons p s :
  Forall (fun c => 32 <= c) p -> lines (p ++ [newline] ++ s) = p :: lines s.
Proof.
  intros Hp. unfold lines. rewrite lines_from_printable by done. simpl.
  by rewrite strip_printable.
Qed.

(** A printable text without a newline is one line. *)
Lemma lines_last p : Forall (fun c => 32 <= c) p -> p <> [] -> lines p = [p].
Proof.
  intros Hp Hne. unfold lines. rewrite <- (app_nil_r p) at 1.
  rewrite lines_from_printable by done. simpl. by rewrite bool_decide_false.
Qed.

Lemma object_not_blank p : head p = Some open_brace -> negb (is_blank p) = true.
Proof. destruct p as [|c p]; [done|]. intros [= ->]. done. Qed.
Lemma torn_head (v : T) p s : to_json v = p ++ s -> p <> [] -> head p = Some open_brace.
Proof. pose proof (json_object v) as Hv. intros Hp. rewrite Hp in Hv. by destruct p. Qed.
Lemma torn_printable (v : T) p s : to_json v = p ++ s -> Forall (fun c => 32 <= c) p.
Proof.
  intros Hp. pose proof (json_printable v) as Hv. rewrite Hp in Hv.
  by apply Forall_app in Hv as [? _].
Qed.

(** What the reader works on when [vs] were written, before a rest. *)
Definition documents (s : text) : list text := filter (fun line => negb (is_blank line)) (lines s).

Lemma documents_cons p s :
  Forall (fun c => 32 <= c) p -> head p = Some open_brace ->
  documents (p ++ [newline] ++ s) = p :: documents s.
Proof.
  intros Hp Hh. unfold documents. rewrite lines_cons by done.
  by rewrite filter_cons_True by (by rewrite object_not_blank).
Qed.

Lemma documents_written (vs : list T) s :
  documents (concat (json_line <$> vs) ++ s) = (to_json <$> vs) ++ documents s.
Proof.
  induction vs as [|v vs IH]; [done|]. csimpl. unfold json_line at 1. rewrite <- !app_assoc.
  rewrite documents_cons by (apply json_printable || apply json_object). simpl. by rewrite IH.
Qed.

Lemma load_written (vs : list T) ls :
  load_lines ((to_json <$> vs) ++ ls) = (us ← load_lines ls; Ok (vs ++ us)).
Proof.
  induction vs as [|v vs IH]; csimpl; [by destruct (load_lines ls)|].
  rewrite json_parses, IH. by destruct (load_lines ls).
Qed.

Lemma load_overwrite_app (vs : list T) s :
  load_json_lines (Some (concat (json_line <$> vs) ++ s)) = (us ← load_lines (documents s); Ok (vs ++ us)).
Proof. unfold load_json_lines. change (filter _ (lines ?s)) with (documents s). by rewrite documents_written, load_written. Qed.

(** The documents of a torn write: its first characters as one line. *)
Lemma documents_torn (w : T) p s :
  to_json w = p ++ s -> p <> [] -> documents p = [p].
Proof.
  intros Hp Hne. unfold documents. rewrite lines_last by (done || by eapply torn_printable).
  by rewrite filter_cons_True by (by rewrite (object_not_blank p (torn_head w p s Hp Hne))).
Qed.

Lemma load_torn (w : T) p s : to_json w = p ++ s -> s <> [] -> load_lines (documents p) = Ok [].
Proof.
  intros Hp Hs. destruct (decide (p = [])) as [->|Hne]; [done|].
  rewrite (documents_torn w p s) by done. simpl. by rewrite (json_truncated w p s).
Qed.

(** What a cut append leaves loads as the entries before it, or with it. *)
Lemma json_lines_after_cut (vs : list T) v k :
  load_json_lines (torn_append k (overwrite_json_lines vs) v) =
    Ok (if (k <? length (to_json v))%nat then vs else vs ++ [v]).
Proof.
  unfold torn_append, overwrite_json_lines, default, from_option, id. rewrite load_overwrite_app. unfold json_line.
  destruct (Nat.ltb_spec k (length (to_json v))) as [Hk|Hk].
  - rewrite take_app_le by lia.
    rewrite (load_torn v _ (drop k (to_json v))).
    + simpl. by rewrite app_nil_r.
    + by rewrite take_drop.
    + intros E. apply (f_equal length) in E. rewrite length_drop in E. simpl in E. lia.
  - assert (Hd : documents (take k (to_json v ++ [newline])) = [to_json v]).
    { rewrite take_app_ge by lia. destruct (k - length (to_json v))%nat as [|j].
      - simpl. rewrite app_nil_r. apply (documents_torn v _ []); [by rewrite app_nil_r|].
        pose proof (json_object v). by destruct (to_json v).
      - simpl. rewrite take_nil. rewrite <- (app_nil_r [newline]).
        by rewrite documents_cons by (apply json_printable || apply json_object). }
    rewrite Hd. simpl. by rewrite json_parses.
Qed.

(** C31: The files refine the lists of the node's model: what was written is
    read back, an append adds one entry at the end, and of an append that a
    crash cuts short either the whole entry is there or nothing of it. *)
Theorem json_lines_refine_list (vs : list T) v k :
  load_json_lines (overwrite_json_lines vs) = Ok vs /\
  append_json_line (overwrite_json_lines vs) v = overwrite_json_lines (vs ++ [v]) /\
  load_json_lines (torn_append k (overwrite_json_lines vs) v) =
    Ok (if (k <? length (to_json v))%nat then vs else vs ++ [v]).
Proof.
  split_and!; [| |apply json_lines_after_cut].
  - pose proof (load_overwrite_app vs []) as Hl. rewrite app_nil_r in Hl.
    unfold overwrite_json_lines. rewrite Hl. simpl. by rewrite app_nil_r.
  - unfold append_json_line, overwrite_json_lines. simpl.
    by rewrite fmap_app, concat_app, fmap_cons, concat_cons, app_nil_r.
Qed.

(** A cut append poisons the file.  The next start ignores the cut entry
    and goes on; but the following append continues the cut line, so its
    entry is lost or the file no longer loads, and with one more entry the
    file never loads again. *)
Lemma torn_append_poisons_file `{!JsonTorn T} (vs : list T) w v u k :
  (0 < k < length (to_json w))%nat ->
  let f := torn_append k (overwrite_json_lines vs) w in
  load_json_lines f = Ok vs /\
  (load_json_lines (append_json_line f v) = Ok vs \/
   is_ok (load_json_lines (append_json_line f v)) = false) /\
  is_ok (load_json_lines (append_json_line (append_json_line f v) u)) = false.
Proof.
  intros Hk f. set (p := take k (to_json w)).
  assert (Hp : to_json w = p ++ drop k (to_json w)) by (symmetry; apply take_drop).
  assert (Hne : p <> []).
  { intros E. apply (f_equal length) in E. unfold p in E. rewrite length_take in E. simpl in E. lia. }
  assert (Hf : f = Some (concat (json_line <$> vs) ++ p)).
  { unfold f, torn_append, overwrite_json_lines, json_line. simpl. by rewrite take_app_le by lia. }
  assert (Hdoc : forall s, documents (p ++ json_line v ++ s) = (p ++ to_json v) :: documents s).
  { intros s. unfold json_line. rewrite <- !app_assoc, app_assoc.
    rewrite documents_cons; [done| |].
    - apply Forall_app. split; [by eapply torn_printable|apply json_printable].
    - pose proof (torn_head w p _ Hp Hne). by destruct p. }
  pose proof (json_torn v w) as Htorn.
  split_and!.
  - rewrite Hf, load_overwrite_app, (load_torn w p (drop k (to_json w))) by
      (done || intros E; apply (f_equal length) in E; rewrite length_drop in E; simpl in E; lia).
    simpl. by rewrite app_nil_r.
  - rewrite Hf. unfold append_json_line, default, from_option, id. rewrite <- app_assoc, load_overwrite_app.
    rewrite <- (app_nil_r (json_line v)), Hdoc. simpl.
    destruct (from_str (p ++ to_json v)) as [x| |] eqn:E; simpl.
    + by destruct (Htorn x p _ Hp Hne).
    + left. by rewrite app_nil_r.
    + by right.
  - rewrite Hf. unfold append_json_line, default, from_option, id. rewrite <- !app_assoc, load_overwrite_app, Hdoc.
    unfold json_line. rewrite <- (app_nil_r [newline]).
    rewrite documents_cons by (apply json_printable || apply json_object). simpl.
    destruct (from_str (p ++ to_json v)) as [x| |] eqn:E; simpl; [|done..].
    by destruct (Htorn x p _ Hp Hne).
Qed.
End json_lines.

(** ** A concrete format: an object of a few ones *)

Module JsonLinesExample.
Fixpoint count_ones (n : nat) (s : text) : Parsed nat :=
  match s with
  | [] => Eof
  | c :: s' => if c =? 49 then count_ones (S n) s'
               else if (c =? 125) && bool_decide (s' = []) then Value n else Malformed
  end.
#[local] Instance ones : JsonLine nat :=
  {| to_json := fun n => open_brace :: replicate n 49 ++ [125];
     from_str := fun s => match s with
                          | [] => Eof
                          | c :: s' => if c =? open_brace then count_ones 0 s' else Malformed
                          end |}.

Lemma count_ones_replicate n m s : count_ones n (replicate m 49 ++ s) = count_ones (n + m) s.
Proof. revert n. induction m as [|m IH]; intros n; simpl; [f_equal; lia|]. rewrite IH. f_equal. lia. Qed.

(** A prefix of an object: some ones, or all of it. *)
Lemma ones_prefix v p s : to_json v = p ++ s -> p <> [] ->
  (s <> [] /\ exists m, p = open_brace :: replicate m 49) \/ (s = [] /\ p = to_json v).
Proof.
  intros Hp Hne. destruct (decide (s = [])) as [->|Hs].
  { right. by rewrite Hp, app_nil_r. }
  left. split; [done|]. destruct p as [|c p]; [done|]. simpl in Hp. injection Hp as <- Hp.
  destruct s as [|x s _] using rev_ind; [done|]. rewrite app_assoc in Hp.
  apply app_inj_tail in Hp as [Hp _]. exists (length p). f_equal.
  apply list_eq. intros i. destruct (p !! i) as [y|] eqn:E.
  - assert (Hi : replicate v 49 !! i = Some y) by (rewrite Hp; by apply lookup_app_l_Some).
    apply lookup_replicate in Hi as [-> _]. symmetry. apply lookup_replicate.
    split; [done|]. by apply lookup_lt_Some in E.
  - symmetry. apply lookup_replicate_None. by apply lookup_ge_None in E.
Qed.

#[local] Instance ones_laws : JsonLineLaws nat.
Proof.
  split.
  - intros v. simpl. constructor; [done|]. apply Forall_app. split; [|by repeat constructor].
    by apply Forall_replicate.
  - done.
  - intros v. simpl. by rewrite count_ones_replicate.
  - intros v p s Hp Hne Hs. destruct (ones_prefix v p s Hp Hne) as [(_ & m & ->)|[? _]]; [|done].
    simpl. rewrite <- (app_nil_r (replicate m 49)). by rewrite count_ones_replicate.
Qed.
#[local] Instance ones_torn : JsonTorn nat.
Proof.
  intros v w u p s Hp Hne. destruct (ones_prefix w p s Hp Hne) as [(_ & m & ->)|[_ ->]]; simpl.
  - by rewrite count_ones_replicate.
  - rewrite <- app_assoc, count_ones_replicate. done.
Qed.

Lemma json_lines_refine_list_witness :
  load_json_lines (torn_append 3 (overwrite_json_lines [2%nat; 0%nat]) 5%nat) = Ok [2%nat; 0%nat].
Proof. exact (proj2 (proj2 (json_lines_refine_list [2%nat; 0%nat] 5%nat 3))). Defined.

Lemma torn_append_poisons_file_witness :
  let f := torn_append 3 (overwrite_json_lines [2%nat; 0%nat]) 5%nat in
  load_json_lines f = Ok [2%nat; 0%nat] /\
  is_ok (load_json_lines (append_json_line (append_json_line f 1%nat) 1%nat)) = false.
Proof.
  destruct (torn_append_poisons_file [2%nat; 0%nat] 5%nat 1%nat 1%nat 3) as (Hl & _ & Hp);
    [simpl; lia|]. exact (conj Hl Hp).
Defined.
End JsonLinesExample.
