(* ===== verification/Hybrid.v ===== *)
(** * Scheme-tagged containers: signatures and identities

    [TypedSignature], [PublicIdentity] and [SessionPublicIdentity]
    (crates/entangrid-types/src/lib.rs) are the same construction over three
    scheme enumerations: a scheme tag, the bytes of a single scheme, or the
    components of a hybrid one.  The section [container] develops it once,
    with its two serde encodings (self-describing, as JSON and TOML see it,
    and binary, as bincode sees it); Types instantiates it three times. *)
From S2P Require Import Prelude.

Open Scope Z_scope.

Abbreviation bytes := (list Z).

Section container.
Context {S : Type} `{EqDecision S} (hybrid : S) (kind : string).

Record Component := mkComponent { comp_scheme : S; comp_bytes : bytes }.

Record Container := mkContainer {
  c_scheme : S;
  c_bytes : bytes;
  c_components : list Component }.

#[export] Instance Component_eq_dec : EqDecision Component.
Proof. solve_decision. Defined.
#[export] Instance Container_eq_dec : EqDecision Container.
Proof. solve_decision. Defined.

Definition single (scheme : S) (b : bytes) : Container := mkContainer scheme b [].

(** The loop of [try_hybrid]: no nested hybrid, no scheme seen twice. *)
Fixpoint check_components (seen : list S) (cs : list Component) : result unit :=
  match cs with
  | [] => Ok tt
  | c :: cs' =>
      if bool_decide (comp_scheme c = hybrid)
      then Err (kind +:+ " cannot contain a nested hybrid component")
      else if bool_decide (comp_scheme c ∈ seen)
      then Err (kind +:+ " cannot contain duplicate component schemes")
      else check_components (seen ++ [comp_scheme c]) cs'
  end.

Definition try_hybrid (cs : list Component) : result Container :=
  match cs with
  | [] => Err (kind +:+ " requires at least one component")
  | _ => _ ← check_components [] cs; Ok (mkContainer hybrid [] cs)
  end.

Definition as_single_bytes (c : Container) : option bytes :=
  if bool_decide (c_scheme c = hybrid) then None else Some (c_bytes c).

Definition component_bytes (c : Container) (scheme : S) : option bytes :=
  if bool_decide (c_scheme c = scheme) && negb (bool_decide (c_scheme c = hybrid))
  then Some (c_bytes c)
  else comp_bytes <$> find_first (fun k => bool_decide (comp_scheme k = scheme)) (c_components c).

(** ** serde *)

Inductive Value :=
| VScheme (s : S)
| VBytes (b : bytes)
| VComponents (cs : list Component).

(** [serialize_struct] of a human-readable serializer: the fields written. *)
Definition serialize_human (c : Container) : list (string * Value) :=
  [("scheme"%string, VScheme (c_scheme c)); ("bytes"%string, VBytes (c_bytes c))]
  ++ match c_components c with
     | [] => []
     | cs => [("components"%string, VComponents cs)]
     end.

(** What the visitor does with the fields it collected: the derived types
    keep them, [SessionPublicIdentity] validates them. *)
Variable build : S -> bytes -> list Component -> result Container.

Record Fields := mkFields {
  f_scheme : option S;
  f_bytes : option bytes;
  f_components : option (list Component) }.

(** One iteration of [visit_map]. *)
Definition visit_entry (f : Fields) (kv : string * Value) : result Fields :=
  match kv with
  | ("scheme"%string, v) =>
      match f_scheme f, v with
      | Some _, _ => Err "duplicate field `scheme`"
      | None, VScheme s => Ok (mkFields (Some s) (f_bytes f) (f_components f))
      | None, _ => Err "invalid type"
      end
  | ("bytes"%string, v) =>
      match f_bytes f, v with
      | Some _, _ => Err "duplicate field `bytes`"
      | None, VBytes b => Ok (mkFields (f_scheme f) (Some b) (f_components f))
      | None, _ => Err "invalid type"
      end
  | ("components"%string, v) =>
      match f_components f, v with
      | Some _, _ => Err "duplicate field `components`"
      | None, VComponents cs => Ok (mkFields (f_scheme f) (f_bytes f) (Some cs))
      | None, _ => Err "invalid type"
      end
  | _ => Err "unknown field"
  end.

Fixpoint visit_entries (f : Fields) (kvs : list (string * Value)) : result Fields :=
  match kvs with
  | [] => Ok f
  | kv :: kvs' => f' ← visit_entry f kv; visit_entries f' kvs'
  end.

Definition deserialize_map (kvs : list (string * Value)) : result Container :=
  f ← visit_entries (mkFields None None None) kvs;
  s ← ok_or (f_scheme f) "missing field `scheme`";
  b ← ok_or (f_bytes f) "missing field `bytes`";
  build s b (default [] (f_components f)).

(** [visit_seq]: positional fields, the components optional. *)
Definition deserialize_seq (vs : list Value) : result Container :=
  match vs with
  | [] => Err "invalid length 0"
  | VScheme s :: vs' =>
      match vs' with
      | [] => Err "invalid length 1"
      | [VBytes b] => build s b []
      | VBytes b :: VComponents cs :: _ => build s b cs
      | _ => Err "invalid type"
      end
  | _ => Err "invalid type"
  end.

(** bincode's codec for a component vector: third-party. *)
Variable bincode_encode : list Component -> bytes.
Variable bincode_decode : bytes -> result (list Component * nat).

(** The non-human-readable encoding: two fields, the payload of a hybrid
    value being its encoded components. *)
Definition serialize_binary (c : Container) : S * bytes :=
  (c_scheme c,
   if bool_decide (c_scheme c = hybrid) then bincode_encode (c_components c) else c_bytes c).

Definition deserialize_binary (raw : S * bytes) : result Container :=
  if bool_decide (raw.1 = hybrid) then
    '(cs, consumed) ← bincode_decode raw.2;
    if bool_decide (consumed = length raw.2)
    then build hybrid [] cs
    else Err (kind +:+ " payload contained trailing bytes")
  else build raw.1 raw.2 [].
End container.

Arguments mkComponent {S}. Arguments comp_scheme {S}. Arguments comp_bytes {S}.
Arguments mkContainer {S}. Arguments c_scheme {S}. Arguments c_bytes {S}.
Arguments c_components {S}. Arguments Component : clear implicits.
Arguments Container : clear implicits. Arguments Value : clear implicits.
Arguments VScheme {S}. Arguments VBytes {S}. Arguments VComponents {S}.

(** ** Lemmas *)

Section validity.
Context {S : Type} `{EqDecision S} (hybrid : S) (kind : string).

Definition valid_components (cs : list (Component S)) : Prop :=
  cs <> [] /\ NoDup (comp_scheme <$> cs) /\ hybrid ∉ comp_scheme <$> cs.

(** The shape every constructor function produces. *)
Definition well_formed (c : Container S) : Prop :=
  if decide (c_scheme c = hybrid) then c_bytes c = [] else c_components c = [].

Lemma check_components_ok seen (cs : list (Component S)) u :
  check_components hybrid kind seen cs = Ok u <->
  NoDup (comp_scheme <$> cs) /\ hybrid ∉ comp_scheme <$> cs /\
  (forall s, s ∈ comp_scheme <$> cs -> s ∉ seen).
Proof.
  revert seen. induction cs as [|c cs IHcs]; intros seen; simpl.
  { destruct u. split; [intros _|done]. split_and!; [constructor|set_solver..]. }
  case_bool_decide as Hh; [split; [done|set_solver]|].
  case_bool_decide as Hs; [split; [done|set_solver]|].
  rewrite IHcs, NoDup_cons. set_solver.
Qed.

Lemma try_hybrid_ok (cs : list (Component S)) c :
  try_hybrid hybrid kind cs = Ok c <-> valid_components cs /\ c = mkContainer hybrid [] cs.
Proof.
  unfold valid_components. destruct cs as [|k cs]; [split; [done|naive_solver]|].
  cbn [try_hybrid]. rewrite result_bind_ok. setoid_rewrite check_components_ok. split.
  - intros (_ & (? & ? & _) & [= <-]). done.
  - intros ((_ & ? & ?) & ->). exists tt. split; [|done]. set_solver.
Qed.
End validity.

Section roundtrips.
Context {S : Type} (build : S -> bytes -> list (Component S) -> result (Container S)).

Lemma deserialize_serialize_human (c : Container S) :
  build (c_scheme c) (c_bytes c) (c_components c) = Ok c ->
  deserialize_map build (serialize_human c) = Ok c.
Proof. destruct c as [s b [|k cs]]; done. Qed.

Lemma deserialize_map_perm (c : Container S) kvs :
  build (c_scheme c) (c_bytes c) (c_components c) = Ok c ->
  kvs ≡ₚ serialize_human c -> deserialize_map build kvs = Ok c.
Proof.
  unfold serialize_human. intros Hb Hp. destruct c as [s b [|k cs]]; simpl in *.
  - symmetry in Hp. apply Permutation_length_2_inv in Hp as [->| ->]; done.
  - apply perm3 in Hp as [->|[->|[->|[->|[->| ->]]]]]; done.
Qed.

Lemma deserialize_serialize_binary `{EqDecision S} (hybrid : S) kind bincode_encode
    bincode_decode (c : Container S) :
  well_formed hybrid c ->
  build (c_scheme c) (c_bytes c) (c_components c) = Ok c ->
  bincode_decode (bincode_encode (c_components c)) =
    Ok (c_components c, length (bincode_encode (c_components c))) ->
  deserialize_binary hybrid kind build bincode_decode
    (serialize_binary hybrid bincode_encode c) = Ok c.
Proof.
  unfold well_formed, serialize_binary, deserialize_binary. intros Hw Hb Hd; simpl.
  destruct (decide (c_scheme c = hybrid)) as [He|Hne].
  - rewrite !bool_decide_true by done. rewrite Hd. simpl. rewrite bool_decide_true by done.
    by rewrite <- He, <- Hw at 1.
  - rewrite !bool_decide_false by done. by rewrite <- Hw.
Qed.
End roundtrips.
