(* ===== verification/Types.v ===== *)
(** * Protocol data

    The data of crates/entangrid-types/src/lib.rs: identities and signatures
    (instances of the containers of Hybrid), configuration, transactions,
    blocks, votes, certificates, service evidence and sync messages, with the
    well-formedness checks the crate defines on them. *)
From stdpp Require Import pretty.
From S2P Require Import Prelude F64 Hybrid.

Open Scope Z_scope.

(** [u64] aliases, and a 32-byte hash as its big-endian value: the array order
    of the source is the numeric order here. *)
Abbreviation ValidatorId := Z.
Abbreviation Slot := Z.
Abbreviation Epoch := Z.
Abbreviation HashBytes := Z.
Abbreviation AccountId := string.

(** Byte [i] of a hash, and the first eight bytes read little-endian. *)
Definition hash_byte (h : HashBytes) (i : Z) : Z := Z.land (Z.shiftr h (8 * (31 - i))) 255.
Definition u64_from_le_prefix (h : HashBytes) : Z :=
  foldr (fun i acc => Z.lor (hash_byte h i) (Z.shiftl acc 8)) 0 [0; 1; 2; 3; 4; 5; 6; 7].
(** [u64::to_le_bytes]. *)
Definition to_le_bytes (n : Z) : bytes :=
  (fun i => Z.land (Z.shiftr n (8 * i)) 255) <$> [0; 1; 2; 3; 4; 5; 6; 7].
(** All 32 bytes of a hash. *)
Definition hash_to_bytes (h : HashBytes) : bytes := hash_byte h <$> seqZ 0 32.

(** [str::as_bytes]. *)
Definition string_to_bytes (s : string) : bytes :=
  (fun a => Z.of_N (Ascii.N_of_ascii a)) <$> String.list_ascii_of_string s.

Definition empty_hash : HashBytes := 0.

(** ** Schemes *)

Inductive SignatureScheme := SigDevDeterministic | SigEd25519 | SigMlDsa | SigHybrid.
Inductive PublicKeyScheme := PkDevDeterministic | PkEd25519 | PkMlDsa | PkHybrid.
Inductive SessionKeyScheme := SkDevDeterministic | SkMlKem | SkHybrid.
Inductive SigningBackendKind :=
| SbDevDeterministic | SbMlDsa65Experimental | SbHybridDeterministicMlDsaExperimental.
Inductive SessionBackendKind :=
| SeDevDeterministic | SeHybridDeterministicMlKemExperimental.

#[export] Instance SignatureScheme_eq_dec : EqDecision SignatureScheme.
Proof. solve_decision. Defined.
#[export] Instance PublicKeyScheme_eq_dec : EqDecision PublicKeyScheme.
Proof. solve_decision. Defined.
#[export] Instance SessionKeyScheme_eq_dec : EqDecision SessionKeyScheme.
Proof. solve_decision. Defined.
#[export] Instance SigningBackendKind_eq_dec : EqDecision SigningBackendKind.
Proof. solve_decision. Defined.
#[export] Instance SessionBackendKind_eq_dec : EqDecision SessionBackendKind.
Proof. solve_decision. Defined.

(** ** Containers *)

Abbreviation SignatureComponent := (Component SignatureScheme).
Abbreviation TypedSignature := (Container SignatureScheme).
Abbreviation PublicIdentityComponent := (Component PublicKeyScheme).
Abbreviation PublicIdentity := (Container PublicKeyScheme).
Abbreviation SessionPublicIdentityComponent := (Component SessionKeyScheme).
Abbreviation SessionPublicIdentity := (Container SessionKeyScheme).

(** The derived visitors store what they read. *)
Definition build_plain {S} (s : S) (b : bytes) (cs : list (Component S)) : result (Container S) :=
  Ok (mkContainer s b cs).

Module TypedSig.
Definition default : TypedSignature := single SigDevDeterministic [].
Definition try_hybrid := Hybrid.try_hybrid SigHybrid "hybrid signature".
Definition as_single_bytes := Hybrid.as_single_bytes SigHybrid.
Definition component_bytes := Hybrid.component_bytes SigHybrid.
Definition serialize_human : TypedSignature -> list (string * Value SignatureScheme) :=
  Hybrid.serialize_human.
Definition deserialize_map := Hybrid.deserialize_map (build_plain (S:=SignatureScheme)).
Definition deserialize_seq := Hybrid.deserialize_seq (build_plain (S:=SignatureScheme)).
Definition serialize_binary := Hybrid.serialize_binary SigHybrid.
Definition deserialize_binary := Hybrid.deserialize_binary SigHybrid "hybrid signature" build_plain.
End TypedSig.

Module PubId.
Definition default : PublicIdentity := single PkDevDeterministic [].
Definition try_hybrid := Hybrid.try_hybrid PkHybrid "hybrid public identity".
Definition as_single_bytes := Hybrid.as_single_bytes PkHybrid.
Definition component_bytes := Hybrid.component_bytes PkHybrid.
Definition serialize_human : PublicIdentity -> list (string * Value PublicKeyScheme) :=
  Hybrid.serialize_human.
Definition deserialize_map := Hybrid.deserialize_map (build_plain (S:=PublicKeyScheme)).
Definition deserialize_seq := Hybrid.deserialize_seq (build_plain (S:=PublicKeyScheme)).
Definition serialize_binary := Hybrid.serialize_binary PkHybrid.
Definition deserialize_binary :=
  Hybrid.deserialize_binary PkHybrid "hybrid public identity" build_plain.
End PubId.

Module SessionId.
Definition try_hybrid := Hybrid.try_hybrid SkHybrid "hybrid session public identity".

(** [SessionPublicIdentity::single] asserts that the scheme is not hybrid;
    a failed assertion panics. *)
Definition single (s : SessionKeyScheme) (b : bytes) : option SessionPublicIdentity :=
  if bool_decide (s = SkHybrid) then None else Some (Hybrid.single s b).

Definition build_session_public_identity (s : SessionKeyScheme) (b : bytes)
    (cs : list SessionPublicIdentityComponent) : result SessionPublicIdentity :=
  match s with
  | SkHybrid => try_hybrid cs
  | _ => match cs with
         | [] => Ok (mkContainer s b [])
         | _ => Err "non-hybrid session public identity cannot contain hybrid components"
         end
  end.

Definition as_single_bytes := Hybrid.as_single_bytes SkHybrid.
Definition component_bytes := Hybrid.component_bytes SkHybrid.
Definition serialize_human : SessionPublicIdentity -> list (string * Value SessionKeyScheme) :=
  Hybrid.serialize_human.
Definition deserialize_map := Hybrid.deserialize_map build_session_public_identity.
Definition deserialize_seq := Hybrid.deserialize_seq build_session_public_identity.
Definition serialize_binary := Hybrid.serialize_binary SkHybrid.
Definition deserialize_binary :=
  Hybrid.deserialize_binary SkHybrid "hybrid session public identity"
    build_session_public_identity.
End SessionId.

(** ** Service policy constants *)

Definition RECOMMENDED_SERVICE_GATING_START_EPOCH : Epoch := 3.
(** [0.40] as the nearest binary64 value. *)
Definition RECOMMENDED_SERVICE_GATING_THRESHOLD : f64 := f64_lit 7205759403792794 (-54).
Definition RECOMMENDED_SERVICE_SCORE_WINDOW_EPOCHS : Z := 4.
Definition RECOMMENDED_SERVICE_UPTIME_WEIGHT : f64 := f64_lit 1 (-2).
Definition RECOMMENDED_SERVICE_DELIVERY_WEIGHT : f64 := f64_lit 1 (-1).
Definition RECOMMENDED_SERVICE_DIVERSITY_WEIGHT : f64 := f64_lit 1 (-2).
Definition RECOMMENDED_SERVICE_PENALTY_WEIGHT : f64 := f64_lit 1 0.

Inductive MessageClass := Heartbeat | TransactionClass | BlockClass.
#[export] Instance MessageClass_eq_dec : EqDecision MessageClass.
Proof. solve_decision. Defined.

Definition class_index (m : MessageClass) : Z :=
  match m with Heartbeat => 0 | TransactionClass => 1 | BlockClass => 2 end.
Definition class_of_index (z : Z) : MessageClass :=
  match z with 0 => Heartbeat | 1 => TransactionClass | _ => BlockClass end.
#[export] Instance MessageClass_countable : Countable MessageClass.
Proof. apply (inj_countable' class_index class_of_index). by intros []. Defined.

Record ServiceScoreWeights := mkWeights {
  uptime_weight : f64;
  delivery_weight : f64;
  diversity_weight : f64;
  penalty_weight : f64 }.

Definition default_service_score_weights : ServiceScoreWeights :=
  mkWeights RECOMMENDED_SERVICE_UPTIME_WEIGHT RECOMMENDED_SERVICE_DELIVERY_WEIGHT
    RECOMMENDED_SERVICE_DIVERSITY_WEIGHT RECOMMENDED_SERVICE_PENALTY_WEIGHT.

(** ** Configuration *)

Record FeatureFlags := mkFlags {
  enable_receipts : bool;
  enable_service_gating : bool;
  consensus_v2 : bool;
  require_hybrid_validator_signatures : bool;
  service_gating_start_epoch : Epoch;
  service_gating_threshold : f64;
  service_score_window_epochs : Z;
  service_score_weights : ServiceScoreWeights }.

Record FaultProfile := mkFaults {
  artificial_delay_ms : Z;
  outbound_drop_probability : f64;
  pause_slot_production : bool;
  disable_outbound : bool }.

Record PeerConfig := mkPeer { peer_id : ValidatorId; peer_address : string }.

Record ValidatorConfig := mkValidator {
  validator_id : ValidatorId;
  stake : Z;
  address : string;
  dev_secret : string;
  public_identity : PublicIdentity;
  session_public_identity : option SessionPublicIdentity }.

Record GenesisConfig := mkGenesis {
  chain_id : string;
  genesis_epoch_seed : HashBytes;
  genesis_time_unix_millis : Z;
  slot_duration_millis : Z;
  slots_per_epoch : Z;
  max_txs_per_block : Z;
  witness_count : Z;
  validators : list ValidatorConfig;
  initial_balances : gmap AccountId Z }.

Record NodeConfig := mkNodeConfig {
  node_id : ValidatorId;
  data_dir : string;
  genesis_path : string;
  listen_address : string;
  peers : list PeerConfig;
  log_path : string;
  metrics_path : string;
  feature_flags : FeatureFlags;
  fault_profile : FaultProfile;
  sync_on_startup : bool;
  signing_backend : SigningBackendKind;
  signing_key_path : option string;
  session_backend : SessionBackendKind;
  session_key_path : option string;
  session_ttl_millis : option Z }.

(** ** Transactions and receipts *)

Record Transaction := mkTx {
  tx_from : AccountId;
  tx_to : AccountId;
  tx_amount : Z;
  tx_nonce : Z;
  tx_memo : option string }.

Record SignedTransaction := mkSignedTx {
  stx_transaction : Transaction;
  stx_signer_id : ValidatorId;
  stx_signature : TypedSignature;
  stx_hash : HashBytes;
  stx_submitted_at : Z }.

Record HeartbeatPulse := mkPulse {
  hp_epoch : Epoch;
  hp_slot : Slot;
  hp_source : ValidatorId;
  hp_sequence : Z;
  hp_emitted_at : Z }.

Record RelayReceipt := mkReceipt {
  rr_epoch : Epoch;
  rr_slot : Slot;
  rr_source : ValidatorId;
  rr_destination : ValidatorId;
  rr_witness : ValidatorId;
  rr_class : MessageClass;
  rr_transcript : HashBytes;
  rr_latency : Z;
  rr_bytes : Z;
  rr_sequence : Z;
  rr_signature : TypedSignature }.

#[export] Instance Transaction_eq_dec : EqDecision Transaction.
Proof. solve_decision. Defined.
#[export] Instance SignedTransaction_eq_dec : EqDecision SignedTransaction.
Proof. solve_decision. Defined.
#[export] Instance RelayReceipt_eq_dec : EqDecision RelayReceipt.
Proof. solve_decision. Defined.

(** ** Commitments and blocks *)

Record CommitmentSummary := mkSummary {
  by_message_class : gmap MessageClass Z;
  summary_distinct_peers : Z;
  relay_score : f64 }.

Record TopologyCommitment := mkCommitment {
  tc_epoch : Epoch;
  tc_validator : ValidatorId;
  tc_receipt_root : HashBytes;
  tc_receipt_count : Z;
  tc_summary : CommitmentSummary }.

(** The derived [PartialEq]: [==] on the score, so a NaN differs from itself. *)
Definition commitment_eqb (a b : TopologyCommitment) : bool :=
  (tc_epoch a =? tc_epoch b) && (tc_validator a =? tc_validator b)
  && (tc_receipt_root a =? tc_receipt_root b) && (tc_receipt_count a =? tc_receipt_count b)
  && bool_decide (by_message_class (tc_summary a) = by_message_class (tc_summary b))
  && (summary_distinct_peers (tc_summary a) =? summary_distinct_peers (tc_summary b))
  && f64_eqb (relay_score (tc_summary a)) (relay_score (tc_summary b)).

Record EpochAssignment := mkAssignment {
  ea_epoch : Epoch;
  ea_validator : ValidatorId;
  ea_witnesses : list ValidatorId;
  ea_relay_targets : list ValidatorId }.

Record BlockHeader := mkHeader {
  block_number : Z;
  parent_hash : HashBytes;
  bh_slot : Slot;
  bh_epoch : Epoch;
  proposer_id : ValidatorId;
  bh_timestamp : Z;
  state_root : HashBytes;
  transactions_root : HashBytes;
  topology_root : HashBytes }.
#[export] Instance BlockHeader_eq_dec : EqDecision BlockHeader.
Proof. solve_decision. Defined.

Record Block := mkBlock {
  header : BlockHeader;
  transactions : list SignedTransaction;
  commitment : option TopologyCommitment;
  commitment_receipts : list RelayReceipt;
  block_signature : TypedSignature;
  block_hash : HashBytes }.

Record StateSnapshot := mkSnapshot {
  balances : gmap AccountId Z;
  nonces : gmap AccountId Z;
  tip_hash : HashBytes;
  height : Z;
  last_slot : Slot }.
#[export] Instance StateSnapshot_eq_dec : EqDecision StateSnapshot.
Proof. solve_decision. Defined.

(** ** Votes and certificates *)

Record ProposalVote := mkVote {
  pv_validator : ValidatorId;
  pv_block_hash : HashBytes;
  pv_block_number : Z;
  pv_epoch : Epoch;
  pv_slot : Slot;
  pv_signature : TypedSignature }.
#[export] Instance ProposalVote_eq_dec : EqDecision ProposalVote.
Proof. solve_decision. Defined.

Record QuorumCertificate := mkQc {
  qc_block_hash : HashBytes;
  qc_block_number : Z;
  qc_epoch : Epoch;
  qc_slot : Slot;
  qc_vote_root : HashBytes;
  qc_votes : list ProposalVote }.

(** ** Service evidence *)

Record ServiceCounters := mkCounters {
  uptime_windows : Z;
  total_windows : Z;
  timely_deliveries : Z;
  expected_deliveries : Z;
  distinct_peers : Z;
  expected_peers : Z;
  failed_sessions : Z;
  invalid_receipts : Z }.
#[export] Instance ServiceCounters_eq_dec : EqDecision ServiceCounters.
Proof. solve_decision. Defined.

Definition default_counters : ServiceCounters := mkCounters 0 0 0 0 0 0 0 0.

Record ServiceAttestation := mkAttestation {
  sa_subject : ValidatorId;
  sa_member : ValidatorId;
  sa_epoch : Epoch;
  sa_counters : ServiceCounters;
  sa_signature : TypedSignature }.
#[export] Instance ServiceAttestation_eq_dec : EqDecision ServiceAttestation.
Proof. solve_decision. Defined.

Record ServiceAggregate := mkAggregate {
  ag_subject : ValidatorId;
  ag_epoch : Epoch;
  ag_root : HashBytes;
  ag_attestations : list ServiceAttestation;
  ag_counters : ServiceCounters }.

Definition add_counters (a b : ServiceCounters) : ServiceCounters :=
  mkCounters (wadd (uptime_windows a) (uptime_windows b))
    (wadd (total_windows a) (total_windows b))
    (wadd (timely_deliveries a) (timely_deliveries b))
    (wadd (expected_deliveries a) (expected_deliveries b))
    (wadd (distinct_peers a) (distinct_peers b))
    (wadd (expected_peers a) (expected_peers b))
    (wadd (failed_sessions a) (failed_sessions b))
    (wadd (invalid_receipts a) (invalid_receipts b)).

Definition aggregate_service_counters (l : list ServiceAttestation) : ServiceCounters :=
  foldl (fun acc a => add_counters acc (sa_counters a)) default_counters l.

(** ** Sync messages *)

Record ChainSnapshot := mkChainSnapshot {
  cs_snapshot : StateSnapshot;
  cs_blocks : list Block;
  cs_receipts : list RelayReceipt;
  cs_votes : list ProposalVote }.

Record ChainSegment := mkSegment {
  base_height : Z;
  base_tip_hash : HashBytes;
  target_snapshot : StateSnapshot;
  seg_blocks : list Block;
  seg_receipts : list RelayReceipt;
  seg_votes : list ProposalVote }.

Record SyncQcAnchor := mkAnchor { an_hash : HashBytes; an_number : Z }.
#[export] Instance SyncQcAnchor_eq_dec : EqDecision SyncQcAnchor.
Proof. solve_decision. Defined.

Record CertifiedBlockHeader := mkCertifiedHeader {
  ch_header : BlockHeader;
  ch_block_hash : HashBytes;
  ch_qc : option QuorumCertificate;
  ch_aggregate : option ServiceAggregate }.

Record ChunkedSyncRequest := mkChunkedRequest {
  cr_requester : ValidatorId;
  known_qc_hash : option HashBytes;
  known_qc_height : Z;
  known_qc_anchors : list SyncQcAnchor;
  from_height : Z;
  want_certified_only : bool }.

Inductive ChunkedSyncResponse :=
| Certified (responder_id : ValidatorId) (responder_height : Z) (responder_tip_hash : HashBytes)
    (shared_qc_hash : HashBytes) (shared_qc_height : Z) (headers : list CertifiedBlockHeader)
    (blocks : list Block) (qcs : list QuorumCertificate) (aggregates : list ServiceAggregate)
| Unavailable (responder_id : ValidatorId).

Inductive ProtocolMessage :=
| MsgTransactionBroadcast (t : SignedTransaction)
| MsgBlockProposal (b : Block)
| MsgProposalVote (v : ProposalVote)
| MsgQuorumCertificate (q : QuorumCertificate)
| MsgSyncStatus (v : ValidatorId) (h : Z) (tip : HashBytes) (tip_slot : Z)
    (qc_hash : option HashBytes) (qc_height : Z) (anchors : list SyncQcAnchor)
| MsgSyncRequest (requester : ValidatorId) (known_height : Z) (known_tip : HashBytes)
| MsgSyncResponse (responder : ValidatorId) (chain : ChainSnapshot)
| MsgSyncBlocks (responder : ValidatorId) (chain : ChainSegment)
| MsgCertifiedSyncRequest (r : ChunkedSyncRequest)
| MsgCertifiedSyncResponse (r : ChunkedSyncResponse)
| MsgHeartbeatPulse (p : HeartbeatPulse)
| MsgRelayReceipt (r : RelayReceipt)
| MsgServiceAttestation (a : ServiceAttestation)
| MsgServiceAggregate (a : ServiceAggregate)
| MsgReceiptFetch (requester : ValidatorId) (epoch : Epoch) (validator : ValidatorId)
| MsgReceiptResponse (responder : ValidatorId) (epoch : Epoch) (validator : ValidatorId)
    (receipts : list RelayReceipt).

(** ** Hashing

    Every value the source passes to [canonical_hash], as one type.  bincode
    and BLAKE3 are third-party: an encoder and a hash function with 32-byte
    output. *)

Inductive Canonical :=
| CTransaction (t : Transaction)
| CTransactions (l : list SignedTransaction)
| CBlockContent (h : BlockHeader) (l : list SignedTransaction) (c : option TopologyCommitment)
| CHeader (h : BlockHeader)
| CCommitment (c : TopologyCommitment)
| CState (balances nonces : gmap AccountId Z)
| CReceipt (r : RelayReceipt)
| CReceiptEvent (epoch slot source destination witness : Z) (class : MessageClass) (sequence : Z)
| CHashes (l : list HashBytes)
| CVote (v : ProposalVote)
| CVotes (l : list ProposalVote)
| CAttestation (a : ServiceAttestation)
| CAttestations (l : list ServiceAttestation)
| CAggregate (a : ServiceAggregate)
| CPulse (p : HeartbeatPulse)
| CRecipientSelector (chain_id : string) (sender sequence amount : Z) (large_memo : bool)
| CText (s : string).

Class Hashing := {
  bincode_encode : Canonical -> bytes;
  blake3 : bytes -> HashBytes;
  blake3_range : forall b, 0 <= blake3 b < 2 ^ 256 }.

Section hashing.
Context `{Hashing}.

Definition canonical_hash (v : Canonical) : HashBytes := blake3 (bincode_encode v).
Definition hash_many (parts : list bytes) : HashBytes := blake3 (concat parts).

Definition quorum_certificate_vote_root (votes : list ProposalVote) : HashBytes :=
  canonical_hash (CVotes votes).
Definition service_attestation_root (l : list ServiceAttestation) : HashBytes :=
  canonical_hash (CAttestations l).

(** [QuorumCertificate::is_well_formed]. *)
Definition qc_is_well_formed (q : QuorumCertificate) : bool :=
  negb (bool_decide (qc_votes q = []))
  && (qc_vote_root q =? quorum_certificate_vote_root (qc_votes q))
  && forallb (fun v => (pv_block_hash v =? qc_block_hash q)
                       && (pv_block_number v =? qc_block_number q)
                       && (pv_epoch v =? qc_epoch q) && (pv_slot v =? qc_slot q)) (qc_votes q).

(** [ServiceAggregate::is_well_formed]. *)
Definition aggregate_is_well_formed (a : ServiceAggregate) : bool :=
  negb (bool_decide (ag_attestations a = []))
  && (ag_root a =? service_attestation_root (ag_attestations a))
  && bool_decide (ag_counters a = aggregate_service_counters (ag_attestations a))
  && forallb (fun t => (sa_subject t =? ag_subject a) && (sa_epoch t =? ag_epoch a))
       (ag_attestations a).

(** The digests that signatures cover: the value with its signature reset. *)
Definition receipt_signing_hash (r : RelayReceipt) : HashBytes :=
  canonical_hash (CReceipt (mkReceipt (rr_epoch r) (rr_slot r) (rr_source r)
    (rr_destination r) (rr_witness r) (rr_class r) (rr_transcript r) (rr_latency r)
    (rr_bytes r) (rr_sequence r) TypedSig.default)).
Definition service_attestation_signing_hash (a : ServiceAttestation) : HashBytes :=
  canonical_hash (CAttestation (mkAttestation (sa_subject a) (sa_member a) (sa_epoch a)
    (sa_counters a) TypedSig.default)).
Definition proposal_vote_signing_hash (v : ProposalVote) : HashBytes :=
  canonical_hash (CVote (mkVote (pv_validator v) (pv_block_hash v) (pv_block_number v)
    (pv_epoch v) (pv_slot v) TypedSig.default)).
Definition receipt_event_hash (r : RelayReceipt) : HashBytes :=
  canonical_hash (CReceiptEvent (rr_epoch r) (rr_slot r) (rr_source r) (rr_destination r)
    (rr_witness r) (rr_class r) (rr_sequence r)).
End hashing.

(** [validator_account]: [format!("validator-{id}")]. *)
Definition validator_account (id : ValidatorId) : AccountId := "validator-" +:+ pretty id.

(** ** Properties of the containers *)

Section container_properties.
(** bincode's component codec, third-party. *)
Variable encode_sig : list SignatureComponent -> bytes.
Variable decode_sig : bytes -> result (list SignatureComponent * nat).
Variable decode_session : bytes -> result (list SessionPublicIdentityComponent * nat).

(** [TypedSignature] round-trips through both serde encodings.  The
    self-describing form is independent of the order of its fields; the
    binary form needs the codec to decode what it encoded, consuming all of
    it. *)
Lemma typed_signature_roundtrip (s : TypedSignature) kvs :
  well_formed SigHybrid s ->
  decode_sig (encode_sig (c_components s)) =
    Ok (c_components s, length (encode_sig (c_components s))) ->
  kvs ≡ₚ TypedSig.serialize_human s ->
  TypedSig.deserialize_map kvs = Ok s /\
  TypedSig.deserialize_binary decode_sig (TypedSig.serialize_binary encode_sig s) = Ok s.
Proof.
  intros Hw Hd Hp. split.
  - apply deserialize_map_perm; [by destruct s | exact Hp].
  - apply deserialize_serialize_binary; [exact Hw | by destruct s | exact Hd].
Qed.

(** What a session identity must look like. *)
Definition session_identity_valid (c : SessionPublicIdentity) : Prop :=
  if decide (c_scheme c = SkHybrid)
  then c_bytes c = [] /\ valid_components SkHybrid (c_components c)
  else c_components c = [].

Lemma build_session_valid s b cs c :
  SessionId.build_session_public_identity s b cs = Ok c -> session_identity_valid c.
Proof.
  unfold session_identity_valid, SessionId.build_session_public_identity.
  destruct s; [destruct cs; intros H; simplify_eq/=; done..|].
  intros Hc. apply try_hybrid_ok in Hc as [Hv ->]. rewrite decide_True by done. done.
Qed.

(** Whatever the input, a session identity that either decoder returns is
    valid: a hybrid one has no bytes and distinct, non-hybrid, at least one
    component; any other one has no component. *)
Lemma session_identity_decode_valid kvs raw c :
  SessionId.deserialize_map kvs = Ok c \/
  SessionId.deserialize_binary decode_session raw = Ok c ->
  session_identity_valid c.
Proof.
  intros [H|H].
  - unfold SessionId.deserialize_map, deserialize_map in H. inv_ok.
    by eapply build_session_valid.
  - unfold SessionId.deserialize_binary, deserialize_binary in H.
    case_bool_decide; [|by eapply build_session_valid].
    apply result_bind_ok in H as ([cs n] & _ & H). case_bool_decide; [|done].
    by eapply build_session_valid.
Qed.

(** [TypedSignature] decoding does not apply the rules of [try_hybrid]:
    a payload that decodes to no component yields a hybrid signature that
    the constructor refuses. *)
Lemma typed_signature_decode_skips_try_hybrid payload :
  decode_sig payload = Ok ([], length payload) ->
  exists s, TypedSig.deserialize_binary decode_sig (SigHybrid, payload) = Ok s /\
    c_scheme s = SigHybrid /\ is_ok (TypedSig.try_hybrid (c_components s)) = false.
Proof.
  intros Hd. exists (mkContainer SigHybrid [] []).
  unfold TypedSig.deserialize_binary, deserialize_binary; simpl. rewrite Hd; simpl.
  by rewrite bool_decide_true.
Qed.
End container_properties.

Module ContainerExample.
(** A component codec for evaluation: [scheme; length; bytes...] each. *)
Definition scheme_index (s : SignatureScheme) : Z :=
  match s with SigDevDeterministic => 0 | SigEd25519 => 1 | SigMlDsa => 2 | SigHybrid => 3 end.
Definition scheme_at (z : Z) : SignatureScheme :=
  match z with 0 => SigDevDeterministic | 1 => SigEd25519 | 2 => SigMlDsa | _ => SigHybrid end.
Definition encode (cs : list SignatureComponent) : bytes :=
  concat ((fun c => scheme_index (comp_scheme c) :: Z.of_nat (length (comp_bytes c))
                    :: comp_bytes c) <$> cs).
Fixpoint decode_fuel (fuel : nat) (b : bytes) : list SignatureComponent :=
  match fuel, b with
  | S fuel', s :: n :: rest =>
      mkComponent (scheme_at s) (take (Z.to_nat n) rest)
      :: decode_fuel fuel' (drop (Z.to_nat n) rest)
  | _, _ => []
  end.
Definition decode (b : bytes) : result (list SignatureComponent * nat) :=
  Ok (decode_fuel (length b) b, length b).
Definition session_decode (b : bytes) : result (list SessionPublicIdentityComponent * nat) :=
  Ok ([mkComponent SkDevDeterministic b], length b).

Definition hybrid_signature : TypedSignature :=
  mkContainer SigHybrid []
    [mkComponent SigDevDeterministic [4; 5; 6]; mkComponent SigMlDsa [7; 8]].

Lemma typed_signature_roundtrip_witness :
  TypedSig.deserialize_map (reverse (TypedSig.serialize_human hybrid_signature))
    = Ok hybrid_signature.
Proof.
  apply (typed_signature_roundtrip encode decode hybrid_signature); [reflexivity..|].
  apply reverse_Permutation.
Defined.

Lemma session_identity_decode_valid_witness :
  session_identity_valid (mkContainer SkHybrid [] [mkComponent SkDevDeterministic [1]]).
Proof.
  apply (session_identity_decode_valid session_decode [] (SkHybrid, [1])).
  right. reflexivity.
Defined.

Lemma typed_signature_decode_skips_try_hybrid_witness :
  exists s, TypedSig.deserialize_binary decode (SigHybrid, []) = Ok s /\
    c_scheme s = SigHybrid /\ is_ok (TypedSig.try_hybrid (c_components s)) = false.
Proof. apply (typed_signature_decode_skips_try_hybrid decode []). reflexivity. Defined.
End ContainerExample.
