(* ===== verification/Codecs.v ===== *)
(** * Concrete file formats

    A lawful line format for every countable type, one object of binary
    digits, and the countable instances of the records a node stores and
    sends: the examples instantiate the serde_json and bincode parameters with them.  Nothing
    outside the example lemmas uses this file. *)
From S2P Require Import Prelude F64 Hybrid Types JsonLines.

Open Scope Z_scope.

(** ** Numbers as objects of binary digits *)

Fixpoint digits (p : positive) : text :=
  match p with xH => [] | xO p' => 48 :: digits p' | xI p' => 49 :: digits p' end.

(** The digits up to a closing brace that ends the text. *)
Fixpoint scan (s : text) : Parsed positive :=
  match s with
  | [] => Eof
  | c :: s' =>
      if c =? 125 then if bool_decide (s' = []) then Value xH else Malformed
      else if c =? 48 then match scan s' with Value p => Value (xO p) | r => r end
      else if c =? 49 then match scan s' with Value p => Value (xI p) | r => r end
      else Malformed
  end.

Lemma scan_digits p : scan (digits p ++ [125]) = Value p.
Proof. by induction p as [p IH|p IH|]; simpl; [rewrite IH..|]. Qed.

Lemma digits_printable p : Forall (fun c => 32 <= c) (digits p).
Proof. by induction p; simpl; constructor. Qed.

Lemma scan_cut p q s : digits p ++ [125] = q ++ s -> s <> [] -> scan q = Eof.
Proof.
  revert q. induction p as [p IH|p IH|]; intros q Hq Hs; destruct q as [|c q]; try done;
    simpl in Hq; injection Hq as <- Hq; simpl; [by rewrite (IH q)..|].
  destruct q; [|done]. simpl in Hq. by subst s.
Qed.

(** Another object cannot begin inside of one. *)
Lemma scan_torn p q s t x : digits p ++ [125] = q ++ s -> scan (q ++ open_brace :: t) <> Value x.
Proof.
  revert q x. induction p as [p IH|p IH|]; intros q x Hq; (destruct q as [|c q]; [done|]);
    simpl in Hq; injection Hq as <- Hq; simpl.
  - specialize (IH q). destruct (scan _) as [y| |]; try done. by destruct (IH y Hq).
  - specialize (IH q). destruct (scan _) as [y| |]; try done. by destruct (IH y Hq).
  - by destruct q.
Qed.

Definition countable_to_json `{Countable T} (v : T) : text := open_brace :: digits (encode v) ++ [125].
Definition countable_from_str `{Countable T} (s : text) : Parsed T :=
  match s with
  | [] => Eof
  | c :: s' =>
      if c =? open_brace
      then match scan s' with
           | Value p => match decode p with Some v => Value v | None => Malformed end
           | Eof => Eof
           | Malformed => Malformed
           end
      else Malformed
  end.

Definition countable_lines (T : Type) `{Countable T} : JsonLine T :=
  {| to_json := countable_to_json; from_str := countable_from_str |}.

Section laws.
Context {T : Type} `{Countable T}.
#[local] Existing Instance countable_lines.

Lemma countable_lines_laws : JsonLineLaws T.
Proof.
  split.
  - intros v. simpl. constructor; [done|]. apply Forall_app. split; [apply digits_printable|by repeat constructor].
  - done.
  - intros v. simpl. by rewrite scan_digits, decode_encode.
  - intros v p s Hp Hne Hs. destruct p as [|c p]; [done|]. simpl in Hp. injection Hp as <- Hp.
    simpl. by rewrite (scan_cut (encode v) p s).
Qed.

Lemma countable_lines_torn : JsonTorn T.
Proof.
  intros v w u p s Hp Hne. destruct p as [|c p]; [done|]. simpl in Hp. injection Hp as <- Hp.
  simpl. intros E. destruct (scan _) as [x| |] eqn:Ex; [|done..].
  by eapply scan_torn.
Qed.
End laws.

(** ** The stored records are countable *)

#[export] Instance f64_eq_dec : EqDecision f64.
Proof. solve_decision. Defined.
#[export] Instance f64_countable : Countable f64.
Proof.
  refine (inj_countable'
    (fun x => match x with
              | S754_zero b => inl (inl b) | S754_infinity b => inl (inr b)
              | S754_nan => inr (inl tt) | S754_finite b m e => inr (inr (b, m, e)) end)
    (fun x => match x with
              | inl (inl b) => S754_zero b | inl (inr b) => S754_infinity b
              | inr (inl _) => S754_nan | inr (inr (b, m, e)) => S754_finite b m e end) _).
  by intros [].
Defined.
#[export] Instance signature_scheme_countable : Countable SignatureScheme.
Proof.
  refine (inj_countable' (fun s => match s with SigDevDeterministic => 0 | SigEd25519 => 1
                                              | SigMlDsa => 2 | SigHybrid => 3 end)
    (fun z => match z with 0 => SigDevDeterministic | 1 => SigEd25519 | 2 => SigMlDsa
                         | _ => SigHybrid end) _).
  by intros [].
Defined.
#[export] Instance component_countable {S : Type} `{Countable S} : Countable (Component S).
Proof.
  refine (inj_countable' (fun c => (comp_scheme c, comp_bytes c)) (fun p => mkComponent p.1 p.2) _).
  by intros [].
Defined.
#[export] Instance container_countable {S : Type} `{Countable S} : Countable (Container S).
Proof.
  refine (inj_countable' (fun c => (c_scheme c, c_bytes c, c_components c))
    (fun p => mkContainer p.1.1 p.1.2 p.2) _).
  by intros [].
Defined.
#[export] Instance transaction_countable : Countable Transaction.
Proof.
  refine (inj_countable' (fun t => (tx_from t, tx_to t, tx_amount t, tx_nonce t, tx_memo t))
    (fun '(a, b, c, d, m) => mkTx a b c d m) _). by intros [].
Defined.
#[export] Instance signed_transaction_countable : Countable SignedTransaction.
Proof.
  refine (inj_countable' (fun t => (stx_transaction t, stx_signer_id t, stx_signature t, stx_hash t,
      stx_submitted_at t)) (fun '(a, b, c, d, m) => mkSignedTx a b c d m) _). by intros [].
Defined.
#[export] Instance receipt_countable : Countable RelayReceipt.
Proof.
  refine (inj_countable' (fun r => (rr_epoch r, rr_slot r, rr_source r, rr_destination r, rr_witness r,
      rr_class r, rr_transcript r, rr_latency r, rr_bytes r, rr_sequence r, rr_signature r))
    (fun '(a, b, c, d, w, k, t, l, y, q, g) => mkReceipt a b c d w k t l y q g) _). by intros [].
Defined.
#[export] Instance summary_eq_dec : EqDecision CommitmentSummary.
Proof. solve_decision. Defined.
#[export] Instance summary_countable : Countable CommitmentSummary.
Proof.
  refine (inj_countable' (fun c => (by_message_class c, summary_distinct_peers c, relay_score c))
    (fun '(a, b, c) => mkSummary a b c) _). by intros [].
Defined.
#[export] Instance commitment_eq_dec : EqDecision TopologyCommitment.
Proof. solve_decision. Defined.
#[export] Instance commitment_countable : Countable TopologyCommitment.
Proof.
  refine (inj_countable' (fun c => (tc_epoch c, tc_validator c, tc_receipt_root c, tc_receipt_count c,
      tc_summary c)) (fun '(a, b, c, d, m) => mkCommitment a b c d m) _). by intros [].
Defined.
#[export] Instance header_countable : Countable BlockHeader.
Proof.
  refine (inj_countable' (fun h => (block_number h, parent_hash h, bh_slot h, bh_epoch h, proposer_id h,
      bh_timestamp h, state_root h, transactions_root h, topology_root h))
    (fun '(a, b, c, d, w, k, t, l, y) => mkHeader a b c d w k t l y) _). by intros [].
Defined.
#[export] Instance block_eq_dec : EqDecision Block.
Proof. solve_decision. Defined.
#[export] Instance block_countable : Countable Block.
Proof.
  refine (inj_countable' (fun b => (header b, transactions b, commitment b, commitment_receipts b,
      block_signature b, block_hash b)) (fun '(a, b, c, d, w, k) => mkBlock a b c d w k) _). by intros [].
Defined.
#[export] Instance vote_countable : Countable ProposalVote.
Proof.
  refine (inj_countable' (fun v => (pv_validator v, pv_block_hash v, pv_block_number v, pv_epoch v,
      pv_slot v, pv_signature v)) (fun '(a, b, c, d, w, k) => mkVote a b c d w k) _). by intros [].
Defined.
#[export] Instance qc_eq_dec : EqDecision QuorumCertificate.
Proof. solve_decision. Defined.
#[export] Instance qc_countable : Countable QuorumCertificate.
Proof.
  refine (inj_countable' (fun q => (qc_block_hash q, qc_block_number q, qc_epoch q, qc_slot q,
      qc_vote_root q, qc_votes q)) (fun '(a, b, c, d, w, k) => mkQc a b c d w k) _). by intros [].
Defined.
#[export] Instance counters_countable : Countable ServiceCounters.
Proof.
  refine (inj_countable' (fun c => (uptime_windows c, total_windows c, timely_deliveries c,
      expected_deliveries c, distinct_peers c, expected_peers c, failed_sessions c, invalid_receipts c))
    (fun '(a, b, c, d, w, k, t, l) => mkCounters a b c d w k t l) _). by intros [].
Defined.
#[export] Instance attestation_countable : Countable ServiceAttestation.
Proof.
  refine (inj_countable' (fun a => (sa_subject a, sa_member a, sa_epoch a, sa_counters a, sa_signature a))
    (fun '(a, b, c, d, w) => mkAttestation a b c d w) _). by intros [].
Defined.
#[export] Instance aggregate_eq_dec : EqDecision ServiceAggregate.
Proof. solve_decision. Defined.
#[export] Instance aggregate_countable : Countable ServiceAggregate.
Proof.
  refine (inj_countable' (fun a => (ag_subject a, ag_epoch a, ag_root a, ag_attestations a, ag_counters a))
    (fun '(a, b, c, d, w) => mkAggregate a b c d w) _). by intros [].
Defined.
#[export] Instance snapshot_countable : Countable StateSnapshot.
Proof.
  refine (inj_countable' (fun s => (balances s, nonces s, tip_hash s, height s, last_slot s))
    (fun '(a, b, c, d, w) => mkSnapshot a b c d w) _). by intros [].
Defined.

(** ** Protocol messages *)

#[export] Instance anchor_countable : Countable SyncQcAnchor.
Proof.
  refine (inj_countable' (fun x => (an_hash x, an_number x))
    (fun '(a, b) => mkAnchor a b) _). by intros [].
Defined.
#[export] Instance certified_header_eq_dec : EqDecision CertifiedBlockHeader.
Proof. solve_decision. Defined.
#[export] Instance certified_header_countable : Countable CertifiedBlockHeader.
Proof.
  refine (inj_countable' (fun x => (ch_header x, ch_block_hash x, ch_qc x, ch_aggregate x))
    (fun '(a, b, c, d) => mkCertifiedHeader a b c d) _). by intros [].
Defined.
#[export] Instance chunked_request_eq_dec : EqDecision ChunkedSyncRequest.
Proof. solve_decision. Defined.
#[export] Instance chunked_request_countable : Countable ChunkedSyncRequest.
Proof.
  refine (inj_countable' (fun x => (cr_requester x, known_qc_hash x, known_qc_height x, known_qc_anchors x, from_height x, want_certified_only x))
    (fun '(a, b, c, d, e, f) => mkChunkedRequest a b c d e f) _). by intros [].
Defined.
#[export] Instance pulse_eq_dec : EqDecision HeartbeatPulse.
Proof. solve_decision. Defined.
#[export] Instance pulse_countable : Countable HeartbeatPulse.
Proof.
  refine (inj_countable' (fun x => (hp_epoch x, hp_slot x, hp_source x, hp_sequence x, hp_emitted_at x))
    (fun '(a, b, c, d, e) => mkPulse a b c d e) _). by intros [].
Defined.
#[export] Instance chain_snapshot_eq_dec : EqDecision ChainSnapshot.
Proof. solve_decision. Defined.
#[export] Instance chain_snapshot_countable : Countable ChainSnapshot.
Proof.
  refine (inj_countable' (fun x => (cs_snapshot x, cs_blocks x, cs_receipts x, cs_votes x))
    (fun '(a, b, c, d) => mkChainSnapshot a b c d) _). by intros [].
Defined.
#[export] Instance segment_eq_dec : EqDecision ChainSegment.
Proof. solve_decision. Defined.
#[export] Instance segment_countable : Countable ChainSegment.
Proof.
  refine (inj_countable' (fun x => (base_height x, base_tip_hash x, target_snapshot x, seg_blocks x, seg_receipts x, seg_votes x))
    (fun '(a, b, c, d, e, f) => mkSegment a b c d e f) _). by intros [].
Defined.
#[export] Instance chunked_response_eq_dec : EqDecision ChunkedSyncResponse.
Proof. solve_decision. Defined.
#[export] Instance chunked_response_countable : Countable ChunkedSyncResponse.
Proof.
  refine (inj_countable'
    (fun x => match x with
      | Certified a b c d e f g h i => inl (a, b, c, d, e, f, g, h, i)
      | Unavailable a => inr (a)
      end)
    (fun x => match x with
      | inl (a, b, c, d, e, f, g, h, i) => Certified a b c d e f g h i
      | inr (a) => Unavailable a
      end) _).
  by intros [].
Defined.
#[export] Instance message_eq_dec : EqDecision ProtocolMessage.
Proof. solve_decision. Defined.
#[export] Instance message_countable : Countable ProtocolMessage.
Proof.
  refine (inj_countable'
    (fun x => match x with
      | MsgTransactionBroadcast a => inl a
      | MsgBlockProposal a => inr (inl a)
      | MsgProposalVote a => inr (inr (inl a))
      | MsgQuorumCertificate a => inr (inr (inr (inl a)))
      | MsgSyncStatus a b c d e f g => inr (inr (inr (inr (inl (a, b, c, d, e, f, g)))))
      | MsgSyncRequest a b c => inr (inr (inr (inr (inr (inl (a, b, c))))))
      | MsgSyncResponse a b => inr (inr (inr (inr (inr (inr (inl (a, b)))))))
      | MsgSyncBlocks a b => inr (inr (inr (inr (inr (inr (inr (inl (a, b))))))))
      | MsgCertifiedSyncRequest a => inr (inr (inr (inr (inr (inr (inr (inr (inl a))))))))
      | MsgCertifiedSyncResponse a => inr (inr (inr (inr (inr (inr (inr (inr (inr (inl a)))))))))
      | MsgHeartbeatPulse a => inr (inr (inr (inr (inr (inr (inr (inr (inr (inr (inl a))))))))))
      | MsgRelayReceipt a => inr (inr (inr (inr (inr (inr (inr (inr (inr (inr (inr (inl a)))))))))))
      | MsgServiceAttestation a => inr (inr (inr (inr (inr (inr (inr (inr (inr (inr (inr (inr (inl a))))))))))))
      | MsgServiceAggregate a => inr (inr (inr (inr (inr (inr (inr (inr (inr (inr (inr (inr (inr (inl a)))))))))))))
      | MsgReceiptFetch a b c => inr (inr (inr (inr (inr (inr (inr (inr (inr (inr (inr (inr (inr (inr (inl (a, b, c)))))))))))))))
      | MsgReceiptResponse a b c d => inr (inr (inr (inr (inr (inr (inr (inr (inr (inr (inr (inr (inr (inr (inr ((a, b, c, d))))))))))))))))
      end)
    (fun x => match x with
      | inl a => MsgTransactionBroadcast a
      | inr (inl a) => MsgBlockProposal a
      | inr (inr (inl a)) => MsgProposalVote a
      | inr (inr (inr (inl a))) => MsgQuorumCertificate a
      | inr (inr (inr (inr (inl (a, b, c, d, e, f, g))))) => MsgSyncStatus a b c d e f g
      | inr (inr (inr (inr (inr (inl (a, b, c)))))) => MsgSyncRequest a b c
      | inr (inr (inr (inr (inr (inr (inl (a, b))))))) => MsgSyncResponse a b
      | inr (inr (inr (inr (inr (inr (inr (inl (a, b)))))))) => MsgSyncBlocks a b
      | inr (inr (inr (inr (inr (inr (inr (inr (inl a)))))))) => MsgCertifiedSyncRequest a
      | inr (inr (inr (inr (inr (inr (inr (inr (inr (inl a))))))))) => MsgCertifiedSyncResponse a
      | inr (inr (inr (inr (inr (inr (inr (inr (inr (inr (inl a)))))))))) => MsgHeartbeatPulse a
      | inr (inr (inr (inr (inr (inr (inr (inr (inr (inr (inr (inl a))))))))))) => MsgRelayReceipt a
      | inr (inr (inr (inr (inr (inr (inr (inr (inr (inr (inr (inr (inl a)))))))))))) => MsgServiceAttestation a
      | inr (inr (inr (inr (inr (inr (inr (inr (inr (inr (inr (inr (inr (inl a))))))))))))) => MsgServiceAggregate a
      | inr (inr (inr (inr (inr (inr (inr (inr (inr (inr (inr (inr (inr (inr (inl (a, b, c))))))))))))))) => MsgReceiptFetch a b c
      | inr (inr (inr (inr (inr (inr (inr (inr (inr (inr (inr (inr (inr (inr (inr ((a, b, c, d)))))))))))))))) => MsgReceiptResponse a b c d
      end) _).
  by intros [].
Defined.
