(* ===== verification/Concrete.v ===== *)
(** * A concrete encoder and hash

    Instances of the third-party interfaces for evaluating the development on
    examples: a length-prefixed encoder for every hashed value and a
    polynomial hash into 32 bytes.  Nothing outside the example lemmas uses
    them. *)
From S2P Require Import Prelude F64 Hybrid Types.

Open Scope Z_scope.

Definition enc_list {A} (f : A -> bytes) (l : list A) : bytes :=
  Z.of_nat (length l) :: concat (f <$> l).
Definition enc_option {A} (f : A -> bytes) (o : option A) : bytes :=
  match o with None => [0] | Some a => 1 :: f a end.
Definition enc_z (z : Z) : bytes := [z].
Definition enc_string (s : string) : bytes := enc_list enc_z (string_to_bytes s).
Definition enc_scheme (s : SignatureScheme) : Z :=
  match s with SigDevDeterministic => 0 | SigEd25519 => 1 | SigMlDsa => 2 | SigHybrid => 3 end.
Definition enc_component (c : SignatureComponent) : bytes :=
  enc_scheme (comp_scheme c) :: enc_list enc_z (comp_bytes c).
Definition enc_signature (s : TypedSignature) : bytes :=
  enc_scheme (c_scheme s) :: enc_list enc_z (c_bytes s) ++ enc_list enc_component (c_components s).
Definition enc_f64 (x : f64) : bytes :=
  match x with
  | S754_zero s => [0; Z.b2z s]
  | S754_infinity s => [1; Z.b2z s]
  | S754_nan => [2]
  | S754_finite s m e => [3; Z.b2z s; Zpos m; e]
  end.
Definition enc_tx (t : Transaction) : bytes :=
  enc_string (tx_from t) ++ enc_string (tx_to t) ++ [tx_amount t; tx_nonce t]
  ++ enc_option enc_string (tx_memo t).
Definition enc_stx (t : SignedTransaction) : bytes :=
  enc_tx (stx_transaction t) ++ stx_signer_id t :: enc_signature (stx_signature t)
  ++ [stx_hash t; stx_submitted_at t].
Definition enc_header (h : BlockHeader) : bytes :=
  [block_number h; parent_hash h; bh_slot h; bh_epoch h; proposer_id h; bh_timestamp h;
   state_root h; transactions_root h; topology_root h].
Definition enc_commitment (c : TopologyCommitment) : bytes :=
  [tc_epoch c; tc_validator c; tc_receipt_root c; tc_receipt_count c]
  ++ enc_list (fun kv => [class_index kv.1; kv.2]) (map_to_list (by_message_class (tc_summary c)))
  ++ summary_distinct_peers (tc_summary c) :: enc_f64 (relay_score (tc_summary c)).
Definition enc_balances (m : gmap AccountId Z) : bytes :=
  enc_list (fun kv => enc_string kv.1 ++ [kv.2]) (map_to_list m).
Definition enc_receipt (r : RelayReceipt) : bytes :=
  [rr_epoch r; rr_slot r; rr_source r; rr_destination r; rr_witness r; class_index (rr_class r);
   rr_transcript r; rr_latency r; rr_bytes r; rr_sequence r] ++ enc_signature (rr_signature r).
Definition enc_vote (v : ProposalVote) : bytes :=
  [pv_validator v; pv_block_hash v; pv_block_number v; pv_epoch v; pv_slot v]
  ++ enc_signature (pv_signature v).
Definition enc_counters (c : ServiceCounters) : bytes :=
  [uptime_windows c; total_windows c; timely_deliveries c; expected_deliveries c;
   distinct_peers c; expected_peers c; failed_sessions c; invalid_receipts c].
Definition enc_attestation (a : ServiceAttestation) : bytes :=
  [sa_subject a; sa_member a; sa_epoch a] ++ enc_counters (sa_counters a)
  ++ enc_signature (sa_signature a).

Definition enc_canonical (v : Canonical) : bytes :=
  match v with
  | CTransaction t => enc_tx t
  | CTransactions l => enc_list enc_stx l
  | CBlockContent h l c => enc_header h ++ enc_list enc_stx l ++ enc_option enc_commitment c
  | CHeader h => enc_header h
  | CCommitment c => enc_commitment c
  | CState b n => enc_balances b ++ enc_balances n
  | CReceipt r => enc_receipt r
  | CReceiptEvent e s a b w c q => [e; s; a; b; w; class_index c; q]
  | CHashes l => enc_list enc_z l
  | CVote v => enc_vote v
  | CVotes l => enc_list enc_vote l
  | CAttestation a => enc_attestation a
  | CAttestations l => enc_list enc_attestation l
  | CAggregate a => [ag_subject a; ag_epoch a; ag_root a]
                    ++ enc_list enc_attestation (ag_attestations a) ++ enc_counters (ag_counters a)
  | CPulse p => [hp_epoch p; hp_slot p; hp_source p; hp_sequence p; hp_emitted_at p]
  | CRecipientSelector c s q a m => enc_string c ++ [s; q; a; Z.b2z m]
  | CText t => enc_string t
  end.

Definition poly_hash (b : bytes) : HashBytes :=
  foldl (fun acc x => Z.land (acc * 2862933555777941757 * 2862933555777941757 + 3037000493 * x + 17) (2 ^ 256 - 1)) 7 b.

Lemma poly_hash_range b : 0 <= poly_hash b < 2 ^ 256.
Proof.
  assert (H : forall (l : bytes) acc, 0 <= acc < 2 ^ 256 ->
    0 <= foldl (fun acc x => Z.land (acc * 2862933555777941757 * 2862933555777941757 + 3037000493 * x + 17)
                 (2 ^ 256 - 1)) acc l < 2 ^ 256).
  { induction l as [|x l IHl]; intros acc Ha; simpl; [done|]. apply IHl.
    replace (2 ^ 256 - 1) with (Z.ones 256) by reflexivity.
    rewrite Z.land_ones by lia. apply Z.mod_pos_bound. lia. }
  apply H. lia.
Qed.

Definition concrete_hashing : Hashing :=
  {| bincode_encode := enc_canonical; blake3 := poly_hash; blake3_range := poly_hash_range |}.
