(* ===== verification/Crypto.v ===== *)
(** * Signing and verification

    The signing half of crates/entangrid-crypto/src/lib.rs: the [Signer] and
    [Verifier] traits as the class [CryptoBackend] the other components are
    written against, the deterministic development backend, and the configured
    backend (with the [pq-ml-dsa] feature) that verifies deterministic, ML-DSA
    and hybrid signatures against genesis identities.  ML-DSA itself is
    third-party: the class [MlDsa].  The backend's record has its session
    half too; Sessions gives it its meaning and loads it. *)
From stdpp Require Import pretty.
From S2P Require Import Prelude F64 Hybrid Types Concrete.

Open Scope Z_scope.

(** ** The interface the ledger, the consensus checks and the node use *)

Class CryptoBackend := {
  sign : ValidatorId -> bytes -> result TypedSignature;
  verify : ValidatorId -> bytes -> TypedSignature -> result bool }.

(** What a caller may rely on: a signature made for a message verifies. *)
Class CryptoLaws (B : CryptoBackend) (signs_for : ValidatorId -> Prop) := {
  sign_verify : forall id m s,
    signs_for id -> sign id m = Ok s -> verify id m s = Ok true }.

(** ** The deterministic backend *)

Section deterministic.
Context `{Hashing}.

Abbreviation Secrets := (gmap ValidatorId string).

(** [collect] into a [BTreeMap]: a later entry for the same id wins. *)
Definition from_validators (vs : list ValidatorConfig) : Secrets :=
  foldl (fun m v => <[validator_id v := dev_secret v]> m) ∅ vs.

Definition secret (secrets : Secrets) (id : ValidatorId) : result string :=
  ok_or (secrets !! id) "unknown validator id".

Definition deterministic_sign (secrets : Secrets) (id : ValidatorId) (m : bytes)
    : result TypedSignature :=
  s ← secret secrets id;
  mret (mkContainer SigDevDeterministic (hash_to_bytes (hash_many [string_to_bytes s; m])) []).

Definition deterministic_verify (secrets : Secrets) (id : ValidatorId) (m : bytes)
    (sig : TypedSignature) : result bool :=
  if negb (bool_decide (c_scheme sig = SigDevDeterministic)) then Ok false
  else expected ← deterministic_sign secrets id m; mret (bool_decide (expected = sig)).

(** [DeterministicCryptoBackend] as an implementation of the interface. *)
Definition DeterministicCryptoBackend (secrets : Secrets) : CryptoBackend :=
  {| sign := deterministic_sign secrets; verify := deterministic_verify secrets |}.

(** [deterministic_public_identity]: the account name as bytes. *)
Definition deterministic_public_identity (id : ValidatorId) : PublicIdentity :=
  single PkDevDeterministic (string_to_bytes (validator_account id)).

Definition validator_config (g : GenesisConfig) (id : ValidatorId) : result ValidatorConfig :=
  ok_or (find_first (fun v => validator_id v =? id) (validators g)) "unknown validator id".

Definition validate_deterministic_identity (v : ValidatorConfig) : result unit :=
  if bool_decide (public_identity v = PubId.default) then Ok tt
  else
    expected ← ok_or (PubId.as_single_bytes (deterministic_public_identity (validator_id v)))
                 "deterministic identity missing bytes";
    match c_scheme (public_identity v) with
    | PkDevDeterministic =>
        ensure (bool_decide (PubId.as_single_bytes (public_identity v) = Some expected))
          "public identity does not match deterministic signer"
    | PkHybrid =>
        ensure (bool_decide (PubId.component_bytes (public_identity v) PkDevDeterministic
                             = Some expected))
          "hybrid public identity does not include a matching deterministic component"
    | _ => Err "public identity does not match deterministic signer"
    end.

Lemma deterministic_sign_inv secrets id m s :
  deterministic_sign secrets id m = Ok s ->
  c_scheme s = SigDevDeterministic /\ c_components s = [] /\
  exists k, secrets !! id = Some k /\
    c_bytes s = hash_to_bytes (hash_many [string_to_bytes k; m]).
Proof.
  unfold deterministic_sign, secret. destruct (secrets !! id) as [k|] eqn:E; simpl; [|done].
  intros [= <-]. eauto.
Qed.

Lemma deterministic_sign_verify secrets id m s :
  deterministic_sign secrets id m = Ok s -> deterministic_verify secrets id m s = Ok true.
Proof.
  intros Hs. pose proof (deterministic_sign_inv _ _ _ _ Hs) as (E & _).
  unfold deterministic_verify. rewrite E, Hs. simpl. by rewrite bool_decide_true.
Qed.

Lemma deterministic_verify_true secrets id m s :
  deterministic_verify secrets id m s = Ok true <-> deterministic_sign secrets id m = Ok s.
Proof.
  split; [|apply deterministic_sign_verify]. unfold deterministic_verify.
  case_bool_decide; simpl; [|done].
  destruct (deterministic_sign secrets id m) as [t|]; simpl; [|done].
  intros [= E]. apply bool_decide_eq_true in E. by rewrite E.
Qed.

#[export] Instance deterministic_laws secrets :
  CryptoLaws (DeterministicCryptoBackend secrets) (fun _ => True).
Proof. constructor. intros id m s _. apply deterministic_sign_verify. Qed.
End deterministic.

(** ** The configured backend *)

(** ML-DSA-65: keys, [sign], the signature decoder [try_from], [verify], and
    the codecs of the keys. *)
Class MlDsa := {
  SigningKey : Type;
  VerifyingKey : Type;
  mldsa_sign : SigningKey -> bytes -> bytes;
  mldsa_signature_decodes : bytes -> bool;
  mldsa_verify : VerifyingKey -> bytes -> bytes -> bool;
  decode_signing_key : bytes -> result SigningKey;
  decode_verifying_key : bytes -> result VerifyingKey;
  encode_verifying_key : VerifyingKey -> bytes }.

(** The key files: reading them and parsing their JSON is the system's and
    serde's part. *)
Record MlDsa65KeyFile := mkMlDsaKeyFile { mldsa_signing_key : bytes; mldsa_verifying_key : bytes }.
Record MlKemSessionKeyFile := mkMlKemKeyFile {
  decapsulation_key : bytes;
  encapsulation_key : bytes }.
Class KeyFiles := {
  read_ml_dsa_key_file : string -> result MlDsa65KeyFile;
  read_ml_kem_key_file : string -> result MlKemSessionKeyFile }.

Section configured.
Context `{Hashing} `{MlDsa}.

Inductive LocalSigningBackend :=
| LocalDeterministic
| LocalMlDsa65 (k : SigningKey)
| LocalHybridDeterministicMlDsa65 (k : SigningKey).

Record LoadedMlKemSessionMaterial := mkMlKemMaterial {
  key_file : MlKemSessionKeyFile;
  material_identity : SessionPublicIdentity }.

Inductive LocalSessionBackend :=
| SessionDeterministic
| HybridDeterministicMlKem768 (material : LoadedMlKemSessionMaterial).

Record ConfiguredCryptoBackend := mkConfigured {
  local_validator_id : ValidatorId;
  local_signing_backend : LocalSigningBackend;
  local_session_backend : LocalSessionBackend;
  deterministic : gmap ValidatorId string;
  identities : gmap ValidatorId PublicIdentity;
  session_identities : gmap ValidatorId (option SessionPublicIdentity);
  ml_dsa_verifying_keys : gmap ValidatorId VerifyingKey }.

Definition build_identity_map (g : GenesisConfig) : gmap ValidatorId PublicIdentity :=
  foldl (fun m v => <[validator_id v := public_identity v]> m) ∅ (validators g).

Definition build_session_identity_map (g : GenesisConfig)
    : gmap ValidatorId (option SessionPublicIdentity) :=
  foldl (fun m v => <[validator_id v := session_public_identity v]> m) ∅ (validators g).

Definition encoded_ml_dsa_key (p : PublicIdentity) : option bytes :=
  match c_scheme p with
  | PkMlDsa => PubId.as_single_bytes p
  | PkHybrid => PubId.component_bytes p PkMlDsa
  | _ => None
  end.

Fixpoint build_ml_dsa_verifying_key_map_from (m : gmap ValidatorId VerifyingKey)
    (vs : list ValidatorConfig) : result (gmap ValidatorId VerifyingKey) :=
  match vs with
  | [] => Ok m
  | v :: vs' =>
      match encoded_ml_dsa_key (public_identity v) with
      | None => build_ml_dsa_verifying_key_map_from m vs'
      | Some k => vk ← decode_verifying_key k;
                  build_ml_dsa_verifying_key_map_from (<[validator_id v := vk]> m) vs'
      end
  end.

Definition build_ml_dsa_verifying_key_map (g : GenesisConfig)
    : result (gmap ValidatorId VerifyingKey) :=
  build_ml_dsa_verifying_key_map_from ∅ (validators g).

Definition configured_sign (b : ConfiguredCryptoBackend) (id : ValidatorId) (m : bytes)
    : result TypedSignature :=
  match local_signing_backend b with
  | LocalDeterministic => deterministic_sign (deterministic b) id m
  | LocalMlDsa65 k =>
      if negb (id =? local_validator_id b)
      then Err "ML-DSA signing material is only available for the local validator"
      else Ok (single SigMlDsa (mldsa_sign k m))
  | LocalHybridDeterministicMlDsa65 k =>
      if negb (id =? local_validator_id b)
      then Err "hybrid signing material is only available for the local validator"
      else
        d ← deterministic_sign (deterministic b) id m;
        db ← ok_or (TypedSig.as_single_bytes d)
               "deterministic signature unexpectedly missing bytes";
        TypedSig.try_hybrid
          [mkComponent SigDevDeterministic db; mkComponent SigMlDsa (mldsa_sign k m)]
  end.

Definition verify_single_signature_component (b : ConfiguredCryptoBackend) (id : ValidatorId)
    (m : bytes) (scheme : SignatureScheme) (sb : bytes) : result bool :=
  match scheme with
  | SigDevDeterministic =>
      deterministic_verify (deterministic b) id m (single SigDevDeterministic sb)
  | SigMlDsa =>
      vk ← ok_or (ml_dsa_verifying_keys b !! id) "missing ML-DSA verifying key";
      if mldsa_signature_decodes sb then Ok (mldsa_verify vk m sb) else Ok false
  | _ => Ok false
  end.

(** The component loop of a hybrid identity. *)
Fixpoint verify_components (b : ConfiguredCryptoBackend) (id : ValidatorId) (m : bytes)
    (sig : TypedSignature) (cs : list PublicIdentityComponent) : result bool :=
  match cs with
  | [] => Ok true
  | c :: cs' =>
      match match comp_scheme c with
            | PkDevDeterministic => Some SigDevDeterministic
            | PkMlDsa => Some SigMlDsa
            | _ => None
            end with
      | None => Ok false
      | Some scheme =>
          match TypedSig.component_bytes sig scheme with
          | None => Ok false
          | Some sb =>
              ok ← verify_single_signature_component b id m scheme sb;
              if (ok : bool) then verify_components b id m sig cs' else Ok false
          end
      end
  end.

Definition verify_as_single (b : ConfiguredCryptoBackend) (id : ValidatorId) (m : bytes)
    (sig : TypedSignature) (scheme : SignatureScheme) : result bool :=
  if negb (bool_decide (c_scheme sig = scheme)) then Ok false
  else match TypedSig.as_single_bytes sig with
       | None => Ok false
       | Some sb => verify_single_signature_component b id m scheme sb
       end.

Definition verify_signature_against_identity (b : ConfiguredCryptoBackend) (id : ValidatorId)
    (p : PublicIdentity) (m : bytes) (sig : TypedSignature) : result bool :=
  match c_scheme p with
  | PkDevDeterministic => verify_as_single b id m sig SigDevDeterministic
  | PkMlDsa => verify_as_single b id m sig SigMlDsa
  | PkHybrid =>
      if bool_decide (c_scheme sig = SigHybrid) then
        if negb (Nat.eqb (length (c_components sig)) (length (c_components p))) then Ok false
        else verify_components b id m sig (c_components p)
      else
        match match c_scheme sig with
              | SigDevDeterministic => Some PkDevDeterministic
              | SigMlDsa => Some PkMlDsa
              | _ => None
              end with
        | None => Ok false
        | Some pk =>
            match PubId.component_bytes p pk with
            | None => Ok false
            | Some _ =>
                match TypedSig.as_single_bytes sig with
                | None => Ok false
                | Some sb => verify_single_signature_component b id m (c_scheme sig) sb
                end
            end
        end
  | _ => Ok false
  end.

Definition configured_verify (b : ConfiguredCryptoBackend) (id : ValidatorId) (m : bytes)
    (sig : TypedSignature) : result bool :=
  p ← ok_or (identities b !! id) "unknown validator id";
  verify_signature_against_identity b id p m sig.

Definition configured_backend (b : ConfiguredCryptoBackend) : CryptoBackend :=
  {| sign := configured_sign b; verify := configured_verify b |}.
End configured.

(** ** Lemmas *)

Section lemmas.
Context `{Hashing} `{MlDsa}.
Context (b : ConfiguredCryptoBackend).

Lemma verify_single_signature_component_scheme id m scheme sb :
  verify_single_signature_component b id m scheme sb = Ok true ->
  scheme = SigDevDeterministic \/ scheme = SigMlDsa.
Proof. destruct scheme; auto; done. Qed.

(** The signature scheme an identity component is checked under. *)
Definition scheme_of_key (k : PublicKeyScheme) : option SignatureScheme :=
  match k with
  | PkDevDeterministic => Some SigDevDeterministic
  | PkMlDsa => Some SigMlDsa
  | _ => None
  end.

Lemma verify_components_true id m sig cs :
  verify_components b id m sig cs = Ok true <->
  Forall (fun c => exists scheme sb,
    scheme_of_key (comp_scheme c) = Some scheme /\
    TypedSig.component_bytes sig scheme = Some sb /\
    verify_single_signature_component b id m scheme sb = Ok true) cs.
Proof.
  induction cs as [|c cs IHcs]; simpl; [by split; [constructor|]|].
  rewrite Forall_cons, <- IHcs. clear IHcs. fold (scheme_of_key (comp_scheme c)).
  destruct (scheme_of_key (comp_scheme c)) as [scheme|];
    [|split; [done | by intros [(? & ? & ? & _) _]]].
  destruct (TypedSig.component_bytes sig scheme) as [sb|] eqn:Esb;
    [|split; [done | by intros [(? & ? & [= <-] & ? & _) _]; congruence]].
  destruct (verify_single_signature_component b id m scheme sb) as [[]|] eqn:Ev; simpl.
  - split; [intros; split; [by exists scheme, sb | done] | by intros [_ ?]].
  - split; [done | intros [(? & ? & [= <-] & ? & ?) _]; congruence].
  - split; [done | intros [(? & ? & [= <-] & ? & ?) _]; congruence].
Qed.

(** A key pair: what ML-DSA documents. *)
Definition key_pair (k : SigningKey) (vk : VerifyingKey) : Prop :=
  forall m, mldsa_signature_decodes (mldsa_sign k m) = true /\
            mldsa_verify vk m (mldsa_sign k m) = true.

Lemma verify_det_component id m d :
  deterministic_sign (deterministic b) id m = Ok d ->
  verify_single_signature_component b id m SigDevDeterministic (c_bytes d) = Ok true.
Proof.
  intros Hd. pose proof (deterministic_sign_inv _ _ _ _ Hd) as (E & Ec & _).
  simpl. apply deterministic_verify_true. unfold single. rewrite <- E, <- Ec.
  by destruct d.
Qed.

Lemma verify_mldsa_component id m k vk :
  ml_dsa_verifying_keys b !! id = Some vk -> key_pair k vk ->
  verify_single_signature_component b id m SigMlDsa (mldsa_sign k m) = Ok true.
Proof. intros Hk Hp. simpl. rewrite Hk. simpl. by destruct (Hp m) as [-> ->]. Qed.
End lemmas.

(** A toy signature scheme in the place of ML-DSA: the key pair is one
    number and the signature prefixes the message with it. *)
Definition concrete_mldsa : MlDsa :=
  {| SigningKey := Z;
     VerifyingKey := Z;
     mldsa_sign := fun k m => k :: m;
     mldsa_signature_decodes := fun _ => true;
     mldsa_verify := fun k m s => bool_decide (s = k :: m);
     decode_signing_key := fun b => match b with [k] => Ok k | _ => Err "bad key" end;
     decode_verifying_key := fun b => match b with [k] => Ok k | _ => Err "bad key" end;
     encode_verifying_key := fun k => [k] |}.

(** ** Properties *)

Section properties.
Context `{Hashing} `{MlDsa}.

(** The genesis identity of [id] announces what the local signer produces,
    and its ML-DSA verifying key belongs to the signing key. *)
Definition identity_matches (b : ConfiguredCryptoBackend) (id : ValidatorId) : Prop :=
  exists p, identities b !! id = Some p /\
  match local_signing_backend b with
  | LocalDeterministic =>
      c_scheme p = PkDevDeterministic \/
      (c_scheme p = PkHybrid /\ is_Some (PubId.component_bytes p PkDevDeterministic))
  | LocalMlDsa65 k =>
      (exists vk, ml_dsa_verifying_keys b !! id = Some vk /\ key_pair k vk) /\
      (c_scheme p = PkMlDsa \/
       (c_scheme p = PkHybrid /\ is_Some (PubId.component_bytes p PkMlDsa)))
  | LocalHybridDeterministicMlDsa65 k =>
      (exists vk, ml_dsa_verifying_keys b !! id = Some vk /\ key_pair k vk) /\
      c_scheme p = PkHybrid /\
      (comp_scheme <$> c_components p) ≡ₚ [PkDevDeterministic; PkMlDsa]
  end.

Lemma configured_verify_single b id p m s scheme pk :
  identities b !! id = Some p ->
  c_scheme s = scheme -> scheme <> SigHybrid ->
  scheme_of_key pk = Some scheme ->
  c_scheme p = pk \/ (c_scheme p = PkHybrid /\ is_Some (PubId.component_bytes p pk)) ->
  verify_single_signature_component b id m scheme (c_bytes s) = Ok true ->
  configured_verify b id m s = Ok true.
Proof.
  intros Hp Hs Hne Hpk Hid Hv. unfold configured_verify. rewrite Hp. simpl.
  unfold verify_signature_against_identity, verify_as_single.
  assert (Hb : TypedSig.as_single_bytes s = Some (c_bytes s)).
  { unfold TypedSig.as_single_bytes, as_single_bytes. by rewrite bool_decide_false, ?Hs by (by rewrite Hs). }
  destruct Hid as [Hid|[Hid [cb Hcb]]]; rewrite Hid.
  - destruct pk; try done; injection Hpk as <-; by rewrite Hs, Hb.
  - rewrite bool_decide_false by (by rewrite Hs). rewrite Hs.
    destruct pk; try done; injection Hpk as <-; by rewrite Hcb, Hb.
Qed.

Lemma configured_sign_verify b id m s :
  identity_matches b id -> configured_sign b id m = Ok s ->
  configured_verify b id m s = Ok true.
Proof.
  intros (p & Hp & Hm) Hs. unfold configured_sign in Hs.
  destruct (local_signing_backend b) as [|k|k].
  - pose proof (deterministic_sign_inv _ _ _ _ Hs) as (E & _).
    eapply configured_verify_single with (pk := PkDevDeterministic); eauto; [done..|].
    by apply verify_det_component.
  - destruct Hm as [(vk & Hvk & Hkp) Hid]. case_match; [done|]. injection Hs as <-.
    eapply configured_verify_single with (pk := PkMlDsa); eauto; [done..|].
    by eapply verify_mldsa_component.
  - destruct Hm as [(vk & Hvk & Hkp) (Hh & Hcs)]. case_match; [done|].
    apply result_bind_ok in Hs as (d & Hd & Hs).
    pose proof (deterministic_sign_inv _ _ _ _ Hd) as (E & _).
    unfold TypedSig.as_single_bytes, as_single_bytes in Hs. rewrite E in Hs. simpl in Hs.
    injection Hs as <-. unfold configured_verify. rewrite Hp. simpl.
    unfold verify_signature_against_identity. rewrite Hh. simpl.
    rewrite <- (length_fmap comp_scheme (c_components p)), Hcs. simpl.
    apply verify_components_true. apply Forall_forall. intros c Hc.
    apply (list_elem_of_fmap_2 comp_scheme) in Hc. rewrite Hcs in Hc.
    rewrite !elem_of_cons, elem_of_nil in Hc. destruct Hc as [->|[->|[]]].
    + exists SigDevDeterministic, (c_bytes d). split_and!; [done..|].
      by apply verify_det_component.
    + exists SigMlDsa, (mldsa_sign k m). split_and!; [done..|].
      by eapply verify_mldsa_component.
Qed.

#[export] Instance configured_laws b : CryptoLaws (configured_backend b) (identity_matches b).
Proof. constructor. intros id m s. apply configured_sign_verify. Qed.

(** A signature made by the configured backend (deterministic, ML-DSA or
    hybrid) for a validator whose genesis identity announces that backend is
    accepted by the backend's own verification, for every message. *)
Lemma configured_sign_then_verify b id m s :
  identity_matches b id -> configured_sign b id m = Ok s ->
  configured_verify b id m s = Ok true.
Proof. apply configured_sign_verify. Qed.

(** C30: A hybrid signature accepted for a validator with a hybrid identity
    has as many components as the identity, and for every component of the
    identity it carries a component of that scheme which verifies. *)
Theorem hybrid_verify_checks_every_component b id p m s :
  identities b !! id = Some p -> c_scheme p = PkHybrid -> c_scheme s = SigHybrid ->
  configured_verify b id m s = Ok true ->
  length (c_components s) = length (c_components p) /\
  forall c, c ∈ c_components p ->
    exists scheme sb,
      scheme_of_key (comp_scheme c) = Some scheme /\
      TypedSig.component_bytes s scheme = Some sb /\
      verify_single_signature_component b id m scheme sb = Ok true.
Proof.
  intros Hp Hh Hs Hv. unfold configured_verify in Hv. rewrite Hp in Hv. simpl in Hv.
  unfold verify_signature_against_identity in Hv. rewrite Hh, bool_decide_true in Hv by done.
  destruct (Nat.eqb_spec (length (c_components s)) (length (c_components p))); [|done].
  split; [done|]. apply verify_components_true in Hv. by rewrite Forall_forall in Hv.
Qed.

(** The converse side of the component loop: an identity that is tagged
    hybrid but has no component (serde's derived visitors build one, and
    start-up checks the local validator's identity only) accepts the empty
    hybrid signature for every message. *)
Lemma empty_hybrid_identity_accepts_everything b id kb sb m :
  identities b !! id = Some (mkContainer PkHybrid kb []) ->
  configured_verify b id m (mkContainer SigHybrid sb []) = Ok true.
Proof. intros Hp. unfold configured_verify. by rewrite Hp. Qed.
End properties.

(** ** Witnesses *)

Module CryptoExample.
#[local] Existing Instance concrete_hashing.
#[local] Existing Instance concrete_mldsa.

Definition hybrid_identity : PublicIdentity :=
  mkContainer PkHybrid [] [mkComponent PkDevDeterministic [1]; mkComponent PkMlDsa [9]].
Definition backend : ConfiguredCryptoBackend :=
  mkConfigured 1 (LocalHybridDeterministicMlDsa65 (9 : SigningKey)) SessionDeterministic
    {[1 := "secret"%string]}
    {[1 := hybrid_identity; 2 := mkContainer PkHybrid [] []]} ∅
    {[1 := (9 : VerifyingKey)]}.
Definition message : bytes := [1; 2; 3].
Definition signature : TypedSignature :=
  match configured_sign backend 1 message with Ok s => s | Err _ => TypedSig.default end.

Lemma backend_identity_matches : identity_matches backend 1.
Proof.
  exists hybrid_identity. split; [done|]. split; [|done].
  exists (9%Z : @VerifyingKey concrete_mldsa). split; [done|]. intros m. split; [done|].
  by apply bool_decide_true.
Qed.

Lemma configured_sign_then_verify_witness :
  configured_verify backend 1 message signature = Ok true.
Proof.
  apply configured_sign_then_verify; [apply backend_identity_matches | vm_compute; reflexivity].
Defined.

Lemma hybrid_verify_checks_every_component_witness :
  exists scheme sb,
    TypedSig.component_bytes signature scheme = Some sb /\
    verify_single_signature_component backend 1 message scheme sb = Ok true.
Proof.
  assert (Hid : identities backend !! 1 = Some hybrid_identity) by (vm_compute; reflexivity).
  assert (Hs : c_scheme signature = SigHybrid) by (vm_compute; reflexivity).
  assert (Hv : configured_verify backend 1 message signature = Ok true) by (vm_compute; reflexivity).
  destruct (hybrid_verify_checks_every_component backend 1 hybrid_identity message signature
              Hid eq_refl Hs Hv) as [_ Hc].
  destruct (Hc (mkComponent PkMlDsa [9]) ltac:(right; left)) as (sc & sb & _ & ? & ?).
  exists sc, sb. auto.
Defined.

Lemma empty_hybrid_identity_accepts_everything_witness :
  configured_verify backend 2 message (mkContainer SigHybrid [] []) = Ok true.
Proof. apply empty_hybrid_identity_accepts_everything with (kb := []). reflexivity. Defined.
End CryptoExample.
