(* ===== verification/Sessions.v ===== *)
(** * Session handshakes and frame encryption

    The session half of crates/entangrid-crypto/src/lib.rs: the client and
    server hello, the trait [HandshakeProvider] as a class, its deterministic
    and configured implementations, the derivation of session material, the
    sealing of application frames, key loading and [build_crypto_backend].
    ML-KEM-768 ([MlKem]), ChaCha20-Poly1305 ([Aead]), bincode ([Bincode]) and
    the key files ([KeyFiles] of Crypto) are parameters, with what the code
    relies on as laws; the random bytes an encapsulation draws are an
    argument. *)
From stdpp Require Import pretty.
From S2P Require Import Prelude F64 Hybrid Types Concrete Crypto.

Open Scope Z_scope.

(** ** Third-party codecs and primitives *)

(** [bincode::serde::encode_to_vec] and [decode_from_slice] at a type. *)
Class Bincode (T : Type) := {
  encode_to_vec : T -> result bytes;
  decode_from_slice : bytes -> result T }.

(** Encoding the wire types does not fail, and the encoding delimits itself. *)
Class BincodeLaws (T : Type) `{Bincode T} := {
  encode_total : forall x : T, exists b, encode_to_vec x = Ok b;
  bincode_decodes : forall (x : T) b rest, encode_to_vec x = Ok b -> decode_from_slice (b ++ rest) = Ok x }.

(** ML-KEM-768: key and ciphertext decoding, encapsulation (with the random
    bytes it draws; ciphertext and shared key) and decapsulation. *)
Class MlKem := {
  EncapsulationKey : Type;
  DecapsulationKey : Type;
  Ciphertext : Type;
  decode_ml_kem_encapsulation_key : bytes -> result EncapsulationKey;
  decode_ml_kem_decapsulation_key : bytes -> result DecapsulationKey;
  decode_ml_kem_ciphertext : bytes -> result Ciphertext;
  ciphertext_bytes : Ciphertext -> bytes;
  encapsulate : EncapsulationKey -> bytes -> result (Ciphertext * bytes);
  decapsulate : DecapsulationKey -> Ciphertext -> result bytes }.

(** ChaCha20-Poly1305, detached: key, nonce, associated data and text. *)
Class Aead := {
  encrypt_detached : bytes -> bytes -> bytes -> bytes -> result (bytes * bytes);
  decrypt_detached : bytes -> bytes -> bytes -> bytes -> bytes -> result bytes }.

Class AeadLaws `{Aead} := {
  aead_tag_size : forall k n ad p c tag,
    encrypt_detached k n ad p = Ok (c, tag) -> length tag = 16%nat;
  aead_opens : forall k n ad p c tag,
    encrypt_detached k n ad p = Ok (c, tag) -> decrypt_detached k n ad c tag = Ok p }.

(** ** Data *)

Record SessionMaterial := mkSession {
  session_key : HashBytes;
  transcript_hash_of : HashBytes;
  encrypt_frames : bool }.

Inductive FrameDirection := Outbound | Inbound.

Record SessionClientHello := mkClientHello {
  ch_initiator : ValidatorId;
  ch_responder : ValidatorId;
  ch_nonce : HashBytes;
  ch_identity : SessionPublicIdentity;
  ch_kem_public_material : bytes;
  ch_signature : TypedSignature }.

Record SessionServerHello := mkServerHello {
  sh_responder : ValidatorId;
  sh_initiator : ValidatorId;
  sh_nonce : HashBytes;
  sh_identity : SessionPublicIdentity;
  sh_kem_ciphertext : bytes;
  sh_signature : TypedSignature }.

(** The tuples whose encodings are signed. *)
Abbreviation ClientHelloTuple :=
  (string * ValidatorId * ValidatorId * HashBytes * SessionPublicIdentity * bytes)%type.
Abbreviation ServerHelloTuple :=
  (string * bytes * ValidatorId * ValidatorId * HashBytes * SessionPublicIdentity * bytes)%type.

#[export] Instance SessionMaterial_eq_dec : EqDecision SessionMaterial.
Proof. solve_decision. Defined.
#[export] Instance SessionClientHello_eq_dec : EqDecision SessionClientHello.
Proof. solve_decision. Defined.
#[export] Instance SessionServerHello_eq_dec : EqDecision SessionServerHello.
Proof. solve_decision. Defined.

(** ** Frames *)

Definition FRAME_SESSION_ID_BYTES : nat := 16.
Definition FRAME_TAG_SIZE_BYTES : nat := 16.

Definition as_byte (d : FrameDirection) : Z := match d with Outbound => 0 | Inbound => 1 end.

(** [u64::to_be_bytes]. *)
Definition to_be_bytes (n : Z) : bytes := reverse (to_le_bytes n).

Definition frame_nonce (d : FrameDirection) (counter : Z) : bytes :=
  [as_byte d; 0; 0; 0] ++ to_be_bytes counter.

Definition frame_session_id (s : SessionMaterial) : bytes :=
  take FRAME_SESSION_ID_BYTES (hash_to_bytes (transcript_hash_of s)).

Definition frame_associated_data (s : SessionMaterial) (d : FrameDirection) (counter : Z) : bytes :=
  [as_byte d] ++ to_be_bytes counter ++ frame_session_id s.

Section frames.
Context `{Aead}.

Definition encrypt_frame_payload (s : SessionMaterial) (d : FrameDirection) (counter : Z)
    (plaintext : bytes) : result bytes :=
  '(ciphertext, tag) ← encrypt_detached (hash_to_bytes (session_key s)) (frame_nonce d counter)
                         (frame_associated_data s d counter) plaintext;
  Ok (ciphertext ++ tag).

Definition decrypt_frame_payload (s : SessionMaterial) (d : FrameDirection) (counter : Z)
    (ciphertext : bytes) : result bytes :=
  if (length ciphertext <? FRAME_TAG_SIZE_BYTES)%nat
  then Err "frame decryption failed: truncated ciphertext"
  else
    let split_at := (length ciphertext - FRAME_TAG_SIZE_BYTES)%nat in
    decrypt_detached (hash_to_bytes (session_key s)) (frame_nonce d counter)
      (frame_associated_data s d counter) (take split_at ciphertext) (drop split_at ciphertext).
End frames.

(** ** The interface of the transport *)

(** [HandshakeProvider]; accepting draws random bytes. *)
Class HandshakeProvider := {
  build_client_hello : ValidatorId -> ValidatorId -> HashBytes -> result SessionClientHello;
  accept_client_hello :
    bytes -> ValidatorId -> SessionClientHello -> result (SessionServerHello * SessionMaterial);
  finalize_client_session :
    ValidatorId -> SessionClientHello -> SessionServerHello -> result SessionMaterial;
  open_session : ValidatorId -> ValidatorId -> bytes -> result SessionMaterial }.

(** ** Transcripts and keys *)

Section handshake.
Context `{Hashing} `{!Bincode ClientHelloTuple} `{!Bincode ServerHelloTuple}.
Context `{!Bincode SessionClientHello} `{!Bincode SessionServerHello}.

Definition deterministic_session_public_identity (id : ValidatorId) : SessionPublicIdentity :=
  Hybrid.single SkDevDeterministic (string_to_bytes ("session-validator-" +:+ pretty id)).

Definition client_hello_signing_message (c : SessionClientHello) : result bytes :=
  encode_to_vec ("entangrid-session-client-hello"%string, ch_initiator c, ch_responder c,
                 ch_nonce c, ch_identity c, ch_kem_public_material c).

Definition server_hello_signing_message (c : SessionClientHello) (s : SessionServerHello)
    : result bytes :=
  client ← client_hello_signing_message c;
  encode_to_vec ("entangrid-session-server-hello"%string, client, sh_responder s, sh_initiator s,
                 sh_nonce s, sh_identity s, sh_kem_ciphertext s).

(** [TranscriptHasher] of both backends. *)
Definition transcript_hash (parts : list bytes) : HashBytes := hash_many parts.

Definition session_transcript_hash (c : SessionClientHello) (s : SessionServerHello)
    : result HashBytes :=
  client_bytes ← encode_to_vec c;
  server_bytes ← encode_to_vec s;
  Ok (transcript_hash [string_to_bytes "entangrid-session-transcript"; client_bytes; server_bytes]).

(** [DeterministicCryptoBackend::open_session]: the secrets of both ends in
    the order of their ids. *)
Definition deterministic_open_session (secrets : gmap ValidatorId string)
    (local peer : ValidatorId) (nonce : bytes) : result SessionMaterial :=
  local_secret ← secret secrets local;
  peer_secret ← secret secrets peer;
  let '(first_id, first_secret, second_id, second_secret) :=
    if local <=? peer then (local, local_secret, peer, peer_secret)
    else (peer, peer_secret, local, local_secret) in
  let th := transcript_hash
    [string_to_bytes "entangrid-session"; to_le_bytes first_id; string_to_bytes first_secret;
     to_le_bytes second_id; string_to_bytes second_secret; nonce] in
  Ok (mkSession (hash_many [string_to_bytes "session-key"; hash_to_bytes th]) th false).

Definition deterministic_session_component (secrets : gmap ValidatorId string)
    (local peer : ValidatorId) (nonce : HashBytes) : result HashBytes :=
  s ← deterministic_open_session secrets local peer (hash_to_bytes nonce);
  Ok (session_key s).

Definition derive_session_material (deterministic_component : HashBytes) (kem_component : bytes)
    (c : SessionClientHello) (s : SessionServerHello) (encrypt : bool) : result SessionMaterial :=
  th ← session_transcript_hash c s;
  Ok (mkSession (hash_many [string_to_bytes "entangrid-session-key-v2";
                            hash_to_bytes deterministic_component; kem_component; hash_to_bytes th])
        th encrypt).

(** [client_hello.signature = self.sign(..)], for any signer. *)
Definition sign_client_hello (sg : bytes -> result TypedSignature) (c : SessionClientHello)
    : result SessionClientHello :=
  msg ← client_hello_signing_message c;
  signature ← sg msg;
  Ok (mkClientHello (ch_initiator c) (ch_responder c) (ch_nonce c) (ch_identity c)
        (ch_kem_public_material c) signature).

Definition sign_server_hello (sg : bytes -> result TypedSignature) (c : SessionClientHello)
    (s : SessionServerHello) : result SessionServerHello :=
  msg ← server_hello_signing_message c s;
  signature ← sg msg;
  Ok (mkServerHello (sh_responder s) (sh_initiator s) (sh_nonce s) (sh_identity s)
        (sh_kem_ciphertext s) signature).

(** The checks of both implementations on who talks to whom. *)
Definition check_server_transcript (local : ValidatorId) (c : SessionClientHello)
    (s : SessionServerHello) : result unit :=
  _ ← ensure (ch_initiator c =? local) "client hello initiator does not match local validator";
  ensure ((sh_initiator s =? local) && (sh_responder s =? ch_responder c)
          && (sh_nonce s =? ch_nonce c)) "server hello does not match the client hello transcript".

(** ** The deterministic provider *)

Section deterministic.
Variable secrets : gmap ValidatorId string.

Definition det_build_client_hello (local peer : ValidatorId) (nonce : HashBytes)
    : result SessionClientHello :=
  sign_client_hello (deterministic_sign secrets local)
    (mkClientHello local peer nonce (deterministic_session_public_identity local) []
       TypedSig.default).

Definition det_accept_client_hello (local : ValidatorId) (c : SessionClientHello)
    : result (SessionServerHello * SessionMaterial) :=
  _ ← ensure (ch_responder c =? local) "client hello responder does not match local validator";
  _ ← ensure (bool_decide (ch_identity c = deterministic_session_public_identity (ch_initiator c)))
        "validator advertised an unexpected deterministic session public identity";
  msg ← client_hello_signing_message c;
  verified ← deterministic_verify secrets (ch_initiator c) msg (ch_signature c);
  _ ← ensure verified "client hello signature verification failed";
  s ← sign_server_hello (deterministic_sign secrets local) c
        (mkServerHello local (ch_initiator c) (ch_nonce c)
           (deterministic_session_public_identity local) [] TypedSig.default);
  component ← deterministic_session_component secrets local (ch_initiator c) (ch_nonce c);
  session ← derive_session_material component [] c s false;
  Ok (s, session).

Definition det_finalize_client_session (local : ValidatorId) (c : SessionClientHello)
    (s : SessionServerHello) : result SessionMaterial :=
  _ ← check_server_transcript local c s;
  _ ← ensure (bool_decide (sh_identity s = deterministic_session_public_identity (sh_responder s)))
        "validator advertised an unexpected deterministic session public identity";
  msg ← server_hello_signing_message c s;
  verified ← deterministic_verify secrets (sh_responder s) msg (sh_signature s);
  _ ← ensure verified "server hello signature verification failed";
  component ← deterministic_session_component secrets local (sh_responder s) (ch_nonce c);
  derive_session_material component [] c s false.

Definition deterministic_handshakes : HandshakeProvider :=
  {| build_client_hello := det_build_client_hello;
     accept_client_hello := fun _ => det_accept_client_hello;
     finalize_client_session := det_finalize_client_session;
     open_session := deterministic_open_session secrets |}.
End deterministic.

(** ** The configured provider *)

Section configured.
Context `{MlDsa} `{MlKem}.
Variable b : ConfiguredCryptoBackend.

Definition encrypt_frames_for_local_session_backend : bool :=
  match local_session_backend b with
  | SessionDeterministic => false
  | HybridDeterministicMlKem768 _ => true
  end.

Definition expected_session_identity (id : ValidatorId) : result (option SessionPublicIdentity) :=
  ok_or (session_identities b !! id) "unknown validator id".

Definition local_session_identity (id : ValidatorId) : SessionPublicIdentity :=
  match local_session_backend b with
  | SessionDeterministic => deterministic_session_public_identity id
  | HybridDeterministicMlKem768 material => material_identity material
  end.

Definition local_ml_kem_session_material : result LoadedMlKemSessionMaterial :=
  match local_session_backend b with
  | HybridDeterministicMlKem768 material => Ok material
  | SessionDeterministic =>
      Err "ML-KEM session material is unavailable for deterministic session backend"
  end.

(** An identity is only compared when genesis lists one. *)
Definition verify_expected_session_identity (id : ValidatorId) (advertised : SessionPublicIdentity)
    : result unit :=
  expected ← expected_session_identity id;
  match expected with
  | Some x => ensure (bool_decide (x = advertised))
                "validator advertised a session public identity that does not match genesis"
  | None => Ok tt
  end.

Definition local_kem_public_material : bytes :=
  match local_session_backend b with
  | SessionDeterministic => []
  | HybridDeterministicMlKem768 material => encapsulation_key (key_file material)
  end.

Definition configured_build_client_hello (local peer : ValidatorId) (nonce : HashBytes)
    : result SessionClientHello :=
  sign_client_hello (configured_sign b local)
    (mkClientHello local peer nonce (local_session_identity local) local_kem_public_material
       TypedSig.default).

(** The ML-KEM key an identity carries. *)
Definition expected_ml_kem (p : SessionPublicIdentity) : result bytes :=
  match c_scheme p with
  | SkMlKem => ok_or (SessionId.as_single_bytes p) "session public identity missing ML-KEM bytes"
  | SkHybrid => ok_or (SessionId.component_bytes p SkMlKem)
                  "session public identity missing ML-KEM component"
  | SkDevDeterministic => Err "session public identity does not carry ML-KEM material"
  end.

(** The server's side of the key exchange: shared key and ciphertext. *)
Definition server_kem (rng : bytes) (c : SessionClientHello) : result (bytes * bytes) :=
  match local_session_backend b with
  | SessionDeterministic =>
      _ ← ensure (bool_decide (ch_kem_public_material c = []))
            "deterministic session backend does not accept ML-KEM client material";
      _ ← ensure (bool_decide (ch_identity c = deterministic_session_public_identity (ch_initiator c)))
            "validator advertised an unexpected deterministic session public identity";
      Ok ([], [])
  | HybridDeterministicMlKem768 _ =>
      _ ← verify_expected_session_identity (ch_initiator c) (ch_identity c);
      expected ← expected_ml_kem (ch_identity c);
      _ ← ensure (bool_decide (ch_kem_public_material c = expected))
            "session public identity does not match advertised ML-KEM material";
      ek ← decode_ml_kem_encapsulation_key (ch_kem_public_material c);
      '(ciphertext, shared_key) ← encapsulate ek rng;
      Ok (shared_key, ciphertext_bytes ciphertext)
  end.

Definition configured_accept_client_hello (rng : bytes) (local : ValidatorId)
    (c : SessionClientHello) : result (SessionServerHello * SessionMaterial) :=
  _ ← ensure (ch_responder c =? local) "client hello responder does not match local validator";
  msg ← client_hello_signing_message c;
  verified ← configured_verify b (ch_initiator c) msg (ch_signature c);
  _ ← ensure verified "client hello signature verification failed";
  '(kem_component, kem_ciphertext) ← server_kem rng c;
  s ← sign_server_hello (configured_sign b local) c
        (mkServerHello local (ch_initiator c) (ch_nonce c) (local_session_identity local)
           kem_ciphertext TypedSig.default);
  component ← deterministic_session_component (deterministic b) local (ch_initiator c) (ch_nonce c);
  session ← derive_session_material component kem_component c s
              encrypt_frames_for_local_session_backend;
  Ok (s, session).

(** The client's side of the key exchange. *)
Definition client_kem (s : SessionServerHello) : result bytes :=
  match local_session_backend b with
  | SessionDeterministic =>
      _ ← ensure (bool_decide (sh_kem_ciphertext s = []))
            "deterministic session backend does not accept ML-KEM server material";
      _ ← ensure (bool_decide (sh_identity s = deterministic_session_public_identity (sh_responder s)))
            "validator advertised an unexpected deterministic session public identity";
      Ok []
  | HybridDeterministicMlKem768 _ =>
      _ ← verify_expected_session_identity (sh_responder s) (sh_identity s);
      material ← local_ml_kem_session_material;
      dk ← decode_ml_kem_decapsulation_key (decapsulation_key (key_file material));
      ciphertext ← decode_ml_kem_ciphertext (sh_kem_ciphertext s);
      decapsulate dk ciphertext
  end.

Definition configured_finalize_client_session (local : ValidatorId) (c : SessionClientHello)
    (s : SessionServerHello) : result SessionMaterial :=
  _ ← check_server_transcript local c s;
  msg ← server_hello_signing_message c s;
  verified ← configured_verify b (sh_responder s) msg (sh_signature s);
  _ ← ensure verified "server hello signature verification failed";
  kem_component ← client_kem s;
  component ← deterministic_session_component (deterministic b) local (sh_responder s) (ch_nonce c);
  derive_session_material component kem_component c s encrypt_frames_for_local_session_backend.

Definition configured_handshakes : HandshakeProvider :=
  {| build_client_hello := configured_build_client_hello;
     accept_client_hello := configured_accept_client_hello;
     finalize_client_session := configured_finalize_client_session;
     open_session := deterministic_open_session (deterministic b) |}.
End configured.
End handshake.

(** ** Loading keys and building the backend *)

Section loading.
Context `{Hashing} `{MlDsa} `{KeyFiles}.

Definition load_ml_dsa_signing_material (v : ValidatorConfig) (config : NodeConfig)
    : result SigningKey :=
  path ← ok_or (signing_key_path config) "ML-DSA backend requires signing_key_path";
  file ← read_ml_dsa_key_file path;
  sk ← decode_signing_key (mldsa_signing_key file);
  vk ← decode_verifying_key (mldsa_verifying_key file);
  let encoded := encode_verifying_key vk in
  _ ← match c_scheme (public_identity v) with
      | PkMlDsa =>
          ensure (bool_decide (PubId.as_single_bytes (public_identity v) = Some encoded))
            "public identity does not match ML-DSA signing key"
      | PkHybrid =>
          ensure (bool_decide (PubId.component_bytes (public_identity v) PkMlDsa = Some encoded))
            "hybrid public identity does not include a matching ML-DSA component"
      | _ => Err "public identity does not match ML-DSA signing key"
      end;
  Ok sk.

Definition load_ml_kem_session_material (v : ValidatorConfig) (config : NodeConfig)
    : result LoadedMlKemSessionMaterial :=
  path ← ok_or (session_key_path config) "hybrid session backend requires session_key_path";
  identity ← ok_or (session_public_identity v) "validator missing session public identity";
  file ← read_ml_kem_key_file path;
  _ ← ensure (negb (bool_decide (decapsulation_key file = []))
              && negb (bool_decide (encapsulation_key file = [])))
        "ML-KEM session key file is missing key material";
  expected ← expected_ml_kem identity;
  _ ← ensure (bool_decide (expected = encapsulation_key file))
        "session public identity does not match configured ML-KEM session key";
  Ok (mkMlKemMaterial file identity).

Definition build_local_session_backend (v : ValidatorConfig) (config : NodeConfig)
    : result LocalSessionBackend :=
  match session_backend config with
  | SeDevDeterministic => Ok SessionDeterministic
  | SeHybridDeterministicMlKemExperimental =>
      material ← load_ml_kem_session_material v config;
      Ok (HybridDeterministicMlKem768 material)
  end.

Definition build_crypto_backend (g : GenesisConfig) (config : NodeConfig)
    : result ConfiguredCryptoBackend :=
  v ← validator_config g (node_id config);
  session ← build_local_session_backend v config;
  signing ← match signing_backend config with
            | SbDevDeterministic =>
                _ ← validate_deterministic_identity v; Ok LocalDeterministic
            | SbMlDsa65Experimental =>
                k ← load_ml_dsa_signing_material v config; Ok (LocalMlDsa65 k)
            | SbHybridDeterministicMlDsaExperimental =>
                _ ← validate_deterministic_identity v;
                k ← load_ml_dsa_signing_material v config;
                Ok (LocalHybridDeterministicMlDsa65 k)
            end;
  keys ← build_ml_dsa_verifying_key_map g;
  Ok (mkConfigured (node_id config) signing session (from_validators (validators g))
        (build_identity_map g) (build_session_identity_map g) keys).
End loading.
