(* ===== verification/Handshakes.v ===== *)
(** * Session handshakes: what they establish

    Nodes that load the same genesis agree on how signatures verify
    ([same_genesis_keys]), a started node signs what its peers accept
    ([built_backend_signs]), and so an honest handshake completes and leaves
    both ends with the same session.  What an end that completed knows of its
    peer, and that a transcript hash fixes both hellos, follow from the checks.
    The last section concerns sealed frames. *)
From S2P Require Import Prelude F64 Hybrid Types Concrete Crypto Sessions.

Open Scope Z_scope.

(** ** Verification depends on genesis only *)

Section keys.
Context `{Hashing} `{MlDsa}.

Definition same_genesis_keys (b b' : ConfiguredCryptoBackend) : Prop :=
  deterministic b = deterministic b' /\ identities b = identities b' /\
  session_identities b = session_identities b' /\
  ml_dsa_verifying_keys b = ml_dsa_verifying_keys b'.

#[export] Instance same_genesis_keys_equivalence : Equivalence same_genesis_keys.
Proof.
  split; [by intros b | by intros b b' (? & ? & ? & ?) |].
  intros b b' b'' (? & ? & ? & ?) (? & ? & ? & ?). unfold same_genesis_keys. intuition congruence.
Qed.

#[export] Instance verify_component_proper :
  Proper (same_genesis_keys ==> eq ==> eq ==> eq ==> eq ==> eq) verify_single_signature_component.
Proof.
  intros b b' (Hd & _ & _ & Hk) id ? <- m ? <- scheme ? <- sb ? <-.
  unfold verify_single_signature_component. by rewrite Hd, Hk.
Qed.

#[export] Instance configured_verify_proper :
  Proper (same_genesis_keys ==> eq ==> eq ==> eq ==> eq) configured_verify.
Proof.
  intros b b' Hb id ? <- m ? <- s ? <-.
  assert (Hc : forall cs, verify_components b id m s cs = verify_components b' id m s cs).
  { induction cs as [|c cs IH]; simpl; [done|]. destruct (comp_scheme c); try done;
      (destruct (TypedSig.component_bytes s _) as [sb|]; [|done]); rewrite Hb, IH; done. }
  unfold configured_verify, verify_signature_against_identity, verify_as_single.
  destruct (Hb) as (Hd & <- & _ & Hk). destruct (identities b !! id) as [p|]; [simpl|done].
  destruct (c_scheme p); repeat case_match; rewrite ?Hc, ?Hb, ?Hd, ?Hk; done.
Qed.

(** A validator whose backend is at hand for signing. *)
Definition can_sign (b : ConfiguredCryptoBackend) (id : ValidatorId) : Prop :=
  forall m, exists s, configured_sign b id m = Ok s.

Lemma deterministic_can_sign secrets id m :
  is_Some (secrets !! id) -> exists s, deterministic_sign secrets id m = Ok s.
Proof. intros [k Hk]. unfold deterministic_sign, secret. rewrite Hk. simpl. eauto. Qed.

Lemma configured_can_sign b id :
  id = local_validator_id b -> is_Some (deterministic b !! id) -> can_sign b id.
Proof.
  intros -> Hs m. unfold configured_sign.
  destruct (deterministic_can_sign (deterministic b) _ m Hs) as [s Hd].
  destruct (local_signing_backend b); rewrite ?Z.eqb_refl; simpl; [idtac|eauto|]. exact (ex_intro _ s Hd).
  rewrite Hd. simpl. unfold TypedSig.as_single_bytes, as_single_bytes.
  apply deterministic_sign_inv in Hd as (-> & _). simpl. eauto.
Qed.
End keys.

(** ** What a started node's backend holds *)

Section built.
Context `{Hashing} `{MlDsa} `{KeyFiles}.

(** The codec of verifying keys inverts itself. *)
Hypothesis key_codec : forall vk, decode_verifying_key (encode_verifying_key vk) = Ok vk.

(** What an operator has to provide: an ML-DSA key file that holds a key pair,
    and, to sign with both schemes, an identity of exactly these two. *)
Definition signing_setup (g : GenesisConfig) (config : NodeConfig) : Prop :=
  match signing_backend config with
  | SbDevDeterministic => True
  | backend =>
      (forall path file sk vk,
         signing_key_path config = Some path -> read_ml_dsa_key_file path = Ok file ->
         decode_signing_key (mldsa_signing_key file) = Ok sk ->
         decode_verifying_key (mldsa_verifying_key file) = Ok vk -> key_pair sk vk) /\
      (backend = SbHybridDeterministicMlDsaExperimental -> forall v,
         validator_config g (node_id config) = Ok v -> c_scheme (public_identity v) = PkHybrid /\
         (comp_scheme <$> c_components (public_identity v)) ≡ₚ [PkDevDeterministic; PkMlDsa])
  end.

Lemma validator_config_elem g id v :
  validator_config g id = Ok v -> v ∈ validators g /\ validator_id v = id.
Proof.
  unfold validator_config. destruct (find_first _ _) as [w|] eqn:E; simpl; [|done]. intros [= ->].
  apply find_first_some in E as [? ?%Z.eqb_eq]. done.
Qed.

Lemma verifying_key_lookup vs m out v k :
  NoDup (validator_id <$> vs) -> build_ml_dsa_verifying_key_map_from m vs = Ok out ->
  v ∈ vs -> encoded_ml_dsa_key (public_identity v) = Some k ->
  exists vk, decode_verifying_key k = Ok vk /\ out !! validator_id v = Some vk.
Proof.
  assert (Hkeep : forall vs m out id vk, id ∉ validator_id <$> vs ->
    build_ml_dsa_verifying_key_map_from m vs = Ok out -> m !! id = Some vk -> out !! id = Some vk).
  { intros l. induction l as [|w ws IH]; intros m' out' id vk Hni; simpl; [by intros [= ->]|].
    rewrite fmap_cons, not_elem_of_cons in Hni. destruct Hni as [Hne Hni].
    destruct (encoded_ml_dsa_key _) as [k'|]; [|by apply IH].
    intros (vk' & _ & Hb)%result_bind_ok Hm. eapply IH; [done|exact Hb|]. by rewrite lookup_insert_ne. }
  revert m. induction vs as [|w ws IH]; intros m Hnd Hb Hv Hk; [by apply elem_of_nil in Hv|].
  rewrite fmap_cons in Hnd. apply NoDup_cons in Hnd as [Hni Hnd]. simpl in Hb.
  apply elem_of_cons in Hv as [->|Hv].
  - rewrite Hk in Hb. apply result_bind_ok in Hb as (vk & Hd & Hb). exists vk. split; [done|].
    eapply Hkeep; [exact Hni|exact Hb|]. apply lookup_insert_eq.
  - destruct (encoded_ml_dsa_key (public_identity w)); [|by eapply IH].
    apply result_bind_ok in Hb as (vk & _ & Hb). by eapply IH.
Qed.

(** The deterministic start-up check leaves these identities. *)
Lemma deterministic_identity_scheme v :
  validate_deterministic_identity v = Ok tt ->
  c_scheme (public_identity v) = PkDevDeterministic \/
  (c_scheme (public_identity v) = PkHybrid /\
   is_Some (PubId.component_bytes (public_identity v) PkDevDeterministic)).
Proof.
  unfold validate_deterministic_identity. case_bool_decide as E; [by rewrite E; left|].
  simpl. destruct (c_scheme (public_identity v)); [by left|done|done|].
  rewrite ensure_ok. intros Hc%bool_decide_eq_true. right. rewrite Hc. eauto.
Qed.

(** Loading an ML-DSA key: the identity carries its verifying key. *)
Lemma loaded_ml_dsa v config k :
  load_ml_dsa_signing_material v config = Ok k ->
  exists path file vk, signing_key_path config = Some path /\ read_ml_dsa_key_file path = Ok file /\
    decode_signing_key (mldsa_signing_key file) = Ok k /\
    decode_verifying_key (mldsa_verifying_key file) = Ok vk /\
    encoded_ml_dsa_key (public_identity v) = Some (encode_verifying_key vk) /\
    (c_scheme (public_identity v) = PkMlDsa \/
     (c_scheme (public_identity v) = PkHybrid /\
      is_Some (PubId.component_bytes (public_identity v) PkMlDsa))).
Proof.
  unfold load_ml_dsa_signing_material, encoded_ml_dsa_key.
  destruct (signing_key_path config) as [path|]; [|done]. simpl.
  intros (file & Hf & (sk & Hs & (vk & Hv & (u & Hm & [= <-])%result_bind_ok)%result_bind_ok)
    %result_bind_ok)%result_bind_ok.
  exists path, file, vk. split_and!; [done..| |];
    destruct (c_scheme (public_identity v)); try done;
    apply ensure_ok, bool_decide_eq_true in Hm; [done|done|by left|right; rewrite Hm; eauto].
Qed.

Lemma build_backend_fields g config b :
  build_crypto_backend g config = Ok b ->
  local_validator_id b = node_id config /\
  deterministic b = from_validators (validators g) /\ identities b = build_identity_map g /\
  session_identities b = build_session_identity_map g /\
  build_ml_dsa_verifying_key_map g = Ok (ml_dsa_verifying_keys b) /\
  exists v, validator_config g (node_id config) = Ok v /\
    build_local_session_backend v config = Ok (local_session_backend b) /\
    match signing_backend config with
    | SbDevDeterministic => validate_deterministic_identity v = Ok tt /\
        local_signing_backend b = LocalDeterministic
    | SbMlDsa65Experimental => exists k, load_ml_dsa_signing_material v config = Ok k /\
        local_signing_backend b = LocalMlDsa65 k
    | SbHybridDeterministicMlDsaExperimental => exists k,
        validate_deterministic_identity v = Ok tt /\
        load_ml_dsa_signing_material v config = Ok k /\
        local_signing_backend b = LocalHybridDeterministicMlDsa65 k
    end.
Proof.
  unfold build_crypto_backend.
  intros (v & Hv & (se & Hse & (sg & Hsg & (ks & Hks & [= <-])%result_bind_ok)%result_bind_ok)
    %result_bind_ok)%result_bind_ok. split_and!; [done..|]. exists v. split_and!; [done..|]. simpl.
  destruct (signing_backend config); apply result_bind_ok in Hsg as (k & Hk & Hsg).
  - injection Hsg as <-. by destruct k.
  - injection Hsg as <-. eauto.
  - apply result_bind_ok in Hsg as (k' & Hk' & [= <-]). destruct k. eauto.
Qed.

Lemma built_same_keys g c c' b b' :
  build_crypto_backend g c = Ok b -> build_crypto_backend g c' = Ok b' -> same_genesis_keys b b'.
Proof.
  intros (_ & Hd & Hi & Hs & Hk & _)%build_backend_fields
    (_ & Hd' & Hi' & Hs' & Hk' & _)%build_backend_fields.
  unfold same_genesis_keys. split_and!; congruence.
Qed.

Lemma built_identity_matches g config b :
  NoDup (validator_id <$> validators g) -> signing_setup g config ->
  build_crypto_backend g config = Ok b -> identity_matches b (node_id config).
Proof.
  intros Hnd Hset (Hid & _ & Hi & _ & Hk & v & Hv & _ & Hsg)%build_backend_fields.
  pose proof (validator_config_elem _ _ _ Hv) as [Hin Hvid].
  assert (Hp : identities b !! node_id config = Some (public_identity v)).
  { rewrite Hi, <- Hvid. by apply (foldl_insert_lookup validator_id public_identity). }
  assert (Hload : forall k, load_ml_dsa_signing_material v config = Ok k ->
    signing_backend config <> SbDevDeterministic ->
    exists vk, ml_dsa_verifying_keys b !! node_id config = Some vk /\ key_pair k vk).
  { intros k Hl Hne. apply loaded_ml_dsa in Hl as (path & file & vk & Hpa & Hf & Hsk & Hvk & He & _).
    destruct (verifying_key_lookup _ _ _ v _ Hnd Hk Hin He) as (vk' & Hdec & Hl).
    rewrite key_codec in Hdec. injection Hdec as <-. exists vk. rewrite <- Hvid. split; [done|].
    unfold signing_setup in Hset. destruct (signing_backend config); [done|..];
      destruct Hset as [Hpair _]; by eapply Hpair. }
  unfold identity_matches. exists (public_identity v). split; [done|].
  unfold signing_setup in Hset. destruct (signing_backend config).
  - destruct Hsg as [Hd ->]. by apply deterministic_identity_scheme.
  - destruct Hsg as (k & Hl & ->). split; [by apply Hload|].
    by apply loaded_ml_dsa in Hl as (? & ? & ? & _ & _ & _ & _ & _ & ?).
  - destruct Hsg as (k & Hd & Hl & ->). split; [by apply Hload|]. by apply Hset.
Qed.

Lemma built_secret g config b :
  NoDup (validator_id <$> validators g) -> build_crypto_backend g config = Ok b ->
  is_Some (deterministic b !! node_id config).
Proof.
  intros Hnd (_ & -> & _ & _ & _ & v & Hv & _)%build_backend_fields.
  apply validator_config_elem in Hv as [Hin <-]. unfold from_validators.
  rewrite (foldl_insert_lookup validator_id dev_secret) by done. eauto.
Qed.

(** What one started node signs, every other accepts. *)
Lemma built_backend_signs g c c' b b' m :
  NoDup (validator_id <$> validators g) -> signing_setup g c ->
  build_crypto_backend g c = Ok b -> build_crypto_backend g c' = Ok b' ->
  exists s, configured_sign b (node_id c) m = Ok s /\ configured_verify b' (node_id c) m s = Ok true.
Proof.
  intros Hnd Hset Hb Hb'.
  assert (Hid : node_id c = local_validator_id b) by (by apply build_backend_fields in Hb as [-> _]).
  destruct (configured_can_sign b (node_id c) Hid (built_secret _ _ _ Hnd Hb) m) as [s Hs].
  exists s. split; [done|]. rewrite <- (built_same_keys _ _ _ _ _ Hb Hb').
  apply configured_sign_verify; [by eapply built_identity_matches|done].
Qed.
End built.

(** ** The honest handshake *)

Lemma deterministic_open_session_sym `{Hashing} secrets x y n :
  deterministic_open_session secrets x y n = deterministic_open_session secrets y x n.
Proof.
  unfold deterministic_open_session, secret.
  destruct (decide (x = y)) as [->|Hne]; [done|].
  destruct (secrets !! x) as [kx|], (secrets !! y) as [ky|]; simpl; try done.
  by destruct (Z.leb_spec x y), (Z.leb_spec y x); try lia.
Qed.

Section handshake.
Context `{Hashing} `{MlDsa} `{MlKem} `{KeyFiles}.
Context `{!Bincode ClientHelloTuple} `{!Bincode ServerHelloTuple}.
Context `{!Bincode SessionClientHello} `{!Bincode SessionServerHello}.
Context `{!BincodeLaws ClientHelloTuple} `{!BincodeLaws ServerHelloTuple}.
Context `{!BincodeLaws SessionClientHello} `{!BincodeLaws SessionServerHello}.
Hypothesis key_codec : forall vk, decode_verifying_key (encode_verifying_key vk) = Ok vk.

(** A pair of encoded ML-KEM keys: what one encapsulates the other opens. *)
Definition kem_pair (ekb dkb : bytes) : Prop :=
  exists ek dk, decode_ml_kem_encapsulation_key ekb = Ok ek /\
    decode_ml_kem_decapsulation_key dkb = Ok dk /\
    forall rng, exists ct k, encapsulate ek rng = Ok (ct, k) /\
      decode_ml_kem_ciphertext (ciphertext_bytes ct) = Ok ct /\ decapsulate dk ct = Ok k.

Definition session_setup (config : NodeConfig) : Prop :=
  match session_backend config with
  | SeDevDeterministic => True
  | SeHybridDeterministicMlKemExperimental => forall path file,
      session_key_path config = Some path -> read_ml_kem_key_file path = Ok file ->
      kem_pair (encapsulation_key file) (decapsulation_key file)
  end.

(** What loading the session backend leaves. *)
Lemma built_session g config b :
  NoDup (validator_id <$> validators g) -> build_crypto_backend g config = Ok b ->
  match session_backend config, local_session_backend b with
  | SeDevDeterministic, SessionDeterministic => True
  | SeHybridDeterministicMlKemExperimental, HybridDeterministicMlKem768 mat =>
      session_identities b !! node_id config = Some (Some (material_identity mat)) /\
      expected_ml_kem (material_identity mat) = Ok (encapsulation_key (key_file mat)) /\
      exists path, session_key_path config = Some path /\
        read_ml_kem_key_file path = Ok (key_file mat)
  | _, _ => False
  end.
Proof.
  intros Hnd (_ & _ & _ & Hs & _ & v & Hv & Hl & _)%build_backend_fields.
  apply validator_config_elem in Hv as [Hin <-].
  unfold build_local_session_backend in Hl. destruct (session_backend config); [by injection Hl as <-|].
  apply result_bind_ok in Hl as (mat & Hl & [= <-]). unfold load_ml_kem_session_material in Hl.
  destruct (session_key_path config) as [path|]; [|done].
  destruct (session_public_identity v) as [p|] eqn:Ep; [|done]. simpl in Hl.
  apply result_bind_ok in Hl as (file & Hf & (u & _ & (k & Hk & (u' & He & [= <-])%result_bind_ok)
    %result_bind_ok)%result_bind_ok).
  apply ensure_ok, bool_decide_eq_true in He. subst k. simpl. split_and!; [|done|eauto].
  rewrite Hs, <- Ep. by apply (foldl_insert_lookup validator_id session_public_identity).
Qed.

Section honest.
Context (g : GenesisConfig) (cc cs : NodeConfig) (bc bs : ConfiguredCryptoBackend).
Hypothesis ids_distinct : NoDup (validator_id <$> validators g).
Hypothesis built_c : build_crypto_backend g cc = Ok bc.
Hypothesis built_s : build_crypto_backend g cs = Ok bs.
Hypothesis same_kind : session_backend cc = session_backend cs.
Hypothesis setup_c : signing_setup g cc /\ session_setup cc.
Hypothesis setup_s : signing_setup g cs.

Lemma honest_kem rng nonce sig :
  let hello := mkClientHello (node_id cc) (node_id cs) nonce (local_session_identity bc (node_id cc))
                 (local_kem_public_material bc) sig in
  exists k ct, server_kem bs rng hello = Ok (k, ct) /\
    forall sig', client_kem bc (mkServerHello (node_id cs) (node_id cc) nonce
                                 (local_session_identity bs (node_id cs)) ct sig') = Ok k.
Proof.
  pose proof (built_session _ _ _ ids_distinct built_c) as Hc.
  pose proof (built_session _ _ _ ids_distinct built_s) as Hs.
  destruct setup_c as [_ Hkem]. unfold session_setup in Hkem.
  destruct (built_same_keys _ _ _ _ _ built_c built_s) as (_ & _ & Hids & _).
  unfold server_kem, client_kem, local_session_identity, local_kem_public_material,
    local_ml_kem_session_material, verify_expected_session_identity, expected_session_identity.
  rewrite <- same_kind in Hs.
  destruct (session_backend cc), (local_session_backend bc) as [|mc] eqn:Ec,
    (local_session_backend bs) as [|ms] eqn:Es; try contradiction; cbn [ch_kem_public_material
      ch_identity ch_initiator sh_responder sh_identity sh_kem_ciphertext].
  { exists [], []. rewrite !(bool_decide_true (_ = _)) by reflexivity. split; [reflexivity|].
    intros _. reflexivity. }
  destruct Hc as (Hic & Hek & path & Hpath & Hfile). destruct Hs as (His & _).
  destruct (Hkem _ _ Hpath Hfile) as (ek & dk & Hek' & Hdk & Hkp).
  destruct (Hkp rng) as (ct & k & Henc & Hct & Hdec). exists k, (ciphertext_bytes ct).
  rewrite <- Hids, Hic. simpl. rewrite bool_decide_true, Hek by done. simpl.
  rewrite bool_decide_true, Hek' by done. simpl. rewrite Henc. simpl. split; [done|].
  intros sig'. rewrite Hids, His. simpl. rewrite bool_decide_true by done. simpl.
  rewrite Hdk. simpl. by rewrite Hct.
Qed.

Lemma honest_component nonce :
  exists d, deterministic_session_component (deterministic bs) (node_id cs) (node_id cc) nonce = Ok d /\
    deterministic_session_component (deterministic bc) (node_id cc) (node_id cs) nonce = Ok d.
Proof.
  destruct (built_same_keys _ _ _ _ _ built_c built_s) as (Hd & _).
  destruct (built_secret _ _ _ ids_distinct built_c) as [kc Hkc].
  destruct (built_secret _ _ _ ids_distinct built_s) as [ks Hks].
  unfold deterministic_session_component. rewrite deterministic_open_session_sym, Hd.
  rewrite Hd in Hkc.
  unfold deterministic_open_session, secret. rewrite Hkc, Hks. simpl.
  destruct (node_id cc <=? node_id cs); simpl; eauto.
Qed.

Lemma honest_encryption : 
  encrypt_frames_for_local_session_backend bc = encrypt_frames_for_local_session_backend bs.
Proof.
  pose proof (built_session _ _ _ ids_distinct built_c) as Hc.
  pose proof (built_session _ _ _ ids_distinct built_s) as Hs. rewrite <- same_kind in Hs.
  unfold encrypt_frames_for_local_session_backend.
  by destruct (session_backend cc), (local_session_backend bc), (local_session_backend bs).
Qed.
End honest.

(** C14: Two started nodes of one genesis with the same kind of session backend
    complete a handshake, whatever nonce and randomness they draw: the client
    builds its hello, the server accepts it, the client accepts the reply, and
    both hold the same session key, transcript hash and encryption setting. *)
Theorem honest_handshake_completes g cc cs bc bs nonce rng :
  NoDup (validator_id <$> validators g) ->
  build_crypto_backend g cc = Ok bc -> build_crypto_backend g cs = Ok bs ->
  session_backend cc = session_backend cs ->
  signing_setup g cc /\ session_setup cc -> signing_setup g cs ->
  exists hello reply session,
    configured_build_client_hello bc (node_id cc) (node_id cs) nonce = Ok hello /\
    configured_accept_client_hello bs rng (node_id cs) hello = Ok (reply, session) /\
    configured_finalize_client_session bc (node_id cc) hello reply = Ok session.
Proof.
  intros Hnd Hc Hs Hk Hsc Hss.
  assert (Hmsg : exists msg, client_hello_signing_message (mkClientHello (node_id cc) (node_id cs) nonce
    (local_session_identity bc (node_id cc)) (local_kem_public_material bc) TypedSig.default) = Ok msg)
    by apply encode_total.
  destruct Hmsg as [msg Hmsg].
  destruct (built_backend_signs key_codec g cc cs bc bs msg Hnd (proj1 Hsc) Hc Hs) as (sig & Hsig & Hver).
  destruct (honest_kem g cc cs bc bs Hnd Hc Hs Hk Hsc rng nonce sig) as (k & ct & Hsk & Hck).
  destruct (honest_component g cc cs bc bs Hnd Hc Hs nonce) as (d & Hds & Hdc).
  set (hello := mkClientHello (node_id cc) (node_id cs) nonce
    (local_session_identity bc (node_id cc)) (local_kem_public_material bc) sig) in *.
  assert (Hreply : exists msg', server_hello_signing_message hello (mkServerHello (node_id cs) (node_id cc)
    nonce (local_session_identity bs (node_id cs)) ct TypedSig.default) = Ok msg').
  { unfold server_hello_signing_message. change (client_hello_signing_message hello) with
      (client_hello_signing_message (mkClientHello (node_id cc) (node_id cs) nonce
         (local_session_identity bc (node_id cc)) (local_kem_public_material bc) TypedSig.default)).
    rewrite Hmsg. apply encode_total. }
  destruct Hreply as [msg' Hmsg'].
  destruct (built_backend_signs key_codec g cs cc bs bc msg' Hnd Hss Hs Hc) as (sig' & Hsig' & Hver').
  set (reply := mkServerHello (node_id cs) (node_id cc) nonce
    (local_session_identity bs (node_id cs)) ct sig').
  assert (Hth : exists th, session_transcript_hash hello reply = Ok th).
  { unfold session_transcript_hash. destruct (encode_total hello) as [b1 ->].
    destruct (encode_total reply) as [b2 Hb2]. simpl. rewrite Hb2. simpl. eauto. }
  destruct Hth as [th Hth].
  eexists hello, reply, _. split_and!.
  - unfold configured_build_client_hello, sign_client_hello. rewrite Hmsg. simpl. by rewrite Hsig.
  - unfold configured_accept_client_hello. simpl. rewrite Z.eqb_refl. simpl.
    change (client_hello_signing_message hello) with
      (client_hello_signing_message (mkClientHello (node_id cc) (node_id cs) nonce
         (local_session_identity bc (node_id cc)) (local_kem_public_material bc) TypedSig.default)).
    rewrite Hmsg. simpl. rewrite Hver. simpl. rewrite Hsk. simpl.
    unfold sign_server_hello. rewrite Hmsg'. simpl. rewrite Hsig'. simpl.
    rewrite Hds. simpl. unfold derive_session_material. fold reply. rewrite Hth. simpl. reflexivity.
  - unfold configured_finalize_client_session, check_server_transcript. simpl.
    rewrite !Z.eqb_refl. simpl.
    change (server_hello_signing_message hello reply) with
      (server_hello_signing_message hello (mkServerHello (node_id cs) (node_id cc) nonce
         (local_session_identity bs (node_id cs)) ct TypedSig.default)).
    rewrite Hmsg'. simpl. rewrite Hver'. simpl. specialize (Hck sig'). fold reply in Hck. rewrite Hck. simpl.
    rewrite Hdc. simpl. unfold derive_session_material. rewrite Hth. simpl.
    by rewrite (honest_encryption g cc cs bc bs).
Qed.

(** ** What a completed handshake says of the peer *)

(** The session identity an end insists on: the derived one with the
    deterministic backend; with the hybrid one the identity genesis lists, if
    it lists one. *)
Definition identity_expected (b : ConfiguredCryptoBackend) (id : ValidatorId)
    (p : SessionPublicIdentity) : Prop :=
  match local_session_backend b with
  | SessionDeterministic => p = deterministic_session_public_identity id
  | HybridDeterministicMlKem768 _ =>
      exists o, session_identities b !! id = Some o /\ (forall x, o = Some x -> p = x)
  end.

Lemma verify_expected_ok b id p :
  verify_expected_session_identity b id p = Ok tt ->
  exists o, session_identities b !! id = Some o /\ (forall x, o = Some x -> p = x).
Proof.
  unfold verify_expected_session_identity, expected_session_identity.
  destruct (session_identities b !! id) as [o|]; simpl; [|done]. intros He. exists o. split; [done|].
  intros x ->. by apply ensure_ok, bool_decide_eq_true in He.
Qed.

Lemma server_kem_ok b rng c k ct :
  server_kem b rng c = Ok (k, ct) ->
  identity_expected b (ch_initiator c) (ch_identity c) /\
  (ch_kem_public_material c = [] /\ k = [] \/
   expected_ml_kem (ch_identity c) = Ok (ch_kem_public_material c)).
Proof.
  unfold server_kem, identity_expected. destruct (local_session_backend b).
  - intros (u & Hm & (u' & Hi & [= <- _])%result_bind_ok)%result_bind_ok.
    apply ensure_ok, bool_decide_eq_true in Hm. apply ensure_ok, bool_decide_eq_true in Hi. auto.
  - intros ([] & Hv & (x & Hx & (u & Hm & _)%result_bind_ok)%result_bind_ok)%result_bind_ok.
    apply ensure_ok, bool_decide_eq_true in Hm as ->. apply verify_expected_ok in Hv. auto.
Qed.

Lemma client_kem_ok b s k :
  client_kem b s = Ok k -> identity_expected b (sh_responder s) (sh_identity s).
Proof.
  unfold client_kem, identity_expected. destruct (local_session_backend b).
  - intros (u & _ & (u' & Hi & _)%result_bind_ok)%result_bind_ok.
    by apply ensure_ok, bool_decide_eq_true in Hi.
  - intros ([] & Hv & _)%result_bind_ok. by apply verify_expected_ok in Hv.
Qed.

(** C15: An end that completes a handshake has authenticated its peer.  A server
    that accepts a hello is the responder it names, and the hello's fields
    verify under the initiator's genesis identity, with the session identity
    and key material expected of that initiator; its reply echoes the hello.
    A client that finalises sent the hello, the reply is from the responder
    the hello named and to this very hello, and verifies under that
    responder's identity. *)
Theorem handshake_authenticates_peer b rng local c s m :
  (configured_accept_client_hello b rng local c = Ok (s, m) ->
   ch_responder c = local /\ sh_responder s = local /\ sh_initiator s = ch_initiator c /\
   sh_nonce s = ch_nonce c /\
   identity_expected b (ch_initiator c) (ch_identity c) /\
   (ch_kem_public_material c = [] \/ expected_ml_kem (ch_identity c) = Ok (ch_kem_public_material c)) /\
   exists msg, client_hello_signing_message c = Ok msg /\
     configured_verify b (ch_initiator c) msg (ch_signature c) = Ok true) /\
  (configured_finalize_client_session b local c s = Ok m ->
   ch_initiator c = local /\ sh_initiator s = local /\ sh_responder s = ch_responder c /\
   sh_nonce s = ch_nonce c /\ identity_expected b (sh_responder s) (sh_identity s) /\
   exists msg, server_hello_signing_message c s = Ok msg /\
     configured_verify b (ch_responder c) msg (sh_signature s) = Ok true).
Proof.
  split.
  - unfold configured_accept_client_hello.
    intros (u & Hr & (msg & Hm & (v & Hv & (u' & Ht & ([k ct] & Hk & (s' & Hs & (d & _ &
      (m' & _ & [= <- <-])%result_bind_ok)%result_bind_ok)%result_bind_ok)%result_bind_ok)
      %result_bind_ok)%result_bind_ok)%result_bind_ok)%result_bind_ok.
    apply ensure_ok, Z.eqb_eq in Hr. apply ensure_ok in Ht as ->.
    apply server_kem_ok in Hk as [Hi Hk]. unfold sign_server_hello in Hs.
    apply result_bind_ok in Hs as (msg' & _ & (sg & _ & [= <-])%result_bind_ok). simpl.
    split_and!; try done; [destruct Hk as [[? _]|?]; auto|eauto].
  - unfold configured_finalize_client_session, check_server_transcript.
    intros ([] & (u & Hl & Ht)%result_bind_ok & (msg & Hm & (v & Hv & (u' & Hok & (k & Hk & _)
      %result_bind_ok)%result_bind_ok)%result_bind_ok)%result_bind_ok)%result_bind_ok.
    apply ensure_ok, Z.eqb_eq in Hl. apply ensure_ok in Hok as ->. apply ensure_ok in Ht.
    bool_to_prop. apply client_kem_ok in Hk. split_and!; try done. exists msg. split; [done|].
    congruence.
Qed.

(** The bytes whose hash is the transcript hash. *)
Definition transcript_bytes (c : SessionClientHello) (s : SessionServerHello) : result bytes :=
  cb ← encode_to_vec c; sb ← encode_to_vec s;
  Ok (concat [string_to_bytes "entangrid-session-transcript"; cb; sb]).

Lemma transcript_bytes_inj c s c' s' t :
  transcript_bytes c s = Ok t -> transcript_bytes c' s' = Ok t -> c = c' /\ s = s'.
Proof.
  unfold transcript_bytes.
  intros (cb & Hc & (sb & Hs & Heq)%result_bind_ok)%result_bind_ok
    (cb' & Hc' & (sb' & Hs' & Heq')%result_bind_ok)%result_bind_ok.
  rewrite <- Heq in Heq'. injection Heq' as Hbytes. cbn [concat] in Hbytes.
  rewrite !app_nil_r in Hbytes.
  pose proof (bincode_decodes c cb sb Hc) as Hd. rewrite <- Hbytes, (bincode_decodes c' cb' sb' Hc') in Hd.
  injection Hd as ->. rewrite Hc in Hc'. injection Hc' as ->. apply app_inv_head in Hbytes as ->.
  pose proof (bincode_decodes s sb [] Hs) as Hd. rewrite (bincode_decodes s' sb [] Hs') in Hd. by injection Hd.
Qed.

Lemma derived_transcript d k c s enc m :
  derive_session_material d k c s enc = Ok m ->
  exists t, transcript_bytes c s = Ok t /\ transcript_hash_of m = blake3 t.
Proof.
  unfold derive_session_material, session_transcript_hash, transcript_bytes.
  destruct (encode_to_vec c) as [cb|]; [|done]. destruct (encode_to_vec s) as [sb|]; [|done].
  simpl. intros [= <-]. eauto.
Qed.

(** C16: Two ends with the same transcript hash have run the same handshake: the
    client and the server hold the same two hellos, unless their two
    transcripts collide under the hash.  A hello or a reply that was changed
    on the way cannot leave both ends in one session. *)
Theorem shared_transcript_same_hellos bc bs rng lc ls c c' s s' m m' :
  configured_finalize_client_session bc lc c s = Ok m ->
  configured_accept_client_hello bs rng ls c' = Ok (s', m') ->
  (forall t t', transcript_bytes c s = Ok t -> transcript_bytes c' s' = Ok t' ->
     blake3 t = blake3 t' -> t = t') ->
  transcript_hash_of m = transcript_hash_of m' -> c = c' /\ s = s'.
Proof.
  intros Hf Ha Hcoll Hth. unfold configured_finalize_client_session in Hf.
  apply result_bind_ok in Hf as (u & _ & (? & _ & (? & _ & (? & _ & (k & _ & (d & _ & Hf)
    %result_bind_ok)%result_bind_ok)%result_bind_ok)%result_bind_ok)%result_bind_ok).
  unfold configured_accept_client_hello in Ha.
  apply result_bind_ok in Ha as (u1 & _ & (? & _ & (? & _ & (? & _ & ([k' ct] & _ & (r & _ &
    (d' & _ & (m1 & Ha & [= <- <-])%result_bind_ok)%result_bind_ok)%result_bind_ok)%result_bind_ok)
    %result_bind_ok)%result_bind_ok)%result_bind_ok).
  apply derived_transcript in Hf as (t & Ht & Hh). apply derived_transcript in Ha as (t' & Ht' & Hh').
  assert (E : t = t') by (apply Hcoll; [done|done|congruence]). subst t'.
  by eapply transcript_bytes_inj.
Qed.

(** ** The deterministic settings *)

Lemma configured_verify_deterministic b id p m s :
  identities b !! id = Some p -> c_scheme p = PkDevDeterministic -> c_components s = [] ->
  configured_verify b id m s = deterministic_verify (deterministic b) id m s.
Proof.
  intros Hp Hs Hc. unfold configured_verify, verify_signature_against_identity, verify_as_single.
  rewrite Hp. simpl. rewrite Hs. destruct s as [sc sb comps]. simpl in *. subst comps.
  case_bool_decide as E; simpl.
  - by subst sc.
  - unfold deterministic_verify. simpl. by case_bool_decide.
Qed.

End handshake.

(** ** Sealed frames *)

Lemma to_le_bytes_byte n i :
  0 <= i < 8 -> to_le_bytes n !! Z.to_nat i = Some (Z.land (Z.shiftr n (8 * i)) 255).
Proof.
  intros Hi. unfold to_le_bytes. rewrite list_lookup_fmap.
  assert (Hl : [0; 1; 2; 3; 4; 5; 6; 7] !! Z.to_nat i = Some i).
  { assert (i = 0 \/ i = 1 \/ i = 2 \/ i = 3 \/ i = 4 \/ i = 5 \/ i = 6 \/ i = 7) as Hc by lia.
    by destruct Hc as [->|[->|[->|[->|[->|[->|[->| ->]]]]]]]. }
  by rewrite Hl.
Qed.

Lemma to_le_bytes_inj a b : is_u64 a -> is_u64 b -> to_le_bytes a = to_le_bytes b -> a = b.
Proof.
  intros Ha Hb Heq. apply Z.bits_inj'. intros k Hk. destruct (Z.lt_ge_cases k 64) as [Hlt|Hge].
  - assert (Hi : 0 <= k / 8 < 8) by (split; [apply Z.div_pos|apply Z.div_lt_upper_bound]; lia).
    pose proof (to_le_bytes_byte a (k / 8) Hi) as Hba. rewrite Heq, (to_le_bytes_byte b _ Hi) in Hba.
    injection Hba as Hba. apply (f_equal (fun z => Z.testbit z (k mod 8))) in Hba.
    assert (Hj : 0 <= k mod 8 < 8) by (apply Z.mod_pos_bound; lia).
    assert (Hbit : Z.testbit 255 (k mod 8) = true).
    { change 255 with (Z.ones 8). rewrite Z.testbit_ones_nonneg by lia. apply Z.ltb_lt; lia. }
    rewrite !Z.land_spec, Hbit, !andb_true_r, !Z.shiftr_spec in Hba by lia.
    replace (k mod 8 + 8 * (k / 8)) with k in Hba by (rewrite (Z.div_mod k 8) at 1 by lia; lia).
    done.
  - assert (Hz : forall x, is_u64 x -> Z.testbit x k = false); [|by rewrite !Hz].
    intros x [Hx0 Hx]. destruct (Z.eq_dec x 0) as [->|]; [apply Z.bits_0|].
    apply Z.bits_above_log2; [done|]. apply Z.log2_lt_pow2; [lia|].
    eapply Z.lt_le_trans; [exact Hx|]. unfold U64_MOD. by apply Z.pow_le_mono_r.
Qed.

Lemma to_be_bytes_inj a b : is_u64 a -> is_u64 b -> to_be_bytes a = to_be_bytes b -> a = b.
Proof. intros Ha Hb Heq. apply to_le_bytes_inj; [done..|]. by apply (inj reverse). Qed.

(** A nonce determines the direction and the counter. *)
Lemma frame_nonce_inj d c d' c' :
  is_u64 c -> is_u64 c' -> frame_nonce d c = frame_nonce d' c' -> d = d' /\ c = c'.
Proof.
  unfold frame_nonce. intros Hc Hc' Heq. split.
  - apply (f_equal head) in Heq. by destruct d, d'.
  - apply (f_equal (drop 4)) in Heq. by apply to_be_bytes_inj.
Qed.

Section frames.
Context `{AeadLaws}.

Lemma frame_opens s d counter p ct :
  encrypt_frame_payload s d counter p = Ok ct -> decrypt_frame_payload s d counter ct = Ok p.
Proof.
  unfold encrypt_frame_payload, decrypt_frame_payload. intros ([c tag] & He & [= <-])%result_bind_ok.
  pose proof (aead_tag_size _ _ _ _ _ _ He) as Ht.
  rewrite length_app. unfold FRAME_TAG_SIZE_BYTES.
  destruct (Nat.ltb_spec (length c + length tag) 16) as [|_]; [lia|].
  replace (length c + length tag - 16)%nat with (length c) by lia.
  rewrite take_app_length, drop_app_length. by eapply aead_opens.
Qed.
End frames.

(** ** Witnesses *)

Module HandshakeExample.
#[local] Existing Instance concrete_hashing.
#[local] Existing Instance concrete_mldsa.

(** A codec for countable types: one number. *)
#[local] Instance countable_bincode {T} `{Countable T} : Bincode T :=
  {| encode_to_vec := fun x => Ok [Zpos (encode x)];
     decode_from_slice := fun l => match l with
                                   | Zpos p :: _ => ok_or (decode p) "bad encoding"
                                   | _ => Err "bad encoding" end |}.
#[local] Instance countable_bincode_laws {T} `{Countable T} : BincodeLaws T.
Proof.
  split; [intros x; by eexists|]. intros x b rest [= <-]. simpl. by rewrite decode_encode.
Qed.

#[local] Instance session_scheme_countable : Countable SessionKeyScheme.
Proof.
  refine (inj_countable' (fun s => match s with SkDevDeterministic => 0%Z | SkMlKem => 1 | SkHybrid => 2 end)
    (fun z => match z with 0 => SkDevDeterministic | 1 => SkMlKem | _ => SkHybrid end) _).
  by intros [].
Defined.
#[local] Instance signature_scheme_countable : Countable SignatureScheme.
Proof.
  refine (inj_countable' (fun s => match s with SigDevDeterministic => 0%Z | SigEd25519 => 1
                                              | SigMlDsa => 2 | SigHybrid => 3 end)
    (fun z => match z with 0 => SigDevDeterministic | 1 => SigEd25519 | 2 => SigMlDsa
                         | _ => SigHybrid end) _).
  by intros [].
Defined.
#[local] Instance component_countable {S} `{Countable S} : Countable (Component S).
Proof.
  refine (inj_countable' (fun c => (comp_scheme c, comp_bytes c)) (fun p => mkComponent p.1 p.2) _).
  by intros [].
Defined.
#[local] Instance container_countable {S} `{Countable S} : Countable (Container S).
Proof.
  refine (inj_countable' (fun c => (c_scheme c, c_bytes c, c_components c))
    (fun p => mkContainer p.1.1 p.1.2 p.2) _).
  by intros [].
Defined.
#[local] Instance client_hello_countable : Countable SessionClientHello.
Proof.
  refine (inj_countable' (fun c => (ch_initiator c, ch_responder c, ch_nonce c, ch_identity c,
      ch_kem_public_material c, ch_signature c))
    (fun '(a, b, c, d, e, f) => mkClientHello a b c d e f) _).
  by intros [].
Defined.
#[local] Instance server_hello_countable : Countable SessionServerHello.
Proof.
  refine (inj_countable' (fun c => (sh_responder c, sh_initiator c, sh_nonce c, sh_identity c,
      sh_kem_ciphertext c, sh_signature c))
    (fun '(a, b, c, d, e, f) => mkServerHello a b c d e f) _).
  by intros [].
Defined.

(** A toy key exchange: the shared key is the key and the random bytes. *)
#[local] Instance concrete_kem : MlKem :=
  {| EncapsulationKey := Z; DecapsulationKey := Z; Ciphertext := bytes;
     decode_ml_kem_encapsulation_key := fun b => match b with [k] => Ok k | _ => Err "bad key" end;
     decode_ml_kem_decapsulation_key := fun b => match b with [k] => Ok k | _ => Err "bad key" end;
     decode_ml_kem_ciphertext := Ok; ciphertext_bytes := fun c => c;
     encapsulate := fun k rng => Ok (rng, k :: rng); decapsulate := fun k c => Ok (k :: c) |}.
#[local] Instance concrete_key_files : KeyFiles :=
  {| read_ml_dsa_key_file := fun _ => Ok (mkMlDsaKeyFile [9] [9]);
     read_ml_kem_key_file := fun _ => Ok (mkMlKemKeyFile [5] [5]) |}.

(** Two validators that sign with both schemes and exchange ML-KEM keys. *)
Definition hybrid_validator (id : ValidatorId) (secret : string) : ValidatorConfig :=
  mkValidator id 100 "127.0.0.1" secret
    (mkContainer PkHybrid [] [mkComponent PkDevDeterministic (string_to_bytes (validator_account id));
                              mkComponent PkMlDsa [9]])
    (Some (mkContainer SkMlKem [5] [])).
Definition hybrid_genesis : GenesisConfig :=
  mkGenesis "test" 0 0 1000 10 16 1 [hybrid_validator 1 "s1"; hybrid_validator 2 "s2"] ∅.
Definition hybrid_config (id : ValidatorId) : NodeConfig :=
  mkNodeConfig id "" "" "" [] "" "" (mkFlags true false false false 0 f64_zero 0
      default_service_score_weights) (mkFaults 0 f64_zero false false) false
    SbHybridDeterministicMlDsaExperimental (Some "sign.json"%string)
    SeHybridDeterministicMlKemExperimental (Some "session.json"%string) None.

Definition the_backend (r : result ConfiguredCryptoBackend) : ConfiguredCryptoBackend :=
  match r with
  | Ok b => b
  | Err _ => mkConfigured 0 LocalDeterministic SessionDeterministic ∅ ∅ ∅ ∅
  end.
Definition backend_of (id : ValidatorId) : ConfiguredCryptoBackend :=
  the_backend (build_crypto_backend hybrid_genesis (hybrid_config id)).

Lemma hybrid_setup id :
  (id = 1 \/ id = 2) ->
  build_crypto_backend hybrid_genesis (hybrid_config id) = Ok (backend_of id) /\
  signing_setup hybrid_genesis (hybrid_config id) /\ session_setup (hybrid_config id).
Proof.
  intros Hid. split_and!.
  - destruct Hid as [->| ->]; vm_compute; reflexivity.
  - split.
    + intros path file sk vk _ [= <-] [= <-] [= <-] m. split; [reflexivity|]. by apply bool_decide_true.
    + intros _ v Hv. apply validator_config_elem in Hv as [Hin _].
      apply elem_of_cons in Hin as [->|Hin%list_elem_of_singleton]; [|subst v]; done.
  - intros path file _ [= <-]. exists 5, 5. split_and!; [done|done|]. intros rng. by exists rng, (5 :: rng).
Qed.

Lemma honest_handshake_completes_witness :
  exists hello reply session,
    configured_build_client_hello (backend_of 1) 1 2 77 = Ok hello /\
    configured_accept_client_hello (backend_of 2) [8; 9] 2 hello = Ok (reply, session) /\
    configured_finalize_client_session (backend_of 1) 1 hello reply = Ok session.
Proof.
  destruct (hybrid_setup 1 (or_introl eq_refl)) as (Hb1 & Hs1 & Hk1).
  destruct (hybrid_setup 2 (or_intror eq_refl)) as (Hb2 & Hs2 & Hk2).
  assert (Hcodec : forall vk : @VerifyingKey concrete_mldsa,
    decode_verifying_key (encode_verifying_key vk) = Ok vk) by reflexivity.
  apply (honest_handshake_completes Hcodec hybrid_genesis (hybrid_config 1)
           (hybrid_config 2)); [|done..].
  vm_compute. apply NoDup_cons. split; [|apply NoDup_singleton].
  intros Hin. apply list_elem_of_singleton in Hin. discriminate.
Defined.

(** Two validators with the deterministic backend. *)
Definition plain_backend : ConfiguredCryptoBackend :=
  mkConfigured 1 LocalDeterministic SessionDeterministic {[1 := "s1"%string; 2 := "s2"%string]}
    {[1 := PubId.default; 2 := PubId.default]} ∅ ∅.
Definition plain_hello : SessionClientHello :=
  match configured_build_client_hello plain_backend 1 2 77 with
  | Ok h => h
  | Err _ => mkClientHello 0 0 0 (Hybrid.single SkDevDeterministic []) [] TypedSig.default
  end.
Definition plain_reply : SessionServerHello * SessionMaterial :=
  match configured_accept_client_hello plain_backend [] 2 plain_hello with
  | Ok r => r
  | Err _ => (mkServerHello 0 0 0 (Hybrid.single SkDevDeterministic []) [] TypedSig.default,
              mkSession 0 0 false)
  end.

Lemma plain_accepted :
  configured_accept_client_hello plain_backend [] 2 plain_hello = Ok (plain_reply.1, plain_reply.2).
Proof. vm_compute. reflexivity. Qed.
Lemma plain_finalized :
  configured_finalize_client_session plain_backend 1 plain_hello plain_reply.1 = Ok plain_reply.2.
Proof. vm_compute. reflexivity. Qed.

Lemma handshake_authenticates_peer_witness :
  ch_responder plain_hello = 2 /\ sh_responder plain_reply.1 = 2.
Proof.
  destruct (handshake_authenticates_peer plain_backend [] 2 plain_hello plain_reply.1 plain_reply.2)
    as [Ha _].
  destruct (Ha plain_accepted) as (H1 & H2 & _). split; [exact H1|exact H2].
Defined.

Lemma shared_transcript_same_hellos_witness :
  plain_hello = plain_hello /\ plain_reply.1 = plain_reply.1.
Proof.
  apply (shared_transcript_same_hellos plain_backend plain_backend [] 1 2 plain_hello plain_hello
           plain_reply.1 plain_reply.1 plain_reply.2 plain_reply.2 plain_finalized plain_accepted).
  - intros t t' Ht Ht' _. rewrite Ht in Ht'. injection Ht' as E. exact E.
  - reflexivity.
Defined.

End HandshakeExample.
