(* ===== verification/Ledger.v ===== *)
(** * The ledger

    crates/entangrid-ledger/src/lib.rs: account balances and nonces, transaction
    validation and execution, block execution with its state-root check, and
    replay from genesis.  [LedgerState] is a [StateSnapshot]. *)
From S2P Require Import Prelude F64 Hybrid Types Concrete Crypto.

Open Scope Z_scope.

Abbreviation LedgerState := StateSnapshot.

Definition from_genesis (g : GenesisConfig) : LedgerState :=
  mkSnapshot (initial_balances g) ∅ empty_hash 0 0.

(** [map.get(k).copied().unwrap_or_default()]. *)
Definition get_or_zero (m : gmap AccountId Z) (a : AccountId) : Z := default 0 (m !! a).

Definition balance_of (st : LedgerState) (a : AccountId) : Z := get_or_zero (balances st) a.
Definition nonce_of (st : LedgerState) (a : AccountId) : Z := get_or_zero (nonces st) a.

Section ledger.
Context `{Hashing} `{CryptoBackend}.

Definition validate_tx (st : LedgerState) (t : SignedTransaction) : result unit :=
  let tx := stx_transaction t in
  _ ← ensure (canonical_hash (CTransaction tx) =? stx_hash t) "transaction hash mismatch";
  _ ← ensure (String.eqb (tx_from tx) (validator_account (stx_signer_id t)))
        "transaction source account must match signer";
  verified ← verify (stx_signer_id t) (hash_to_bytes (stx_hash t)) (stx_signature t);
  _ ← ensure verified "transaction signature verification failed";
  _ ← ensure (tx_amount tx <=? balance_of st (tx_from tx)) "insufficient balance";
  ensure (nonce_of st (tx_from tx) =? tx_nonce tx) "unexpected nonce".

(** The destination balance is read before the source is debited, and both
    are then written. *)
Definition apply_transaction (st : LedgerState) (t : SignedTransaction) : result LedgerState :=
  let tx := stx_transaction t in
  let from_balance := balance_of st (tx_from tx) in
  if from_balance <? tx_amount tx then Err "insufficient balance during apply"
  else
    let to_balance := balance_of st (tx_to tx) in
    let bal := <[tx_from tx := from_balance - tx_amount tx]> (balances st) in
    let bal := <[tx_to tx := wadd to_balance (tx_amount tx)]> bal in
    let non := <[tx_from tx := wadd (nonce_of st (tx_from tx)) 1]> (nonces st) in
    Ok (mkSnapshot bal non (tip_hash st) (height st) (last_slot st)).

Definition ledger_state_root (st : LedgerState) : HashBytes :=
  canonical_hash (CState (balances st) (nonces st)).

(** The transaction loop of [apply_block]: the state reached when it stops,
    with the error that stopped it. *)
Fixpoint apply_transactions (st : LedgerState) (ts : list SignedTransaction)
    : LedgerState * result unit :=
  match ts with
  | [] => (st, Ok tt)
  | t :: ts' =>
      match validate_tx st t ≫= fun _ => apply_transaction st t with
      | Err e => (st, Err e)
      | Ok st' => apply_transactions st' ts'
      end
  end.

(** [&mut self]: on an error the state keeps the transactions applied so
    far. *)
Definition apply_block (st : LedgerState) (b : Block) : LedgerState * result unit :=
  match apply_transactions st (transactions b) with
  | (st', Err e) => (st', Err e)
  | (st', Ok _) =>
      if negb (ledger_state_root st' =? state_root (header b)) then (st', Err "state root mismatch")
      else (mkSnapshot (balances st') (nonces st') (block_hash b)
              (block_number (header b)) (bh_slot (header b)), Ok tt)
  end.

(** [let mut next = ledger.clone(); next.apply_block(block)?]. *)
Definition apply_block_clone (st : LedgerState) (b : Block) : result LedgerState :=
  match apply_block st b with
  | (st', Ok _) => Ok st'
  | (_, Err e) => Err e
  end.

Fixpoint replay_from (st : LedgerState) (bs : list Block) : result LedgerState :=
  match bs with
  | [] => Ok st
  | b :: bs' => st' ← apply_block_clone st b; replay_from st' bs'
  end.

Definition replay_blocks (g : GenesisConfig) (bs : list Block) : result LedgerState :=
  replay_from (from_genesis g) bs.

(** ** Lemmas *)

Lemma replay_from_app st bs cs :
  replay_from st (bs ++ cs) = replay_from st bs ≫= fun st' => replay_from st' cs.
Proof.
  revert st. induction bs as [|b bs IHbs]; intros st; simpl; [done|].
  destruct (apply_block_clone st b); simpl; [apply IHbs | done].
Qed.

Lemma replay_prefix_ok g bs cs st :
  bs `prefix_of` cs -> replay_blocks g cs = Ok st -> exists st', replay_blocks g bs = Ok st'.
Proof.
  intros [rest ->]. unfold replay_blocks. rewrite replay_from_app.
  intros (st' & Hr & _)%result_bind_ok. by exists st'.
Qed.

Lemma replay_blocks_snoc g bs b :
  replay_blocks g (bs ++ [b]) = replay_blocks g bs ≫= fun st => apply_block_clone st b.
Proof.
  unfold replay_blocks. rewrite replay_from_app. destruct (replay_from _ bs) as [st|]; [|done].
  simpl. by destruct (apply_block_clone st b).
Qed.

Lemma apply_transaction_header st t st' :
  apply_transaction st t = Ok st' ->
  tip_hash st' = tip_hash st /\ height st' = height st /\ last_slot st' = last_slot st.
Proof. unfold apply_transaction. case_match; [done|]. by intros [= <-]. Qed.

Lemma apply_transactions_header st ts :
  let st' := (apply_transactions st ts).1 in
  tip_hash st' = tip_hash st /\ height st' = height st /\ last_slot st' = last_slot st.
Proof.
  revert st. induction ts as [|t ts IHts]; intros st; simpl; [done|].
  destruct (validate_tx st t); simpl; [|done].
  destruct (apply_transaction st t) as [st'|] eqn:E; simpl; [|done].
  apply apply_transaction_header in E as (<- & <- & <-). apply IHts.
Qed.

Lemma apply_block_clone_ok st b st' :
  apply_block_clone st b = Ok st' ->
  exists st1, apply_transactions st (transactions b) = (st1, Ok tt) /\
    balances st' = balances st1 /\ nonces st' = nonces st1 /\
    ledger_state_root st1 = state_root (header b) /\
    tip_hash st' = block_hash b /\ height st' = block_number (header b) /\
    last_slot st' = bh_slot (header b).
Proof.
  unfold apply_block_clone, apply_block.
  destruct (apply_transactions st (transactions b)) as [st1 [[]|]]; [|done].
  destruct (Z.eqb_spec (ledger_state_root st1) (state_root (header b))); simpl; [|done].
  intros [= <-]. by exists st1.
Qed.

Lemma replay_blocks_tip g bs b st :
  replay_blocks g (bs ++ [b]) = Ok st ->
  tip_hash st = block_hash b /\ height st = block_number (header b) /\
  last_slot st = bh_slot (header b).
Proof.
  rewrite replay_blocks_snoc. intros (st0 & _ & Hb)%result_bind_ok.
  by apply apply_block_clone_ok in Hb as (? & ? & ? & ? & ? & ? & ? & ?).
Qed.

(** *** Supply *)

Definition supply (m : gmap AccountId Z) : Z := map_fold (fun _ v acc => v + acc) 0 m.

Lemma supply_empty : supply ∅ = 0.
Proof. apply map_fold_empty. Qed.

Lemma supply_insert_new m a v : m !! a = None -> supply (<[a := v]> m) = v + supply m.
Proof. intros Hm. unfold supply. apply (map_fold_insert_L (fun _ v acc => v + acc)); [intros; lia | done]. Qed.

Lemma supply_delete m a : supply m = get_or_zero m a + supply (delete a m).
Proof.
  unfold get_or_zero. destruct (m !! a) as [v|] eqn:E; simpl.
  - rewrite <- (insert_delete_id m a v E) at 1. apply supply_insert_new, lookup_delete_eq.
  - by rewrite delete_id.
Qed.

Lemma supply_insert m a v : supply (<[a := v]> m) = supply m - get_or_zero m a + v.
Proof.
  rewrite <- insert_delete_eq, supply_insert_new by apply lookup_delete_eq.
  rewrite (supply_delete m a). lia.
Qed.

Definition non_negative (m : gmap AccountId Z) : Prop := map_Forall (fun _ v => 0 <= v) m.

Lemma supply_non_negative m : non_negative m -> 0 <= supply m.
Proof.
  induction m as [|a v m Hm IHm] using map_ind; intros Hn; [by rewrite supply_empty|].
  rewrite supply_insert_new by done. apply map_Forall_insert in Hn as [? ?]; [|done]. 
  specialize (IHm ltac:(done)). lia.
Qed.

Lemma balance_le_supply m a : non_negative m -> 0 <= get_or_zero m a <= supply m.
Proof.
  intros Hn. rewrite (supply_delete m a).
  assert (0 <= supply (delete a m)) by (apply supply_non_negative, map_Forall_delete, Hn).
  enough (0 <= get_or_zero m a) by lia. unfold get_or_zero.
  destruct (m !! a) eqn:E; simpl; [by eapply Hn | lia].
Qed.

(** Balances are [u64]s whose total fits in a [u64]. *)
Definition supply_ok (st : LedgerState) : Prop :=
  non_negative (balances st) /\ supply (balances st) < U64_MOD.

Lemma get_or_zero_insert m a b v :
  get_or_zero (<[a := v]> m) b = if decide (a = b) then v else get_or_zero m b.
Proof. unfold get_or_zero. rewrite lookup_insert. by case_decide. Qed.

Lemma apply_transaction_supply st t st' :
  supply_ok st -> 0 <= tx_amount (stx_transaction t) ->
  tx_from (stx_transaction t) <> tx_to (stx_transaction t) ->
  apply_transaction st t = Ok st' ->
  supply (balances st') = supply (balances st) /\ supply_ok st'.
Proof.
  intros [Hn Hs] Ha Hne. unfold apply_transaction, balance_of.
  set (f := tx_from _) in *. set (d := tx_to _) in *. set (a := tx_amount _) in *.
  destruct (Z.ltb_spec (get_or_zero (balances st) f) a); [done|]. intros [= <-].
  pose proof (balance_le_supply _ f Hn). pose proof (balance_le_supply _ d Hn).
  assert (Hsum : get_or_zero (balances st) f + get_or_zero (balances st) d <= supply (balances st)).
  { rewrite (supply_delete _ f).
    assert (Hd : non_negative (delete f (balances st))) by (by apply map_Forall_delete).
    pose proof (balance_le_supply _ d Hd) as Hb. unfold get_or_zero at 2.
    unfold get_or_zero in Hb. rewrite lookup_delete_ne in Hb by done. lia. }
  rewrite wadd_small by lia.
  assert (Heq : supply (<[d:=get_or_zero (balances st) d + a]>
      (<[f:=get_or_zero (balances st) f - a]> (balances st))) = supply (balances st)).
  { rewrite !supply_insert, get_or_zero_insert, decide_False by done. lia. }
  split; [exact Heq|]. split; [|simpl; lia]. simpl. unfold non_negative.
  apply map_Forall_insert_2; [lia|]. apply map_Forall_insert_2; [lia | exact Hn].
Qed.
End ledger.

(** ** Properties *)

Section properties.
Context `{Hashing} `{CryptoBackend}.

(** No transfer of the block goes from an account to itself. *)
Definition transfers_between_accounts (b : Block) : Prop :=
  Forall (fun t => 0 <= tx_amount (stx_transaction t) /\
                   tx_from (stx_transaction t) <> tx_to (stx_transaction t)) (transactions b).

Lemma apply_transactions_supply st ts st' :
  supply_ok st ->
  Forall (fun t => 0 <= tx_amount (stx_transaction t) /\
                   tx_from (stx_transaction t) <> tx_to (stx_transaction t)) ts ->
  apply_transactions st ts = (st', Ok tt) ->
  supply (balances st') = supply (balances st) /\ supply_ok st'.
Proof.
  intros Hok Hts. revert st Hok. induction Hts as [|t ts [Ha Hne] Hts IHts]; intros st Hok; simpl.
  { by intros [= <-]. }
  destruct (validate_tx st t); simpl; [|done].
  destruct (apply_transaction st t) as [st1|] eqn:E; [|done]. intros Happ.
  destruct (apply_transaction_supply _ _ _ Hok Ha Hne E) as [Heq Hok1].
  rewrite <- Heq. by apply IHts.
Qed.

Lemma apply_block_supply st b st' :
  supply_ok st -> transfers_between_accounts b -> apply_block_clone st b = Ok st' ->
  supply (balances st') = supply (balances st) /\ supply_ok st'.
Proof.
  intros Hok Hts Hb. apply apply_block_clone_ok in Hb as (st1 & E & Hbal & _).
  apply apply_transactions_supply in E as [Hs Hok1]; [|done..].
  unfold supply_ok. by rewrite Hbal.
Qed.

(** C28: Replaying any chain whose transfers go between distinct accounts
    leaves the total of all balances what genesis put in, whatever blocks
    the chain holds, provided the genesis total fits in a [u64]. *)
Theorem replay_conserves_supply g bs st :
  supply_ok (from_genesis g) ->
  Forall transfers_between_accounts bs ->
  replay_blocks g bs = Ok st ->
  supply (balances st) = supply (initial_balances g).
Proof.
  intros Hok Hbs Hr. change (initial_balances g) with (balances (from_genesis g)).
  unfold replay_blocks in Hr. revert Hok Hr. generalize (from_genesis g) as st0.
  induction Hbs as [|b bs Hb Hbs IHbs]; intros st0 Hok; simpl; [by intros [= ->]|].
  intros (st1 & E & Hr)%result_bind_ok.
  destruct (apply_block_supply _ _ _ Hok Hb E) as [<- Hok1]. by apply IHbs.
Qed.

(** A transfer from an account to itself creates money: the credit
    overwrites the debit, and the supply grows by the amount. *)
Lemma self_transfer_creates_money st t st' :
  supply_ok st ->
  0 <= tx_amount (stx_transaction t) ->
  supply (balances st) + tx_amount (stx_transaction t) < U64_MOD ->
  tx_from (stx_transaction t) = tx_to (stx_transaction t) ->
  apply_transaction st t = Ok st' ->
  supply (balances st') = supply (balances st) + tx_amount (stx_transaction t).
Proof.
  intros [Hn Hs] Ha Hfit Heq. unfold apply_transaction, balance_of. rewrite <- Heq.
  case_match; [done|]. intros [= <-]. simpl.
  pose proof (balance_le_supply _ (tx_from (stx_transaction t)) Hn).
  rewrite wadd_small by lia. rewrite !supply_insert, get_or_zero_insert, decide_True by done. lia.
Qed.

(** Validation accepts a transaction exactly when its hash is the hash of
    its body, the source account is the signer's, the signature verifies,
    the balance covers the amount and the nonce is the next one. *)
Lemma validate_tx_iff st t :
  let tx := stx_transaction t in
  validate_tx st t = Ok tt <->
  stx_hash t = canonical_hash (CTransaction tx) /\
  tx_from tx = validator_account (stx_signer_id t) /\
  verify (stx_signer_id t) (hash_to_bytes (stx_hash t)) (stx_signature t) = Ok true /\
  tx_amount tx <= balance_of st (tx_from tx) /\
  tx_nonce tx = nonce_of st (tx_from tx).
Proof.
  intros tx. unfold validate_tx. fold tx. split.
  - intros Hv. inv_ok. repeat match goal with H : bool |- _ => destruct H end; inv_ok; [|done].
    rewrite Z.eqb_eq in *. rewrite Z.leb_le in *. rewrite String.eqb_eq in *. eauto 10.
  - intros (-> & -> & -> & Hb & ->). rewrite Z.eqb_refl, String.eqb_refl, Z.eqb_refl. simpl.
    by apply Z.leb_le in Hb as ->.
Qed.

(** Executing a transfer between distinct accounts debits the source,
    credits the destination modulo 2^64, advances the source's nonce, and
    touches no other account, nonce or chain field. *)
Lemma apply_transaction_effect st t st' :
  let tx := stx_transaction t in
  tx_from tx <> tx_to tx ->
  apply_transaction st t = Ok st' ->
  tx_amount tx <= balance_of st (tx_from tx) /\
  balance_of st' (tx_from tx) = balance_of st (tx_from tx) - tx_amount tx /\
  balance_of st' (tx_to tx) = wadd (balance_of st (tx_to tx)) (tx_amount tx) /\
  (forall a, a <> tx_from tx -> a <> tx_to tx -> balance_of st' a = balance_of st a) /\
  nonce_of st' (tx_from tx) = wadd (nonce_of st (tx_from tx)) 1 /\
  (forall a, a <> tx_from tx -> nonce_of st' a = nonce_of st a) /\
  tip_hash st' = tip_hash st /\ height st' = height st /\ last_slot st' = last_slot st.
Proof.
  intros tx Hne. unfold apply_transaction. fold tx.
  destruct (Z.ltb_spec (balance_of st (tx_from tx)) (tx_amount tx)); [done|]. intros [= <-].
  unfold balance_of, nonce_of; simpl.
  split_and!; try done; intros; rewrite ?get_or_zero_insert;
    repeat (case_decide; simplify_eq; try done).
Qed.

(** A transaction that was validated and executed is refused from then
    on: its nonce is spent. *)
Lemma executed_transaction_not_replayable st t st' :
  validate_tx st t = Ok tt -> apply_transaction st t = Ok st' ->
  is_ok (validate_tx st' t) = false.
Proof.
  intros Hv Ha. destruct (validate_tx st' t) as [[]|] eqn:Hv'; [|done]. exfalso.
  unfold validate_tx in Hv, Hv'. inv_ok. rewrite !Z.eqb_eq in *.
  assert (Hn : nonce_of st' (tx_from (stx_transaction t))
               = wadd (nonce_of st (tx_from (stx_transaction t))) 1).
  { unfold apply_transaction in Ha. case_match; [done|]. injection Ha as <-.
    unfold nonce_of; simpl. by rewrite get_or_zero_insert, decide_True. }
  assert (Heq : wadd (tx_nonce (stx_transaction t)) 1 = tx_nonce (stx_transaction t)) by congruence.
  pose proof (wadd_u64 (tx_nonce (stx_transaction t)) 1) as Hr. unfold is_u64 in Hr.
  unfold wadd in *. destruct (Z.eq_dec (tx_nonce (stx_transaction t)) (U64_MOD - 1)) as [E|E].
  - rewrite E in Heq. vm_compute in Heq. discriminate.
  - rewrite Z.mod_small in Heq by lia. lia.
Qed.

(** Block execution is all or nothing for the chain position: on success
    the tip, height and slot are the block's and the state root matches; on
    an error they stay what they were, whatever transactions ran. *)
Lemma apply_block_position st b st' r :
  apply_block st b = (st', r) ->
  (r = Ok tt /\ tip_hash st' = block_hash b /\ height st' = block_number (header b) /\
   last_slot st' = bh_slot (header b) /\ ledger_state_root st' = state_root (header b)) \/
  (is_ok r = false /\ tip_hash st' = tip_hash st /\ height st' = height st /\
   last_slot st' = last_slot st).
Proof.
  unfold apply_block. pose proof (apply_transactions_header st (transactions b)) as Hh.
  destruct (apply_transactions st (transactions b)) as [st1 [[]|e]]; simpl in Hh.
  - destruct (Z.eqb_spec (ledger_state_root st1) (state_root (header b))) as [E|E]; simpl;
      intros [= <- <-]; [left | right]; split_and!; naive_solver.
  - intros [= <- <-]. right. naive_solver.
Qed.
End properties.

(** ** Witnesses *)

Module LedgerExample.
#[local] Existing Instance concrete_hashing.

Definition example_secrets : gmap ValidatorId string :=
  {[1 := "secret-1"%string; 2 := "secret-2"%string]}.
#[local] Instance example_backend : CryptoBackend := DeterministicCryptoBackend example_secrets.

Definition example_genesis : GenesisConfig :=
  mkGenesis "test" 0 0 1000 10 16 2
    [mkValidator 1 100 "127.0.0.1:3001" "secret-1" PubId.default None;
     mkValidator 2 100 "127.0.0.1:3002" "secret-2" PubId.default None]
    {[validator_account 1 := 100; validator_account 2 := 0]}.

Definition make_tx (from to : ValidatorId) (amount nonce : Z) : SignedTransaction :=
  let tx := mkTx (validator_account from) (validator_account to) amount nonce None in
  let h := canonical_hash (CTransaction tx) in
  mkSignedTx tx from
    match sign from (hash_to_bytes h) with Ok s => s | Err _ => TypedSig.default end h 0.

Definition transfer : SignedTransaction := make_tx 1 2 10 0.
Definition self_transfer : SignedTransaction := make_tx 1 1 10 0.
Definition genesis_state : LedgerState := from_genesis example_genesis.
Definition apply_or (st : LedgerState) (t : SignedTransaction) : LedgerState :=
  match apply_transaction st t with Ok st' => st' | Err _ => st end.
Definition make_block (st : LedgerState) (n slot : Z) (ts : list SignedTransaction) : Block :=
  let st' := foldl apply_or st ts in
  let h := mkHeader n (tip_hash st) slot 0 1 0 (ledger_state_root st')
             (canonical_hash (CTransactions ts)) empty_hash in
  mkBlock h ts None [] TypedSig.default (canonical_hash (CBlockContent h ts None)).
Definition block_1 : Block := make_block genesis_state 1 1 [transfer].

Lemma genesis_supply_ok : supply_ok genesis_state.
Proof.
  split; [|vm_compute; reflexivity].
  repeat (apply map_Forall_insert_2; [done|]). apply map_Forall_empty.
Qed.

Lemma replay_conserves_supply_witness :
  exists st, replay_blocks example_genesis [block_1] = Ok st /\ supply (balances st) = 100.
Proof.
  destruct (replay_blocks example_genesis [block_1]) as [st|] eqn:E.
  2: { exfalso. revert E. vm_compute. discriminate. }
  exists st. split; [done|].
  rewrite (replay_conserves_supply example_genesis [block_1] st genesis_supply_ok); [|..].
  - vm_compute. reflexivity.
  - repeat constructor; vm_compute; congruence.
  - exact E.
Defined.

Lemma self_transfer_creates_money_witness :
  validate_tx genesis_state self_transfer = Ok tt /\
  supply (balances (apply_or genesis_state self_transfer)) = 110.
Proof.
  split; [vm_compute; reflexivity|].
  rewrite (self_transfer_creates_money genesis_state self_transfer
             (apply_or genesis_state self_transfer)); [vm_compute; reflexivity|..].
  - apply genesis_supply_ok.
  - vm_compute. congruence.
  - vm_compute. reflexivity.
  - reflexivity.
  - vm_compute. reflexivity.
Defined.

Lemma apply_transaction_effect_witness :
  balance_of (apply_or genesis_state transfer) (validator_account 2) = 10.
Proof.
  destruct (apply_transaction_effect genesis_state transfer (apply_or genesis_state transfer))
    as (_ & _ & E & _).
  - vm_compute. congruence.
  - vm_compute. reflexivity.
  - revert E. vm_compute. auto.
Defined.

Lemma executed_transaction_not_replayable_witness :
  is_ok (validate_tx (apply_or genesis_state transfer) transfer) = false.
Proof.
  apply (executed_transaction_not_replayable genesis_state); vm_compute; reflexivity.
Defined.

Lemma apply_block_position_witness :
  tip_hash (apply_block genesis_state block_1).1 = block_hash block_1.
Proof.
  destruct (apply_block_position genesis_state block_1 _ _ (surjective_pairing _))
    as [(_ & E & _)|(E & _)]; [exact E|].
  exfalso. revert E. vm_compute. discriminate.
Defined.
End LedgerExample.
