(* ===== verification/Consensus.v ===== *)
(** * The consensus engine

    crates/entangrid-consensus/src/lib.rs: slots and epochs, proposer
    selection, epoch assignments, service counters and scores, service
    committees and aggregates, topology commitments and the basic block check.
    Everything is a pure function of genesis. *)
From S2P Require Import Prelude F64 Hybrid Types Concrete.

Open Scope Z_scope.

Record ConsensusEngine := mkEngine {
  genesis : GenesisConfig;
  validator_ids : list ValidatorId }.

Definition new_engine (g : GenesisConfig) : ConsensusEngine :=
  mkEngine g (sort_by Z.compare (validator_id <$> validators g)).

(** ** Scores *)

Definition ratio (numerator denominator : Z) : f64 :=
  if denominator =? 0 then f64_zero
  else f64_clamp (f64_div (f64_of_u64 numerator) (f64_of_u64 denominator)) f64_zero f64_one.

Definition capped_ratio (numerator denominator : Z) : f64 :=
  ratio (Z.min numerator denominator) denominator.

Definition compute_service_score_with_weights (c : ServiceCounters) (w : ServiceScoreWeights) : f64 :=
  let uptime := capped_ratio (uptime_windows c) (total_windows c) in
  let delivery := capped_ratio (timely_deliveries c) (expected_deliveries c) in
  let diversity := capped_ratio (distinct_peers c) (expected_peers c) in
  let penalty := ratio (Z.min (wadd (failed_sessions c) (invalid_receipts c))
                              (Z.max (total_windows c) 1)) (Z.max (total_windows c) 1) in
  f64_clamp
    (f64_sub (f64_add (f64_add (f64_mul (uptime_weight w) uptime)
                               (f64_mul (delivery_weight w) delivery))
                      (f64_mul (diversity_weight w) diversity))
             (f64_mul (penalty_weight w) penalty))
    f64_zero f64_one.

Definition compute_service_score (c : ServiceCounters) : f64 :=
  compute_service_score_with_weights c default_service_score_weights.

Definition service_committee_threshold (committee_size : Z) : Z :=
  if committee_size =? 0 then 0 else committee_size * 2 / 3 + 1.

Definition service_aggregator_count (committee_size : Z) : Z := Z.min committee_size 3.

(** ** Slots, epochs and proposers *)

Section engine.
Context `{Hashing}.
Context (e : ConsensusEngine).

(** Division by a zero slot duration panics ([None]). *)
Definition slot_at (timestamp : Z) : option Slot :=
  checked_div (saturating_sub timestamp (genesis_time_unix_millis (genesis e)))
    (slot_duration_millis (genesis e)).

Definition epoch_for_slot (slot : Slot) : Epoch :=
  if slots_per_epoch (genesis e) =? 0 then 0 else slot / slots_per_epoch (genesis e).

Definition epoch_seed (epoch : Epoch) : HashBytes :=
  hash_many [hash_to_bytes (genesis_epoch_seed (genesis e)); to_le_bytes epoch].

(** The remainder by an empty validator list panics ([None]). *)
Definition proposer_for_slot (slot : Slot) : option ValidatorId :=
  let seed := epoch_seed (epoch_for_slot slot) in
  let selection := hash_many [hash_to_bytes seed; to_le_bytes slot] in
  let n := Z.of_nat (length (validator_ids e)) in
  if n =? 0 then None
  else validator_ids e !! Z.to_nat (u64_from_le_prefix selection mod n).

(** ** Epoch assignments *)

Definition rotated_ids (epoch : Epoch) : list ValidatorId :=
  let ids := validator_ids e in
  let rotation :=
    Z.to_nat (u64_from_le_prefix (epoch_seed epoch) mod Z.max (Z.of_nat (length ids)) 1) in
  drop rotation ids ++ take rotation ids.

Definition max_relations (rotated : list ValidatorId) : nat :=
  Z.to_nat (Z.min (witness_count (genesis e))
                  (saturating_sub (Z.of_nat (length rotated)) 1)).

(** The inner loop: the targets at offsets [1..=max_relations], itself left
    out. *)
Definition targets_at (rotated : list ValidatorId) (position : nat) (id : ValidatorId)
    : list ValidatorId :=
  filter (fun t => t <> id)
    (omap (fun offset => rotated !! ((position + offset) `mod` length rotated)%nat)
       (seq 1 (max_relations rotated))).

Definition assignment_at (epoch : Epoch) (rotated : list ValidatorId) (position : nat)
    (id : ValidatorId) : EpochAssignment :=
  let targets := targets_at rotated position id in
  mkAssignment epoch id targets targets.

Definition assignments_for_epoch (epoch : Epoch) : gmap ValidatorId EpochAssignment :=
  let rotated := rotated_ids epoch in
  foldl (fun m pv => <[pv.2 := assignment_at epoch rotated pv.1 pv.2]> m) ∅
    (imap (fun position id => (position, id)) rotated).

Definition assignment_for (epoch : Epoch) (id : ValidatorId) : option EpochAssignment :=
  assignments_for_epoch epoch !! id.

Definition is_witness_for (witness source : ValidatorId) (epoch : Epoch) : bool :=
  match assignment_for epoch source with
  | Some a => bool_decide (witness ∈ ea_witnesses a)
  | None => false
  end.

Definition is_relay_target_for (source destination : ValidatorId) (epoch : Epoch) : bool :=
  match assignment_for epoch source with
  | Some a => bool_decide (destination ∈ ea_relay_targets a)
  | None => false
  end.

Definition validate_receipt_assignment (r : RelayReceipt) : result unit :=
  _ ← ensure (epoch_for_slot (rr_slot r) =? rr_epoch r) "receipt epoch does not match slot";
  _ ← ensure (is_witness_for (rr_witness r) (rr_source r) (rr_epoch r))
        "receipt witness is not assigned for source validator";
  ensure (is_relay_target_for (rr_source r) (rr_destination r) (rr_epoch r))
    "receipt destination is not an assigned relay target".

Definition receipts_for_validator (id : ValidatorId) (epoch : Epoch) (rs : list RelayReceipt)
    : list RelayReceipt :=
  filter (fun r => rr_source r = id /\ rr_epoch r = epoch) rs.

Definition compute_receipt_root (rs : list RelayReceipt) : HashBytes :=
  canonical_hash (CHashes (sort_by Z.compare ((fun r => canonical_hash (CReceipt r)) <$> rs))).

(** ** Committees and aggregates *)

Definition service_committee_for (epoch : Epoch) (subject : ValidatorId) : list ValidatorId :=
  match assignment_for epoch subject with Some a => ea_witnesses a | None => [] end.

Definition service_aggregators_for (epoch : Epoch) (subject : ValidatorId) : list ValidatorId :=
  let committee := sort_by Z.compare (service_committee_for epoch subject) in
  take (Z.to_nat (service_aggregator_count (Z.of_nat (length committee)))) committee.

Definition is_service_aggregator_for (epoch : Epoch) (subject id : ValidatorId) : bool :=
  bool_decide (id ∈ service_aggregators_for epoch subject).

(** The attestation loop: every signer in the committee, none twice. *)
Fixpoint check_attesters (committee : list ValidatorId) (seen : gset ValidatorId)
    (l : list ServiceAttestation) : result (gset ValidatorId) :=
  match l with
  | [] => Ok seen
  | a :: l' =>
      if negb (bool_decide (sa_member a ∈ committee))
      then Err "attestation signer is not in the service committee"
      else if bool_decide (sa_member a ∈ seen) then Err "duplicate committee attestation"
      else check_attesters committee ({[sa_member a]} ∪ seen) l'
  end.

Definition consensus_validate_service_aggregate (a : ServiceAggregate) : result unit :=
  _ ← ensure (aggregate_is_well_formed a) "aggregate payload is malformed";
  let committee := service_committee_for (ag_epoch a) (ag_subject a) in
  let threshold := service_committee_threshold (Z.of_nat (length committee)) in
  members ← check_attesters committee ∅ (ag_attestations a);
  if Z.of_nat (size members) <? threshold
  then Err "aggregate does not meet service committee threshold" else Ok tt.

Definition compute_service_score_from_aggregate (a : ServiceAggregate)
    (w : ServiceScoreWeights) : f64 :=
  compute_service_score_with_weights (ag_counters a) w.

Definition confirmed_service_score_for_epoch (o : option ServiceAggregate)
    (w : ServiceScoreWeights) (current_epoch : Epoch) : option f64 :=
  a ← o;
  if negb (wadd (ag_epoch a) 1 =? current_epoch) then None
  else if is_ok (consensus_validate_service_aggregate a)
       then Some (compute_service_score_from_aggregate a w) else None.

Definition proposer_is_service_eligible (o : option ServiceAggregate) (threshold : f64)
    (current_epoch : Epoch) : bool :=
  f64_geb (default f64_zero
             (confirmed_service_score_for_epoch o default_service_score_weights current_epoch))
          threshold.

(** ** Counters and commitments *)

Definition heartbeat_slots (rs : list RelayReceipt) : gset Slot :=
  list_to_set (rr_slot <$> filter (fun r => rr_class r = Heartbeat) rs).
Definition timely_count (rs : list RelayReceipt) : Z :=
  Z.of_nat (length (filter (fun r => rr_latency r <= slot_duration_millis (genesis e)) rs)).

Definition counters_from_receipts (id : ValidatorId) (epoch : Epoch) (rs : list RelayReceipt)
    (failed invalid : Z) : ServiceCounters :=
  let targets := match assignment_for epoch id with Some a => ea_relay_targets a | None => [] end in
  mkCounters (Z.of_nat (size (heartbeat_slots rs)))
    (Z.max (slots_per_epoch (genesis e)) 1)
    (timely_count rs)
    (Z.max (slots_per_epoch (genesis e)) 1)
    (Z.of_nat (size (list_to_set (rr_destination <$> rs) : gset ValidatorId)))
    (Z.max (Z.of_nat (length targets)) 1)
    failed invalid.

Definition counters_for_validator (id : ValidatorId) (epoch : Epoch) (rs : list RelayReceipt)
    (failed invalid : Z) : ServiceCounters :=
  counters_from_receipts id epoch (receipts_for_validator id epoch rs) failed invalid.

Definition counters_for_validator_from_observer (id observer : ValidatorId) (epoch : Epoch)
    (rs : list RelayReceipt) : ServiceCounters :=
  let witnesses := match assignment_for epoch id with Some a => ea_witnesses a | None => [] end in
  if negb (bool_decide (observer ∈ witnesses)) then default_counters
  else
    let observed := filter (fun r => rr_source r = id /\ rr_epoch r = epoch
                                     /\ rr_witness r = observer) rs in
    mkCounters (Z.of_nat (size (heartbeat_slots observed)))
      (Z.max (slots_per_epoch (genesis e)) 1)
      (timely_count observed)
      (Z.max (slots_per_epoch (genesis e)) 1)
      (match observed with [] => 0 | _ => 1 end)
      1 0 0.

Definition commitment_from_receipts_with_weights (id : ValidatorId) (epoch : Epoch)
    (rs : list RelayReceipt) (failed invalid : Z) (w : ServiceScoreWeights)
    : TopologyCommitment :=
  let counters := counters_from_receipts id epoch rs failed invalid in
  let score := compute_service_score_with_weights counters w in
  let by_class :=
    foldl (fun m r => <[rr_class r := default 0 (m !! rr_class r) + 1]> m)
      (∅ : gmap MessageClass Z) rs in
  mkCommitment epoch id (compute_receipt_root rs) (Z.of_nat (length rs))
    (mkSummary by_class
       (Z.of_nat (size (list_to_set (rr_destination <$> rs) : gset ValidatorId))) score).

Definition commitment_from_receipts (id : ValidatorId) (epoch : Epoch) (rs : list RelayReceipt)
    (failed invalid : Z) : TopologyCommitment :=
  commitment_from_receipts_with_weights id epoch rs failed invalid default_service_score_weights.

Definition commitment_for_validator_with_weights (id : ValidatorId) (epoch : Epoch)
    (rs : list RelayReceipt) (failed invalid : Z) (w : ServiceScoreWeights)
    : TopologyCommitment :=
  commitment_from_receipts_with_weights id epoch (receipts_for_validator id epoch rs)
    failed invalid w.

Definition commitment_for_validator (id : ValidatorId) (epoch : Epoch) (rs : list RelayReceipt)
    (failed invalid : Z) : TopologyCommitment :=
  commitment_for_validator_with_weights id epoch rs failed invalid default_service_score_weights.

(** [proposer_for_slot] panics without validators, hence the error. *)
Definition validate_block_basic (b : Block) (expected_parent : HashBytes)
    (service_score : option f64) (enable_gating : bool) (threshold : f64) : result unit :=
  expected ← ok_or (proposer_for_slot (bh_slot (header b))) "panic: no validators";
  _ ← ensure (proposer_id (header b) =? expected) "unexpected proposer";
  _ ← ensure (parent_hash (header b) =? expected_parent) "unexpected parent hash";
  ensure (negb (enable_gating && f64_ltb (default f64_zero service_score) threshold))
    "service gating rejected proposer".
End engine.

(** ** Lemmas *)

Section lemmas.
Context `{Hashing}.
Context (e : ConsensusEngine).

Lemma rotated_ids_perm epoch : rotated_ids e epoch ≡ₚ validator_ids e.
Proof.
  unfold rotated_ids. rewrite (Permutation_app_comm (drop _ _)). by rewrite take_drop.
Qed.

Lemma imap_pair_snd {A} (l : list A) : (imap (fun i x => (i, x)) l).*2 = l.
Proof.
  rewrite fmap_imap. change (imap (fun _ x => x) l = l).
  induction l as [|x l IHl]; [done|]. simpl. f_equal. apply IHl.
Qed.

Lemma assignment_for_in epoch id :
  NoDup (validator_ids e) -> id ∈ validator_ids e ->
  exists position, rotated_ids e epoch !! position = Some id /\
    assignment_for e epoch id = Some (assignment_at e epoch (rotated_ids e epoch) position id).
Proof.
  intros Hnd Hid. rewrite <- (rotated_ids_perm epoch) in Hid.
  apply list_elem_of_lookup in Hid as [position Hpos]. exists position. split; [done|].
  unfold assignment_for, assignments_for_epoch.
  apply (foldl_insert_lookup snd (fun pv => assignment_at e epoch (rotated_ids e epoch) pv.1 pv.2)
           _ ∅ (position, id)).
  - by rewrite imap_pair_snd, rotated_ids_perm.
  - apply elem_of_lookup_imap. eauto.
Qed.

Lemma assignment_for_not_in epoch id :
  id ∉ validator_ids e -> assignment_for e epoch id = None.
Proof.
  intros Hid. unfold assignment_for, assignments_for_epoch.
  rewrite (foldl_insert_notin snd (fun pv => assignment_at e epoch _ pv.1 pv.2)).
  - apply lookup_empty.
  - by rewrite imap_pair_snd, rotated_ids_perm.
Qed.

Lemma assignment_for_targets epoch id a :
  assignment_for e epoch id = Some a -> ea_witnesses a = ea_relay_targets a.
Proof.
  unfold assignment_for, assignments_for_epoch.
  set (l := imap _ _). assert (Hm : forall m : gmap ValidatorId EpochAssignment,
    (forall k x, m !! k = Some x -> ea_witnesses x = ea_relay_targets x) ->
    forall k x, foldl (fun m pv => <[pv.2 := assignment_at e epoch (rotated_ids e epoch) pv.1 pv.2]> m)
                  m l !! k = Some x -> ea_witnesses x = ea_relay_targets x).
  { clear. induction l as [|[p v] l IHl]; intros m Hm; simpl; [done|].
    apply IHl. intros k x. rewrite lookup_insert. case_decide; [by intros [= <-] | apply Hm]. }
  apply Hm. intros k x. by rewrite lookup_empty.
Qed.

Lemma max_relations_lt rotated :
  (0 < length rotated)%nat -> (max_relations e rotated <= length rotated - 1)%nat.
Proof. unfold max_relations, saturating_sub. lia. Qed.

(** The ring of validators: [offset] steps after [position]. *)
Definition ring_nth (rotated : list ValidatorId) (d : ValidatorId) (position offset : nat)
    : ValidatorId :=
  nth ((position + offset) `mod` length rotated) rotated d.

Lemma ring_lookup rotated d position offset :
  (position < length rotated)%nat ->
  rotated !! ((position + offset) `mod` length rotated)%nat = Some (ring_nth rotated d position offset).
Proof.
  intros Hlt. unfold ring_nth.
  destruct (nth_lookup_or_length rotated ((position + offset) `mod` length rotated) d); [done|].
  pose proof (Nat.mod_upper_bound (position + offset) (length rotated) ltac:(lia)). lia.
Qed.

Lemma ring_nth_inj rotated d p q o1 o2 :
  NoDup rotated -> (p < length rotated)%nat -> (q < length rotated)%nat ->
  (o1 < length rotated)%nat -> (o2 < length rotated)%nat ->
  ring_nth rotated d p o1 = ring_nth rotated d q o2 ->
  ((p + o1) `mod` length rotated = (q + o2) `mod` length rotated)%nat.
Proof.
  intros Hnd Hp Hq Ho1 Ho2 Heq.
  eapply (NoDup_lookup rotated); [done | by apply ring_lookup|]. rewrite Heq. by apply ring_lookup.
Qed.

(** The targets of position [p] are the next [max_relations] validators of
    the ring. *)
Lemma targets_at_ring rotated position id :
  NoDup rotated -> rotated !! position = Some id ->
  targets_at e rotated position id =
    ring_nth rotated id position <$> seq 1 (max_relations e rotated).
Proof.
  intros Hnd Hpos. pose proof (lookup_lt_Some _ _ _ Hpos) as Hlt.
  pose proof (max_relations_lt rotated ltac:(lia)) as Hmax. unfold targets_at.
  rewrite (omap_all_some _ (ring_nth rotated id position)) by (intros; by apply ring_lookup).
  apply filter_true. intros x (o & -> & Ho)%list_elem_of_fmap Heq. apply elem_of_seq in Ho.
  pose proof (ring_lookup rotated id position o Hlt) as Hl. rewrite Heq in Hl.
  pose proof (NoDup_lookup _ _ _ _ Hnd Hpos Hl) as Hi.
  rewrite mod_below_twice in Hi by lia. destruct (Nat.ltb_spec (position + o) (length rotated)); lia.
Qed.
End lemmas.

(** ** Properties *)

Section properties.
Context `{Hashing}.
Context (e : ConsensusEngine).

(** How many targets everybody gets: the configured count, capped by the
    number of other validators. *)
Definition relation_count : nat :=
  Z.to_nat (Z.min (witness_count (genesis e)) (Z.of_nat (length (validator_ids e)) - 1)).

Lemma max_relations_count epoch :
  validator_ids e <> [] -> max_relations e (rotated_ids e epoch) = relation_count.
Proof.
  intros Hne. unfold max_relations, relation_count, saturating_sub.
  rewrite rotated_ids_perm. destruct (validator_ids e); [done|]. simpl length. lia.
Qed.

(** In every epoch every validator gets exactly [relation_count]
    witnesses, distinct, all validators, never itself, and its relay targets
    are its witnesses; an unknown id gets no assignment. *)
Lemma assignment_well_formed epoch id :
  NoDup (validator_ids e) ->
  (id ∉ validator_ids e -> assignment_for e epoch id = None) /\
  (id ∈ validator_ids e -> exists a,
     assignment_for e epoch id = Some a /\
     length (ea_witnesses a) = relation_count /\ NoDup (ea_witnesses a) /\
     id ∉ ea_witnesses a /\ ea_witnesses a ⊆ validator_ids e /\
     ea_relay_targets a = ea_witnesses a).
Proof.
  intros Hnd. split; [apply assignment_for_not_in|]. intros Hid.
  destruct (assignment_for_in e epoch id Hnd Hid) as (p & Hp & ->).
  eexists; split; [done|]. simpl.
  assert (Hndr : NoDup (rotated_ids e epoch)) by (by rewrite rotated_ids_perm).
  pose proof (lookup_lt_Some _ _ _ Hp) as Hlt.
  assert (Hne : validator_ids e <> []) by (intros E; rewrite E in Hid; by apply elem_of_nil in Hid).
  split_and!.
  - rewrite (targets_at_ring e _ p id Hndr Hp), length_fmap, length_seq. by apply max_relations_count.
  - rewrite (targets_at_ring e _ p id Hndr Hp). apply NoDup_fmap_2_strong; [|apply NoDup_seq].
    intros o1 o2 H1%elem_of_seq H2%elem_of_seq Heq.
    pose proof (max_relations_lt e (rotated_ids e epoch) ltac:(lia)) as Hmax.
    apply ring_nth_inj in Heq; [|done || lia..]. rewrite !mod_below_twice in Heq by lia.
    destruct (Nat.ltb_spec (p + o1) (length (rotated_ids e epoch))),
      (Nat.ltb_spec (p + o2) (length (rotated_ids e epoch))); lia.
  - unfold targets_at. rewrite list_elem_of_filter. by intros [? _].
  - intros x. unfold targets_at. rewrite list_elem_of_filter, list_elem_of_omap.
    intros (_ & o & _ & Hx%list_elem_of_lookup_2). by rewrite rotated_ids_perm in Hx.
  - done.
Qed.

Lemma is_witness_for_spec epoch w id p :
  NoDup (validator_ids e) -> rotated_ids e epoch !! p = Some id ->
  is_witness_for e w id epoch = true <->
  exists o, (1 <= o <= relation_count)%nat /\ w = ring_nth (rotated_ids e epoch) id p o.
Proof.
  intros Hnd Hp.
  assert (Hndr : NoDup (rotated_ids e epoch)) by (by rewrite rotated_ids_perm).
  assert (Hid : id ∈ validator_ids e).
  { rewrite <- (rotated_ids_perm e epoch). by eapply list_elem_of_lookup_2. }
  destruct (assignment_for_in e epoch id Hnd Hid) as (q & Hq & Ha).
  pose proof (NoDup_lookup _ _ _ _ Hndr Hp Hq) as <-.
  unfold is_witness_for. rewrite Ha. simpl. rewrite bool_decide_eq_true.
  rewrite (targets_at_ring e _ p id Hndr Hp), list_elem_of_fmap, max_relations_count
    by (intros E; rewrite E in Hid; by apply elem_of_nil in Hid).
  setoid_rewrite elem_of_seq. split; intros (o & ? & ?); exists o; (split; [lia || done|]); lia || done.
Qed.

(** The witness duty is balanced: in every epoch every validator is the
    witness of exactly [relation_count] others. *)
Lemma witness_duty_balanced epoch w :
  NoDup (validator_ids e) -> w ∈ validator_ids e ->
  length (filter (fun id => is_witness_for e w id epoch = true) (validator_ids e)) = relation_count.
Proof.
  intros Hnd Hw. set (r := rotated_ids e epoch).
  assert (Hr : r ≡ₚ validator_ids e) by apply rotated_ids_perm.
  assert (Hndr : NoDup r) by (by rewrite Hr). rewrite <- Hr in Hw |- *.
  assert (Hne : validator_ids e <> []).
  { intros E. rewrite E in Hr. rewrite Hr in Hw. by apply elem_of_nil in Hw. }
  apply list_elem_of_lookup in Hw as [q Hq]. pose proof (lookup_lt_Some _ _ _ Hq) as Hlt.
  assert (Hk : (relation_count < length r)%nat).
  { unfold relation_count. rewrite Hr. destruct (validator_ids e); [done|]. simpl length. lia. }
  rewrite (Permutation_length (l' := (fun o => ring_nth r w q (length r - o)) <$> seq 1 relation_count));
    [by rewrite length_fmap, length_seq|].
  apply NoDup_Permutation.
  - by apply NoDup_filter.
  - apply NoDup_fmap_2_strong; [|apply NoDup_seq]. intros o1 o2 H1%elem_of_seq H2%elem_of_seq Heq.
    apply ring_nth_inj in Heq; [|done || lia..]. rewrite !mod_below_twice in Heq by lia.
    destruct (Nat.ltb_spec (q + (length r - o1)) (length r)),
      (Nat.ltb_spec (q + (length r - o2)) (length r)); lia.
  - intros id. rewrite list_elem_of_filter, list_elem_of_fmap. setoid_rewrite elem_of_seq. split.
    + intros [Hwit [p Hp]%list_elem_of_lookup]. pose proof (lookup_lt_Some _ _ _ Hp).
      rewrite (is_witness_for_spec epoch w id p Hnd Hp) in Hwit. destruct Hwit as (o & Ho & Hwo).
      exists o. split; [|lia]. pose proof (ring_lookup r w q (length r - o) Hlt) as Hl.
      pose proof (ring_lookup r id p o ltac:(done)) as Hl2. fold r in Hwo. rewrite <- Hwo in Hl2.
      pose proof (NoDup_lookup _ _ _ _ Hndr Hq Hl2) as Hqp.
      rewrite mod_below_twice in Hqp, Hl by lia.
      enough (E : p = if (q + (length r - o) <? length r)%nat then (q + (length r - o))%nat
                      else (q + (length r - o) - length r)%nat) by (rewrite <- E in Hl; congruence).
      destruct (Nat.ltb_spec (p + o) (length r)), (Nat.ltb_spec (q + (length r - o)) (length r)); lia.
    + intros (o & -> & Ho). pose proof (ring_lookup r w q (length r - o) Hlt) as Hl.
      split; [|by eapply list_elem_of_lookup_2].
      apply (is_witness_for_spec epoch w _ _ Hnd Hl). exists o. split; [lia|]. fold r.
      set (p := ((q + (length r - o)) `mod` length r)%nat) in *.
      pose proof (Nat.mod_upper_bound (q + (length r - o)) (length r) ltac:(lia)).
      pose proof (ring_lookup r (ring_nth r w q (length r - o)) p o ltac:(subst p; lia)) as Hl2.
      enough (E : ((p + o) `mod` length r)%nat = q) by (rewrite E in Hl2; congruence).
      rewrite mod_below_twice by lia. subst p. rewrite mod_below_twice by lia.
      destruct (Nat.ltb_spec (q + (length r - o)) (length r)).
      * destruct (Nat.ltb_spec (q + (length r - o) + o) (length r)); lia.
      * destruct (Nat.ltb_spec (q + (length r - o) - length r + o) (length r)); lia.
Qed.

(** Whatever the counters and the weights, a service score is a number
    between zero and one, or NaN (never infinite, never out of range). *)
Lemma service_score_bounds c w :
  compute_service_score_with_weights c w = S754_nan \/
  (f64_geb (compute_service_score_with_weights c w) f64_zero = true /\
   f64_geb f64_one (compute_service_score_with_weights c w) = true).
Proof. unfold compute_service_score_with_weights. by apply f64_clamp_bounds. Qed.

Lemma check_attesters_ok committee seen l m :
  check_attesters committee seen l = Ok m ->
  NoDup (sa_member <$> l) /\ sa_member <$> l ⊆ committee /\
  (forall x, x ∈ sa_member <$> l -> x ∉ seen) /\ size m = (size seen + length l)%nat.
Proof.
  revert seen. induction l as [|a l IHl]; intros seen; simpl.
  - intros [= <-]. split_and!; [constructor | by intros x ?%elem_of_nil
      | by intros x ?%elem_of_nil | lia].
  - destruct (bool_decide _) eqn:Hc; simpl; [|done].
    destruct (bool_decide (sa_member a ∈ seen)) eqn:Hs; [done|]. bool_to_prop.
    intros (Hnd & Hsub & Hns & Hsz)%IHl.
    change (list_fmap _ _ sa_member l) with (sa_member <$> l). split_and!.
    + apply NoDup_cons. split; [|done]. intros Hin. apply (Hns _ Hin). set_solver.
    + intros x [->|Hx]%elem_of_cons; auto.
    + intros x [->|Hx]%elem_of_cons; [done|]. specialize (Hns _ Hx). set_solver.
    + rewrite Hsz, size_union, size_singleton by set_solver. simpl. lia.
Qed.

(** What an accepted aggregate is: distinct attesters out of the subject's
    committee, at least the threshold of them. *)
Lemma valid_aggregate_attesters a :
  consensus_validate_service_aggregate e a = Ok tt ->
  let committee := service_committee_for e (ag_epoch a) (ag_subject a) in
  let members := sa_member <$> ag_attestations a in
  aggregate_is_well_formed a = true /\ NoDup members /\ members ⊆ committee /\
  service_committee_threshold (Z.of_nat (length committee)) <= Z.of_nat (length members).
Proof.
  unfold consensus_validate_service_aggregate. intros (u & Hw & Hv)%result_bind_ok.
  apply ensure_ok in Hw. cbn zeta in Hv. apply result_bind_ok in Hv as (m & Hm & Hv).
  destruct (Z.ltb_spec (Z.of_nat (size m))
    (service_committee_threshold (Z.of_nat (length (service_committee_for e (ag_epoch a) (ag_subject a))))))
    as [|Hle]; [done|].
  apply check_attesters_ok in Hm as (Hnd & Hsub & _ & Hsz).
  rewrite size_empty in Hsz. rewrite length_fmap. split_and!; try done. lia.
Qed.

(** C29: Two accepted service aggregates of the same subject and epoch always
    have an attester in common: no two disjoint groups of the committee can
    certify different counters. *)
Theorem valid_aggregates_share_attester a b :
  consensus_validate_service_aggregate e a = Ok tt ->
  consensus_validate_service_aggregate e b = Ok tt ->
  ag_subject a = ag_subject b -> ag_epoch a = ag_epoch b ->
  exists w, w ∈ sa_member <$> ag_attestations a /\ w ∈ sa_member <$> ag_attestations b /\
  is_witness_for e w (ag_subject a) (ag_epoch a) = true.
Proof.
  intros Ha Hb Hs He.
  destruct (valid_aggregate_attesters a Ha) as (Hwf & Hnda & Hsa & Hta).
  destruct (valid_aggregate_attesters b Hb) as (_ & Hndb & Hsb & Htb).
  rewrite <- Hs, <- He in Hsb, Htb.
  set (committee := service_committee_for e (ag_epoch a) (ag_subject a)) in *.
  assert (Hne : committee <> []).
  { intros E. unfold aggregate_is_well_formed in Hwf. bool_to_prop.
    destruct (ag_attestations a) as [|x l]; [done|].
    rewrite E in Hsa. apply (not_elem_of_nil (sa_member x)), Hsa. by left. }
  unfold service_committee_threshold in Hta, Htb.
  destruct (Z.eqb_spec (Z.of_nat (length committee)) 0); [by destruct committee|].
  pose proof (two_thirds_overlap (Z.of_nat (length committee)) _ _ ltac:(lia) Hta Htb).
  destruct (quorum_overlap committee _ _ Hnda Hndb Hsa Hsb ltac:(lia)) as (w & Hwa & Hwb).
  exists w. split_and!; try done. apply Hsa in Hwa. unfold committee, service_committee_for in Hwa.
  unfold is_witness_for. destruct (assignment_for e (ag_epoch a) (ag_subject a)).
  - by apply bool_decide_eq_true.
  - by apply elem_of_nil in Hwa.
Qed.

Lemma heartbeat_slots_perm rs rs' : rs ≡ₚ rs' -> heartbeat_slots rs = heartbeat_slots rs'.
Proof. intros Hp. unfold heartbeat_slots. apply leibniz_equiv. by rewrite Hp. Qed.

Lemma count_by_class_perm rs rs' (m : gmap MessageClass Z) :
  rs ≡ₚ rs' ->
  foldl (fun m r => <[rr_class r := default 0 (m !! rr_class r) + 1]> m) m rs =
  foldl (fun m r => <[rr_class r := default 0 (m !! rr_class r) + 1]> m) m rs'.
Proof.
  intros Hp. revert m. induction Hp as [|r l l' _ IHl|r r' l|l1 l2 l3 _ IH1 _ IH2]; intros m; simpl.
  - done.
  - apply IHl.
  - f_equal. destruct (decide (rr_class r = rr_class r')) as [->|Hne]; [done|].
    rewrite !lookup_insert_ne by done. by apply insert_insert_ne.
  - by rewrite IH1.
Qed.

Lemma compute_receipt_root_perm rs rs' :
  rs ≡ₚ rs' -> compute_receipt_root rs = compute_receipt_root rs'.
Proof.
  intros Hp. unfold compute_receipt_root. do 2 f_equal. apply sort_by_Z_perm. by rewrite Hp.
Qed.

(** The topology commitment a block carries does not depend on the order
    in which a node collected the receipts: two nodes with the same receipts
    compute the same commitment, root, counts and score. *)
Lemma commitment_order_irrelevant id epoch rs rs' failed invalid w :
  rs ≡ₚ rs' ->
  commitment_for_validator_with_weights e id epoch rs failed invalid w =
  commitment_for_validator_with_weights e id epoch rs' failed invalid w.
Proof.
  intros Hp. unfold commitment_for_validator_with_weights.
  assert (Hq : receipts_for_validator id epoch rs ≡ₚ receipts_for_validator id epoch rs')
    by (unfold receipts_for_validator; by rewrite Hp).
  revert Hq. generalize (receipts_for_validator id epoch rs), (receipts_for_validator id epoch rs').
  intros l k Hq. unfold commitment_from_receipts_with_weights, counters_from_receipts, timely_count.
  rewrite (heartbeat_slots_perm l k Hq), (perm_filter_length _ l k Hq), (compute_receipt_root_perm l k Hq),
    (Permutation_length Hq), (count_by_class_perm l k ∅ Hq).
  assert (Hd : (list_to_set (rr_destination <$> l) : gset ValidatorId) = list_to_set (rr_destination <$> k)).
  { apply leibniz_equiv. by rewrite Hq. }
  by rewrite Hd.
Qed.

Lemma proposer_for_slot_in slot p :
  proposer_for_slot e slot = Some p -> p ∈ validator_ids e.
Proof.
  unfold proposer_for_slot. case_match; [done|]. by apply list_elem_of_lookup_2.
Qed.

(** Every slot has exactly one proposer, a validator of genesis, as soon
    as there is one validator; without any the selection panics. *)
Lemma proposer_for_slot_total slot :
  (validator_ids e = [] <-> proposer_for_slot e slot = None) /\
  (forall p, proposer_for_slot e slot = Some p -> p ∈ validator_ids e).
Proof.
  split; [|apply proposer_for_slot_in]. unfold proposer_for_slot.
  destruct (Z.eqb_spec (Z.of_nat (length (validator_ids e))) 0) as [E|E].
  - split; [done|]. intros _. by destruct (validator_ids e).
  - split; [by intros ->|]. intros Hn%lookup_ge_None. exfalso.
    pose proof (Z.mod_pos_bound (u64_from_le_prefix (hash_many
      [hash_to_bytes (epoch_seed e (epoch_for_slot e slot)); to_le_bytes slot]))
      (Z.of_nat (length (validator_ids e))) ltac:(lia)). lia.
Qed.
End properties.

(** ** Witnesses *)

Module ConsensusExample.
#[local] Existing Instance concrete_hashing.

(** Five validators, two witnesses each, epochs of ten slots. *)
Definition five_validators : list ValidatorConfig :=
  (fun id => mkValidator id 100 "127.0.0.1" "secret" PubId.default None) <$> [3; 1; 5; 2; 4].
Definition five_genesis : GenesisConfig :=
  mkGenesis "test" 0 0 1000 10 16 2 five_validators ∅.
Definition engine : ConsensusEngine := new_engine five_genesis.

Lemma engine_ids_distinct : NoDup (validator_ids engine).
Proof. apply (bool_decide_unpack _). vm_compute. exact I. Qed.

Lemma assignment_well_formed_witness :
  exists a, assignment_for engine 7 2 = Some a /\ length (ea_witnesses a) = 2%nat.
Proof.
  destruct (assignment_well_formed engine 7 2 engine_ids_distinct) as [_ Hin].
  destruct Hin as (a & Ha & Hl & _).
  - apply (bool_decide_unpack _). vm_compute. exact I.
  - exists a. split; [exact Ha|]. rewrite Hl. vm_compute. reflexivity.
Defined.

Lemma witness_duty_balanced_witness :
  length (filter (fun id => is_witness_for engine 2 id 7 = true) (validator_ids engine)) = 2%nat.
Proof.
  rewrite (witness_duty_balanced engine 7 2 engine_ids_distinct).
  - vm_compute. reflexivity.
  - apply (bool_decide_unpack _). vm_compute. exact I.
Defined.

(** The aggregate of two given attesters of validator 2 in epoch 7. *)
Definition attest (member uptime : Z) : ServiceAttestation :=
  mkAttestation 2 member 7 (mkCounters uptime 10 5 10 1 1 0 0) TypedSig.default.
Definition aggregate_of (l : list ServiceAttestation) : ServiceAggregate :=
  mkAggregate 2 7 (service_attestation_root l) l (aggregate_service_counters l).
Definition committee_of_2 : list ValidatorId := service_committee_for engine 7 2.
Definition aggregate_a : ServiceAggregate := aggregate_of ((fun m => attest m 4) <$> committee_of_2).
Definition aggregate_b : ServiceAggregate := aggregate_of ((fun m => attest m 9) <$> committee_of_2).

Lemma valid_aggregates_share_attester_witness :
  exists w, w ∈ sa_member <$> ag_attestations aggregate_a /\
  w ∈ sa_member <$> ag_attestations aggregate_b /\
  is_witness_for engine w (ag_subject aggregate_a) (ag_epoch aggregate_a) = true.
Proof.
  apply (valid_aggregates_share_attester engine aggregate_a aggregate_b);
    vm_compute; reflexivity.
Defined.

Definition receipt (destination sequence : Z) : RelayReceipt :=
  mkReceipt 7 70 2 destination 4 Heartbeat 0 10 100 sequence TypedSig.default.

Lemma commitment_order_irrelevant_witness :
  commitment_for_validator_with_weights engine 2 7 [receipt 3 1; receipt 4 2] 0 0
    default_service_score_weights =
  commitment_for_validator_with_weights engine 2 7 [receipt 4 2; receipt 3 1] 0 0
    default_service_score_weights.
Proof. apply commitment_order_irrelevant. apply Permutation_swap. Defined.
End ConsensusExample.
