(* ===== verification/Policy.v ===== *)
(** * Node policies

    The pure decision functions of crates/entangrid-node/src/lib.rs: slot
    scheduling, the per-peer rate limit, service-evidence comparison, the
    snapshot preference and the sync throttle.  The node's handlers call them;
    none touches the node's state except through what it returns. *)
From S2P Require Import Prelude F64 Hybrid Types Consensus.

Open Scope Z_scope.

(** ** Constants *)

Definition MAX_INCREMENTAL_SYNC_BLOCKS : nat := 64%nat.
Definition MAX_PREFERRED_INCREMENTAL_SYNC_BLOCKS : nat := 12%nat.
Definition SYNC_REQUEST_COOLDOWN_MILLIS : Z := 1500.
Definition INCREMENTAL_SYNC_FAILURES_BEFORE_FULL_SNAPSHOT : Z := 1.
Definition PEER_MESSAGE_WINDOW_MILLIS : Z := 5000.
Definition MAX_SYNC_CONTROL_MESSAGES_PER_WINDOW : Z := 24.
Definition MAX_TRANSACTION_GOSSIP_MESSAGES_PER_WINDOW : Z := 256.
Definition MAX_RECEIPT_GOSSIP_MESSAGES_PER_WINDOW : Z := 512.
Definition CERTIFIED_SYNC_ANCHOR_LIMIT : nat := 32%nat.
Definition RECOVERY_SYNC_RETRY_SLOTS : Z := 2.

(** ** Slot scheduling *)

Definition pending_slots_to_process (last_processed : option Slot) (current : Slot) : list Slot :=
  match last_processed with
  | None => seqZ 0 (current + 1)
  | Some previous =>
      if current <=? previous then [current]
      else seqZ (previous + 1) (current - previous)
  end.

(** [slot_at] panics on a zero slot duration ([None] of the outer option). *)
Definition initial_last_processed_slot (e : ConsensusEngine) (restored : option Slot) (now : Z)
    : option (option Slot) :=
  if now <? genesis_time_unix_millis (genesis e) then Some restored
  else current ← slot_at e now;
       if current =? 0 then Some restored
       else let live_floor := current - 1 in
            Some (Some (Z.max (default live_floor restored) live_floor)).

(** ** Rate limit per peer *)

Inductive PeerMessageClass := SyncControl | TransactionGossip | ReceiptGossip.
#[export] Instance PeerMessageClass_eq_dec : EqDecision PeerMessageClass.
Proof. solve_decision. Defined.

Record PeerMessageWindow := mkWindow {
  started_at : Z;
  sync_control_messages : Z;
  transaction_gossip_messages : Z;
  receipt_gossip_messages : Z }.
Definition default_window : PeerMessageWindow := mkWindow 0 0 0 0.

Definition classify_peer_message (m : ProtocolMessage) : option PeerMessageClass :=
  match m with
  | MsgSyncStatus _ _ _ _ _ _ _ | MsgSyncRequest _ _ _ | MsgCertifiedSyncRequest _
  | MsgReceiptFetch _ _ _ => Some SyncControl
  | MsgTransactionBroadcast _ => Some TransactionGossip
  | MsgRelayReceipt _ => Some ReceiptGossip
  | MsgBlockProposal _ | MsgProposalVote _ | MsgQuorumCertificate _ | MsgSyncResponse _ _
  | MsgSyncBlocks _ _ | MsgCertifiedSyncResponse _ | MsgHeartbeatPulse _
  | MsgServiceAttestation _ | MsgServiceAggregate _ | MsgReceiptResponse _ _ _ _ => None
  end.

Definition class_limit (c : PeerMessageClass) : Z :=
  match c with
  | SyncControl => MAX_SYNC_CONTROL_MESSAGES_PER_WINDOW
  | TransactionGossip => MAX_TRANSACTION_GOSSIP_MESSAGES_PER_WINDOW
  | ReceiptGossip => MAX_RECEIPT_GOSSIP_MESSAGES_PER_WINDOW
  end.
Definition class_counter (c : PeerMessageClass) (w : PeerMessageWindow) : Z :=
  match c with
  | SyncControl => sync_control_messages w
  | TransactionGossip => transaction_gossip_messages w
  | ReceiptGossip => receipt_gossip_messages w
  end.
Definition bump_class (c : PeerMessageClass) (w : PeerMessageWindow) : PeerMessageWindow :=
  match c with
  | SyncControl => mkWindow (started_at w) (wadd (sync_control_messages w) 1)
      (transaction_gossip_messages w) (receipt_gossip_messages w)
  | TransactionGossip => mkWindow (started_at w) (sync_control_messages w)
      (wadd (transaction_gossip_messages w) 1) (receipt_gossip_messages w)
  | ReceiptGossip => mkWindow (started_at w) (sync_control_messages w)
      (transaction_gossip_messages w) (wadd (receipt_gossip_messages w) 1)
  end.

(** A window that was never started or is too old starts again. *)
Definition window_expired (w : PeerMessageWindow) (now : Z) : bool :=
  (started_at w =? 0) || (PEER_MESSAGE_WINDOW_MILLIS <=? saturating_sub now (started_at w)).

Definition allow_peer_message_in_window (w : PeerMessageWindow) (c : PeerMessageClass) (now : Z)
    : bool * PeerMessageWindow :=
  let w := if window_expired w now then mkWindow now 0 0 0 else w in
  if class_limit c <=? class_counter c w then (false, w) else (true, bump_class c w).

(** ** Service evidence *)

Definition quorum_certificate_threshold (validator_count : nat) : nat :=
  match validator_count with O => O | _ => (validator_count * 2 / 3 + 1)%nat end.

Definition service_counters_dominate (candidate existing : ServiceCounters) : bool :=
  (total_windows candidate =? total_windows existing)
  && (expected_deliveries candidate =? expected_deliveries existing)
  && (expected_peers candidate =? expected_peers existing)
  && (uptime_windows existing <=? uptime_windows candidate)
  && (timely_deliveries existing <=? timely_deliveries candidate)
  && (distinct_peers existing <=? distinct_peers candidate)
  && (failed_sessions existing <=? failed_sessions candidate)
  && (invalid_receipts existing <=? invalid_receipts candidate).

Definition accumulate_weighted_counters (aggregate counters : ServiceCounters) (weight : Z)
    : ServiceCounters :=
  let acc f := saturating_add (f aggregate) (saturating_mul (f counters) weight) in
  mkCounters (acc uptime_windows) (acc total_windows) (acc timely_deliveries)
    (acc expected_deliveries) (acc distinct_peers) (acc expected_peers)
    (acc failed_sessions) (acc invalid_receipts).

Inductive NetworkFailureKind := FaultInjected | Transport | PeerConfigFailure.
#[export] Instance NetworkFailureKind_eq_dec : EqDecision NetworkFailureKind.
Proof. solve_decision. Defined.

Definition should_track_outbound_service_session (outbound accountable : bool) : bool :=
  outbound && accountable.
Definition should_record_failed_service_session (outbound accountable : bool)
    (kind : NetworkFailureKind) : bool :=
  should_track_outbound_service_session outbound accountable && bool_decide (kind = FaultInjected).

Definition should_record_failed_session `{Hashing} (e : ConsensusEngine)
    (known_live_peers : gset ValidatorId) (observed : gset (Epoch * ValidatorId * ValidatorId))
    (epoch : Epoch) (id peer : ValidatorId) : bool :=
  if negb (is_relay_target_for e id peer epoch) then false
  else if negb (bool_decide (peer ∈ known_live_peers)) then false
  else if bool_decide ((epoch, id, peer) ∈ observed) then false
  else true.

Definition should_enforce_service_gating_for_block (enable local_proposal : bool)
    (epoch start_epoch : Epoch) : bool :=
  enable && local_proposal && (start_epoch <=? epoch).

Definition build_receipt_fetch_plan (requester : ValidatorId) (peer_ids : gset ValidatorId)
    : list ValidatorId :=
  filter (fun p => p <> requester) (sort_by Z.compare (elements peer_ids)).

(** ** Sync *)

Record ServedSyncRequest := mkServedRequest {
  served_at : Z;
  sr_known_height : Z;
  sr_known_tip_hash : HashBytes;
  served_local_height : Z;
  served_local_tip_hash : HashBytes;
  served_local_highest_qc_height : Z;
  served_local_highest_qc_hash : option HashBytes }.

Record ServedSyncPush := mkServedPush {
  sp_peer_height : Z;
  sp_peer_tip_hash : HashBytes;
  sp_peer_highest_qc_hash : option HashBytes;
  sp_peer_highest_qc_height : Z;
  sp_local_height : Z;
  sp_local_tip_hash : HashBytes;
  sp_local_highest_qc_hash : option HashBytes;
  sp_local_highest_qc_height : Z }.
#[export] Instance ServedSyncPush_eq_dec : EqDecision ServedSyncPush.
Proof. solve_decision. Defined.

Record PeerSyncStatus := mkStatus {
  ps_height : Z;
  ps_tip_hash : HashBytes;
  ps_tip_last_slot : Z;
  ps_highest_qc_hash : option HashBytes;
  ps_highest_qc_height : Z;
  recent_qc_anchors : list SyncQcAnchor }.

Record LocalSyncView := mkView {
  lv_height : Z;
  lv_tip_hash : HashBytes;
  lv_tip_last_slot : Z;
  lv_highest_qc_hash : option HashBytes;
  lv_highest_qc_height : Z }.
#[export] Instance LocalSyncView_eq_dec : EqDecision LocalSyncView.
Proof. solve_decision. Defined.

(** Preference tuples compare lexicographically. *)
Definition sync_view_preference (h tip_last_slot : Z) (tip : HashBytes) : list Z :=
  [h; tip_last_slot; tip].
Definition local_sync_view_preference (v : LocalSyncView) : list Z :=
  sync_view_preference (lv_height v) (lv_tip_last_slot v) (lv_tip_hash v).
Definition peer_sync_status_preference (s : PeerSyncStatus) : list Z :=
  sync_view_preference (ps_height s) (ps_tip_last_slot s) (ps_tip_hash s).

Definition local_sync_view_is_ahead_of_status (v : LocalSyncView) (s : PeerSyncStatus) : bool :=
  (ps_highest_qc_height s <? lv_highest_qc_height v)
  || ((lv_highest_qc_height v =? ps_highest_qc_height s)
      && negb (bool_decide (lv_highest_qc_hash v = ps_highest_qc_hash s)))
  || lex_ltb (peer_sync_status_preference s) (local_sync_view_preference v).

(** A sentinel height makes the responder fall back to a full snapshot. *)
Definition sync_request_known_state (h : Z) (tip : HashBytes) (force_full : bool) : Z * HashBytes :=
  if force_full then (U64_MAX, empty_hash) else (h, tip).
Definition is_force_full_snapshot_hint (known_height : Z) (known_tip : HashBytes) : bool :=
  (known_height =? U64_MAX) && (known_tip =? empty_hash).
Definition should_record_peer_sync_status (h : Z) (tip : HashBytes) : bool :=
  negb (is_force_full_snapshot_hint h tip).

Definition anchor_cmp (left right : SyncQcAnchor) : comparison :=
  cmp_then (an_number right ?= an_number left) (an_hash right ?= an_hash left).
Definition merge_sync_qc_anchors (existing incoming : list SyncQcAnchor) (limit : nat)
    : list SyncQcAnchor :=
  take limit (dedup_by (fun l r => an_hash l =? an_hash r)
                (sort_by anchor_cmp (existing ++ incoming))).

Definition sync_repair_should_force_full_snapshot (failures : Z) : bool :=
  INCREMENTAL_SYNC_FAILURES_BEFORE_FULL_SNAPSHOT <=? failures.

Definition sync_request_should_throttle (served : ServedSyncRequest) (now known_height : Z)
    (known_tip : HashBytes) (local_height : Z) (local_tip : HashBytes)
    (local_qc_height : Z) (local_qc_hash : option HashBytes) : bool :=
  if is_force_full_snapshot_hint known_height known_tip then false
  else
    let anchored := (local_qc_height =? known_height)
                    && bool_decide (local_qc_hash = Some known_tip)
                    && (local_qc_height <? local_height) in
    if anchored then false
    else
      let responder_advanced :=
        (served_local_highest_qc_height served <? local_qc_height)
        || ((local_qc_height =? served_local_highest_qc_height served)
            && negb (bool_decide (local_qc_hash = served_local_highest_qc_hash served)))
        || negb (bool_decide ([local_height; 0; local_tip]
                              = [served_local_height served; 0; served_local_tip_hash served])) in
      if responder_advanced then false
      else (saturating_sub now (served_at served) <? SYNC_REQUEST_COOLDOWN_MILLIS)
           && (sr_known_height served =? known_height)
           && (sr_known_tip_hash served =? known_tip).

Definition snapshot_preference (s : StateSnapshot) : list Z := [height s; last_slot s; tip_hash s].
Definition should_adopt_snapshot (local remote : StateSnapshot) : bool :=
  lex_ltb (snapshot_preference local) (snapshot_preference remote).
Definition should_adopt_certified_snapshot (local : StateSnapshot) (local_qc_height : Z)
    (remote : StateSnapshot) (remote_qc_height : Z) : bool :=
  if negb (remote_qc_height =? local_qc_height) then local_qc_height <? remote_qc_height
  else should_adopt_snapshot local remote.

(** [(u64, u64, u64, u64, u64, HashBytes)], compared lexicographically. *)
Definition pre_qc_tip_support_quality (tip_vote_count tip_height tip_slot : Z) (tip : HashBytes)
    : list Z :=
  [0; saturating_mul tip_vote_count tip_height; tip_height; tip_vote_count; tip_slot; tip].

Definition snapshot_branch_quality (chain : list Block) (votes : list ProposalVote) : list Z :=
  let tip := last chain in
  let voters h : gset ValidatorId :=
    list_to_set (pv_validator <$> filter (fun v => pv_block_hash v = h) votes) in
  pre_qc_tip_support_quality
    (from_option (fun b => Z.of_nat (size (voters (block_hash b)))) 0 tip)
    (from_option (fun b => block_number (header b)) 0 tip)
    (from_option (fun b => bh_slot (header b)) 0 tip)
    (from_option block_hash empty_hash tip).

Definition peer_qc_anchors_from_request (r : ChunkedSyncRequest) : list SyncQcAnchor :=
  match known_qc_anchors r with
  | _ :: _ => known_qc_anchors r
  | [] => match known_qc_hash r with
          | Some h => if 0 <? known_qc_height r then [mkAnchor h (known_qc_height r)] else []
          | None => []
          end
  end.

(** ** The rate limit over a run of messages *)

Section rate_limit.
(** How many of the messages of class [c] in a run are let through. *)
Fixpoint admitted (c : PeerMessageClass) (w : PeerMessageWindow)
    (trace : list (PeerMessageClass * Z)) : Z :=
  match trace with
  | [] => 0
  | (c', now) :: trace' =>
      let '(ok, w') := allow_peer_message_in_window w c' now in
      (if ok && bool_decide (c' = c) then 1 else 0) + admitted c w' trace'
  end.

Definition window_ok (w : PeerMessageWindow) : Prop :=
  forall c, 0 <= class_counter c w <= class_limit c.

Lemma class_limit_pos c : 0 < class_limit c < 1000.
Proof. by destruct c. Qed.

Lemma class_counter_bump c c' w :
  window_ok w -> class_counter c w < class_limit c ->
  class_counter c' (bump_class c w) = class_counter c' w + if bool_decide (c = c') then 1 else 0.
Proof.
  intros Hw Hlt. pose proof (class_limit_pos c). specialize (Hw c).
  destruct c, c'; simpl in *; try lia; apply wadd_small; unfold U64_MOD; lia.
Qed.

Lemma allow_same_window w c now ok w' :
  window_ok w -> window_expired w now = false ->
  allow_peer_message_in_window w c now = (ok, w') ->
  window_ok w' /\ started_at w' = started_at w /\
  (forall c', class_counter c' w' =
     class_counter c' w + if ok && bool_decide (c = c') then 1 else 0).
Proof.
  intros Hw He. unfold allow_peer_message_in_window. rewrite He.
  destruct (Z.leb_spec (class_limit c) (class_counter c w)) as [|Hlt]; intros [= <- <-].
  - split_and!; try done. intros; simpl; lia.
  - split_and!.
    + intros c'. rewrite (class_counter_bump c c' w Hw Hlt). specialize (Hw c').
      case_bool_decide; subst; lia.
    + by destruct c.
    + intros c'. by rewrite (class_counter_bump c c' w Hw Hlt).
Qed.

(** Within one window. *)
Lemma admitted_same_window c w trace :
  window_ok w -> Forall (fun m => window_expired w m.2 = false) trace ->
  admitted c w trace <= class_limit c - class_counter c w.
Proof.
  revert w. induction trace as [|[c' now] trace IH]; intros w Hw Ht; cbn [admitted].
  { specialize (Hw c). lia. }
  apply Forall_cons in Ht as [Hn Ht].
  destruct (allow_peer_message_in_window w c' now) as [ok w'] eqn:E.
  destruct (allow_same_window _ _ _ _ _ Hw Hn E) as (Hw' & Hs & Hc).
  assert (Ht' : Forall (fun m => window_expired w' m.2 = false) trace).
  { eapply Forall_impl; [exact Ht|]. unfold window_expired. by rewrite Hs. }
  specialize (IH w' Hw' Ht'). rewrite Hc in IH. lia.
Qed.

Lemma fresh_window_ok now : window_ok (mkWindow now 0 0 0).
Proof. intros c. pose proof (class_limit_pos c). destruct c; simpl in *; lia. Qed.

Lemma admitted_reset c w c' now trace :
  window_expired w now = true ->
  admitted c w ((c', now) :: trace) = admitted c (mkWindow now 0 0 0) ((c', now) :: trace).
Proof.
  intros He. cbn [admitted].
  assert (allow_peer_message_in_window w c' now
          = allow_peer_message_in_window (mkWindow now 0 0 0) c' now) as ->; [|done].
  unfold allow_peer_message_in_window. rewrite He. by destruct (window_expired (mkWindow now 0 0 0) now).
Qed.

(** However messages are spread over the windows, a peer never gets more
    than twice the class limit through in any five seconds (and within one
    window never more than the limit). *)
Lemma rate_limit_bound c w trace first :
  window_ok w -> 0 < first ->
  StronglySorted (fun m m' => m.2 <= m'.2) trace ->
  Forall (fun m => first <= m.2 < first + PEER_MESSAGE_WINDOW_MILLIS) trace ->
  admitted c w trace <= 2 * class_limit c.
Proof.
  intros Hw Hf Hs Ht.
  enough (admitted c w trace <= (class_limit c - class_counter c w) + class_limit c)
    by (specialize (Hw c); lia).
  revert w Hw. induction Hs as [|[c' now] trace Hs IH Hle]; intros w Hw.
  { cbn [admitted]. pose proof (class_limit_pos c). specialize (Hw c). lia. }
  apply Forall_cons in Ht as [Hn Ht]. simpl in Hn.
  destruct (window_expired w now) eqn:He.
  - rewrite (admitted_reset _ _ _ _ _ He).
    etrans; [apply admitted_same_window; [apply fresh_window_ok|]|].
    + unfold window_expired, PEER_MESSAGE_WINDOW_MILLIS, saturating_sub in *; simpl.
      apply Forall_cons. split.
      * apply orb_false_iff. rewrite Z.eqb_neq, Z.leb_gt. simpl. lia.
      * apply Forall_forall. intros [k t] Hk. rewrite Forall_forall in Ht, Hle.
        specialize (Ht _ Hk). specialize (Hle _ Hk). simpl in *.
        apply orb_false_iff. rewrite Z.eqb_neq, Z.leb_gt. lia.
    + specialize (Hw c). destruct c; simpl in *; lia.
  - cbn [admitted]. destruct (allow_peer_message_in_window w c' now) as [ok w'] eqn:E.
    destruct (allow_same_window _ _ _ _ _ Hw He E) as (Hw' & _ & Hc).
    specialize (IH Ht w' Hw'). rewrite Hc in IH. lia.
Qed.
End rate_limit.

(** ** Lemmas on preferences *)

Section preference.
(** Certified snapshot preference is a strict order that decides between
    any two snapshots of different preference, so two nodes never keep
    replacing each other's chain: no snapshot is preferred to itself, two
    snapshots are never each preferred to the other, preference composes,
    and only equal certified height, height, slot and tip tie. *)
Lemma certified_preference_strict_order a qa b qb c qc :
  should_adopt_certified_snapshot a qa a qa = false /\
  (should_adopt_certified_snapshot a qa b qb = true ->
   should_adopt_certified_snapshot b qb a qa = false) /\
  (should_adopt_certified_snapshot a qa b qb = true ->
   should_adopt_certified_snapshot b qb c qc = true ->
   should_adopt_certified_snapshot a qa c qc = true) /\
  (should_adopt_certified_snapshot a qa b qb = false ->
   should_adopt_certified_snapshot b qb a qa = false ->
   qa = qb /\ snapshot_preference a = snapshot_preference b).
Proof.
  unfold should_adopt_certified_snapshot, should_adopt_snapshot.
  split_and!.
  - rewrite Z.eqb_refl. simpl. auto with entangrid.
  - destruct (Z.eqb_spec qb qa) as [->|]; simpl.
    + rewrite Z.eqb_refl. simpl. auto with entangrid.
    + rewrite (proj2 (Z.eqb_neq qa qb)) by done. simpl. rewrite Z.ltb_lt, Z.ltb_ge. lia.
  - destruct (Z.eqb_spec qb qa) as [->|]; simpl.
    + destruct (Z.eqb_spec qc qa) as [->|]; simpl; [|done]. apply lex_ltb_trans.
    + rewrite Z.ltb_lt. intros. destruct (Z.eqb_spec qc qb) as [->|]; simpl in *.
      * rewrite (proj2 (Z.eqb_neq qb qa)) by done. simpl. by apply Z.ltb_lt.
      * bool_to_prop. rewrite (proj2 (Z.eqb_neq qc qa)) by lia. simpl. apply Z.ltb_lt. lia.
  - destruct (Z.eqb_spec qb qa) as [->|]; simpl.
    + rewrite Z.eqb_refl. simpl. intros. split; [done|]. by apply lex_ltb_total.
    + rewrite (proj2 (Z.eqb_neq qa qb)) by done. simpl. rewrite !Z.ltb_ge. lia.
Qed.

(** Slot ticks cover time without gaps: whatever was processed before, a
    tick yields slots in increasing order ending with the current one, and
    when the clock moved forward exactly the slots since the last one. *)
Lemma pending_slots_cover prev current :
  0 <= current -> from_option (fun p => 0 <= p) True prev ->
  StronglySorted Z.lt (pending_slots_to_process prev current) /\
  last (pending_slots_to_process prev current) = Some current /\
  (forall s, s ∈ pending_slots_to_process prev current <->
     s = current \/ (from_option Z.succ 0 prev <= s <= current)).
Proof.
  intros Hc Hl.
  assert (Hseq : forall m n, 0 < n -> StronglySorted Z.lt (seqZ m n) /\
    last (seqZ m n) = Some (m + n - 1) /\ (forall s, s ∈ seqZ m n <-> m <= s < m + n)).
  { intros m n Hn. split_and!; [..|intros; by rewrite elem_of_seqZ].
    - unfold seqZ. assert (Hs : forall k j, StronglySorted Z.lt ((fun i => Z.of_nat i + m) <$> seq j k)).
      { induction k as [|k IHk]; intros j; simpl; constructor; [apply IHk|].
        apply Forall_fmap, Forall_forall. intros i Hi%elem_of_seq. simpl. lia. }
      apply Hs.
    - replace n with (Z.of_nat (Z.to_nat (n - 1)) + 1) by lia.
      rewrite seqZ_app by lia. rewrite last_app. simpl. f_equal. lia. }
  destruct prev as [p|]; simpl in *.
  - unfold pending_slots_to_process. destruct (Z.leb_spec current p).
    + split_and!; [repeat constructor | done |].
      intros s. rewrite list_elem_of_singleton. lia.
    + destruct (Hseq (p + 1) (current - p) ltac:(lia)) as (? & -> & Hin).
      split_and!; [done | f_equal; lia |]. intros s. rewrite Hin. lia.
  - destruct (Hseq 0 (current + 1) ltac:(lia)) as (? & E & Hin). unfold pending_slots_to_process.
    rewrite E. split_and!; [done | f_equal; lia |]. intros s. rewrite Hin. lia.
Qed.
End preference.
