(* ===== verification/Network.v ===== *)
(** * The transport

    crates/entangrid-network/src/lib.rs: frames, session lifetimes, the
    outbound worker of a peer (fault injection, connecting with retries,
    handshake, sealed frames, one retry), the inbound side of a connection, the
    listener's session limit, and the per-peer queues of [NetworkHandle].
    Sockets and clocks belong to the class [Environment]: an oracle the
    theorems quantify over.  The cryptographic backend is used through the
    interfaces [CryptoBackend] and [HandshakeProvider]. *)
From S2P Require Import Prelude F64 Hybrid Types Concrete Crypto Sessions Consensus Policy.

Open Scope Z_scope.

Definition MAX_FRAME_SIZE_BYTES : Z := 8 * 1024 * 1024.
Definition MAX_CONCURRENT_INBOUND_SESSIONS : nat := 64.
Definition INBOUND_SESSION_ACQUIRE_TIMEOUT_MILLIS : Z := 75.
Definition MAX_CONNECT_RETRIES : nat := 4.
Definition CONNECT_RETRY_BACKOFF_MILLIS : Z := 15.
Definition DEFAULT_HYBRID_SESSION_TTL_MILLIS : Z := 10 * 60 * 1000.

(** ** Data *)

(** [std::io::ErrorKind], as far as the code tells kinds apart. *)
Inductive ErrorKind :=
| ConnectionRefused | ConnectionReset | ConnectionAborted | NotConnected | AddrNotAvailable
| BrokenPipe | TimedOut | Interrupted | UnexpectedEof | OtherKind.

(** [anyhow::Error]: what [downcast_ref::<io::Error>] finds, or a message. *)
Inductive Error := IoError (k : ErrorKind) | Message (m : string) | Panic (m : string).

#[export] Instance ErrorKind_eq_dec : EqDecision ErrorKind.
Proof. solve_decision. Defined.

Record SignedEnvelope := mkEnvelope {
  env_from : ValidatorId;
  env_hash : HashBytes;
  env_signature : TypedSignature;
  env_payload : ProtocolMessage }.

(** [OutboundRequest] with the peer's address. *)
Record Request := mkRequest {
  rq_peer : PeerConfig;
  rq_payload : ProtocolMessage;
  rq_accountable : bool }.

(** [NetworkEvent]; the text of a failure is left out. *)
Inductive TransportEvent :=
| EvReceived (from : ValidatorId) (payload : ProtocolMessage) (size : Z)
| EvSessionObserved (peer : ValidatorId) (transcript : HashBytes) (outbound accountable : bool)
| EvSessionFailed (peer : option ValidatorId) (outbound accountable : bool) (kind : NetworkFailureKind)
| EvInboundSessionDropped.

Record EstablishedOutboundStream := mkEstablished {
  es_session : SessionMaterial;
  es_send_counter : Z;
  es_established_at : Z;
  es_ttl : option Z }.

(** A connection as the other end sees it: what was written, apart from the
    length prefixes. *)
Record Connection := mkConnection {
  co_handshake : list bytes;
  co_frames : list bytes;
  co_session : option SessionMaterial }.

(** The counters of [NodeMetrics] the transport advances. *)
Record SessionMetrics := mkSessionMetrics {
  handshake_attempts : Z;
  handshake_failures : Z;
  active_sessions : Z;
  bytes_sent : Z;
  bytes_received : Z;
  inbound_session_drops : Z }.

(** ** The environment *)

(** The bytes a stream will still deliver, and how it then ends: closed by the
    peer ([None]) or broken. *)
Record InStream := mkIn { arriving : bytes; ending : option ErrorKind }.

(** What the [n]-th interaction with the system returns. *)
Class Environment := {
  clock_at : nat -> Z;
  connect_at : nat -> string -> option ErrorKind;
  nodelay_at : nat -> option ErrorKind;
  write_at : nat -> option ErrorKind;
  reply_at : nat -> InStream;
  random_at : nat -> bytes }.

(** One task: its view of the system, its metrics and events, and the streams
    it owns.  [w_connections] (newest first), [w_attempts] and [w_slept] record
    what the task did. *)
Record World := mkWorld {
  w_io : nat;
  w_metrics : SessionMetrics;
  w_events : list TransportEvent;
  w_stream : option EstablishedOutboundStream;
  w_in : InStream;
  w_connections : list Connection;
  w_attempts : nat;
  w_slept : Z }.

Definition set_io f (w : World) := mkWorld (f (w_io w)) (w_metrics w) (w_events w) (w_stream w)
  (w_in w) (w_connections w) (w_attempts w) (w_slept w).
Definition set_metrics f (w : World) := mkWorld (w_io w) (f (w_metrics w)) (w_events w) (w_stream w)
  (w_in w) (w_connections w) (w_attempts w) (w_slept w).
Definition set_events f (w : World) := mkWorld (w_io w) (w_metrics w) (f (w_events w)) (w_stream w)
  (w_in w) (w_connections w) (w_attempts w) (w_slept w).
Definition set_stream x (w : World) := mkWorld (w_io w) (w_metrics w) (w_events w) x
  (w_in w) (w_connections w) (w_attempts w) (w_slept w).
Definition set_in x (w : World) := mkWorld (w_io w) (w_metrics w) (w_events w) (w_stream w)
  x (w_connections w) (w_attempts w) (w_slept w).
Definition set_connections f (w : World) := mkWorld (w_io w) (w_metrics w) (w_events w) (w_stream w)
  (w_in w) (f (w_connections w)) (w_attempts w) (w_slept w).
Definition set_attempts f (w : World) := mkWorld (w_io w) (w_metrics w) (w_events w) (w_stream w)
  (w_in w) (w_connections w) (f (w_attempts w)) (w_slept w).
Definition set_slept f (w : World) := mkWorld (w_io w) (w_metrics w) (w_events w) (w_stream w)
  (w_in w) (w_connections w) (w_attempts w) (f (w_slept w)).

(** ** The monad *)

Definition N (A : Type) : Type := World -> (Error + A) * World.

#[export] Instance N_ret : MRet N := fun A a w => (inr a, w).
#[export] Instance N_bind : MBind N := fun A B f m w =>
  match m w with
  | (inr a, w') => f a w'
  | (inl x, w') => (inl x, w')
  end.

Definition n_fail {A} (x : Error) : N A := fun w => (inl x, w).
Definition n_get : N World := fun w => (inr w, w).
Definition n_modify (f : World -> World) : N unit := fun w => (inr tt, f w).
Definition n_lift {A} (r : result A) : N A :=
  match r with Ok a => mret a | Err m => n_fail (Message m) end.
(** The error as a value; a panic ends the task. *)
Definition n_try {A} (m : N A) : N (Error + A) := fun w =>
  match m w with
  | (inl (Panic s), w') => (inl (Panic s), w')
  | (r, w') => (inr r, w')
  end.

Definition tick : N nat := fun w => (inr (w_io w), set_io S w).
Definition update_metrics (f : SessionMetrics -> SessionMetrics) : N unit := n_modify (set_metrics f).
Definition emit (ev : TransportEvent) : N unit := n_modify (set_events (fun l => l ++ [ev])).
Definition sleep (millis : Z) : N unit := n_modify (set_slept (fun t => t + millis)).

(** ** Metrics *)

Definition add_attempt (m : SessionMetrics) := mkSessionMetrics (handshake_attempts m + 1)
  (handshake_failures m) (active_sessions m) (bytes_sent m) (bytes_received m) (inbound_session_drops m).
Definition add_failure (m : SessionMetrics) := mkSessionMetrics (handshake_attempts m)
  (handshake_failures m + 1) (active_sessions m) (bytes_sent m) (bytes_received m)
  (inbound_session_drops m).
Definition set_active (n : Z) (m : SessionMetrics) := mkSessionMetrics (handshake_attempts m)
  (handshake_failures m) n (bytes_sent m) (bytes_received m) (inbound_session_drops m).
Definition add_sent (n : Z) (m : SessionMetrics) := mkSessionMetrics (handshake_attempts m)
  (handshake_failures m) (active_sessions m) (bytes_sent m + n) (bytes_received m)
  (inbound_session_drops m).
Definition add_received (n : Z) (m : SessionMetrics) := mkSessionMetrics (handshake_attempts m)
  (handshake_failures m) (active_sessions m) (bytes_sent m) (bytes_received m + n)
  (inbound_session_drops m).
Definition add_drop (m : SessionMetrics) := mkSessionMetrics (handshake_attempts m)
  (handshake_failures m) (active_sessions m) (bytes_sent m) (bytes_received m)
  (inbound_session_drops m + 1).

(** ** Pure checks *)

Definition effective_session_ttl_millis (configured : option Z) (s : SessionMaterial) : option Z :=
  if negb (encrypt_frames s) then None
  else match configured with
       | Some 0 => None
       | Some ttl => Some ttl
       | None => Some DEFAULT_HYBRID_SESSION_TTL_MILLIS
       end.

Definition session_is_expired (established_at : Z) (ttl : option Z) (now : Z) : bool :=
  match ttl with
  | Some ttl => ttl <=? saturating_sub now established_at
  | None => false
  end.

Definition should_drop (faults : FaultProfile) (peer : ValidatorId) (message_hash : HashBytes)
    : bool :=
  if f64_geb f64_zero (outbound_drop_probability faults) then false
  else
    let randomish := Z.lxor (u64_from_le_prefix message_hash) peer in
    let fraction := f64_clamp (f64_div (f64_of_u64 randomish) (f64_of_u64 U64_MAX)) f64_zero f64_one in
    f64_ltb fraction (outbound_drop_probability faults).

Definition is_retryable_connect_error (k : ErrorKind) : bool :=
  match k with
  | ConnectionRefused | ConnectionReset | ConnectionAborted | TimedOut | AddrNotAvailable
  | Interrupted => true
  | _ => false
  end.

Definition is_retryable_stream_error (k : ErrorKind) : bool :=
  match k with
  | BrokenPipe | ConnectionReset | ConnectionAborted | NotConnected | UnexpectedEof | TimedOut
  | Interrupted => true
  | _ => false
  end.

Definition is_retryable_transport_error (x : Error) : bool :=
  match x with IoError k => is_retryable_stream_error k | _ => false end.

(** ** Frames on a stream *)

(** [write_u32], [read_u32]: big-endian. *)
Definition u32_bytes (n : Z) : bytes :=
  (fun i => Z.land (Z.shiftr n (8 * i)) 255) <$> [3; 2; 1; 0].
Definition u32_of_bytes (b : bytes) : Z := foldl (fun acc x => acc * 256 + x) 0 b.

(** What [write_frame] puts on the wire ([bytes.len() as u32] wraps). *)
Definition wire_frame (b : bytes) : bytes := u32_bytes (Z.of_nat (length b) mod 2 ^ 32) ++ b.

Definition read_exact (n : nat) (s : InStream) : (Error + bytes) * InStream :=
  if (n <=? length (arriving s))%nat
  then (inr (take n (arriving s)), mkIn (drop n (arriving s)) (ending s))
  else (inl (IoError (default UnexpectedEof (ending s))), mkIn [] (ending s)).

(** [read_frame_bytes]: a stream that ends before a length is closed. *)
Definition read_frame (s : InStream) : (Error + option bytes) * InStream :=
  match read_exact 4 s with
  | (inl (IoError UnexpectedEof), s') => (inr None, s')
  | (inl x, s') => (inl x, s')
  | (inr prefix, s') =>
      let frame_len := u32_of_bytes prefix in
      if MAX_FRAME_SIZE_BYTES <? frame_len then (inl (Message "frame length exceeds max"), s')
      else match read_exact (Z.to_nat frame_len) s' with
           | (inr frame, s'') => (inr (Some frame), s'')
           | (inl x, s'') => (inl x, s'')
           end
  end.

Definition read_frame_bytes : N (option bytes) := fun w =>
  let '(r, s) := read_frame (w_in w) in (r, set_in s w).

Abbreviation NonceTuple := (string * ValidatorId * ValidatorId * Z)%type.

Section transport.
Context `{Hashing} `{CryptoBackend} `{HandshakeProvider} `{Aead} `{Environment}.
Context `{!Bincode SessionClientHello} `{!Bincode SessionServerHello}.
Context `{!Bincode SignedEnvelope} `{!Bincode ProtocolMessage} `{!Bincode NonceTuple}.
Context (local : ValidatorId) (configured_ttl : option Z).

Definition now_unix_millis : N Z := i ← tick; mret (clock_at i).

(** [canonical_hash] of a value: an encoding error panics. *)
Definition hash_of {T} `{Bincode T} (x : T) : N HashBytes :=
  match encode_to_vec x with
  | Ok b => mret (blake3 b)
  | Err m => n_fail (Panic m)
  end.

Definition session_nonce (peer : ValidatorId) : N HashBytes :=
  now ← now_unix_millis;
  hash_of ("entangrid-network-session"%string, local, peer, now).

(** [write_frame]: one interaction; what is written reaches the newest
    connection whole, or the write failed. *)
Definition on_current (f : Connection -> Connection) (l : list Connection) : list Connection :=
  match l with [] => [] | c :: l' => f c :: l' end.
Definition write_frame (log : bytes -> Connection -> Connection) (b : bytes) : N unit :=
  i ← tick;
  match write_at i with
  | Some k => n_fail (IoError k)
  | None => n_modify (set_connections (on_current (log b)))
  end.

Definition log_handshake (b : bytes) (c : Connection) : Connection :=
  mkConnection (co_handshake c ++ [b]) (co_frames c) (co_session c).
Definition log_frame (b : bytes) (c : Connection) : Connection :=
  mkConnection (co_handshake c) (co_frames c ++ [b]) (co_session c).
Definition log_session (s : SessionMaterial) (c : Connection) : Connection :=
  mkConnection (co_handshake c) (co_frames c) (Some s).

Definition write_bincode_frame {T} `{Bincode T} (x : T) : N unit :=
  b ← n_lift (encode_to_vec x); write_frame log_handshake b.

Definition decode_frame {T} `{Bincode T} (b : bytes) : N T := n_lift (decode_from_slice b).

(** ** Outbound *)

(** [write_application_frame]: the counter advances before the write. *)
Definition write_application_frame (e : EstablishedOutboundStream) (plaintext : bytes) : N Z :=
  if encrypt_frames (es_session e) then
    frame ← n_lift (encrypt_frame_payload (es_session e) Outbound (es_send_counter e) plaintext);
    _ ← n_modify (set_stream (Some (mkEstablished (es_session e)
          (saturating_add (es_send_counter e) 1) (es_established_at e) (es_ttl e))));
    _ ← write_frame log_frame frame;
    mret (Z.of_nat (length frame))
  else
    _ ← write_frame log_frame plaintext;
    mret (Z.of_nat (length plaintext)).

(** [connect_with_retries]: [left] retries remain; a new connection becomes
    the newest. *)
Fixpoint connect_from (left : nat) (address : string) : N unit :=
  _ ← n_modify (set_attempts S);
  i ← tick;
  match connect_at i address with
  | None => n_modify (set_connections (cons (mkConnection [] [] None)))
  | Some k =>
      if negb (is_retryable_connect_error k) then n_fail (IoError k)
      else match left with
           | O => n_fail (IoError k)
           | S left' =>
               _ ← sleep (CONNECT_RETRY_BACKOFF_MILLIS * Z.of_nat (MAX_CONNECT_RETRIES - left + 1));
               connect_from left' address
           end
  end.
Definition connect_with_retries : string -> N unit := connect_from MAX_CONNECT_RETRIES.

Definition set_nodelay : N unit :=
  i ← tick; match nodelay_at i with Some k => n_fail (IoError k) | None => mret tt end.

Definition run_outbound_handshake (peer : ValidatorId) : N SessionMaterial :=
  nonce ← session_nonce peer;
  hello ← n_lift (build_client_hello local peer nonce);
  _ ← write_bincode_frame hello;
  i ← tick;
  _ ← n_modify (set_in (reply_at i));
  frame ← read_frame_bytes;
  b ← match frame with
      | Some b => mret b
      | None => n_fail (Message "expected server hello before stream closed")
      end;
  reply ← decode_frame b;
  n_lift (finalize_client_session local hello reply).

(** The expiry check at the head of the send loop. *)
Definition drop_expired_stream : N unit :=
  w ← n_get;
  match w_stream w with
  | None => mret tt
  | Some e =>
      now ← now_unix_millis;
      if session_is_expired (es_established_at e) (es_ttl e) now
      then _ ← update_metrics (set_active 0); n_modify (set_stream None)
      else mret tt
  end.

Definition open_stream (peer : PeerConfig) : N unit :=
  _ ← connect_with_retries (peer_address peer);
  _ ← set_nodelay;
  _ ← update_metrics add_attempt;
  outcome ← n_try (run_outbound_handshake (peer_id peer));
  match outcome with
  | inl x => _ ← update_metrics (fun m => set_active 0 (add_failure m)); n_fail x
  | inr session =>
      _ ← update_metrics (set_active 1);
      now ← now_unix_millis;
      _ ← n_modify (set_connections (on_current (log_session session)));
      n_modify (set_stream (Some (mkEstablished session 0 now
        (effective_session_ttl_millis configured_ttl session))))
  end.

Definition ensure_stream (peer : PeerConfig) : N EstablishedOutboundStream :=
  _ ← drop_expired_stream;
  w ← n_get;
  _ ← match w_stream w with None => open_stream peer | Some _ => mret tt end;
  w ← n_get;
  match w_stream w with Some e => mret e | None => n_fail (Panic "stream populated") end.

(** The send loop; [left] is 0 once it has retried. *)
Fixpoint send_loop (left : nat) (peer : PeerConfig) (b : bytes) : N unit :=
  e ← ensure_stream peer;
  outcome ← n_try (write_application_frame e b);
  match outcome with
  | inr wire_len => update_metrics (add_sent wire_len)
  | inl x =>
      _ ← update_metrics (set_active 0);
      _ ← n_modify (set_stream None);
      match left with
      | S left' => if is_retryable_transport_error x then send_loop left' peer b else n_fail x
      | O => n_fail x
      end
  end.

Definition send_message (faults : FaultProfile) (rq : Request) : N unit :=
  let peer := peer_id (rq_peer rq) in
  if disable_outbound faults
  then emit (EvSessionFailed (Some peer) true (rq_accountable rq) FaultInjected)
  else
    message_hash ← hash_of (rq_payload rq);
    if should_drop faults peer message_hash
    then emit (EvSessionFailed (Some peer) true (rq_accountable rq) FaultInjected)
    else
      _ ← (if 0 <? artificial_delay_ms faults then sleep (artificial_delay_ms faults) else mret tt);
      signature ← n_lift (sign local (hash_to_bytes message_hash));
      b ← n_lift (encode_to_vec (mkEnvelope local message_hash signature (rq_payload rq)));
      _ ← send_loop 1 (rq_peer rq) b;
      w ← n_get;
      match w_stream w with
      | Some e => emit (EvSessionObserved peer (transcript_hash_of (es_session e)) true
                          (rq_accountable rq))
      | None => n_fail (Panic "stream retained")
      end.

(** The worker of one peer: requests in the order they were queued. *)
Definition serve_request (faults : FaultProfile) (peer : ValidatorId) (rq : Request) : N unit :=
  outcome ← n_try (send_message faults rq);
  match outcome with
  | inl _ => emit (EvSessionFailed (Some peer) true (rq_accountable rq) Transport)
  | inr _ => mret tt
  end.

Fixpoint run_worker (faults : FaultProfile) (peer : ValidatorId) (rqs : list Request) : N unit :=
  match rqs with
  | [] => mret tt
  | rq :: rqs' => _ ← serve_request faults peer rq; run_worker faults peer rqs'
  end.

(** ** Inbound *)

Inductive ApplicationFrameRead :=
| Frame (payload : bytes) (wire_len : Z)
| StreamClosed
| SessionExpired.

Definition accept_inbound_handshake : N (ValidatorId * SessionMaterial) :=
  frame ← read_frame_bytes;
  b ← match frame with
      | Some b => mret b
      | None => n_fail (Message "expected client hello before stream closed")
      end;
  hello ← decode_frame b;
  i ← tick;
  '(reply, session) ← n_lift (accept_client_hello (random_at i) local hello);
  _ ← write_bincode_frame reply;
  mret (ch_initiator hello, session).

(** Returns the frame and the next receive counter. *)
Definition read_application_frame (session : SessionMaterial) (receive_counter : Z)
    (established_at : Z) (ttl : option Z) : N (ApplicationFrameRead * Z) :=
  frame ← read_frame_bytes;
  match frame with
  | None => mret (StreamClosed, receive_counter)
  | Some b =>
      let wire_len := Z.of_nat (length b) in
      now ← now_unix_millis;
      if session_is_expired established_at ttl now then mret (SessionExpired, receive_counter)
      else if encrypt_frames session then
        plaintext ← n_lift (decrypt_frame_payload session Outbound receive_counter b);
        mret (Frame plaintext wire_len, saturating_add receive_counter 1)
      else mret (Frame b wire_len, receive_counter)
  end.

(** One envelope: what the receiving loop does with a frame. *)
Definition receive_envelope (peer : ValidatorId) (session : SessionMaterial) (payload : bytes)
    (wire_len : Z) : N unit :=
  let reject x := _ ← update_metrics (fun m => set_active 0 (add_failure m)); n_fail (Message x) in
  env ← decode_frame payload;
  _ ← update_metrics (add_received wire_len);
  expected ← hash_of (env_payload env);
  if negb (expected =? env_hash env) then reject "payload hash mismatch"
  else if negb (env_from env =? peer)
  then reject "envelope validator does not match established peer"
  else
    _ ← emit (EvSessionObserved peer (transcript_hash_of session) false true);
    verified ← n_lift (verify (env_from env) (hash_to_bytes (env_hash env)) (env_signature env));
    _ ← update_metrics (fun m => set_active 0 (if verified : bool then m else add_failure m));
    if (verified : bool)
    then emit (EvReceived (env_from env) (env_payload env) (Z.of_nat (length payload)))
    else n_fail (Message "invalid envelope signature").

(** The receiving loop: every round takes at least the four bytes of a length
    off the stream, so as many rounds as there are bytes are enough. *)
Fixpoint receive_loop (rounds : nat) (peer : ValidatorId) (session : SessionMaterial)
    (established_at : Z) (ttl : option Z) (receive_counter : Z) : N unit :=
  match rounds with
  | O => n_fail (Panic "out of rounds")
  | S rounds' =>
      outcome ← n_try (read_application_frame session receive_counter established_at ttl);
      match outcome with
      | inl x => _ ← update_metrics (fun m => set_active 0 (add_failure m)); n_fail x
      | inr (Frame payload wire_len, counter) =>
          _ ← receive_envelope peer session payload wire_len;
          receive_loop rounds' peer session established_at ttl counter
      | inr (_, _) => update_metrics (set_active 0)
      end
  end.

Definition handle_inbound : N unit :=
  _ ← update_metrics add_attempt;
  outcome ← n_try accept_inbound_handshake;
  match outcome with
  | inl x => _ ← update_metrics (fun m => set_active 0 (add_failure m)); n_fail x
  | inr (peer, session) =>
      _ ← update_metrics (set_active 1);
      now ← now_unix_millis;
      w ← n_get;
      receive_loop (S (length (arriving (w_in w)))) peer session now
        (effective_session_ttl_millis configured_ttl session) 0
  end.

(** The task the listener spawns for a connection. *)
Definition inbound_task : N unit :=
  outcome ← n_try handle_inbound;
  match outcome with
  | inl _ => emit (EvSessionFailed None false false Transport)
  | inr _ => mret tt
  end.
End transport.

(** ** The listener's session limit *)

(** A connection that gets a permit in time is served; one that does not is
    dropped; a served session ends. *)
Inductive ListenerInput :=
| Accepted (released_in_time : bool)
| AcceptFailed
| InboundEnded.

Record Listener := mkListener { running : nat; l_drops : Z; l_events : list TransportEvent }.

Definition listener_step (s : Listener) (x : ListenerInput) : Listener :=
  match x with
  | Accepted released =>
      if (running s <? MAX_CONCURRENT_INBOUND_SESSIONS)%nat
      then mkListener (S (running s)) (l_drops s) (l_events s)
      else if (released : bool) then s (* one session ends, the waiting one starts *)
      else mkListener (running s) (l_drops s + 1) (l_events s ++ [EvInboundSessionDropped])
  | AcceptFailed => mkListener (running s) (l_drops s)
                      (l_events s ++ [EvSessionFailed None false false Transport])
  | InboundEnded => mkListener (pred (running s)) (l_drops s) (l_events s)
  end.

(** ** The queues of [NetworkHandle] *)

Abbreviation Queues := (gmap ValidatorId (list Request)).

(** [spawn_network]: a queue per configured peer. *)
Definition new_handle (peers : list PeerConfig) : Queues :=
  foldl (fun m p => <[peer_id p := []]> m) ∅ peers.

(** What a failing broadcast queued before stays queued. *)
Definition enqueue (rq : Request) (q : Queues) : result unit * Queues :=
  match q !! peer_id (rq_peer rq) with
  | None => (Err "unknown peer", q)
  | Some l => (Ok tt, <[peer_id (rq_peer rq) := l ++ [rq]]> q)
  end.

Definition handle_send_to (p : PeerConfig) (m : ProtocolMessage) : Queues -> result unit * Queues :=
  enqueue (mkRequest p m true).
Definition handle_send_control_to (p : PeerConfig) (m : ProtocolMessage)
    : Queues -> result unit * Queues :=
  enqueue (mkRequest p m false).

(** The broadcast loops stop at the first unknown peer. *)
Fixpoint handle_broadcast (ps : list PeerConfig) (m : ProtocolMessage) (q : Queues)
    : result unit * Queues :=
  match ps with
  | [] => (Ok tt, q)
  | p :: ps' => match handle_send_to p m q with
                | (Ok _, q') => handle_broadcast ps' m q'
                | (Err x, q') => (Err x, q')
                end
  end.
Fixpoint handle_broadcast_control (ps : list PeerConfig) (m : ProtocolMessage) (q : Queues)
    : result unit * Queues :=
  match ps with
  | [] => (Ok tt, q)
  | p :: ps' => match handle_send_control_to p m q with
                | (Ok _, q') => handle_broadcast_control ps' m q'
                | (Err x, q') => (Err x, q')
                end
  end.
