(* ===== verification/Channel.v ===== *)
(** * The transport: what it guarantees

    The worker of a peer reports every request exactly once, in order, with
    bounded effort ([worker_reports_every_request]); what it writes on a
    connection are the requests in order, sealed under nonces that never repeat
    ([frames_sealed_in_order]); a receiver in the same session gets exactly
    them ([channel_delivers_in_order]) and reports as received only what its
    sender signed ([received_is_authentic]). *)
From S2P Require Import Prelude F64 Hybrid Types Concrete Crypto Sessions Handshakes.
From S2P Require Import Consensus Policy Network.

Open Scope Z_scope.

(** ** Runs *)

Lemma n_run_bind {A B} (m : N A) (f : A -> N B) w :
  (m ≫= f) w = match m w with
               | (inr a, w') => f a w'
               | (inl x, w') => (inl x, w')
               end.
Proof. done. Qed.

(** [moves R m]: a run of [m] relates the worlds before and after by [R]. *)
Definition moves (R : World -> World -> Prop) {A} (m : N A) : Prop := forall w, R w (m w).2.

Section moves.
Context (R : World -> World -> Prop) `{!PreOrder R}.

Lemma moves_ret {A} (a : A) : moves R (mret a).
Proof. intros w. reflexivity. Qed.
Lemma moves_fail {A} x : moves R (n_fail (A:=A) x).
Proof. intros w. reflexivity. Qed.
Lemma moves_get : moves R n_get.
Proof. intros w. reflexivity. Qed.
Lemma moves_lift {A} (r : result A) : moves R (n_lift r).
Proof. destruct r; intros w; reflexivity. Qed.
Lemma moves_modify f : (forall w, R w (f w)) -> moves R (n_modify f).
Proof. intros Hf w. apply Hf. Qed.
Lemma moves_bind {A B} (m : N A) (f : A -> N B) :
  moves R m -> (forall a, moves R (f a)) -> moves R (m ≫= f).
Proof.
  intros Hm Hf w. rewrite n_run_bind. specialize (Hm w).
  destruct (m w) as [[x|a] w']; simpl in *; [done|]. etrans; [exact Hm|apply Hf].
Qed.
Lemma moves_try {A} (m : N A) : moves R m -> moves R (n_try m).
Proof. intros Hm w. specialize (Hm w). unfold n_try. by destruct (m w) as [[[]|] w']. Qed.
End moves.

Create HintDb moves.
#[export] Hint Resolve moves_ret moves_fail moves_get moves_lift : moves.

Ltac moves_step :=
  match goal with
  | |- forall _, _ => intros
  | |- moves _ (_ ≫= _) => apply moves_bind; [apply _| |]
  | |- moves _ (n_try _) => apply moves_try
  | |- moves _ (if ?b then _ else _) => destruct b
  | |- moves _ (match ?x with _ => _ end) => destruct x
  | |- moves _ (let '_ := ?x in _) => destruct x
  | |- moves _ _ => solve [eauto with moves typeclass_instances]
  end.
Ltac moves_auto := repeat moves_step.

Section channel.
Context `{Hashing} `{CryptoBackend} `{HandshakeProvider} `{Aead} `{Environment}.
Context `{!Bincode SessionClientHello} `{!Bincode SessionServerHello}.
Context `{!Bincode SignedEnvelope} `{!Bincode ProtocolMessage} `{!Bincode NonceTuple}.
Context (local : ValidatorId) (configured_ttl : option Z).

(** ** What only moves counters, streams and connections *)

(** Nothing is reported on the way. *)
Definition silent (w w' : World) : Prop := w_events w' = w_events w.
#[export] Instance silent_preorder : PreOrder silent.
Proof. split; [by intros w|]. intros w w' w''. unfold silent. congruence. Qed.

Lemma silent_tick : moves silent tick.
Proof. by intros w. Qed.
Lemma silent_metrics f : moves silent (update_metrics f).
Proof. by intros w. Qed.
Lemma silent_sleep t : moves silent (sleep t).
Proof. by intros w. Qed.
Lemma silent_read : moves silent read_frame_bytes.
Proof. intros w. unfold read_frame_bytes. by destruct (read_frame (w_in w)). Qed.
Lemma silent_hash {T} `{Bincode T} (x : T) : moves silent (hash_of x).
Proof. unfold hash_of. moves_auto. Qed.
Hint Resolve silent_tick silent_metrics silent_sleep silent_read : moves.
Lemma silent_modify f : (forall w, w_events (f w) = w_events w) -> moves silent (n_modify f).
Proof. intros Hf. by apply moves_modify. Qed.
Hint Extern 1 (moves silent (n_modify _)) => apply silent_modify; reflexivity : moves.
Lemma silent_write log b : moves silent (write_frame log b).
Proof. unfold write_frame. moves_auto. Qed.
Hint Resolve silent_write silent_hash : moves.

Lemma silent_connect left address : moves silent (connect_from left address).
Proof. induction left as [|left IH]; simpl; moves_auto; exact IH. Qed.
Lemma silent_handshake peer : moves silent (run_outbound_handshake local peer).
Proof.
  unfold run_outbound_handshake, session_nonce, now_unix_millis, write_bincode_frame, decode_frame.
  moves_auto.
Qed.
Hint Resolve silent_connect silent_handshake : moves.
Lemma silent_ensure peer : moves silent (ensure_stream local configured_ttl peer).
Proof.
  unfold ensure_stream, drop_expired_stream, open_stream, now_unix_millis, set_nodelay,
    connect_with_retries. moves_auto.
Qed.
Lemma silent_application e b : moves silent (write_application_frame e b).
Proof. unfold write_application_frame. moves_auto. Qed.
Hint Resolve silent_ensure silent_application : moves.
Lemma silent_send_loop left peer b : moves silent (send_loop local configured_ttl left peer b).
Proof. induction left as [|left IH]; simpl; moves_auto; exact IH. Qed.

(** ** Effort *)

(** [costs a t m]: at most [a] connection attempts and [t] milliseconds of
    sleep. *)
Definition costs (a : nat) (t : Z) {A} (m : N A) : Prop := forall w,
  (w_attempts (m w).2 <= w_attempts w + a)%nat /\ w_slept (m w).2 <= w_slept w + t.

Definition idle (w w' : World) : Prop := w_attempts w' = w_attempts w /\ w_slept w' = w_slept w.
#[export] Instance idle_preorder : PreOrder idle.
Proof. split; [by intros w|]. intros w w' w'' [??] [??]. unfold idle. split; congruence. Qed.

Lemma idle_modify f : (forall w, idle w (f w)) -> moves idle (n_modify f).
Proof. intros Hf. by apply moves_modify. Qed.
Hint Extern 1 (moves idle (n_modify _)) => apply idle_modify; intros; split; reflexivity : moves.
Lemma idle_tick : moves idle tick.
Proof. by intros w. Qed.
Lemma idle_metrics f : moves idle (update_metrics f).
Proof. by intros w. Qed.
Lemma idle_emit ev : moves idle (emit ev).
Proof. by intros w. Qed.
Lemma idle_read : moves idle read_frame_bytes.
Proof. intros w. unfold read_frame_bytes. by destruct (read_frame (w_in w)). Qed.
Lemma idle_hash {T} `{Bincode T} (x : T) : moves idle (hash_of x).
Proof. unfold hash_of. moves_auto. Qed.
Hint Resolve idle_tick idle_metrics idle_emit idle_read idle_hash : moves.
Lemma idle_write log b : moves idle (write_frame log b).
Proof. unfold write_frame. moves_auto. Qed.
Hint Resolve idle_write : moves.
Lemma idle_handshake peer : moves idle (run_outbound_handshake local peer).
Proof.
  unfold run_outbound_handshake, session_nonce, now_unix_millis, write_bincode_frame, decode_frame.
  moves_auto.
Qed.
Lemma idle_application e b : moves idle (write_application_frame e b).
Proof. unfold write_application_frame. moves_auto. Qed.
Hint Resolve idle_handshake idle_application : moves.

Lemma costs_idle {A} (m : N A) a t : 0 <= t -> moves idle m -> costs a t m.
Proof. intros Ht Hm w. destruct (Hm w) as [-> ->]. lia. Qed.

Lemma costs_bind {A B} a t b u (m : N A) (f : A -> N B) :
  0 <= u -> costs a t m -> (forall x, costs b u (f x)) -> costs (a + b) (t + u) (m ≫= f).
Proof.
  intros Hu Hm Hf w. rewrite n_run_bind. specialize (Hm w).
  destruct (m w) as [[x|x] w']; simpl in *; [lia|]. specialize (Hf x w'). lia.
Qed.

Lemma costs_weaken {A} a t b u (m : N A) : (a <= b)%nat -> t <= u -> costs a t m -> costs b u m.
Proof. intros Ha Ht Hm w. specialize (Hm w). lia. Qed.

Lemma costs_idle_bind {A B} a t (m : N A) (f : A -> N B) :
  0 <= t -> moves idle m -> (forall x, costs a t (f x)) -> costs a t (m ≫= f).
Proof. intros Ht Hm Hf. apply (costs_bind 0 0 a t); [done|by apply costs_idle|done]. Qed.

Lemma costs_bind_idle {A B} a t (m : N A) (f : A -> N B) :
  costs a t m -> (forall x, moves idle (f x)) -> costs a t (m ≫= f).
Proof.
  intros Hm Hf. eapply costs_weaken; [| |apply (costs_bind a t 0 0); [done|exact Hm|]];
    [lia|lia|]. intros x. by apply costs_idle.
Qed.

(** The backoff of the retries that are left. *)
Fixpoint backoff (left : nat) : Z :=
  match left with
  | O => 0
  | S left' => CONNECT_RETRY_BACKOFF_MILLIS * Z.of_nat (MAX_CONNECT_RETRIES - left + 1) + backoff left'
  end.

Lemma backoff_nonneg left : 0 <= backoff left.
Proof. induction left as [|left IH]; cbn [backoff]; unfold CONNECT_RETRY_BACKOFF_MILLIS; lia. Qed.

Lemma costs_connect left address : costs (S left) (backoff left) (connect_from left address).
Proof.
  induction left as [|left IH]; cbn [connect_from].
  - apply (costs_bind 1 0 0 0); [done|intros w; simpl; lia|]. intros _.
    apply costs_idle_bind; [done|moves_auto|]. intros i. apply costs_idle; [done|].
    destruct (connect_at i address); moves_auto.
  - cbn [backoff].
    set (t := CONNECT_RETRY_BACKOFF_MILLIS * Z.of_nat (MAX_CONNECT_RETRIES - S left + 1)).
    assert (Ht : 0 <= t + backoff left)
      by (pose proof (backoff_nonneg left); unfold t, CONNECT_RETRY_BACKOFF_MILLIS; lia).
    apply (costs_bind 1 0 (S left) (t + backoff left)); [done|intros w; simpl; lia|]. intros _.
    apply costs_idle_bind; [done|moves_auto|]. intros i.
    destruct (connect_at i address) as [k|]; [|apply costs_idle; [done|moves_auto]].
    destruct (negb _); [apply costs_idle; [done|moves_auto]|].
    apply (costs_bind 0 t (S left)); [apply backoff_nonneg| |intros _; exact IH].
    intros w. unfold sleep, n_modify. simpl. unfold t. lia.
Qed.

Lemma costs_ensure peer :
  costs 5 (backoff MAX_CONNECT_RETRIES) (ensure_stream local configured_ttl peer).
Proof.
  unfold ensure_stream. apply costs_idle_bind; [done| |].
  { unfold drop_expired_stream, now_unix_millis. moves_auto. }
  intros _. apply costs_idle_bind; [done|by apply moves_get, _|]. intros w0.
  apply costs_bind_idle; [|intros; moves_auto].
  destruct (w_stream w0); [apply costs_idle; [done|apply moves_ret, _]|].
  unfold open_stream. apply costs_bind_idle; [by apply (costs_connect MAX_CONNECT_RETRIES)|].
  unfold set_nodelay, now_unix_millis. moves_auto.
Qed.

Lemma costs_send_loop left peer b :
  costs (5 * S left) (Z.of_nat (S left) * backoff MAX_CONNECT_RETRIES)
    (send_loop local configured_ttl left peer b).
Proof.
  assert (Hb : 0 <= backoff MAX_CONNECT_RETRIES) by done.
  induction left as [|left IH]; cbn [send_loop].
  - apply costs_bind_idle; [rewrite Z.mul_1_l; apply costs_ensure|]. moves_auto.
  - replace (5 * S (S left))%nat with (5 + 5 * S left)%nat by lia.
    replace (Z.of_nat (S (S left)) * backoff MAX_CONNECT_RETRIES) with
      (backoff MAX_CONNECT_RETRIES + Z.of_nat (S left) * backoff MAX_CONNECT_RETRIES) by lia.
    apply costs_bind; [lia|apply costs_ensure|]. intros e.
    apply costs_idle_bind; [lia|moves_auto|]. intros [x|n];
      [|apply costs_idle; [lia|moves_auto]].
    do 2 (apply costs_idle_bind; [lia|moves_auto|intros _]).
    destruct (is_retryable_transport_error x); [exact IH|]. apply costs_idle; [lia|moves_auto].
Qed.

(** C22: A request costs a bounded effort, whatever the network does: at most ten
    connection attempts (two rounds of five), and no more sleep than twice the
    150 ms a full round of backoff takes plus the configured delay. *)
Theorem request_effort_bounded faults rq w :
  0 <= artificial_delay_ms faults ->
  let w' := (send_message local configured_ttl faults rq w).2 in
  (w_attempts w' <= w_attempts w + 10)%nat /\
  w_slept w' <= w_slept w + 2 * backoff MAX_CONNECT_RETRIES + artificial_delay_ms faults.
Proof.
  intros Hd. assert (Hc : costs 10 (2 * backoff MAX_CONNECT_RETRIES + artificial_delay_ms faults)
    (send_message local configured_ttl faults rq)).
  { assert (Hb : 0 <= 2 * backoff MAX_CONNECT_RETRIES + artificial_delay_ms faults)
      by (assert (0 <= backoff MAX_CONNECT_RETRIES) by done; lia).
    unfold send_message. destruct (disable_outbound faults); [apply costs_idle; [done|moves_auto]|].
    apply costs_idle_bind; [done|moves_auto|]. intros h.
    destruct (should_drop _ _ _); [apply costs_idle; [done|moves_auto]|].
    rewrite Z.add_comm. apply (costs_bind 0 _ 10); [done| |].
    { intros w0. destruct (_ <? _); simpl; lia. }
    intros _. apply costs_idle_bind; [done|moves_auto|]. intros sg.
    apply costs_idle_bind; [done|moves_auto|]. intros b.
    apply costs_bind_idle; [apply (costs_send_loop 1)|]. intros. moves_auto. }
  cbv zeta. destruct (Hc w) as [Ha Hs]. split; [exact Ha|]. etrans; [exact Hs|]. apply Z.eq_le_incl. ring.
Qed.

Hypothesis payload_encodes : forall m : ProtocolMessage, is_ok (encode_to_vec m) = true.
Hypothesis nonce_encodes : forall x : NonceTuple, is_ok (encode_to_vec x) = true.

(** ** Triples

    What a run that returns or fails guarantees; panicking is ruled out. *)

Definition not_panic (x : Error) : Prop := forall s, x <> Panic s.

Definition triple (P : World -> Prop) {A} (m : N A) (Q : A -> World -> Prop) (E : World -> Prop)
    : Prop :=
  forall w, P w -> match m w with
                   | (inr a, w') => Q a w'
                   | (inl x, w') => not_panic x /\ E w'
                   end.

Lemma t_ret {A} (a : A) (P : World -> Prop) (Q : A -> World -> Prop) E :
  (forall w, P w -> Q a w) -> triple P (mret a) Q E.
Proof. intros Hq w Hw. by apply Hq. Qed.
Lemma t_bind {A B} P Q R E (m : N A) (f : A -> N B) :
  triple P m Q E -> (forall a, triple (Q a) (f a) R E) -> triple P (m ≫= f) R E.
Proof.
  intros Hm Hf w Hw. rewrite n_run_bind. specialize (Hm w Hw).
  destruct (m w) as [[x|a] w']; [done|by apply Hf].
Qed.
Lemma t_value {A B} P R E (a : A) (f : A -> N B) : triple P (f a) R E -> triple P (mret a ≫= f) R E.
Proof. done. Qed.
(** When the assertion in between does not depend on the value. *)
Lemma t_seq {A B} P Q R E (m : N A) (f : A -> N B) :
  triple P m (fun _ => Q) E -> (forall a, triple Q (f a) R E) -> triple P (m ≫= f) R E.
Proof. apply t_bind. Qed.
Lemma t_conseq {A} (P P' : World -> Prop) (Q Q' : A -> World -> Prop) (E E' : World -> Prop) m :
  (forall w, P' w -> P w) -> (forall a w, Q a w -> Q' a w) -> (forall w, E w -> E' w) ->
  triple P m Q E -> triple P' m Q' E'.
Proof.
  intros HP HQ HE Hm w Hw. specialize (Hm w (HP w Hw)). destruct (m w) as [[x|a] w']; [|by apply HQ].
  destruct Hm. auto.
Qed.
Lemma t_error {A} (E E' : World -> Prop) P (Q : A -> World -> Prop) m :
  (forall w, E w -> E' w) -> triple P m Q E -> triple P m Q E'.
Proof. intros He. by apply t_conseq. Qed.
Lemma t_get (P : World -> Prop) E : triple P n_get (fun w w' => w' = w /\ P w) E.
Proof. by intros w Hw. Qed.
Lemma t_modify (P : World -> Prop) (Q : unit -> World -> Prop) E f :
  (forall w, P w -> Q tt (f w)) -> triple P (n_modify f) Q E.
Proof. intros Hf w Hw. by apply Hf. Qed.
Lemma t_lift {A} (P E : World -> Prop) (r : result A) :
  (forall w, P w -> E w) -> triple P (n_lift r) (fun a w => r = Ok a /\ P w) E.
Proof. intros He. destruct r; intros w Hw; [done|]. split; [done|by apply He]. Qed.
Lemma t_fail {A} (P : World -> Prop) x (Q : A -> World -> Prop) : not_panic x -> triple P (n_fail x) Q P.
Proof. intros Hx w Hw. done. Qed.
Lemma t_try {A B} (P : World -> Prop) (Q : A -> World -> Prop) E (R : B -> World -> Prop) E' m
    (f : Error + A -> N B) :
  triple P m Q E -> (forall a, triple (Q a) (f (inr a)) R E') ->
  (forall x, not_panic x -> triple E (f (inl x)) R E') -> triple P (n_try m ≫= f) R E'.
Proof.
  intros Hm Hf He w Hw. rewrite n_run_bind. unfold n_try. specialize (Hm w Hw).
  destruct (m w) as [[x|a] w']; simpl; [|by apply Hf]. destruct Hm as [Hx Hm].
  destruct x as [k|t|t]; [by apply He..|by destruct (Hx t)].
Qed.

(** Assertions about streams and connections only. *)
Class Steady (P : World -> Prop) : Prop :=
  steady : forall w w', w_stream w' = w_stream w -> w_connections w' = w_connections w -> P w -> P w'.

Lemma t_steady {A} P `{!Steady P} (m : N A) :
  (forall w, match m w with (inl x, _) => not_panic x | _ => True end) ->
  moves (fun w w' => w_stream w' = w_stream w /\ w_connections w' = w_connections w) m ->
  triple P m (fun _ => P) P.
Proof.
  intros Hp Hm w Hw. specialize (Hp w). destruct (Hm w) as [Hs Hc].
  destruct (m w) as [[x|a] w']; simpl in *; [split; [done|]|]; by eapply steady.
Qed.

Lemma t_tick P `{!Steady P} : triple P tick (fun _ => P) P.
Proof. by apply t_steady. Qed.
Lemma t_metrics P `{!Steady P} f : triple P (update_metrics f) (fun _ => P) P.
Proof. by apply t_steady. Qed.
Lemma t_sleep P `{!Steady P} t : triple P (sleep t) (fun _ => P) P.
Proof. by apply t_steady. Qed.
Lemma t_emit P `{!Steady P} ev : triple P (emit ev) (fun _ => P) P.
Proof. by apply t_steady. Qed.
Lemma t_now P `{!Steady P} : triple P now_unix_millis (fun _ => P) P.
Proof. by apply t_steady. Qed.
Lemma t_set_in P `{!Steady P} s : triple P (n_modify (set_in s)) (fun _ => P) P.
Proof. by apply t_steady. Qed.
Lemma t_attempts P `{!Steady P} f : triple P (n_modify (set_attempts f)) (fun _ => P) P.
Proof. by apply t_steady. Qed.
Lemma t_hash P `{!Steady P} {T} `{Bincode T} (x : T) :
  is_ok (encode_to_vec x) = true -> triple P (hash_of x) (fun _ => P) P.
Proof.
  unfold hash_of. intros He. apply t_steady; [done| |]; by destruct (encode_to_vec x).
Qed.
Lemma t_read P `{!Steady P} : triple P read_frame_bytes (fun _ => P) P.
Proof.
  apply t_steady; [done| |]; intros w; unfold read_frame_bytes.
  - unfold read_frame, read_exact. destruct (4 <=? _)%nat; simpl; [|by destruct (default _ _)].
    destruct (_ <? _); [done|]. by destruct (_ <=? _)%nat.
  - by destruct (read_frame (w_in w)).
Qed.

(** ** Sealed frames in order *)

(** A frame as written on a session, and the counter that follows. *)
Definition seal (s : SessionMaterial) (k : Z) (p : bytes) : result bytes :=
  if encrypt_frames s then encrypt_frame_payload s Outbound k p else Ok p.
Definition next_counter (s : SessionMaterial) (k : Z) : Z :=
  if encrypt_frames s then saturating_add k 1 else k.

Inductive sealed (s : SessionMaterial) : list bytes -> list bytes -> Z -> Prop :=
| sealed_nil : sealed s [] [] 0
| sealed_snoc ps fs k p f :
    sealed s ps fs k -> seal s k p = Ok f -> sealed s (ps ++ [p]) (fs ++ [f]) (next_counter s k).

Definition connection_ok (hist : list bytes) (c : Connection) : Prop :=
  match co_session c with
  | None => co_frames c = []
  | Some s => exists ps k, sealed s ps (co_frames c) k /\ ps `sublist_of` hist
  end.

(** The current stream writes on the newest connection. *)
Definition stream_ok (hist : list bytes) (w : World) : Prop :=
  match w_stream w with
  | None => True
  | Some e => exists c rest ps, w_connections w = c :: rest /\ co_session c = Some (es_session e) /\
      sealed (es_session e) ps (co_frames c) (es_send_counter e) /\ ps `sublist_of` hist
  end.

Definition connections_ok (hist : list bytes) (w : World) : Prop :=
  Forall (connection_ok hist) (w_connections w).
Definition worker_ok (hist : list bytes) (w : World) : Prop :=
  connections_ok hist w /\ stream_ok hist w.

#[export] Instance connections_ok_steady hist : Steady (connections_ok hist).
Proof. intros w w' _ Hc. unfold connections_ok. by rewrite Hc. Qed.
#[export] Instance worker_ok_steady hist : Steady (worker_ok hist).
Proof.
  intros w w' Hs Hc [Hok Hst]. split; [by eapply connections_ok_steady|].
  unfold stream_ok in *. by rewrite Hs, Hc.
Qed.

Lemma connection_ok_mono hist l c : connection_ok hist c -> connection_ok (hist ++ l) c.
Proof.
  unfold connection_ok. destruct (co_session c); [|done]. intros (ps & k & Hs & Hl).
  exists ps, k. split; [done|]. etrans; [exact Hl|]. apply sublist_inserts_r. reflexivity.
Qed.
Lemma worker_ok_mono hist l w : worker_ok hist w -> worker_ok (hist ++ l) w.
Proof.
  intros [Hc Hs]. split; [eapply Forall_impl; [exact Hc|apply connection_ok_mono]|].
  unfold stream_ok in *. destruct (w_stream w); [|done]. destruct Hs as (c & rest & ps & ? & ? & ? & Hl).
  exists c, rest, ps. split_and!; [done..|]. etrans; [exact Hl|]. apply sublist_inserts_r. reflexivity.
Qed.

(** The newest connection has no session yet. *)
Definition fresh_connection (hist : list bytes) (w : World) : Prop :=
  w_stream w = None /\ connections_ok hist w /\
  exists c rest, w_connections w = c :: rest /\ co_session c = None /\ co_frames c = [].
#[export] Instance fresh_steady hist : Steady (fresh_connection hist).
Proof.
  intros w w' Hs Hc (Hn & Hok & Hf). split_and!; [congruence|by eapply connections_ok_steady|].
  by rewrite Hc.
Qed.

Definition no_stream (hist : list bytes) (w : World) : Prop :=
  w_stream w = None /\ connections_ok hist w.
#[export] Instance no_stream_steady hist : Steady (no_stream hist).
Proof. intros w w' Hs Hc [Hn Hok]. split; [congruence|by eapply connections_ok_steady]. Qed.

Lemma t_connect hist left address :
  triple (no_stream hist) (connect_from left address) (fun _ => fresh_connection hist) (no_stream hist).
Proof.
  assert (Hio : forall k, triple (no_stream hist) (n_fail (IoError k))
    (fun _ : unit => fresh_connection hist) (no_stream hist)) by (intros k; by apply t_fail).
  assert (Hopen : triple (no_stream hist) (n_modify (set_connections (cons (mkConnection [] [] None))))
    (fun _ => fresh_connection hist) (no_stream hist)).
  { apply t_modify. intros w [Hs Hc]. split_and!; [done|by constructor|by eexists _, _]. }
  induction left as [|left IH]; cbn [connect_from];
    (eapply t_seq; [apply t_attempts, _|intros _]; eapply t_seq; [apply t_tick, _|intros i]; simpl;
     destruct (connect_at i address) as [k|]; [|exact Hopen]; destruct (negb _); [apply Hio|]).
  - apply Hio.
  - eapply t_seq; [apply t_sleep, _|]. intros _. exact IH.
Qed.

Lemma t_write_handshake hist b :
  triple (fresh_connection hist) (write_frame log_handshake b) (fun _ => fresh_connection hist)
    (fresh_connection hist).
Proof.
  unfold write_frame. eapply t_seq; [apply t_tick, _|]. intros i. simpl.
  destruct (write_at i) as [k|]; [by apply t_fail|]. apply t_modify.
  intros w (Hs & Hc & c & rest & Hw & Hn & Hf). unfold fresh_connection, connections_ok. simpl.
  unfold connections_ok in Hc. rewrite Hw in *. apply Forall_cons in Hc as [_ Hrest]. simpl.
  split_and!; [done| |by eexists _, _].
  constructor; [|done]. unfold connection_ok. simpl. by rewrite Hn.
Qed.

Lemma t_handshake hist peer :
  triple (fresh_connection hist) (run_outbound_handshake local peer) (fun _ => fresh_connection hist)
    (fresh_connection hist).
Proof.
  assert (Hlift : forall A (r : result A), triple (fresh_connection hist) (n_lift r)
    (fun _ => fresh_connection hist) (fresh_connection hist)).
  { intros A r. apply (t_conseq (fresh_connection hist) _ (fun a w => r = Ok a /\ fresh_connection hist w) _
      (fresh_connection hist)); [done|naive_solver|done|by apply t_lift]. }
  unfold run_outbound_handshake, session_nonce, write_bincode_frame, decode_frame.
  eapply t_seq; [eapply t_seq; [apply t_now, _|intros; by apply t_hash; [apply _|]]|]. intros nonce.
  eapply t_seq; [apply Hlift|]. intros hello.
  eapply t_seq; [eapply t_seq; [apply Hlift|intros; apply t_write_handshake]|]. intros _.
  eapply t_seq; [apply t_tick, _|]. intros i. eapply t_seq; [apply t_set_in, _|]. intros _.
  eapply t_seq; [apply t_read, _|]. intros frame.
  eapply t_seq; [|intros b; eapply t_seq; [apply Hlift|intros; apply Hlift]].
  destruct frame; [by apply t_ret|by apply t_fail].
Qed.

Lemma t_open_stream hist peer :
  triple (no_stream hist) (open_stream local configured_ttl peer)
    (fun _ w => worker_ok hist w /\ is_Some (w_stream w)) (no_stream hist).
Proof.
  assert (Hfn : forall w, fresh_connection hist w -> no_stream hist w) by (intros w (? & ? & _); done).
  unfold open_stream. eapply t_seq; [apply t_connect|]. intros _.
  apply (t_error (fresh_connection hist)); [exact Hfn|].
  eapply t_seq; [|intros _; eapply t_seq; [apply t_metrics, _|intros _]].
  { unfold set_nodelay. eapply t_seq; [apply t_tick, _|]. intros i. simpl.
    destruct (nodelay_at i); [by apply t_fail|by apply t_ret]. }
  eapply t_try; [apply t_handshake| |].
  - intros session. eapply t_seq; [apply t_metrics, _|intros _].
    eapply t_seq; [apply t_now, _|].
    intros now w (Hs & Hc & c & rest & Hw & Hn & Hf). simpl.
    unfold worker_ok, connections_ok, stream_ok in *. simpl. rewrite Hw in *. simpl.
    apply Forall_cons in Hc as [_ Hc]. split; [|done]. split.
    + constructor; [|done]. unfold connection_ok. simpl. exists [], 0. rewrite Hf.
      split; [constructor|apply sublist_nil_l].
    + exists (log_session session c), rest, []. simpl. rewrite Hf.
      split_and!; [done|done|constructor|apply sublist_nil_l].
  - intros x Hx. eapply t_seq; [apply t_metrics, _|intros _]. by apply t_fail.
Qed.

Lemma t_ensure hist peer :
  triple (worker_ok hist) (ensure_stream local configured_ttl peer)
    (fun e w => worker_ok hist w /\ w_stream w = Some e) (worker_ok hist).
Proof.
  assert (Hno : forall w, no_stream hist w -> worker_ok hist w).
  { intros w [Hs Hc]. split; [done|]. unfold stream_ok. by rewrite Hs. }
  unfold ensure_stream. eapply (t_seq _ (worker_ok hist)).
  { unfold drop_expired_stream. eapply t_bind; [apply t_get|]. intros w0. cbv beta.
    apply (t_conseq (worker_ok hist) _ (fun _ => worker_ok hist) _ (worker_ok hist)); [naive_solver|done|done|].
    destruct (w_stream w0) as [e0|]; [|by apply t_ret].
    eapply t_seq; [apply t_now, _|]. intros now. destruct (session_is_expired _ _ _); [|by apply t_ret].
    eapply t_seq; [apply t_metrics, _|]. intros _. apply t_modify.
    intros w [Hc _]. apply Hno. by split. }
  intros _. eapply t_bind; [apply t_get|]. intros w0. cbv beta.
  eapply (t_seq _ (fun w => worker_ok hist w /\ is_Some (w_stream w))).
  { intros w (-> & Hok). destruct (w_stream w0) as [e0|] eqn:Es.
    - split; [done|]. by rewrite Es.
    - destruct Hok as [Hc _]. pose proof (t_open_stream hist peer w0 (conj Es Hc)) as Ho.
      destruct (open_stream local configured_ttl peer w0) as [[x|u] w']; [|done].
      destruct Ho. auto. }
  intros _. eapply t_bind; [apply t_get|]. intros w1 w (-> & Hok & [e1 He]). rewrite He.
  simpl. auto.
Qed.

Lemma t_write_application hist e b :
  triple (fun w => worker_ok hist w /\ w_stream w = Some e) (write_application_frame e b)
    (fun _ w => worker_ok (hist ++ [b]) w /\ is_Some (w_stream w)) (connections_ok hist).
Proof.
  intros w ([Hc Hs] & He). unfold stream_ok in Hs. rewrite He in Hs.
  destruct Hs as (c & rest & ps & Hw & Hse & Hps & Hl).
  assert (Hdone : forall f w', w_connections w' = log_frame f c :: rest ->
    w_stream w' = Some (mkEstablished (es_session e) (next_counter (es_session e) (es_send_counter e))
      (es_established_at e) (es_ttl e)) ->
    seal (es_session e) (es_send_counter e) b = Ok f ->
    worker_ok (hist ++ [b]) w' /\ is_Some (w_stream w')).
  { intros f w' Hw' Hs' Hf. assert (Hsn : sealed (es_session e) (ps ++ [b]) (co_frames c ++ [f])
      (next_counter (es_session e) (es_send_counter e))) by (by constructor).
    assert (Hln : ps ++ [b] `sublist_of` hist ++ [b]) by (by apply sublist_app).
    unfold worker_ok, connections_ok, stream_ok. rewrite Hw', Hs'. split; [|done].
    unfold connections_ok in Hc. rewrite Hw in Hc. apply Forall_cons in Hc as [_ Hrest]. split.
    - constructor; [|eapply Forall_impl; [exact Hrest|apply connection_ok_mono]].
      unfold connection_ok. simpl. rewrite Hse. eauto.
    - exists (log_frame f c), rest, (ps ++ [b]). simpl. split_and!; done. }
  unfold write_application_frame, seal, next_counter in *.
  destruct (encrypt_frames (es_session e)) eqn:Ee.
  - rewrite n_run_bind. destruct (encrypt_frame_payload _ _ _ _) as [f|m] eqn:Ef; simpl; [|by split].
    unfold write_frame. rewrite !n_run_bind. simpl. rewrite !n_run_bind. simpl.
    destruct (write_at (w_io w)) as [k|]; simpl; [by split|].
    apply (Hdone f); [|done|done]. simpl. by rewrite Hw.
  - unfold write_frame. rewrite !n_run_bind. simpl.
    destruct (write_at (w_io w)) as [k|]; simpl; [by split|].
    apply (Hdone b (set_connections (on_current (log_frame b)) (set_io S w))); [|simpl|done].
    + simpl. by rewrite Hw.
    + rewrite He. by destruct e.
Qed.

Lemma t_send_loop hist left peer b :
  triple (worker_ok hist) (send_loop local configured_ttl left peer b)
    (fun _ w => worker_ok (hist ++ [b]) w /\ is_Some (w_stream w)) (worker_ok hist).
Proof.
  assert (Hno : forall w, connections_ok hist w -> worker_ok hist (set_stream None w)) by done.
  induction left as [|left IH]; cbn [send_loop];
    (eapply t_bind; [apply t_ensure|]; intros e; eapply t_try; [apply t_write_application| |]).
  1,3: intros n w [Hok Hs]; simpl; by split.
  all: intros x Hx; apply (t_seq _ (connections_ok hist)); [by apply t_modify|intros _].
  all: apply (t_seq _ (worker_ok hist)); [by apply t_modify|intros _].
  - by apply t_fail.
  - destruct (is_retryable_transport_error x); [exact IH|by apply t_fail].
Qed.

(** What a request puts on the wire. *)
Definition envelope_bytes (rq : Request) : result bytes :=
  pb ← encode_to_vec (rq_payload rq);
  signature ← sign local (hash_to_bytes (blake3 pb));
  encode_to_vec (mkEnvelope local (blake3 pb) signature (rq_payload rq)).
Definition history (rqs : list Request) : list bytes :=
  omap (fun rq => match envelope_bytes rq with Ok b => Some b | Err _ => None end) rqs.

Lemma history_snoc rqs rq :
  history (rqs ++ [rq]) = history rqs ++ match envelope_bytes rq with Ok b => [b] | Err _ => [] end.
Proof. unfold history. rewrite omap_app. simpl. by destruct (envelope_bytes rq). Qed.

Lemma t_send_message faults rqs rq :
  triple (worker_ok (history rqs)) (send_message local configured_ttl faults rq)
    (fun _ => worker_ok (history (rqs ++ [rq]))) (worker_ok (history (rqs ++ [rq]))).
Proof.
  assert (Hmono : forall w, worker_ok (history rqs) w -> worker_ok (history (rqs ++ [rq])) w)
    by (intros w; rewrite history_snoc; apply worker_ok_mono).
  assert (Hemit : forall ev, triple (worker_ok (history rqs)) (emit ev)
    (fun _ => worker_ok (history (rqs ++ [rq]))) (worker_ok (history (rqs ++ [rq])))).
  { intros ev. eapply t_conseq; [| | |apply (t_emit (worker_ok (history rqs)) ev)]; done. }
  unfold send_message. destruct (disable_outbound faults); [apply Hemit|].
  unfold hash_of. pose proof (payload_encodes (rq_payload rq)) as Hp.
  destruct (encode_to_vec (rq_payload rq)) as [pb|] eqn:Epb; [clear Hp|done].
  apply t_value. destruct (should_drop _ _ _); [apply Hemit|].
  apply (t_error (worker_ok (history rqs))); [exact Hmono|].
  apply (t_seq _ (worker_ok (history rqs))).
  { destruct (_ <? _); [apply t_sleep, _|by apply t_ret]. }
  intros _. eapply t_bind; [by apply t_lift|]. intros sg.
  eapply t_bind; [apply t_lift; by intros w [_ ?]|]. intros b.
  apply (t_seq _ (fun w => worker_ok (history (rqs ++ [rq])) w /\ is_Some (w_stream w))).
  { intros w (Hb & Hsg & Hok). pose proof (t_send_loop (history rqs) 1 (rq_peer rq) b w Hok) as Hl.
    assert (He : envelope_bytes rq = Ok b).
    { unfold envelope_bytes. rewrite Epb. simpl. rewrite Hsg. exact Hb. }
    rewrite history_snoc, He. exact Hl. }
  intros _. eapply t_bind; [apply t_get|]. intros w0 w (-> & Hok & [e0 Hs]). rewrite Hs. simpl.
  by eapply worker_ok_steady.
Qed.

(** ** Reports *)

Definition reports (rq : Request) (ev : TransportEvent) : Prop :=
  match ev with
  | EvSessionObserved p _ true acc => p = peer_id (rq_peer rq) /\ acc = rq_accountable rq
  | EvSessionFailed (Some p) true acc _ => p = peer_id (rq_peer rq) /\ acc = rq_accountable rq
  | _ => False
  end.

(** One report on success, none on failure. *)
Definition reported (rq : Request) (w : World) (r : (Error + unit) * World) : Prop :=
  match r with
  | (inr _, w') => exists ev, w_events w' = w_events w ++ [ev] /\ reports rq ev
  | (inl _, w') => w_events w' = w_events w
  end.

Lemma reported_bind {A} rq (m : N A) (f : A -> N unit) w0 w :
  w_events w = w_events w0 -> moves silent m ->
  (forall a w', w_events w' = w_events w0 -> reported rq w0 (f a w')) -> reported rq w0 ((m ≫= f) w).
Proof.
  intros Hw Hm Hf. rewrite n_run_bind. specialize (Hm w). unfold silent in Hm.
  destruct (m w) as [[x|a] w']; simpl in *; [congruence|]. apply Hf. congruence.
Qed.

Lemma reported_emit rq w0 w ev :
  w_events w = w_events w0 -> reports rq ev -> reported rq w0 (emit ev w).
Proof. intros Hw Hr. exists ev. split; [|done]. simpl. by rewrite Hw. Qed.

Lemma send_message_reports faults rq w :
  reported rq w (send_message local configured_ttl faults rq w).
Proof.
  unfold send_message. destruct (disable_outbound faults); [by apply reported_emit|].
  apply reported_bind; [done|apply silent_hash|]. intros h w1 Hw1.
  destruct (should_drop _ _ _); [by apply reported_emit|].
  apply reported_bind; [done|moves_auto|]. intros _ w2 Hw2.
  apply reported_bind; [done|moves_auto|]. intros sg w3 Hw3.
  apply reported_bind; [done|moves_auto|]. intros b w4 Hw4.
  apply reported_bind; [done|apply silent_send_loop|]. intros _ w5 Hw5.
  rewrite n_run_bind. simpl. destruct (w_stream w5); [by apply reported_emit|exact Hw5].
Qed.

(** The worker, request by request. *)
Lemma run_worker_spec faults peer rqs served w :
  Forall (fun rq => peer_id (rq_peer rq) = peer) rqs -> worker_ok (history served) w ->
  exists evs w', run_worker local configured_ttl faults peer rqs w = (inr tt, w') /\
    worker_ok (history (served ++ rqs)) w' /\ w_events w' = w_events w ++ evs /\
    Forall2 reports rqs evs.
Proof.
  revert served w. induction rqs as [|rq rqs IH]; intros served w Hp Hok; cbn [run_worker].
  { exists [], w. rewrite !app_nil_r. split_and!; [done..|constructor]. }
  apply Forall_cons in Hp as [Hpeer Hp]. rewrite n_run_bind. unfold serve_request.
  rewrite n_run_bind. unfold n_try. pose proof (send_message_reports faults rq w) as Hr.
  pose proof (t_send_message faults served rq w Hok) as Ht.
  destruct (send_message local configured_ttl faults rq w) as [[x|[]] w1].
  - simpl in Hr. destruct Ht as [Hx Hok1].
    set (w2 := set_events (fun l => l ++ [EvSessionFailed (Some peer) true (rq_accountable rq) Transport]) w1).
    destruct (IH (served ++ [rq]) w2 Hp) as (evs & w' & Hrun & Hok' & Hev & Hrep);
      [by apply (worker_ok_steady _ w1)|].
    exists (EvSessionFailed (Some peer) true (rq_accountable rq) Transport :: evs), w'.
    rewrite <- app_assoc in Hok'. destruct x as [k|t|t]; [..|by destruct (Hx t)].
    1,2: split_and!; [exact Hrun|exact Hok'| |by constructor].
    1,2: rewrite Hev; simpl; by rewrite Hr, <- app_assoc.
  - destruct Hr as (ev & Hr & Hrep1). simpl.
    destruct (IH (served ++ [rq]) w1 Hp Ht) as (evs & w' & Hrun & Hok' & Hev & Hrep).
    exists (ev :: evs), w'. rewrite <- app_assoc in Hok'. split_and!; [exact Hrun|exact Hok'| |by constructor].
    by rewrite Hev, Hr, <- app_assoc.
Qed.
End channel.

(** ** Frames on the wire *)

Lemma u32_roundtrip n : 0 <= n < 2 ^ 32 -> u32_of_bytes (u32_bytes n) = n.
Proof.
  intros Hn. unfold u32_of_bytes, u32_bytes. simpl fmap. cbn [foldl].
  change 255 with (Z.ones 8). rewrite !Z.land_ones, !Z.shiftr_div_pow2 by lia.
  change (2 ^ (8 * 3)) with 16777216. change (2 ^ (8 * 2)) with 65536.
  change (2 ^ (8 * 1)) with 256. change (2 ^ (8 * 0)) with 1. change (2 ^ 8) with 256.
  change (2 ^ 32) with 4294967296 in Hn. Z.to_euclidean_division_equations. lia.
Qed.

Lemma read_wire_frame b rest e :
  Z.of_nat (length b) <= MAX_FRAME_SIZE_BYTES ->
  read_frame (mkIn (wire_frame b ++ rest) e) = (inr (Some b), mkIn rest e).
Proof.
  intros Hl. unfold read_frame, wire_frame, MAX_FRAME_SIZE_BYTES in *.
  rewrite Z.mod_small by (change (2 ^ 32) with 4294967296; lia).
  set (pre := u32_bytes (Z.of_nat (length b))). rewrite <- app_assoc.
  assert (Hp : length pre = 4%nat) by done. unfold read_exact at 1. cbn [arriving ending].
  rewrite length_app, Hp. rewrite take_app_le, take_ge, drop_app_ge, Hp, drop_0 by lia.
  simpl (_ <=? _)%nat. cbn iota.
  unfold pre. rewrite u32_roundtrip by (change (2 ^ 32) with 4294967296; lia).
  destruct (Z.ltb_spec (8 * 1024 * 1024) (Z.of_nat (length b))); [lia|].
  unfold read_exact. cbn [arriving ending]. rewrite Nat2Z.id, length_app, take_app_length, drop_app_length.
  destruct (Nat.leb_spec (length b) (length b + length rest)); [done|lia].
Qed.

(** ** The receiver *)

Inductive sealed_from `{Aead} (s : SessionMaterial) : Z -> list bytes -> list bytes -> Z -> Prop :=
| sealed_from_nil k : sealed_from s k [] [] k
| sealed_from_cons k p f ps fs k' :
    seal s k p = Ok f -> sealed_from s (next_counter s k) ps fs k' ->
    sealed_from s k (p :: ps) (f :: fs) k'.

Lemma sealed_from_snoc `{Aead} s k ps fs k' p f :
  sealed_from s k ps fs k' -> seal s k' p = Ok f ->
  sealed_from s k (ps ++ [p]) (fs ++ [f]) (next_counter s k').
Proof. induction 1 as [|k p' f' ps fs k' Hs _ IH]; intros Hf; simpl; econstructor; eauto; constructor. Qed.

Lemma sealed_front `{Aead} s ps fs k : sealed s ps fs k -> sealed_from s 0 ps fs k.
Proof. induction 1; [constructor|by apply sealed_from_snoc]. Qed.

Section receiver.
Context `{Hashing} `{CryptoBackend} `{Aead} `{!AeadLaws} `{Environment}.
Context `{!Bincode SignedEnvelope} `{!Bincode ProtocolMessage}.

Lemma seal_opens s k p f :
  seal s k p = Ok f -> 
  if encrypt_frames s then decrypt_frame_payload s Outbound k f = Ok p else f = p.
Proof.
  unfold seal. destruct (encrypt_frames s); [apply frame_opens|]. by intros [= ->].
Qed.

(** An envelope its receiver accepts from [peer]. *)
Definition acceptable (peer : ValidatorId) (p : bytes) (payload : ProtocolMessage) : Prop :=
  exists env pb, decode_from_slice p = Ok env /\ env_payload env = payload /\ env_from env = peer /\
    encode_to_vec payload = Ok pb /\ env_hash env = blake3 pb /\
    verify peer (hash_to_bytes (env_hash env)) (env_signature env) = Ok true.

Definition received (peer : ValidatorId) (s : SessionMaterial) (p : bytes) (payload : ProtocolMessage)
    : list TransportEvent :=
  [EvSessionObserved peer (transcript_hash_of s) false true;
   EvReceived peer payload (Z.of_nat (length p))].

Lemma receive_envelope_ok peer s p payload n w :
  acceptable peer p payload ->
  exists w', receive_envelope peer s p n w = (inr tt, w') /\ w_in w' = w_in w /\
    w_events w' = w_events w ++ received peer s p payload.
Proof.
  intros (env & pb & Hd & <- & <- & He & Hh & Hv). unfold receive_envelope, decode_frame.
  rewrite n_run_bind, Hd. simpl. rewrite n_run_bind. simpl. rewrite n_run_bind. unfold hash_of.
  rewrite He. simpl. rewrite Hh, Z.eqb_refl, Z.eqb_refl. simpl. rewrite n_run_bind. simpl.
  rewrite n_run_bind, <- Hh, Hv. simpl. rewrite n_run_bind. simpl. eexists. split_and!; [done|done|].
  simpl. by rewrite <- app_assoc.
Qed.

Lemma receive_all peer s est ttl k ps fs k' payloads rounds w :
  (forall i, session_is_expired est ttl (clock_at i) = false) ->
  sealed_from s k ps fs k' -> Forall2 (acceptable peer) ps payloads ->
  Forall (fun f => Z.of_nat (length f) <= MAX_FRAME_SIZE_BYTES) fs ->
  w_in w = mkIn (concat (wire_frame <$> fs)) None -> (length fs < rounds)%nat ->
  exists w', receive_loop rounds peer s est ttl k w = (inr tt, w') /\
    w_events w' = w_events w ++ concat (zip_with (received peer s) ps payloads).
Proof.
  intros Hexp Hs. revert payloads rounds w.
  induction Hs as [k|k p f ps fs k' Hf Hs IH]; intros payloads rounds w Hp Hsz Hin Hr;
    (destruct rounds as [|rounds]; [simpl in Hr; lia|]); cbn [receive_loop]; rewrite n_run_bind;
    unfold n_try, read_application_frame; rewrite n_run_bind; unfold read_frame_bytes; rewrite Hin.
  - simpl. apply Forall2_nil_inv_l in Hp as ->. eexists. split; [done|]. simpl. by rewrite app_nil_r.
  - apply Forall2_cons_inv_l in Hp as (payload & payloads' & Hacc & Hp & ->).
    apply Forall_cons in Hsz as [Hl Hsz]. rewrite fmap_cons. cbn [concat].
    rewrite read_wire_frame by done. rewrite n_run_bind. simpl. rewrite Hexp.
    apply seal_opens in Hf. unfold next_counter in *.
    set (w1 := set_io S (set_in (mkIn (concat (wire_frame <$> fs)) None) w)).
    destruct (receive_envelope_ok peer s p payload (Z.of_nat (length f)) w1 Hacc) as (w2 & E2 & Hi2 & Hv2).
    destruct (IH payloads' rounds w2 Hp Hsz ltac:(by rewrite Hi2) ltac:(simpl in Hr; lia))
      as (w3 & E3 & Hv3).
    exists w3. rewrite Hv3, Hv2. split; [|simpl; by rewrite <- app_assoc].
    destruct (encrypt_frames s); [rewrite Hf|subst f]; simpl; rewrite n_run_bind; fold w1;
      by rewrite E2.
Qed.
End receiver.

(** ** What is reported as received *)

Section authentic.
Context `{Hashing} `{CryptoBackend} `{HandshakeProvider} `{Aead} `{Environment}.
Context `{!Bincode SessionClientHello} `{!Bincode SessionServerHello}.
Context `{!Bincode SignedEnvelope} `{!Bincode ProtocolMessage} `{!Bincode NonceTuple}.
Context (local : ValidatorId) (configured_ttl : option Z).

(** The peer opened the session with a hello this node accepted, and signed
    the payload. *)
Definition authentic (ev : TransportEvent) : Prop :=
  match ev with
  | EvReceived from payload _ =>
      (exists hello rng out, accept_client_hello rng local hello = Ok out /\ ch_initiator hello = from) /\
      exists pb sig, encode_to_vec payload = Ok pb /\ verify from (hash_to_bytes (blake3 pb)) sig = Ok true
  | _ => True
  end.

Definition adds_authentic (w w' : World) : Prop :=
  exists l, w_events w' = w_events w ++ l /\ Forall authentic l.

#[export] Instance adds_authentic_preorder : PreOrder adds_authentic.
Proof.
  split.
  - intros w. exists []. by rewrite app_nil_r.
  - intros w w' w'' (l & E & Hl) (l' & E' & Hl'). exists (l ++ l'). rewrite E', E, app_assoc.
    split; [done|by apply Forall_app].
Qed.

Lemma silent_adds {A} (m : N A) : moves silent m -> moves adds_authentic m.
Proof. intros Hm w. exists []. rewrite app_nil_r. split; [apply Hm|constructor]. Qed.

Lemma adds_emit ev : authentic ev -> moves adds_authentic (emit ev).
Proof. intros Ha w. exists [ev]. split; [done|by constructor]. Qed.

Lemma moves_lift_bind {A B} (r : result A) (f : A -> N B) :
  (forall a, r = Ok a -> moves adds_authentic (f a)) -> moves adds_authentic (n_lift r ≫= f).
Proof.
  intros Hf w. destruct r as [a|m]; [by apply (Hf a)|]. exists []. by rewrite app_nil_r.
Qed.

Lemma receive_envelope_authentic peer s p n :
  (exists hello rng out, accept_client_hello rng local hello = Ok out /\ ch_initiator hello = peer) ->
  moves adds_authentic (receive_envelope peer s p n).
Proof.
  intros Hpeer. unfold receive_envelope, decode_frame, hash_of. apply moves_lift_bind. intros env _.
  apply moves_bind; [apply _|by apply silent_adds|intros _].
  destruct (encode_to_vec (env_payload env)) as [pb|] eqn:Epb;
    [|intros w; exists []; by rewrite app_nil_r].
  match goal with |- moves _ (mret ?a ≫= ?f) => change (moves adds_authentic (f a)) end. cbv beta.
  destruct (Z.eqb_spec (blake3 pb) (env_hash env)) as [Hh|]; simpl; [|by apply silent_adds].
  destruct (Z.eqb_spec (env_from env) peer) as [Hf|]; simpl; [|by apply silent_adds].
  apply moves_bind; [apply _|by apply adds_emit|intros _].
  apply moves_lift_bind. intros [] Hv; (apply moves_bind; [apply _|by apply silent_adds|intros _]);
    [|by apply silent_adds].
  apply adds_emit. split; [by rewrite Hf|]. exists pb, (env_signature env). by rewrite Hh.
Qed.

Lemma receive_loop_authentic rounds peer s est ttl k :
  (exists hello rng out, accept_client_hello rng local hello = Ok out /\ ch_initiator hello = peer) ->
  moves adds_authentic (receive_loop rounds peer s est ttl k).
Proof.
  intros Hpeer. revert k. induction rounds as [|rounds IH]; intros k; cbn [receive_loop];
    [by apply silent_adds|].
  apply moves_bind; [apply _| |].
  { apply silent_adds. unfold read_application_frame, now_unix_millis.
    pose proof silent_read. pose proof silent_tick. moves_auto. }
  intros [x|[[b n| |] k']]; [|apply moves_bind; [apply _|by apply receive_envelope_authentic|]
    |by apply silent_adds..].
  - apply moves_bind; [apply _|by apply silent_adds|]. intros _. by apply silent_adds.
  - intros _. apply IH.
Qed.

Lemma silent_accept : moves silent (accept_inbound_handshake local).
Proof.
  unfold accept_inbound_handshake, write_bincode_frame, decode_frame.
  pose proof silent_read. pose proof silent_tick. pose proof silent_write. moves_auto.
Qed.

Lemma accepted_peer w peer s w' :
  accept_inbound_handshake local w = (inr (peer, s), w') ->
  exists hello rng out, accept_client_hello rng local hello = Ok out /\ ch_initiator hello = peer.
Proof.
  unfold accept_inbound_handshake, decode_frame. rewrite n_run_bind.
  destruct (read_frame_bytes w) as [[x|[b|]] w1]; [done| |done].
  rewrite n_run_bind. simpl. rewrite n_run_bind.
  destruct (decode_from_slice b) as [hello|] eqn:Ed; simpl; [|done].
  rewrite n_run_bind. simpl. rewrite n_run_bind.
  destruct (accept_client_hello (random_at (w_io w1)) local hello) as [[reply session]|] eqn:Ea; simpl; [|done].
  rewrite n_run_bind. destruct (write_bincode_frame reply _) as [[x|u] w2]; [done|].
  intros [= <- <- <-]. eauto.
Qed.

(** C19: A node takes for received only what was sent to it: each message an
    inbound connection hands on comes from the initiator of a handshake that
    this node accepted on this connection, and carries that validator's valid
    signature on the hash of the message. *)
Theorem received_is_authentic w :
  exists l, w_events (inbound_task local configured_ttl w).2 = w_events w ++ l /\ Forall authentic l.
Proof.
  revert w. change (moves adds_authentic (inbound_task local configured_ttl)).
  unfold inbound_task. apply moves_bind; [apply _| |by intros [x|u]; [apply adds_emit|apply silent_adds]].
  apply moves_try. unfold handle_inbound.
  apply moves_bind; [apply _|by apply silent_adds|intros _].
  assert (Hsilent : moves adds_authentic (accept_inbound_handshake local))
    by apply silent_adds, silent_accept.
  intros w. rewrite n_run_bind. unfold n_try. specialize (Hsilent w).
  destruct (accept_inbound_handshake local w) as [[x|[peer s]] w1] eqn:Ea; simpl in Hsilent.
  - by destruct x.
  - etrans; [exact Hsilent|]. apply accepted_peer in Ea. revert w1 Hsilent. intros w1 _.
    match goal with |- adds_authentic _ (?m w1).2 =>
      enough (Hm : moves adds_authentic m) by apply Hm end.
    apply moves_bind; [apply _|by apply silent_adds|intros _].
    apply moves_bind; [apply _|by apply silent_adds|intros now].
    apply moves_bind; [apply _|by apply silent_adds|intros w2].
    by apply receive_loop_authentic.
Qed.
End authentic.

(** ** The worker, from its start *)

(** A worker that has not connected yet. *)
Definition idle_worker (w : World) : Prop := w_stream w = None /\ w_connections w = [].

Lemma idle_worker_ok `{Aead} w : idle_worker w -> worker_ok [] w.
Proof. intros [Hs Hc]. unfold worker_ok, connections_ok, stream_ok. by rewrite Hs, Hc. Qed.

Lemma omap_sublist {A B} (f : A -> option B) (l : list A) (k : list B) :
  k `sublist_of` omap f l ->
  exists l', l' `sublist_of` l /\ Forall2 (fun b a => f a = Some b) k l'.
Proof.
  revert k. induction l as [|a l IH]; intros k Hk; simpl in Hk.
  { apply sublist_nil_r in Hk as ->. exists []. split; [done|constructor]. }
  destruct (f a) as [b|] eqn:Ef; [apply sublist_cons_r in Hk as [Hk|(k' & -> & Hk)]|].
  - destruct (IH k Hk) as (l' & Hl & Hf). exists l'. split; [by apply sublist_cons|done].
  - destruct (IH k' Hk) as (l' & Hl & Hf). exists (a :: l'). split; [by apply sublist_skip|by constructor].
  - destruct (IH k Hk) as (l' & Hl & Hf). exists l'. split; [by apply sublist_cons|done].
Qed.

Section worker.
Context `{Hashing} `{CryptoBackend} `{HandshakeProvider} `{Aead} `{Environment}.
Context `{!Bincode SessionClientHello} `{!Bincode SessionServerHello}.
Context `{!Bincode SignedEnvelope} `{!Bincode ProtocolMessage} `{!Bincode NonceTuple}.
Context (local : ValidatorId) (configured_ttl : option Z).
Hypothesis payload_encodes : forall m : ProtocolMessage, is_ok (encode_to_vec m) = true.
Hypothesis nonce_encodes : forall x : NonceTuple, is_ok (encode_to_vec x) = true.

(** C21: The worker of a peer refines a queue that answers every request: it
    never dies, and whatever the network, the peer and the faults do, it
    reports on every request exactly once, in the order of the requests, as a
    session observed or failed with that peer and the request's accounting
    flag. *)
Theorem worker_reports_every_request faults peer rqs w :
  idle_worker w -> Forall (fun rq => peer_id (rq_peer rq) = peer) rqs ->
  exists evs, (run_worker local configured_ttl faults peer rqs w).1 = inr tt /\
    w_events (run_worker local configured_ttl faults peer rqs w).2 = w_events w ++ evs /\
    Forall2 reports rqs evs.
Proof.
  intros Hw Hp.
  destruct (run_worker_spec local configured_ttl payload_encodes nonce_encodes faults peer rqs [] w Hp
              (idle_worker_ok w Hw)) as (evs & w' & -> & _ & He & Hr).
  by exists evs.
Qed.

(** The requests whose envelopes a connection carries. *)
Lemma connection_requests faults peer rqs w c s :
  idle_worker w -> Forall (fun rq => peer_id (rq_peer rq) = peer) rqs ->
  c ∈ w_connections (run_worker local configured_ttl faults peer rqs w).2 -> co_session c = Some s ->
  exists sent ps k, sent `sublist_of` rqs /\ Forall2 (fun p rq => envelope_bytes local rq = Ok p) ps sent /\
    sealed_from s 0 ps (co_frames c) k.
Proof.
  intros Hw Hp Hc Hs.
  destruct (run_worker_spec local configured_ttl payload_encodes nonce_encodes faults peer rqs [] w Hp
              (idle_worker_ok w Hw)) as (evs & w' & Hr & [Hok _] & _).
  rewrite Hr in Hc. simpl in Hc. unfold connections_ok in Hok. rewrite Forall_forall in Hok.
  specialize (Hok c Hc). unfold connection_ok in Hok. rewrite Hs in Hok.
  destruct Hok as (ps & k & Hse & Hl). simpl in Hl. apply omap_sublist in Hl as (sent & Hsub & Hf).
  exists sent, ps, k. split_and!; [done| |by apply sealed_front].
  eapply Forall2_impl; [exact Hf|]. intros p rq Hrq. simpl in Hrq.
  destruct (envelope_bytes local rq); congruence.
Qed.

Lemma sealed_from_lookup s k ps fs k' i f :
  encrypt_frames s = true -> k <= U64_MAX -> sealed_from s k ps fs k' -> fs !! i = Some f ->
  exists p, ps !! i = Some p /\
    encrypt_frame_payload s Outbound (Z.min U64_MAX (k + Z.of_nat i)) p = Ok f.
Proof.
  intros He Hk Hs. revert i. induction Hs as [k|k p f' ps fs k' Hf _ IH]; intros i Hi; [done|].
  unfold seal, next_counter in *. rewrite He in *. destruct i as [|i]; simpl in Hi.
  - injection Hi as ->. exists p. split; [done|]. rewrite <- Hf. f_equal. lia.
  - unfold saturating_add in IH. destruct (IH ltac:(lia) i Hi) as (q & Hq & Hqf). exists q.
    split; [done|]. rewrite <- Hqf. f_equal. lia.
Qed.

(** C20: Every connection of a worker carries its requests in order, each at
    most once, and on an encrypted connection the [i]-th frame is sealed under
    the nonce of counter [i]: up to the 2^64 frames a counter can tell apart,
    no nonce is used twice with a session's key. *)
Theorem frames_sealed_in_order faults peer rqs w c s :
  idle_worker w -> Forall (fun rq => peer_id (rq_peer rq) = peer) rqs ->
  c ∈ w_connections (run_worker local configured_ttl faults peer rqs w).2 ->
  co_session c = Some s -> encrypt_frames s = true -> Z.of_nat (length (co_frames c)) <= U64_MAX ->
  (exists sent, sent `sublist_of` rqs /\ forall i f, co_frames c !! i = Some f ->
     exists rq p, sent !! i = Some rq /\ envelope_bytes local rq = Ok p /\
       encrypt_frame_payload s Outbound (Z.of_nat i) p = Ok f) /\
  (forall i j f g, co_frames c !! i = Some f -> co_frames c !! j = Some g -> i <> j ->
     frame_nonce Outbound (Z.of_nat i) <> frame_nonce Outbound (Z.of_nat j)).
Proof.
  intros Hw Hp Hc Hs He Hlen.
  destruct (connection_requests faults peer rqs w c s Hw Hp Hc Hs) as (sent & ps & k & Hsub & Hf & Hse).
  split.
  - exists sent. split; [done|]. intros i f Hi.
    destruct (sealed_from_lookup s 0 ps _ k i f He ltac:(done) Hse Hi) as (p & Hpi & Hpf).
    destruct (Forall2_lookup_l _ _ _ _ _ Hf Hpi) as (rq & Hrq & Henv). exists rq, p.
    split_and!; [done|done|]. rewrite <- Hpf. f_equal. apply lookup_lt_Some in Hi. lia.
  - intros i j f g Hi Hj Hne Heq. apply lookup_lt_Some in Hi, Hj.
    apply frame_nonce_inj in Heq as [_ Heq]; [lia|split; unfold U64_MAX in *; lia..].
Qed.
End worker.

(** ** End to end *)

Section delivery.
Context `{Hashing} `{Aead} `{!AeadLaws}.
Context `{!Bincode SessionClientHello} `{!Bincode SessionServerHello}.
Context `{!Bincode SignedEnvelope} `{!Bincode ProtocolMessage} `{!Bincode NonceTuple}.
Context (S_crypto R_crypto : CryptoBackend) (S_handshakes : HandshakeProvider).
Context (S_env R_env : Environment).
Context (sender : ValidatorId) (configured_ttl : option Z).
Hypothesis payload_encodes : forall m : ProtocolMessage, is_ok (encode_to_vec m) = true.
Hypothesis nonce_encodes : forall x : NonceTuple, is_ok (encode_to_vec x) = true.
Hypothesis envelope_decodes : forall (env : SignedEnvelope) b,
  encode_to_vec env = Ok b -> decode_from_slice b = Ok env.
Hypothesis sender_verifies : forall m sig,
  sign (CryptoBackend := S_crypto) sender m = Ok sig ->
  verify (CryptoBackend := R_crypto) sender m sig = Ok true.

Lemma envelope_acceptable rq p :
  envelope_bytes (H0 := S_crypto) sender rq = Ok p ->
  acceptable (H0 := R_crypto) sender p (rq_payload rq).
Proof.
  unfold envelope_bytes. intros (pb & Hpb & (sg & Hsg & He)%result_bind_ok)%result_bind_ok.
  exists (mkEnvelope sender (blake3 pb) sg (rq_payload rq)), pb. split_and!; try done.
  - by apply envelope_decodes.
  - simpl. by apply sender_verifies.
Qed.

(** C18: A connection is a reliable first-in first-out channel: a receiver in the
    session of the sender, whose stream delivers what the worker wrote and
    then closes, reads it without error, and hands on exactly the messages of
    the requests the connection carried, in the order of the requests, until
    the session's time to live would cut it. *)
Theorem channel_delivers_in_order faults peer rqs w c s wr established ttl rounds :
  idle_worker w -> Forall (fun rq => peer_id (rq_peer rq) = peer) rqs ->
  c ∈ w_connections (run_worker (H0 := S_crypto) (H1 := S_handshakes) (H3 := S_env)
        sender configured_ttl faults peer rqs w).2 ->
  co_session c = Some s ->
  Forall (fun f => Z.of_nat (length f) <= MAX_FRAME_SIZE_BYTES) (co_frames c) ->
  w_in wr = mkIn (concat (wire_frame <$> co_frames c)) None -> (length (co_frames c) < rounds)%nat ->
  (forall i, session_is_expired established ttl (clock_at (Environment := R_env) i) = false) ->
  exists sent ps wr', sent `sublist_of` rqs /\ length sent = length (co_frames c) /\
    Forall2 (fun p rq => envelope_bytes (H0 := S_crypto) sender rq = Ok p) ps sent /\
    receive_loop (H0 := R_crypto) (H3 := R_env) rounds sender s established ttl 0 wr = (inr tt, wr') /\
    w_events wr' = w_events wr ++ concat (zip_with (received sender s) ps (rq_payload <$> sent)).
Proof.
  intros Hw Hp Hc Hs Hsz Hin Hr Hexp.
  destruct (connection_requests (H0 := S_crypto) (H1 := S_handshakes) (H3 := S_env) sender configured_ttl
    payload_encodes nonce_encodes faults peer rqs w c s Hw Hp Hc Hs) as (sent & ps & k & Hsub & Hf & Hse).
  assert (Hacc : Forall2 (acceptable (H0 := R_crypto) sender) ps (rq_payload <$> sent)).
  { apply Forall2_fmap_r. eapply Forall2_impl; [exact Hf|]. intros p rq. apply envelope_acceptable. }
  destruct (receive_all (H0 := R_crypto) (H3 := R_env) sender s established ttl 0 ps (co_frames c) k
    (rq_payload <$> sent) rounds wr Hexp Hse Hacc Hsz Hin Hr) as (wr' & Hrun & Hev).
  exists sent, ps, wr'. split_and!; try done.
  rewrite <- (Forall2_length _ _ _ Hf).
  clear -Hse. induction Hse; simpl; congruence.
Qed.
End delivery.

(** ** Witnesses *)

Module ChannelExample.
#[local] Existing Instance concrete_hashing.
#[local] Existing Instance HandshakeExample.countable_bincode.
#[local] Existing Instance HandshakeExample.container_countable.
#[local] Existing Instance HandshakeExample.signature_scheme_countable.
#[local] Existing Instance HandshakeExample.client_hello_countable.
#[local] Existing Instance HandshakeExample.server_hello_countable.

Definition secrets : gmap ValidatorId string := {[1 := "s1"%string; 2 := "s2"%string]}.
#[local] Instance backend : CryptoBackend := DeterministicCryptoBackend secrets.

(** Both ends know the session they will agree on. *)
Definition agreed : SessionMaterial := mkSession 5 7 true.
Definition reply : SessionServerHello :=
  mkServerHello 2 1 0 (deterministic_session_public_identity 2) [] TypedSig.default.
#[local] Instance handshakes : HandshakeProvider :=
  {| build_client_hello := fun l p n =>
       Ok (mkClientHello l p n (deterministic_session_public_identity l) [] TypedSig.default);
     accept_client_hello := fun _ l c =>
       if ch_responder c =? l then Ok (reply, agreed) else Err "not for me";
     finalize_client_session := fun _ _ _ => Ok agreed;
     open_session := fun _ _ _ => Ok agreed |}.

(** A toy cipher: the text in the clear with a keyed checksum. *)
Definition checksum (k n ad p : bytes) : bytes := take 16 (hash_to_bytes (poly_hash (k ++ n ++ ad ++ p))).
#[local] Instance cipher : Aead :=
  {| encrypt_detached := fun k n ad p => Ok (p, checksum k n ad p);
     decrypt_detached := fun k n ad c tag =>
       if bool_decide (tag = checksum k n ad c) then Ok c else Err "bad tag" |}.
Lemma checksum_length k n ad p : length (checksum k n ad p) = 16%nat.
Proof. unfold checksum, hash_to_bytes. rewrite length_take, length_fmap, length_seqZ. reflexivity. Qed.
#[local] Opaque checksum.
#[local] Instance cipher_laws : AeadLaws.
Proof.
  split; intros k n ad p c tag E; injection E as <- <-; [apply checksum_length|].
  cbn [decrypt_detached cipher]. by rewrite bool_decide_true.
Qed.
#[local] Transparent checksum.

(** Heartbeats are encoded; other messages are not needed here. *)
#[local] Instance message_bincode : Bincode ProtocolMessage :=
  {| encode_to_vec := fun m => match m with
                               | MsgHeartbeatPulse p => Ok (enc_canonical (CPulse p))
                               | _ => Ok [] end;
     decode_from_slice := fun _ => Err "not needed" |}.
#[local] Instance envelope_bincode : Bincode SignedEnvelope :=
  {| encode_to_vec := fun e => match env_payload e with
       | MsgHeartbeatPulse p =>
           encode_to_vec (env_from e, env_hash e, env_signature e,
             (hp_epoch p, hp_slot p, hp_source p, hp_sequence p, hp_emitted_at p))
       | _ => Err "not needed" end;
     decode_from_slice := fun b =>
       '(f, h, sg, (a, b, c, d, e)) ← decode_from_slice b;
       Ok (mkEnvelope f h sg (MsgHeartbeatPulse (mkPulse a b c d e))) |}.

#[local] Instance quiet_network : Environment :=
  {| clock_at := fun _ => 1000; connect_at := fun _ _ => None; nodelay_at := fun _ => None;
     write_at := fun _ => None; random_at := fun _ => [];
     reply_at := fun _ => mkIn (wire_frame [Zpos (encode reply)]) None |}.

Lemma messages_encode (m : ProtocolMessage) : is_ok (encode_to_vec m) = true.
Proof. by destruct m. Qed.
Lemma nonces_encode (x : NonceTuple) : is_ok (encode_to_vec x) = true.
Proof. done. Qed.
Lemma envelopes_decode (env : SignedEnvelope) b :
  encode_to_vec env = Ok b -> decode_from_slice b = Ok env.
Proof.
  destruct env as [f h sg m]. simpl. destruct m; try done. simpl. intros [= <-]. simpl.
  rewrite decode_encode. simpl. by destruct p.
Qed.

Definition beat (n : Z) : Request :=
  mkRequest (mkPeer 2 "b") (MsgHeartbeatPulse (mkPulse 0 n 1 n 1000)) true.
Definition no_faults : FaultProfile := mkFaults 0 f64_zero false false.
Definition start : World :=
  mkWorld 0 (mkSessionMetrics 0 0 0 0 0 0) [] None (mkIn [] None) [] 0 0.
Definition ran : World := (run_worker 1 None no_faults 2 [beat 1; beat 2] start).2.
Definition the_connection : Connection :=
  match w_connections ran with c :: _ => c | [] => mkConnection [] [] None end.

Lemma start_idle : idle_worker start.
Proof. done. Qed.
Lemma beats_to_2 : Forall (fun rq => peer_id (rq_peer rq) = 2) [beat 1; beat 2].
Proof. repeat constructor. Qed.
Lemma the_connection_elem : the_connection ∈ w_connections ran.
Proof.
  unfold the_connection. destruct (w_connections ran) as [|c l] eqn:E; [|by left].
  apply (f_equal length) in E. revert E. vm_compute. discriminate.
Qed.
Lemma the_session : co_session the_connection = Some agreed.
Proof. vm_compute. reflexivity. Qed.
Lemma two_frames : length (co_frames the_connection) = 2%nat.
Proof. vm_compute. reflexivity. Qed.

Lemma request_effort_bounded_witness :
  (w_attempts (send_message 1 None no_faults (beat 1) start).2 <= 10)%nat.
Proof. destruct (request_effort_bounded 1 None no_faults (beat 1) start) as [H _]; [done|exact H]. Defined.

Lemma worker_reports_every_request_witness :
  exists evs, (run_worker 1 None no_faults 2 [beat 1; beat 2] start).1 = inr tt /\
    Forall2 reports [beat 1; beat 2] evs.
Proof.
  destruct (worker_reports_every_request 1 None messages_encode nonces_encode no_faults 2
              [beat 1; beat 2] start start_idle beats_to_2) as (evs & Hr & _ & Hf).
  exists evs. split; [exact Hr|exact Hf].
Defined.

Lemma frames_sealed_in_order_witness :
  (exists f g, co_frames the_connection !! 0%nat = Some f /\ co_frames the_connection !! 1%nat = Some g) /\
  frame_nonce Outbound 0 <> frame_nonce Outbound 1.
Proof.
  destruct (frames_sealed_in_order 1 None messages_encode nonces_encode no_faults 2 [beat 1; beat 2]
    start the_connection agreed start_idle beats_to_2 the_connection_elem the_session eq_refl) as [_ Hn].
  - rewrite two_frames. vm_compute. discriminate.
  - assert (Hfg : exists f g, co_frames the_connection !! 0%nat = Some f /\
      co_frames the_connection !! 1%nat = Some g).
    { pose proof two_frames as Hl. destruct (co_frames the_connection) as [|f [|g l]]; [done..|].
      by exists f, g. }
    split; [done|]. destruct Hfg as (f & g & Hf & Hg).
    exact (Hn 0%nat 1%nat f g Hf Hg ltac:(discriminate)).
Defined.

Definition receiver_start : World :=
  set_in (mkIn (concat (wire_frame <$> co_frames the_connection)) None) start.
Lemma channel_delivers_in_order_witness :
  exists sent ps wr', length sent = 2%nat /\
    receive_loop 3 1 agreed 1000 None 0 receiver_start = (inr tt, wr') /\
    w_events wr' = concat (zip_with (received 1 agreed) ps (rq_payload <$> sent)).
Proof.
  assert (Hv : forall m sig, sign 1 m = Ok sig -> verify 1 m sig = Ok true)
    by (intros m sig; apply deterministic_sign_verify).
  destruct (channel_delivers_in_order backend backend handshakes quiet_network quiet_network 1 None
    messages_encode nonces_encode envelopes_decode Hv no_faults 2 [beat 1; beat 2] start
    the_connection agreed receiver_start 1000 None 3 start_idle beats_to_2 the_connection_elem
    the_session) as (sent & ps & wr' & _ & Hl & _ & Hr & He).
  - repeat constructor; vm_compute; discriminate.
  - reflexivity.
  - rewrite two_frames. repeat constructor.
  - intros i. reflexivity.
  - exists sent, ps, wr'. rewrite two_frames in Hl. split_and!; [exact Hl|exact Hr|exact He].
Defined.
End ChannelExample.
