(* ===== verification/Snapshots.v ===== *)
(** * Chain segments and snapshots

    What two nodes exchange to synchronise (crates/entangrid-node/src/lib.rs):
    building a segment for a peer, aligning a received segment with the local
    chain, and validating a whole chain or a commitment with its receipts. *)
From S2P Require Import Prelude F64 Hybrid Types Concrete Crypto Ledger Consensus.
From S2P Require Import Policy.

Open Scope Z_scope.

(** ** Segments *)

(** The tip a requester at [known_height] must have. *)
Definition expected_tip_at (blocks : list Block) (known_height : Z) : option HashBytes :=
  if known_height =? 0 then Some empty_hash
  else block_hash <$> blocks !! Z.to_nat (saturating_sub known_height 1).

Definition build_chain_segment_from_chain (target : StateSnapshot) (blocks : list Block)
    (receipts : list RelayReceipt) (window_epochs known_height : Z) (known_tip : HashBytes)
    (preferred_max_blocks : nat) : option ChainSegment :=
  if Z.of_nat (length blocks) <=? known_height then None
  else
    expected ← expected_tip_at blocks known_height;
    if negb (expected =? known_tip) then None
    else
      let missing := drop (Z.to_nat known_height) blocks in
      if ((length missing =? 0) || (MAX_INCREMENTAL_SYNC_BLOCKS <? length missing)
          || (preferred_max_blocks <? length missing))%nat then None
      else
        let latest_epoch := from_option (fun b => bh_epoch (header b)) 0 (last blocks) in
        let earliest_recent_epoch :=
          saturating_sub latest_epoch (saturating_sub window_epochs 1) in
        let base_epoch :=
          if known_height =? 0 then 0
          else from_option (fun b => bh_epoch (header b)) 0
                 (blocks !! Z.to_nat (saturating_sub known_height 1)) in
        let earliest := Z.min earliest_recent_epoch (saturating_sub base_epoch 1) in
        Some (mkSegment known_height known_tip target missing
                (filter (fun r => earliest <= rr_epoch r) receipts) []).

(** The overlap loop: the blocks both sides have must agree. *)
Fixpoint check_overlap (local_blocks : list Block) (index : nat) (blocks : list Block)
    : result unit :=
  match blocks with
  | [] => Ok tt
  | b :: blocks' =>
      local ← ok_or (local_blocks !! index) "incremental sync missing local overlap";
      _ ← ensure (block_hash local =? block_hash b) "incremental sync diverged from local chain";
      check_overlap local_blocks (S index) blocks'
  end.

Definition align_chain_segment_to_local_chain (local_blocks : list Block)
    (local : StateSnapshot) (chain : ChainSegment) : result ChainSegment :=
  if height local <? base_height chain then Err "incremental sync height mismatch"
  else
    expected ← ok_or (expected_tip_at local_blocks (base_height chain))
                 "incremental sync missing local base block";
    if negb (expected =? base_tip_hash chain) then Err "incremental sync tip mismatch"
    else if base_height chain =? height local then
      if negb (base_tip_hash chain =? tip_hash local) then Err "incremental sync tip mismatch"
      else Ok chain
    else
      let overlap := Z.to_nat (saturating_sub (height local) (base_height chain)) in
      if (length (seg_blocks chain) <? overlap)%nat then Err "incremental sync missing local overlap"
      else
        _ ← check_overlap local_blocks (Z.to_nat (base_height chain))
              (take overlap (seg_blocks chain));
        Ok (mkSegment (height local) (tip_hash local) (target_snapshot chain)
              (drop overlap (seg_blocks chain)) (seg_receipts chain) (seg_votes chain)).

(** ** Validation of whole chains *)

Section validation.
Context `{Hashing} `{CryptoBackend}.

(** The loop of [validate_snapshot_receipts]. *)
Fixpoint check_snapshot_receipts (e : ConsensusEngine) (exact events : gset HashBytes)
    (rs : list RelayReceipt) : result (list RelayReceipt) :=
  match rs with
  | [] => Ok []
  | r :: rs' =>
      let h := canonical_hash (CReceipt r) in
      _ ← ensure (negb (bool_decide (h ∈ exact))) "duplicate receipt in snapshot";
      let ev := receipt_event_hash r in
      _ ← ensure (negb (bool_decide (ev ∈ events))) "duplicate receipt event in snapshot";
      verified ← verify (rr_witness r) (hash_to_bytes (receipt_signing_hash r)) (rr_signature r);
      _ ← ensure verified "invalid receipt signature in snapshot";
      _ ← validate_receipt_assignment e r;
      rest ← check_snapshot_receipts e ({[h]} ∪ exact) ({[ev]} ∪ events) rs';
      Ok (r :: rest)
  end.

Definition validate_snapshot_receipts (e : ConsensusEngine) (rs : list RelayReceipt)
    : result (list RelayReceipt) := check_snapshot_receipts e ∅ ∅ rs.

(** The loop of [validate_commitment_bundle]. *)
Fixpoint check_commitment_receipts (e : ConsensusEngine) (c : TopologyCommitment)
    (exact events : gset HashBytes) (rs : list RelayReceipt) : result unit :=
  match rs with
  | [] => Ok tt
  | r :: rs' =>
      _ ← ensure (rr_source r =? tc_validator c) "commitment receipt source mismatch";
      _ ← ensure (rr_epoch r =? tc_epoch c) "commitment receipt epoch mismatch";
      verified ← verify (rr_witness r) (hash_to_bytes (receipt_signing_hash r)) (rr_signature r);
      _ ← ensure verified "invalid commitment receipt signature";
      _ ← validate_receipt_assignment e r;
      let h := canonical_hash (CReceipt r) in
      _ ← ensure (negb (bool_decide (h ∈ exact))) "duplicate receipt in commitment";
      let ev := receipt_event_hash r in
      _ ← ensure (negb (bool_decide (ev ∈ events))) "duplicate receipt event in commitment";
      check_commitment_receipts e c ({[h]} ∪ exact) ({[ev]} ∪ events) rs'
  end.

Definition validate_commitment_bundle (e : ConsensusEngine) (c : TopologyCommitment)
    (rs : list RelayReceipt) (w : ServiceScoreWeights) : result unit :=
  _ ← check_commitment_receipts e c ∅ ∅ rs;
  ensure (commitment_eqb (commitment_from_receipts_with_weights e (tc_validator c) (tc_epoch c)
            rs 0 0 w) c) "receipt root mismatch".

Definition block_content_hash (b : Block) : HashBytes :=
  canonical_hash (CBlockContent (header b) (transactions b) (commitment b)).
Definition topology_root_of (c : option TopologyCommitment) : HashBytes :=
  from_option (fun c => canonical_hash (CCommitment c)) empty_hash c.

Definition validate_snapshot_block (e : ConsensusEngine) (ledger : LedgerState) (b : Block)
    (expected_parent : HashBytes) : result unit :=
  _ ← ensure (block_content_hash b =? block_hash b) "block hash mismatch in snapshot";
  verified ← verify (proposer_id (header b)) (hash_to_bytes (block_hash b)) (block_signature b);
  _ ← ensure verified "invalid block signature in snapshot";
  _ ← ensure (block_number (header b) =? wadd (height ledger) 1)
        "unexpected block number in snapshot";
  _ ← validate_block_basic e b expected_parent None false f64_zero;
  _ ← ensure (canonical_hash (CTransactions (transactions b)) =? transactions_root (header b))
        "transactions root mismatch in snapshot";
  _ ← ensure (topology_root_of (commitment b) =? topology_root (header b))
        "topology root mismatch in snapshot";
  match commitment b with
  | None => ensure (bool_decide (commitment_receipts b = []))
              "commitment receipts present without commitment"
  | Some c => validate_commitment_bundle e c (commitment_receipts b)
                default_service_score_weights
  end.

(** The block loop of [validate_chain_snapshot]. *)
Fixpoint validate_snapshot_blocks (e : ConsensusEngine) (ledger : LedgerState)
    (expected_parent : HashBytes) (bs : list Block) : result LedgerState :=
  match bs with
  | [] => Ok ledger
  | b :: bs' =>
      _ ← validate_snapshot_block e ledger b expected_parent;
      next ← apply_block_clone ledger b;
      validate_snapshot_blocks e next (block_hash b) bs'
  end.

Definition validate_chain_snapshot (g : GenesisConfig) (e : ConsensusEngine)
    (chain : ChainSnapshot) : result (LedgerState * list RelayReceipt) :=
  rs ← validate_snapshot_receipts e (cs_receipts chain);
  ledger ← validate_snapshot_blocks e (from_genesis g) empty_hash (cs_blocks chain);
  _ ← ensure (bool_decide (ledger = cs_snapshot chain)) "snapshot replay mismatch";
  Ok (ledger, rs).
End validation.

(** ** Properties of segments *)

Section segment_properties.
(** What the node keeps true of its chain and ledger: as many blocks as the
    height, and the last block's hash as the tip. *)
Definition tip_of (blocks : list Block) : HashBytes := from_option block_hash empty_hash (last blocks).
Definition snapshot_matches (blocks : list Block) (s : StateSnapshot) : Prop :=
  height s = Z.of_nat (length blocks) /\ tip_hash s = tip_of blocks.

Lemma expected_tip_at_prefix local remote k :
  (block_hash <$> local) `prefix_of` (block_hash <$> remote) ->
  0 <= k <= Z.of_nat (length local) ->
  expected_tip_at local k = expected_tip_at remote k.
Proof.
  intros [rest Hp] Hk. unfold expected_tip_at, saturating_sub. destruct (Z.eqb_spec k 0); [done|].
  rewrite <- !list_lookup_fmap, Hp. rewrite lookup_app_l; [done|]. rewrite length_fmap. lia.
Qed.

Lemma expected_tip_at_full blocks :
  expected_tip_at blocks (Z.of_nat (length blocks)) = Some (tip_of blocks).
Proof.
  unfold expected_tip_at, tip_of, saturating_sub. destruct blocks as [|b blocks]; [done|].
  rewrite (proj2 (Z.eqb_neq _ 0)) by (simpl; lia). rewrite last_lookup.
  replace (Z.to_nat (Z.max 0 (Z.of_nat (length (b :: blocks)) - 1)))
    with (pred (length (b :: blocks))) by (simpl; lia).
  destruct (lookup_lt_is_Some_2 (b :: blocks) (pred (length (b :: blocks)))) as [x ->];
    [simpl; lia | done].
Qed.

Lemma check_overlap_prefix local index blocks :
  (block_hash <$> blocks) `prefix_of` (block_hash <$> drop index local) ->
  check_overlap local index blocks = Ok tt.
Proof.
  revert index. induction blocks as [|b blocks IH]; intros index Hp; [done|]. simpl.
  destruct Hp as [rest Hp]. pose proof (f_equal (fun l => l !! 0%nat) Hp) as H0.
  rewrite list_lookup_fmap, lookup_drop, Nat.add_0_r in H0. simpl in H0.
  destruct (local !! index) as [l|] eqn:El; simplify_eq/=. rewrite <- H0, Z.eqb_refl. simpl.
  apply IH. exists rest. rewrite (drop_S _ _ _ El) in Hp. simplify_eq/=. done.
Qed.

(** A segment that a peer builds for the tip this node reported fits this
    node's chain even if the chain has grown meanwhile, as long as it grew
    along the peer's: aligning it succeeds and leaves exactly the peer's
    blocks above the local height. *)
Lemma built_segment_aligns local snap remote target receipts window k tip max seg :
  snapshot_matches local snap ->
  (block_hash <$> local) `prefix_of` (block_hash <$> remote) ->
  0 <= k <= height snap ->
  build_chain_segment_from_chain target remote receipts window k tip max = Some seg ->
  exists aligned, align_chain_segment_to_local_chain local snap seg = Ok aligned /\
    base_height aligned = height snap /\ base_tip_hash aligned = tip_hash snap /\
    seg_blocks aligned = drop (length local) remote /\ target_snapshot aligned = target.
Proof.
  intros [Hh Ht] Hp Hk Hb. unfold build_chain_segment_from_chain in Hb.
  destruct (Z.leb_spec (Z.of_nat (length remote)) k); [done|].
  apply bind_Some in Hb as (ex & Hex & Hb).
  destruct (Z.eqb_spec ex tip) as [->|]; simpl in Hb; [|done].
  case_match; [done|]. injection Hb as <-.
  pose proof (prefix_length _ _ Hp) as Hlen. rewrite !length_fmap in Hlen.
  rewrite <- (expected_tip_at_prefix local remote k Hp ltac:(lia)) in Hex.
  unfold align_chain_segment_to_local_chain; cbn [base_height base_tip_hash seg_blocks].
  rewrite (proj2 (Z.ltb_ge _ _)) by lia. rewrite Hex. simpl. rewrite Z.eqb_refl. simpl.
  destruct (Z.eqb_spec k (height snap)) as [->|Hne].
  - rewrite Hh, expected_tip_at_full in Hex. injection Hex as <-. rewrite Ht, Z.eqb_refl. simpl.
    eexists; split_and!; [done..| |done]. simpl. by rewrite Hh, Nat2Z.id.
  - unfold saturating_sub. rewrite length_drop, (proj2 (Nat.ltb_ge _ _)) by lia.
    rewrite check_overlap_prefix.
    + simpl. eexists; split_and!; [done..| |done]. simpl. rewrite drop_drop. f_equal. lia.
    + destruct Hp as [rest Hp]. exists [].
      rewrite fmap_take, !fmap_drop, Hp, skipn_app, take_app_length', app_nil_r; [done|].
      rewrite length_drop, length_fmap. lia.
Qed.
End segment_properties.

(** ** Properties of validation *)

Section validation_properties.
Context `{Hashing} `{CryptoBackend}.
Context (e : ConsensusEngine).

(** A block in its place: the content hash, the signature of the slot's
    proposer, the parent and the number. *)
Definition block_in_place (parent : HashBytes) (number : Z) (b : Block) : Prop :=
  block_content_hash b = block_hash b /\ parent_hash (header b) = parent /\
  block_number (header b) = wadd number 1 /\
  proposer_for_slot e (bh_slot (header b)) = Some (proposer_id (header b)) /\
  verify (proposer_id (header b)) (hash_to_bytes (block_hash b)) (block_signature b) = Ok true.

Fixpoint chain_in_place (parent : HashBytes) (number : Z) (bs : list Block) : Prop :=
  match bs with
  | [] => True
  | b :: bs' => block_in_place parent number b
                /\ chain_in_place (block_hash b) (block_number (header b)) bs'
  end.

Definition receipt_checked (r : RelayReceipt) : Prop :=
  verify (rr_witness r) (hash_to_bytes (receipt_signing_hash r)) (rr_signature r) = Ok true /\
  is_witness_for e (rr_witness r) (rr_source r) (rr_epoch r) = true /\
  is_relay_target_for e (rr_source r) (rr_destination r) (rr_epoch r) = true /\
  epoch_for_slot e (rr_slot r) = rr_epoch r.

Lemma validate_receipt_assignment_ok r :
  validate_receipt_assignment e r = Ok tt ->
  is_witness_for e (rr_witness r) (rr_source r) (rr_epoch r) = true /\
  is_relay_target_for e (rr_source r) (rr_destination r) (rr_epoch r) = true /\
  epoch_for_slot e (rr_slot r) = rr_epoch r.
Proof. unfold validate_receipt_assignment. intros Hv. inv_ok. by bool_to_prop. Qed.

Lemma check_snapshot_receipts_ok exact events rs out :
  check_snapshot_receipts e exact events rs = Ok out ->
  out = rs /\ Forall receipt_checked rs /\ NoDup (receipt_event_hash <$> rs) /\
  Forall (fun r => receipt_event_hash r ∉ events) rs.
Proof.
  revert exact events out. induction rs as [|r rs IH]; intros exact events out; cbn -[elem_of].
  { intros [= <-]. split_and!; constructor. }
  intros (u1 & H1 & (u2 & H2 & (v & Hv & (u3 & H3 & (u4 & H4 & (rest & H5 & H6)
    %result_bind_ok)%result_bind_ok)%result_bind_ok)%result_bind_ok)%result_bind_ok)%result_bind_ok.
  inv_ok. subst. bool_to_prop. apply IH in H5 as (-> & Hf & Hnd & Hev).
  apply validate_receipt_assignment_ok in H4 as (? & ? & ?).
  rewrite Forall_forall in Hev. split_and!; [done|by constructor| |].
  - constructor; [|done]. intros (r' & Heq & Hr')%list_elem_of_fmap. specialize (Hev _ Hr').
    apply Hev. rewrite Heq. set_solver.
  - constructor; [done|]. apply Forall_forall. intros r' Hr'. specialize (Hev _ Hr'). set_solver.
Qed.

Lemma validate_snapshot_block_ok ledger b parent :
  validate_snapshot_block e ledger b parent = Ok tt -> block_in_place parent (height ledger) b.
Proof.
  unfold validate_snapshot_block, validate_block_basic. intros Hv.
  apply result_bind_ok in Hv as (u1 & H1 & Hv). apply result_bind_ok in Hv as (ok & H2 & Hv).
  apply result_bind_ok in Hv as (u2 & H3 & Hv). apply result_bind_ok in Hv as (u3 & H4 & Hv).
  apply result_bind_ok in Hv as (u4 & H5 & _). inv_ok. subst. bool_to_prop.
  destruct (proposer_for_slot e _) eqn:Ep; simplify_eq/=. by subst.
Qed.

Lemma validate_snapshot_blocks_ok ledger parent bs st :
  validate_snapshot_blocks e ledger parent bs = Ok st ->
  chain_in_place parent (height ledger) bs /\ replay_from ledger bs = Ok st.
Proof.
  revert ledger parent. induction bs as [|b bs IH]; intros ledger parent; cbn.
  { by intros [= ->]. }
  intros ([] & Hb & (next & Hn & Hr)%result_bind_ok)%result_bind_ok.
  pose proof (apply_block_clone_ok _ _ _ Hn) as (_ & _ & _ & _ & _ & _ & Hh & _).
  destruct (IH next (block_hash b) Hr) as [Hc Hrep]. rewrite Hh in Hc.
  rewrite Hn. simpl. eauto using validate_snapshot_block_ok.
Qed.

Lemma validate_chain_snapshot_ok g chain st rs :
  validate_chain_snapshot g e chain = Ok (st, rs) ->
  chain_in_place empty_hash 0 (cs_blocks chain) /\
  replay_blocks g (cs_blocks chain) = Ok st /\ st = cs_snapshot chain /\
  rs = cs_receipts chain /\ Forall receipt_checked rs /\ NoDup (receipt_event_hash <$> rs).
Proof.
  unfold validate_chain_snapshot, validate_snapshot_receipts.
  intros (rs' & Hrs & (st' & Hst & (u & Hu & Heq)%result_bind_ok)%result_bind_ok)%result_bind_ok.
  inv_ok. bool_to_prop. simplify_eq.
  apply check_snapshot_receipts_ok in Hrs as (-> & ? & ? & _).
  by apply validate_snapshot_blocks_ok in Hst as [? ?].
Qed.

(** C23: A snapshot that passes validation is a real chain: its blocks link to
    each other from genesis with consecutive numbers, each is hashed from its
    content and signed by its slot's proposer; the claimed state is what
    replaying them from genesis yields; the receipts are distinct events,
    each signed by an assigned witness. *)
Theorem snapshot_validation_sound g chain st rs :
  validate_chain_snapshot g e chain = Ok (st, rs) ->
  chain_in_place empty_hash 0 (cs_blocks chain) /\
  replay_blocks g (cs_blocks chain) = Ok st /\ st = cs_snapshot chain /\
  rs = cs_receipts chain /\ Forall receipt_checked rs /\ NoDup (receipt_event_hash <$> rs).
Proof. apply validate_chain_snapshot_ok. Qed.

Lemma chain_in_place_number parent number bs i b :
  chain_in_place parent number bs -> bs !! i = Some b ->
  block_number (header b) = wadd number (Z.of_nat i + 1).
Proof.
  revert parent number i. induction bs as [|b' bs IH]; intros parent number i; [done|].
  intros [(_ & _ & Hn & _) Hc] Hi. destruct i as [|i]; simplify_eq/=; [done|].
  rewrite (IH _ _ _ Hc Hi), Hn. unfold wadd. rewrite Z.add_mod_idemp_l by done. f_equal. lia.
Qed.

Lemma chain_in_place_snoc parent number bs b :
  chain_in_place parent number (bs ++ [b]) ->
  chain_in_place parent number bs /\
  parent_hash (header b) = from_option block_hash parent (last bs).
Proof.
  revert parent number. induction bs as [|b' bs IH]; intros parent number.
  - by intros [(_ & ? & _) _].
  - intros [Hb (Hc & Hp)%IH]. split; [done|]. rewrite Hp, last_cons. by destruct (last bs).
Qed.

Lemma chain_in_place_hash parent number bs b :
  chain_in_place parent number (bs ++ [b]) -> block_content_hash b = block_hash b.
Proof.
  revert parent number. induction bs as [|b' bs IH]; intros parent number; simpl.
  - by intros [(? & _) _].
  - intros [_ Hb]. by eapply IH.
Qed.

(** What the hash of a block covers. *)
Definition block_content (b : Block) : BlockHeader * list SignedTransaction * option TopologyCommitment :=
  (header b, transactions b, commitment b).
(** No two of the blocks collide under the hash function. *)
Definition no_collision (bs cs : list Block) : Prop :=
  forall b c, b ∈ bs -> c ∈ cs -> block_content_hash b = block_content_hash c ->
  block_content b = block_content c.

Lemma same_tip_same_chain bs cs p n q m :
  length bs = length cs ->
  chain_in_place p n bs -> chain_in_place q m cs -> no_collision bs cs ->
  tip_of bs = tip_of cs -> block_content <$> bs = block_content <$> cs.
Proof.
  revert cs. induction bs as [|b bs IH] using rev_ind; intros cs Hlen.
  { by destruct cs. }
  destruct cs as [|c cs _] using rev_ind; [rewrite length_app in Hlen; simpl in Hlen; lia|].
  rewrite !length_app in Hlen. simpl in Hlen. intros Hb Hc Hnc. unfold tip_of. rewrite !last_snoc.
  simpl. intros Hh.
  assert (Hcont : block_content b = block_content c).
  { apply Hnc; [apply elem_of_app; right; by left..|].
    by rewrite (chain_in_place_hash _ _ _ _ Hb), (chain_in_place_hash _ _ _ _ Hc). }
  apply chain_in_place_snoc in Hb as [Hb Hpb]. apply chain_in_place_snoc in Hc as [Hc Hpc].
  rewrite !fmap_app. simpl. f_equal; [|congruence].
  apply IH; [lia|done..| |].
  - intros x y Hx Hy. apply Hnc; apply elem_of_app; by left.
  - unfold block_content in Hcont. simplify_eq.
    unfold tip_of. clear -Hpb Hpc Hlen H1.
    rewrite H1 in Hpb. rewrite Hpb in Hpc.
    destruct (last bs) eqn:E, (last cs) eqn:E'; simpl in *; try congruence.
    + apply last_None in E'. subst cs. destruct bs; simpl in *; [done | lia].
    + apply last_None in E. subst bs. destruct cs; simpl in *; [done | lia].
Qed.

(** C24: The tip hash pins the history: two validated snapshots with the same
    non-empty tip hold the same blocks one by one (headers, transactions and
    commitments), unless two of their blocks collide under BLAKE3. *)
Theorem snapshot_tip_determines_chain g chain chain' st st' rs rs' :
  validate_chain_snapshot g e chain = Ok (st, rs) ->
  validate_chain_snapshot g e chain' = Ok (st', rs') ->
  cs_blocks chain <> [] -> cs_blocks chain' <> [] ->
  Z.of_nat (length (cs_blocks chain)) < U64_MOD ->
  Z.of_nat (length (cs_blocks chain')) < U64_MOD ->
  no_collision (cs_blocks chain) (cs_blocks chain') ->
  tip_of (cs_blocks chain) = tip_of (cs_blocks chain') ->
  block_content <$> cs_blocks chain = block_content <$> cs_blocks chain'.
Proof.
  intros (Hc & _)%validate_chain_snapshot_ok (Hc' & _)%validate_chain_snapshot_ok Hne Hne' Hl Hl' Hnc Ht.
  apply (same_tip_same_chain _ _ empty_hash 0 empty_hash 0); try done.
  destruct (cs_blocks chain) as [|b bs _] using rev_ind; [done|].
  destruct (cs_blocks chain') as [|b' bs' _] using rev_ind; [done|].
  unfold tip_of in *. rewrite !last_snoc in *. simpl in Ht.
  rewrite !length_app in *. simpl in *.
  pose proof (chain_in_place_number _ _ _ (length bs) b Hc) as Hn.
  pose proof (chain_in_place_number _ _ _ (length bs') b' Hc') as Hn'.
  rewrite list_lookup_middle in Hn by done. rewrite list_lookup_middle in Hn' by done.
  specialize (Hn eq_refl). specialize (Hn' eq_refl).
  assert (Hcont : block_content b = block_content b').
  { apply Hnc; [apply elem_of_app; right; by left..|].
    by rewrite (chain_in_place_hash _ _ _ _ Hc), (chain_in_place_hash _ _ _ _ Hc'). }
  assert (Heq : header b = header b') by (unfold block_content in Hcont; congruence).
  rewrite <- Heq, Hn, !wadd_small in Hn' by lia. lia.
Qed.
End validation_properties.
