(* ===== verification/NodeState.v ===== *)
(** * The node's state and the monad its methods run in

    [NodeRunner] of crates/entangrid-node/src/lib.rs, grouped by concern, with
    the files of its [Storage], the messages it queued for its peers and its
    event log.  A method is a function from the state to an outcome and the
    state it leaves: [?] returns early and keeps what was mutated before it. *)
From S2P Require Import Prelude F64 Hybrid Types Concrete Crypto Ledger Consensus.
From S2P Require Import Policy Snapshots.

Open Scope Z_scope.

(** ** State *)

Record ChainState := mkChain {
  ledger : LedgerState;
  blocks : list Block;
  orphan_blocks : list Block;
  pending_certified_children : list Block }.

Abbreviation VoteMap := (gmap HashBytes (gmap ValidatorId ProposalVote)).

Record VoteState := mkVotes {
  proposal_votes : VoteMap;
  buffered_proposal_votes : VoteMap;
  quorum_certificates : gmap HashBytes QuorumCertificate }.

Record PoolState := mkPool {
  mempool : gmap HashBytes SignedTransaction;
  seen_transactions : gset HashBytes;
  seen_blocks : gset HashBytes;
  receipts : list RelayReceipt;
  seen_receipts : gset HashBytes;
  seen_receipt_events : gset HashBytes }.

Record ServiceState := mkService {
  service_attestations : gmap (ValidatorId * Epoch) (gmap ValidatorId ServiceAttestation);
  service_aggregates : gmap (ValidatorId * Epoch) ServiceAggregate;
  seen_service_attestations : gset HashBytes;
  seen_service_aggregates : gset HashBytes;
  latest_service_scores : gmap ValidatorId f64;
  latest_service_counters : gmap ValidatorId ServiceCounters;
  failed_sessions_total : Z;
  invalid_receipts_total : Z;
  observed_failed_sessions : gset (Epoch * ValidatorId * ValidatorId);
  observed_successful_sessions : gset (Epoch * ValidatorId * ValidatorId);
  observed_invalid_receipts : gmap (Epoch * ValidatorId) Z;
  known_live_peers : gset ValidatorId }.

Record SlotState := mkSlots {
  last_processed_slot : option Slot;
  last_logged_epoch : option Epoch;
  last_heartbeat_slot : option Slot;
  last_proposed_slot : option Slot;
  startup_sync_barrier : bool }.

Record RecoverySyncRequestMemo := mkRequestMemo {
  rm_slot : Slot;
  rm_peer : ValidatorId;
  rm_local_view : LocalSyncView }.

Record RecoverySyncStatusMemo := mkStatusMemo {
  sm_slot : Slot;
  sm_local_view : LocalSyncView }.

Record SyncState := mkSync {
  last_sync_request_served : gmap ValidatorId ServedSyncRequest;
  last_sync_push_served : gmap ValidatorId ServedSyncPush;
  last_recovery_sync_request : option RecoverySyncRequestMemo;
  last_recovery_sync_status : option RecoverySyncStatusMemo;
  peer_sync_status : gmap ValidatorId PeerSyncStatus;
  peer_sync_repair_failures : gmap ValidatorId Z;
  peer_message_windows : gmap ValidatorId PeerMessageWindow }.

(** The JSON-lines files and the snapshot file, as the values they decode to. *)
Record Storage := mkStorage {
  blocks_file : list Block;
  orphan_file : list Block;
  receipts_file : list RelayReceipt;
  quorum_certificates_file : list QuorumCertificate;
  service_attestations_file : list ServiceAttestation;
  service_aggregates_file : list ServiceAggregate;
  snapshot_file : option StateSnapshot }.

(** The counters of [NodeMetrics] the node itself advances. *)
Inductive MetricCounter :=
| BlocksProposed | BlocksValidated | MissedProposerSlots | ServiceGatingRejections
| ServiceGatingEnforcementSkips | DuplicateReceiptsIgnored | TxIngress | TxPropagated
| ReceiptsCreated | ReceiptsVerified | ServiceAttestationsEmitted | ServiceAttestationsImported
| ServiceAggregatesPublished | ServiceAggregatesImported | SyncRequestsThrottled
| PeerRateLimitDrops | IncrementalSyncServed | IncrementalSyncApplied | FullSyncServed
| FullSyncApplied | CertifiedSyncServed | CertifiedSyncApplied | HandshakeFailures.
#[export] Instance MetricCounter_eq_dec : EqDecision MetricCounter.
Proof. solve_decision. Defined.

Record NodeMetrics := mkMetrics {
  counter : MetricCounter -> Z;
  m_current_slot : Slot;
  m_current_epoch : Epoch;
  last_completed_service_epoch : Epoch;
  last_local_service_score : f64;
  last_local_service_counters : ServiceCounters;
  relay_scores : gmap ValidatorId f64 }.

(** What [NetworkHandle] queues: [send_to] and [broadcast] requests count for
    the service evidence, [send_control_to] and [broadcast_control] do not. *)
Record OutboundRequest := mkOutbound {
  ob_peer : ValidatorId;
  ob_payload : ProtocolMessage;
  ob_accountable : bool }.

Record NodeRunner := mkNode {
  chain : ChainState;
  votes : VoteState;
  pool : PoolState;
  service : ServiceState;
  slots : SlotState;
  sync : SyncState;
  storage : Storage;
  metrics : NodeMetrics;
  outbox : list OutboundRequest;
  event_log : list string;
  clock : Z }.

(** ** Setters *)

Definition with_chain f (s : NodeRunner) := mkNode (f (chain s)) (votes s) (pool s) (service s)
  (slots s) (sync s) (storage s) (metrics s) (outbox s) (event_log s) (clock s).
Definition with_votes f (s : NodeRunner) := mkNode (chain s) (f (votes s)) (pool s) (service s)
  (slots s) (sync s) (storage s) (metrics s) (outbox s) (event_log s) (clock s).
Definition with_pool f (s : NodeRunner) := mkNode (chain s) (votes s) (f (pool s)) (service s)
  (slots s) (sync s) (storage s) (metrics s) (outbox s) (event_log s) (clock s).
Definition with_service f (s : NodeRunner) := mkNode (chain s) (votes s) (pool s) (f (service s))
  (slots s) (sync s) (storage s) (metrics s) (outbox s) (event_log s) (clock s).
Definition with_slots f (s : NodeRunner) := mkNode (chain s) (votes s) (pool s) (service s)
  (f (slots s)) (sync s) (storage s) (metrics s) (outbox s) (event_log s) (clock s).
Definition with_sync f (s : NodeRunner) := mkNode (chain s) (votes s) (pool s) (service s)
  (slots s) (f (sync s)) (storage s) (metrics s) (outbox s) (event_log s) (clock s).
Definition with_storage f (s : NodeRunner) := mkNode (chain s) (votes s) (pool s) (service s)
  (slots s) (sync s) (f (storage s)) (metrics s) (outbox s) (event_log s) (clock s).
Definition with_metrics f (s : NodeRunner) := mkNode (chain s) (votes s) (pool s) (service s)
  (slots s) (sync s) (storage s) (f (metrics s)) (outbox s) (event_log s) (clock s).
Definition with_outbox f (s : NodeRunner) := mkNode (chain s) (votes s) (pool s) (service s)
  (slots s) (sync s) (storage s) (metrics s) (f (outbox s)) (event_log s) (clock s).
Definition with_log f (s : NodeRunner) := mkNode (chain s) (votes s) (pool s) (service s)
  (slots s) (sync s) (storage s) (metrics s) (outbox s) (f (event_log s)) (clock s).

Definition set_orphans f (c : ChainState) :=
  mkChain (ledger c) (blocks c) (f (orphan_blocks c)) (pending_certified_children c).
Definition set_pending f (c : ChainState) :=
  mkChain (ledger c) (blocks c) (orphan_blocks c) (f (pending_certified_children c)).

Definition set_proposal_votes f (v : VoteState) :=
  mkVotes (f (proposal_votes v)) (buffered_proposal_votes v) (quorum_certificates v).
Definition set_buffered f (v : VoteState) :=
  mkVotes (proposal_votes v) (f (buffered_proposal_votes v)) (quorum_certificates v).
Definition set_qcs f (v : VoteState) :=
  mkVotes (proposal_votes v) (buffered_proposal_votes v) (f (quorum_certificates v)).

Definition set_blocks_file f (d : Storage) := mkStorage (f (blocks_file d)) (orphan_file d)
  (receipts_file d) (quorum_certificates_file d) (service_attestations_file d)
  (service_aggregates_file d) (snapshot_file d).
Definition set_orphan_file f (d : Storage) := mkStorage (blocks_file d) (f (orphan_file d))
  (receipts_file d) (quorum_certificates_file d) (service_attestations_file d)
  (service_aggregates_file d) (snapshot_file d).
Definition set_receipts_file f (d : Storage) := mkStorage (blocks_file d) (orphan_file d)
  (f (receipts_file d)) (quorum_certificates_file d) (service_attestations_file d)
  (service_aggregates_file d) (snapshot_file d).
Definition set_qcs_file f (d : Storage) := mkStorage (blocks_file d) (orphan_file d)
  (receipts_file d) (f (quorum_certificates_file d)) (service_attestations_file d)
  (service_aggregates_file d) (snapshot_file d).
Definition set_attestations_file f (d : Storage) := mkStorage (blocks_file d) (orphan_file d)
  (receipts_file d) (quorum_certificates_file d) (f (service_attestations_file d))
  (service_aggregates_file d) (snapshot_file d).
Definition set_aggregates_file f (d : Storage) := mkStorage (blocks_file d) (orphan_file d)
  (receipts_file d) (quorum_certificates_file d) (service_attestations_file d)
  (f (service_aggregates_file d)) (snapshot_file d).
Definition set_snapshot_file x (d : Storage) := mkStorage (blocks_file d) (orphan_file d)
  (receipts_file d) (quorum_certificates_file d) (service_attestations_file d)
  (service_aggregates_file d) x.

Definition set_peer_sync_status f (y : SyncState) := mkSync (last_sync_request_served y)
  (last_sync_push_served y) (last_recovery_sync_request y) (last_recovery_sync_status y)
  (f (peer_sync_status y)) (peer_sync_repair_failures y) (peer_message_windows y).
Definition set_request_served f (y : SyncState) := mkSync (f (last_sync_request_served y))
  (last_sync_push_served y) (last_recovery_sync_request y) (last_recovery_sync_status y)
  (peer_sync_status y) (peer_sync_repair_failures y) (peer_message_windows y).
Definition set_push_served f (y : SyncState) := mkSync (last_sync_request_served y)
  (f (last_sync_push_served y)) (last_recovery_sync_request y) (last_recovery_sync_status y)
  (peer_sync_status y) (peer_sync_repair_failures y) (peer_message_windows y).
Definition set_recovery_request x (y : SyncState) := mkSync (last_sync_request_served y)
  (last_sync_push_served y) x (last_recovery_sync_status y)
  (peer_sync_status y) (peer_sync_repair_failures y) (peer_message_windows y).
Definition set_recovery_status x (y : SyncState) := mkSync (last_sync_request_served y)
  (last_sync_push_served y) (last_recovery_sync_request y) x
  (peer_sync_status y) (peer_sync_repair_failures y) (peer_message_windows y).
Definition set_repair_failures f (y : SyncState) := mkSync (last_sync_request_served y)
  (last_sync_push_served y) (last_recovery_sync_request y) (last_recovery_sync_status y)
  (peer_sync_status y) (f (peer_sync_repair_failures y)) (peer_message_windows y).
Definition set_windows f (y : SyncState) := mkSync (last_sync_request_served y)
  (last_sync_push_served y) (last_recovery_sync_request y) (last_recovery_sync_status y)
  (peer_sync_status y) (peer_sync_repair_failures y) (f (peer_message_windows y)).

(** ** Outcomes and the monad *)

Inductive HaltReason := Panicked | OutOfFuel.

(** A method returns a value, fails with an error, or does not return: it
    panicked, or the model ran out of fuel. *)
Inductive outcome (A : Type) :=
| Done (a : A)
| Failed (message : string)
| Halted (reason : HaltReason).
Arguments Done {A} a.
Arguments Failed {A} message.
Arguments Halted {A} reason.

Definition M (A : Type) : Type := NodeRunner -> outcome A * NodeRunner.

#[export] Instance M_ret : MRet M := fun A a s => (Done a, s).
#[export] Instance M_bind : MBind M := fun A B f m s =>
  match m s with
  | (Done a, s') => f a s'
  | (Failed e, s') => (Failed e, s')
  | (Halted r, s') => (Halted r, s')
  end.

Definition gets {A} (f : NodeRunner -> A) : M A := fun s => (Done (f s), s).
Definition get : M NodeRunner := fun s => (Done s, s).
Definition modify (f : NodeRunner -> NodeRunner) : M unit := fun s => (Done tt, f s).
Definition fail {A} (e : string) : M A := fun s => (Failed e, s).
Definition panic {A} : M A := fun s => (Halted Panicked, s).
Definition out_of_fuel {A} : M A := fun s => (Halted OutOfFuel, s).

(** A fallible pure computation and one that panics. *)
Definition lift {A} (r : result A) : M A :=
  match r with Ok a => mret a | Err e => fail e end.
Definition or_panic {A} (o : option A) : M A :=
  match o with Some a => mret a | None => panic end.

(** [match m { Ok(a) => .., Err(e) => .. }]. *)
Definition try {A} (m : M A) : M (result A) := fun s =>
  match m s with
  | (Done a, s') => (Done (Ok a), s')
  | (Failed e, s') => (Done (Err e), s')
  | (Halted r, s') => (Halted r, s')
  end.

(** A [for] loop over a list. *)
Fixpoint for_each {A} (l : list A) (f : A -> M unit) : M unit :=
  match l with
  | [] => mret tt
  | a :: l' => _ ← f a; for_each l' f
  end.

(** ** The primitive effects *)

Definition log_event (event : string) : M unit := modify (with_log (fun l => l ++ [event])).
Definition bump (c : MetricCounter) (n : Z) : M unit :=
  modify (with_metrics (fun m =>
    mkMetrics (fun c' => if decide (c = c') then wadd (counter m c) n else counter m c')
      (m_current_slot m) (m_current_epoch m) (last_completed_service_epoch m)
      (last_local_service_score m) (last_local_service_counters m) (relay_scores m))).

(** The queue of every configured peer exists, so sending cannot fail. *)
Definition send_to (accountable : bool) (p : PeerConfig) (m : ProtocolMessage) : M unit :=
  modify (with_outbox (fun l => l ++ [mkOutbound (peer_id p) m accountable])).
Definition broadcast (ps : list PeerConfig) (m : ProtocolMessage) : M unit :=
  for_each ps (fun p => send_to true p m).
Definition broadcast_control (ps : list PeerConfig) (m : ProtocolMessage) : M unit :=
  for_each ps (fun p => send_to false p m).
Definition send_control_to : PeerConfig -> ProtocolMessage -> M unit := send_to false.

Definition write_snapshot : M unit :=
  modify (fun s => with_storage (set_snapshot_file (Some (ledger (chain s)))) s).

(** ** Reasoning about methods

    [keeps I m]: whatever the outcome of [m], the state it leaves satisfies
    [I] when the initial state did.  [hoare] adds what is known of a returned
    value. *)

Definition keeps (I : NodeRunner -> Prop) {A} (m : M A) : Prop := forall s, I s -> I (m s).2.

Definition hoare (P : NodeRunner -> Prop) {A} (m : M A) (Q : A -> NodeRunner -> Prop)
    (E : NodeRunner -> Prop) : Prop :=
  forall s, P s -> match m s with
                   | (Done a, s') => Q a s'
                   | (_, s') => E s'
                   end.

(** Invariants that do not look at what a node logs, counts or queues, nor at
    what it remembers of its peers. *)
Class Quiet (I : NodeRunner -> Prop) : Prop := {
  quiet_log f s : I s -> I (with_log f s);
  quiet_outbox f s : I s -> I (with_outbox f s);
  quiet_metrics f s : I s -> I (with_metrics f s);
  quiet_sync f s : I s -> I (with_sync f s) }.

Create HintDb keeps.

Section keeps.
Context (I : NodeRunner -> Prop).

Lemma keeps_ret {A} (a : A) : keeps I (mret a).
Proof. intros s Hs. exact Hs. Qed.

Lemma keeps_bind {A B} (m : M A) (f : A -> M B) :
  keeps I m -> (forall a, keeps I (f a)) -> keeps I (m ≫= f).
Proof.
  intros Hm Hf s Hs. unfold mbind, M_bind. specialize (Hm s Hs).
  destruct (m s) as [[a|e|r] s']; simpl in *; [by apply Hf | done | done].
Qed.

Lemma bind_keeps_from {A B} (m : M A) (f : A -> M B) s :
  I (m s).2 -> (forall a, keeps I (f a)) -> I ((m ≫= f) s).2.
Proof.
  intros Hm Hf. unfold mbind, M_bind.
  destruct (m s) as [[a|e|r] s']; simpl in *; [by apply Hf | done | done].
Qed.

Lemma keeps_gets {A} (f : NodeRunner -> A) : keeps I (gets f).
Proof. intros s Hs. exact Hs. Qed.

Lemma keeps_get : keeps I get.
Proof. intros s Hs. exact Hs. Qed.

Lemma keeps_fail {A} e : keeps I (fail (A:=A) e).
Proof. intros s Hs. exact Hs. Qed.

Lemma keeps_halt {A} r : keeps I (fun s => (Halted (A:=A) r, s)).
Proof. intros s Hs. exact Hs. Qed.

Lemma keeps_lift {A} (r : result A) : keeps I (lift r).
Proof. destruct r; intros s Hs; exact Hs. Qed.

Lemma keeps_lift_bind {A B} (r : result A) (f : A -> M B) :
  (forall a, r = Ok a -> keeps I (f a)) -> keeps I (lift r ≫= f).
Proof. intros Hf. destruct r; intros s Hs; [by apply Hf | exact Hs]. Qed.

Lemma keeps_or_panic {A} (o : option A) : keeps I (or_panic o).
Proof. destruct o; intros s Hs; exact Hs. Qed.

Lemma keeps_modify f : (forall s, I s -> I (f s)) -> keeps I (modify f).
Proof. intros Hf s Hs. by apply Hf. Qed.

Lemma keeps_try {A} (m : M A) : keeps I m -> keeps I (try m).
Proof. intros Hm s Hs. unfold try. specialize (Hm s Hs). by destruct (m s) as [[a|e|r] s']. Qed.

Lemma keeps_for_each {A} (l : list A) (f : A -> M unit) :
  (forall a, keeps I (f a)) -> keeps I (for_each l f).
Proof.
  intros Hf. induction l as [|a l IHl]; simpl; [apply keeps_ret|].
  apply keeps_bind; [apply Hf | intros; apply IHl].
Qed.

Lemma keeps_for_each_in {A} (l : list A) (f : A -> M unit) :
  (forall a, a ∈ l -> keeps I (f a)) -> keeps I (for_each l f).
Proof.
  induction l as [|a l IHl]; intros Hf; simpl; [apply keeps_ret|].
  apply keeps_bind; [apply Hf; by left | intros; apply IHl; intros; apply Hf; by right].
Qed.

Lemma keeps_hoare {A} (m : M A) : keeps I m <-> hoare I m (fun _ => I) I.
Proof.
  split; intros Hm s Hs; specialize (Hm s Hs); by destruct (m s) as [[a|e|r] s'].
Qed.

Context `{!Quiet I}.

Lemma keeps_log e : keeps I (log_event e).
Proof. apply keeps_modify. intros s. apply quiet_log. Qed.
Lemma keeps_bump c n : keeps I (bump c n).
Proof. apply keeps_modify. intros s. apply quiet_metrics. Qed.
Lemma keeps_send a p m : keeps I (send_to a p m).
Proof. apply keeps_modify. intros s. apply quiet_outbox. Qed.
Lemma keeps_broadcast ps m : keeps I (broadcast ps m).
Proof. apply keeps_for_each. intros. apply keeps_send. Qed.
Lemma keeps_broadcast_control ps m : keeps I (broadcast_control ps m).
Proof. apply keeps_for_each. intros. apply keeps_send. Qed.
Lemma keeps_send_control p m : keeps I (send_control_to p m).
Proof. apply keeps_send. Qed.
End keeps.

#[export] Hint Resolve keeps_ret keeps_gets keeps_get keeps_fail keeps_halt keeps_lift keeps_or_panic
  keeps_log keeps_bump keeps_send keeps_broadcast keeps_broadcast_control keeps_send_control : keeps.

#[export] Hint Extern 0 (Quiet _) => typeclasses eauto : keeps.

(** Walk through a method: split binds, conditionals and matches, and close
    the leaves with the [keeps] lemmas. *)
Ltac keeps_step :=
  match goal with
  | |- forall _, _ => intros
  | |- keeps _ _ => assumption
  | |- keeps _ (lift _ ≫= _) => apply keeps_lift_bind
  | |- keeps _ (_ ≫= _) => apply keeps_bind
  | |- keeps _ (try _) => apply keeps_try
  | |- keeps _ (for_each _ _) => apply keeps_for_each
  | |- keeps _ (if ?b then _ else _) => destruct b
  | |- keeps _ (match ?x with _ => _ end) => destruct x
  | |- keeps _ _ => solve [eauto with keeps]
  | |- keeps _ (modify _) => apply keeps_modify
  end.
Ltac keeps_auto := repeat keeps_step.

(** Follow a run that returned: what each step returned and left. *)
Lemma M_bind_done {A B} (m : M A) (f : A -> M B) s b s' :
  (m ≫= f) s = (Done b, s') <->
  exists a s1, m s = (Done a, s1) /\ f a s1 = (Done b, s').
Proof.
  unfold mbind, M_bind. destruct (m s) as [[a|e|r] s1]; split.
  - eauto.
  - by intros (a' & s1' & [= <- <-] & ?).
  - done.
  - by intros (a' & s1' & ? & _).
  - done.
  - by intros (a' & s1' & ? & _).
Qed.

(** Running the primitives. *)
Lemma run_get {A} (f : NodeRunner -> M A) s : (get ≫= f) s = f s s.
Proof. done. Qed.
Lemma run_gets {A B} (g : NodeRunner -> A) (f : A -> M B) s : (gets g ≫= f) s = f (g s) s.
Proof. done. Qed.
Lemma run_modify {A} g (f : unit -> M A) s : (modify g ≫= f) s = f tt (g s).
Proof. done. Qed.
Lemma run_lift {A B} (r : result A) (f : A -> M B) s :
  (lift r ≫= f) s = match r with Ok a => f a s | Err x => (Failed x, s) end.
Proof. by destruct r. Qed.
Lemma run_bind {A B} (m : M A) (f : A -> M B) s :
  (m ≫= f) s = match m s with
               | (Done a, s') => f a s'
               | (Failed x, s') => (Failed x, s')
               | (Halted r, s') => (Halted r, s')
               end.
Proof. done. Qed.
Lemma run_assoc {A B C} (m : M A) (f : A -> M B) (g : B -> M C) s :
  ((m ≫= f) ≫= g) s = (m ≫= fun a => f a ≫= g) s.
Proof. unfold mbind, M_bind. by destruct (m s) as [[a|x|r] s']. Qed.

(** Run the leading updates of a method. *)
Ltac run_updates := repeat (rewrite run_assoc || rewrite run_modify).
