(* ===== verification/Branches.v ===== *)
(** * Known blocks, chains and branch quality

    How a node looks at the blocks it knows (crates/entangrid-node/src/lib.rs):
    finding a block, rebuilding the chain to a tip, the certified head and its
    children, and comparing two branches.  All are functions of the state. *)
From S2P Require Import Prelude F64 Hybrid Types Concrete Crypto Ledger Consensus.
From S2P Require Import Policy Snapshots NodeState.

Open Scope Z_scope.

Definition flags (config : NodeConfig) : FeatureFlags := feature_flags config.

(** ** Finding blocks *)

Definition known_block (s : NodeRunner) (h : HashBytes) : option Block :=
  let is_h b := block_hash b =? h in
  match find_first is_h (blocks (chain s)) with
  | Some b => Some b
  | None => match find_first is_h (pending_certified_children (chain s)) with
            | Some b => Some b
            | None => find_first is_h (orphan_blocks (chain s))
            end
  end.

(** The order in which the source chains the three block lists. *)
Definition known_blocks (s : NodeRunner) : list Block :=
  blocks (chain s) ++ pending_certified_children (chain s) ++ orphan_blocks (chain s).

(** The index [by_hash]: a later block with the same hash replaces an earlier
    one. *)
Definition by_hash (s : NodeRunner) : gmap HashBytes Block :=
  foldl (fun m b => <[block_hash b := b]> m) ∅ (known_blocks s).

(** The walk to genesis.  The visited set stops it on a cycle; every round
    visits a new block, so one round per known block is enough, and the walk
    reports running out of fuel apart ([None] of the outer option). *)
Fixpoint walk_to_genesis (fuel : nat) (index : gmap HashBytes Block) (visited : gset HashBytes)
    (current : HashBytes) (acc : list Block) : option (option (list Block)) :=
  if current =? empty_hash then Some (Some acc)
  else if bool_decide (current ∈ visited) then Some None
  else match index !! current with
       | None => Some None
       | Some b =>
           match fuel with
           | O => None
           | S fuel' =>
               walk_to_genesis fuel' index ({[current]} ∪ visited) (parent_hash (header b)) (b :: acc)
           end
       end.

(** The check on the rebuilt chain: parents link and numbers count from 1. *)
Fixpoint chain_is_linked (expected_parent : HashBytes) (expected_height : Z) (bs : list Block)
    : bool :=
  match bs with
  | [] => true
  | b :: bs' => (parent_hash (header b) =? expected_parent)
                && (block_number (header b) =? expected_height)
                && chain_is_linked (block_hash b) (wadd expected_height 1) bs'
  end.

Definition build_chain_to_tip (s : NodeRunner) (tip : HashBytes) : option (list Block) :=
  let index := by_hash s in
  match walk_to_genesis (size index) index ∅ tip [] with
  | Some (Some bs) => if chain_is_linked empty_hash 1 bs then Some bs else None
  | _ => None
  end.

Definition build_parent_chain_for_block (s : NodeRunner) (b : Block) : option (list Block) :=
  if (block_number (header b) =? 1) && (parent_hash (header b) =? empty_hash) then Some []
  else build_chain_to_tip s (parent_hash (header b)).

(** ** The certified head *)

Definition has_qc (s : NodeRunner) (h : HashBytes) : bool :=
  bool_decide (is_Some (quorum_certificates (votes s) !! h)).

Definition highest_locked_qc_hash (s : NodeRunner) : option HashBytes :=
  block_hash <$> find_first (fun b => has_qc s (block_hash b)) (reverse (blocks (chain s))).

Definition current_certified_head (s : NodeRunner) : option (HashBytes * Z) :=
  h ← highest_locked_qc_hash s;
  n ← match quorum_certificates (votes s) !! h with
      | Some qc => Some (qc_block_number qc)
      | None => (fun b => block_number (header b)) <$> known_block s h
      end;
  Some (h, n).

(** [blocks.iter().rev().find_map(|b| quorum_certificates.get(&b.block_hash))]. *)
Definition highest_local_qc (s : NodeRunner) : option QuorumCertificate :=
  head (omap (fun b => quorum_certificates (votes s) !! block_hash b) (reverse (blocks (chain s)))).

Definition local_qc_anchors (s : NodeRunner) (limit : nat) : list SyncQcAnchor :=
  take limit
    (omap (fun b => (fun qc => mkAnchor (qc_block_hash qc) (qc_block_number qc))
                      <$> quorum_certificates (votes s) !! block_hash b)
       (reverse (blocks (chain s)))).

Section branches.
Context (config : NodeConfig).

Definition certified_head_only_active (s : NodeRunner) : bool :=
  consensus_v2 (flags config) && bool_decide (is_Some (highest_locked_qc_hash s)).

Definition extends_head (head : HashBytes * Z) (b : Block) : bool :=
  (parent_hash (header b) =? head.1) && (block_number (header b) =? wadd head.2 1).

Definition is_direct_child_of_current_certified_head (s : NodeRunner) (b : Block) : bool :=
  match current_certified_head s with Some head => extends_head head b | None => false end.

Definition is_pending_certified_head_block (s : NodeRunner) (b : Block) : bool :=
  match current_certified_head s with
  | Some head => extends_head head b
                 && existsb (fun p => block_hash p =? block_hash b)
                      (pending_certified_children (chain s))
  | None => false
  end.

Definition slot_hash_cmp (left right : Block) : comparison :=
  cmp_then (bh_slot (header left) ?= bh_slot (header right)) (block_hash left ?= block_hash right).

Definition preferred_pending_child_for_certified_head (s : NodeRunner) : option Block :=
  head ← current_certified_head s;
  max_by slot_hash_cmp (filter (fun b => extends_head head b = true)
                          (pending_certified_children (chain s))).

Definition uncertified_children_of (s : NodeRunner) (head : HashBytes * Z) : list Block :=
  filter (fun b => negb (has_qc s (block_hash b)) && extends_head head b = true) (known_blocks s).

Definition best_known_uncertified_child_for_certified_head (s : NodeRunner) : option Block :=
  head ← current_certified_head s;
  max_by slot_hash_cmp (uncertified_children_of s head).

Definition known_uncertified_children_for_certified_head (s : NodeRunner) : list Block :=
  match current_certified_head s with
  | None => []
  | Some head =>
      foldl (fun unique b =>
               if existsb (fun x => block_hash x =? block_hash b) unique then unique
               else unique ++ [b])
        [] (uncertified_children_of s head)
  end.

Definition current_uncertified_child_for_certified_head (s : NodeRunner) : option Block :=
  head ← current_certified_head s;
  current_tip ← last (blocks (chain s));
  if block_hash current_tip =? head.1 then None
  else bs ← build_chain_to_tip s (block_hash current_tip);
       i ← position (fun b => block_hash b =? head.1) bs;
       bs !! S i.

(** ** Branch quality *)

Definition latest_certified_block (s : NodeRunner) (bs : list Block) : option Block :=
  find_first (fun b => has_qc s (block_hash b)) (reverse bs).
Definition latest_certified_height (s : NodeRunner) (bs : list Block) : Z :=
  from_option (fun b => block_number (header b)) 0 (latest_certified_block s bs).

(** How many votes a block has, counting one the local validator would add. *)
Definition vote_count (s : NodeRunner) (extra_tip_vote_for : option HashBytes) (b : Block) : Z :=
  let voters := proposal_votes (votes s) !! block_hash b in
  let existing := from_option (fun m : gmap ValidatorId ProposalVote => Z.of_nat (size m)) 0 voters in
  let local_voted :=
    from_option (fun m : gmap ValidatorId ProposalVote =>
                   bool_decide (is_Some (m !! node_id config))) false voters in
  let extra := bool_decide (extra_tip_vote_for = Some (block_hash b)) && negb local_voted in
  existing + if extra then 1 else 0.

Definition branch_weighted_vote_support (s : NodeRunner) (bs : list Block)
    (extra : option HashBytes) : Z :=
  foldl (fun acc b => wadd acc (saturating_mul (block_number (header b)) (vote_count s extra b)))
    0 bs.

Definition branch_quality_with_extra_tip_vote (s : NodeRunner) (bs : list Block)
    (extra : option HashBytes) : list Z :=
  let certified := latest_certified_height s bs in
  let tip := last bs in
  let tip_height := from_option (fun b => block_number (header b)) 0 tip in
  let tip_slot := from_option (fun b => bh_slot (header b)) 0 tip in
  let tip := from_option block_hash empty_hash tip in
  let tip_votes := from_option (vote_count s extra) 0 (last bs) in
  if certified =? 0 then pre_qc_tip_support_quality tip_votes tip_height tip_slot tip
  else [certified; branch_weighted_vote_support s bs extra; tip_height; tip_votes; tip_slot; tip].

Definition bool_compare (a b : bool) : comparison :=
  match a, b with true, false => Gt | false, true => Lt | _, _ => Eq end.

Definition compare_branch_quality (s : NodeRunner) (candidate current : list Block) : comparison :=
  let certified bs := latest_certified_block s bs in
  let certified_height bs := latest_certified_height s bs in
  let tip_certified bs := from_option (fun b => has_qc s (block_hash b)) false (last bs) in
  let certified_hash bs := from_option block_hash empty_hash (certified bs) in
  let quality bs := branch_quality_with_extra_tip_vote s bs None in
  cmp_then (certified_height candidate ?= certified_height current)
    (if 0 <? certified_height candidate
     then cmp_then (bool_compare (tip_certified candidate) (tip_certified current))
            (cmp_then (certified_hash candidate ?= certified_hash current)
               (lex_compare (quality candidate) (quality current)))
     else lex_compare (quality candidate) (quality current)).

(** ** How two branches relate *)

Inductive BranchRelation := SameChain | Incompatible | UnknownRelation.

Definition branch_relation (s : NodeRunner) (left right : HashBytes) : BranchRelation :=
  if left =? right then SameChain
  else match build_chain_to_tip s left, build_chain_to_tip s right with
       | Some left_chain, Some right_chain =>
           if existsb (fun b => block_hash b =? left) right_chain
              || existsb (fun b => block_hash b =? right) left_chain
           then SameChain else Incompatible
       | _, _ => UnknownRelation
       end.

Definition proposal_vote_branches_are_compatible (s : NodeRunner) (existing candidate : HashBytes)
    : bool :=
  match branch_relation s existing candidate with SameChain => true | _ => false end.

Definition vote_extends_certified_block (s : NodeRunner) (h certified : HashBytes)
    (certified_height : Z) : bool :=
  if h =? certified then true
  else match known_block s h with
       | None => true
       | Some b =>
           if block_number (header b) <? certified_height then true
           else match build_chain_to_tip s h with
                | Some bs => existsb (fun a => block_hash a =? certified) bs
                | None => false
                end
       end.
End branches.

(** ** Lemmas: finding blocks *)

Section lemmas.
Lemma by_hash_elem s h b :
  by_hash s !! h = Some b -> b ∈ known_blocks s /\ block_hash b = h.
Proof.
  unfold by_hash. generalize (known_blocks s) as l. intros l.
  enough (Hm : forall m : gmap HashBytes Block, foldl (fun m b => <[block_hash b := b]> m) m l !! h = Some b ->
    (b ∈ l /\ block_hash b = h) \/ m !! h = Some b).
  { intros Hb. apply Hm in Hb as [?|Hb]; [done|]. by rewrite lookup_empty in Hb. }
  induction l as [|c l IHl]; intros m Hb; simpl in Hb; [by right|].
  apply IHl in Hb as [[? ?]|Hb].
  - left. split; [by right|done].
  - destruct (decide (block_hash c = h)) as [<-|Hne].
    + rewrite lookup_insert_eq in Hb. simplify_eq. left. split; [by left|done].
    + rewrite lookup_insert_ne in Hb by done. by right.
Qed.

Lemma known_block_elem s h b :
  known_block s h = Some b -> b ∈ known_blocks s /\ block_hash b = h.
Proof.
  unfold known_block, known_blocks. intros Hb.
  assert (Hin : forall l, find_first (fun b => block_hash b =? h) l = Some b ->
                          b ∈ l /\ block_hash b = h).
  { intros l [? ?%Z.eqb_eq]%find_first_some. done. }
  repeat case_match; simplify_eq; destruct (Hin _ ltac:(eassumption)) as [? ?]; (split; [|done]);
    rewrite !elem_of_app; auto.
Qed.

Lemma known_block_none s h :
  known_block s h = None <-> forall b, b ∈ known_blocks s -> block_hash b <> h.
Proof.
  unfold known_block, known_blocks. split.
  - intros Hn b. repeat case_match; simplify_eq.
    rewrite !elem_of_app. intros [Hb|[Hb|Hb]];
    match goal with
    | Hl : find_first _ ?l = None, Hb : b ∈ ?l |- _ =>
        rewrite find_first_none in Hl; by apply Z.eqb_neq, Hl
    end.
  - intros Hn. assert (Hl : forall l, (forall b, b ∈ l -> b ∈ known_blocks s) ->
      find_first (fun b => block_hash b =? h) l = None).
    { intros l Hl. apply find_first_none. intros b Hb. apply Z.eqb_neq, Hn, Hl, Hb. }
    rewrite !Hl; [done|..]; intros b Hb; unfold known_blocks; rewrite !elem_of_app; auto.
Qed.

(** What the walk returns when it succeeds: known blocks, down from the one
    at [current], in front of the accumulator. *)
Lemma walk_sound fuel index visited current acc out :
  walk_to_genesis fuel index visited current acc = Some (Some out) ->
  exists bs, out = bs ++ acc /\ Forall (fun b => exists h, index !! h = Some b) bs /\
    (forall b, last bs = Some b -> index !! current = Some b) /\
    (bs = [] -> current = empty_hash).
Proof.
  revert visited current acc. induction fuel as [|fuel IH]; intros visited current acc; simpl.
  - destruct (Z.eqb_spec current empty_hash); [|repeat case_match; done].
    intros [= <-]. exists []. naive_solver.
  - destruct (Z.eqb_spec current empty_hash).
    { intros [= <-]. exists []. naive_solver. }
    case_bool_decide; [done|]. destruct (index !! current) as [b|] eqn:Eb; [|done].
    intros (bs & -> & Hf & Hl & He)%IH. exists (bs ++ [b]). split_and!.
    + by rewrite <- app_assoc.
    + apply Forall_app. split; [done|]. constructor; [by eauto|constructor].
    + intros x. rewrite last_snoc. congruence.
    + by destruct bs.
Qed.

Lemma chain_is_linked_snoc p n bs b :
  chain_is_linked p n (bs ++ [b]) = true ->
  chain_is_linked p n bs = true /\
  parent_hash (header b) = from_option block_hash p (last bs).
Proof.
  revert p n. induction bs as [|c bs IH]; intros p n; simpl; intros Hb; bool_to_prop; [done|].
  destruct (IH _ _ ltac:(eassumption)) as [Hl Hp]. rewrite Hp.
  change (list.last (c :: bs)) with (last (c :: bs)). rewrite last_cons.
  split; [by repeat (apply andb_true_iff; split); try apply Z.eqb_eq | by destruct (last bs)].
Qed.

(** The walk finds a linked chain of known blocks. *)
Lemma walk_complete fuel index visited bs acc :
  chain_is_linked empty_hash 1 bs = true ->
  Forall (fun b => index !! block_hash b = Some b /\ block_hash b <> empty_hash) bs ->
  NoDup (block_hash <$> bs) -> Forall (fun b => block_hash b ∉ visited) bs ->
  (length bs <= fuel)%nat ->
  walk_to_genesis fuel index visited (tip_of bs) acc = Some (Some (bs ++ acc)).
Proof.
  revert fuel visited acc. induction bs as [|b bs IH] using rev_ind; intros fuel visited acc.
  { intros. by destruct fuel. }
  intros (Hl & Hp)%chain_is_linked_snoc [Hf (Hb & Hne)%Forall_singleton]%Forall_app Hnd
    [Hv Hbv]%Forall_app Hfuel. rewrite Forall_singleton in Hbv.
  rewrite length_app in Hfuel. simpl in Hfuel. destruct fuel as [|fuel]; [lia|].
  unfold tip_of. rewrite last_snoc. simpl. rewrite (proj2 (Z.eqb_neq _ _) Hne).
  rewrite bool_decide_false by done. rewrite Hb, Hp. fold (tip_of bs).
  rewrite <- app_assoc. apply IH; [done..| | |lia].
  - rewrite fmap_app in Hnd. apply NoDup_app in Hnd as (? & _). done.
  - rewrite fmap_app in Hnd. apply NoDup_app in Hnd as (_ & Hd & _).
    rewrite Forall_forall in Hv |- *. intros x Hx.
    apply not_elem_of_union. split; [|by apply Hv]. rewrite not_elem_of_singleton. intros E.
    apply (Hd (block_hash x)); [by apply list_elem_of_fmap_2|]. rewrite E. simpl. by left.
Qed.

(** Every round of the walk marks a new known hash, so it ends within one
    round per known block. *)
Lemma walk_terminates fuel index visited current acc :
  visited ⊆ dom index -> (size (dom index) <= fuel + size visited)%nat ->
  walk_to_genesis fuel index visited current acc <> None.
Proof.
  revert visited current acc. induction fuel as [|fuel IH]; intros visited current acc Hsub Hsz; simpl.
  - destruct (Z.eqb_spec current empty_hash); [done|]. case_bool_decide as Hv; [done|].
    destruct (index !! current) as [b|] eqn:Eb; [|done]. exfalso. apply Hv.
    assert (visited = dom index) as ->; [|by eapply elem_of_dom_2].
    apply leibniz_equiv, set_subseteq_size_equiv; [done | lia].
  - destruct (Z.eqb_spec current empty_hash); [done|]. case_bool_decide as Hv; [done|].
    destruct (index !! current) as [b|] eqn:Eb; [|done].
    apply IH.
    + apply union_subseteq. split; [|done]. apply singleton_subseteq_l. by eapply elem_of_dom_2.
    + rewrite size_union, size_singleton by set_solver. lia.
Qed.

(** The walk of [build_chain_to_tip] always has enough fuel. *)
Lemma build_walk_total s tip :
  walk_to_genesis (size (by_hash s)) (by_hash s) ∅ tip [] <> None.
Proof. apply walk_terminates; [set_solver|]. rewrite size_dom, size_empty. lia. Qed.

Lemma build_chain_to_tip_ok s tip bs :
  build_chain_to_tip s tip = Some bs ->
  chain_is_linked empty_hash 1 bs = true /\ bs ⊆ known_blocks s /\ tip_of bs = tip.
Proof.
  unfold build_chain_to_tip. destruct (walk_to_genesis _ _ _ _ _) as [[out|]|] eqn:Ew; [|done..].
  destruct (chain_is_linked _ _ _) eqn:El; [|done]. intros [= ->].
  apply walk_sound in Ew as (bs' & -> & Hf & Hl & He). rewrite app_nil_r in *.
  split_and!; [done| |].
  - intros b Hb. rewrite Forall_forall in Hf. destruct (Hf b Hb) as [h Hh].
    by apply by_hash_elem in Hh as [? _].
  - unfold tip_of. destruct (last bs') as [b|] eqn:E; simpl.
    + specialize (Hl b eq_refl). by apply by_hash_elem in Hl as [_ ?].
    + apply last_None in E. by rewrite He.
Qed.

(** Every chain of distinct known blocks is found. *)
Lemma build_chain_to_tip_complete s bs :
  chain_is_linked empty_hash 1 bs = true ->
  Forall (fun b => by_hash s !! block_hash b = Some b /\ block_hash b <> empty_hash) bs ->
  NoDup (block_hash <$> bs) -> build_chain_to_tip s (tip_of bs) = Some bs.
Proof.
  intros Hl Hf Hnd. unfold build_chain_to_tip.
  rewrite walk_complete; [by rewrite app_nil_r, Hl|done..| |].
  - apply Forall_forall. intros x _. apply not_elem_of_empty.
  - rewrite <- (length_fmap block_hash bs), <- size_dom.
    rewrite <- (size_list_to_set (C:=gset HashBytes)) by done. apply subseteq_size.
    intros h (b & -> & Hb)%elem_of_list_to_set%list_elem_of_fmap.
    rewrite Forall_forall in Hf. destruct (Hf b Hb) as [Hi _]. by eapply elem_of_dom_2.
Qed.

Lemma by_hash_lookup s b :
  NoDup (block_hash <$> known_blocks s) -> b ∈ known_blocks s -> by_hash s !! block_hash b = Some b.
Proof.
  unfold by_hash. generalize (known_blocks s) as l. intros l. induction l as [|c l IH] using rev_ind.
  { intros _ Hb. by apply elem_of_nil in Hb. }
  rewrite fmap_app. intros (Hnd & Hd & _)%NoDup_app [Hb|Hb%list_elem_of_singleton]%elem_of_app;
    rewrite foldl_snoc; [|subst; by rewrite lookup_insert_eq].
  rewrite lookup_insert_ne; [by apply IH|]. intros E.
  apply (Hd (block_hash b)); [by apply list_elem_of_fmap_2|]. rewrite <- E. by left.
Qed.
End lemmas.

(** ** Properties *)

Section properties.
Context (config : NodeConfig).

(** C25: Rebuilding the chain to a tip always ends (cycles and forged parents
    included), and what it returns is a chain of known blocks from genesis
    to that tip, linked and numbered from one; conversely every such chain
    of distinct known blocks is found. *)
Theorem build_chain_to_tip_exact s tip :
  walk_to_genesis (size (by_hash s)) (by_hash s) ∅ tip [] <> None /\
  (forall bs, build_chain_to_tip s tip = Some bs ->
     chain_is_linked empty_hash 1 bs = true /\ bs ⊆ known_blocks s /\ tip_of bs = tip) /\
  (forall bs, chain_is_linked empty_hash 1 bs = true ->
     Forall (fun b => by_hash s !! block_hash b = Some b /\ block_hash b <> empty_hash) bs ->
     NoDup (block_hash <$> bs) -> tip_of bs = tip -> build_chain_to_tip s tip = Some bs).
Proof.
  split_and!; [apply build_walk_total | apply build_chain_to_tip_ok |].
  intros bs Hl Hf Hnd <-. by apply build_chain_to_tip_complete.
Qed.

(** The tuple a branch is judged by. *)
Definition branch_key (s : NodeRunner) (bs : list Block) : list Z :=
  let certified := latest_certified_height s bs in
  let tip_certified := from_option (fun b => has_qc s (block_hash b)) false (last bs) in
  certified ::
  (if 0 <? certified
   then [if tip_certified then 1 else 0;
         from_option block_hash empty_hash (latest_certified_block s bs)]
   else [0; 0])
  ++ branch_quality_with_extra_tip_vote config s bs None.

Lemma compare_branch_quality_key s a b :
  compare_branch_quality config s a b = lex_compare (branch_key s a) (branch_key s b).
Proof.
  unfold compare_branch_quality, branch_key. cbn [lex_compare app].
  destruct (Z.compare_spec (latest_certified_height s a) (latest_certified_height s b)) as [E| |];
    [|done..]. simpl. rewrite <- E.
  destruct (0 <? latest_certified_height s a); [|done]. simpl.
  destruct (from_option _ false (last a)), (from_option _ false (last b)); simpl; try done; by destruct (_ ?= _).
Qed.

Lemma branch_quality_last s bs :
  last (branch_quality_with_extra_tip_vote config s bs None) = Some (tip_of bs).
Proof.
  unfold branch_quality_with_extra_tip_vote, pre_qc_tip_support_quality, tip_of.
  by destruct (_ =? 0).
Qed.

(** Branch quality is a total order on tips: comparing the other way
    round gives the opposite answer, preference is transitive, only branches
    with the same tip tie, and a branch with a higher certified block beats
    any other, however many votes the other has. *)
Lemma branch_quality_total_order s a b c :
  compare_branch_quality config s b a = CompOpp (compare_branch_quality config s a b) /\
  (compare_branch_quality config s a b = Gt -> compare_branch_quality config s b c = Gt ->
   compare_branch_quality config s a c = Gt) /\
  (compare_branch_quality config s a b = Eq -> tip_of a = tip_of b) /\
  (latest_certified_height s b < latest_certified_height s a ->
   compare_branch_quality config s a b = Gt).
Proof.
  rewrite !compare_branch_quality_key. split_and!.
  - apply lex_compare_antisym.
  - rewrite !lex_compare_flip. eauto using lex_compare_lt_trans.
  - intros Hk%lex_compare_eq. apply (f_equal last) in Hk. revert Hk. unfold branch_key.
    destruct (0 <? _), (0 <? _); simpl app; rewrite !last_cons, !branch_quality_last; congruence.
  - intros Hlt. unfold branch_key; simpl. by apply Z.compare_gt_iff in Hlt as ->.
Qed.
End properties.
