(* ===== verification/Receipts.v ===== *)
(** * Receipts, the mempool and their memories

    Receiving and issuing relay receipts, admitting transactions
    (crates/entangrid-node/src/lib.rs), with the signature policies of hybrid
    enforcement and the duplicate filters. *)
From S2P Require Import Prelude F64 Hybrid Types Concrete Crypto Ledger Consensus.
From S2P Require Import Policy Snapshots NodeState Branches.

Open Scope Z_scope.

Section receipts.
Context `{Hashing} `{CryptoBackend}.
Context (config : NodeConfig) (e : ConsensusEngine).

(** ** Hybrid enforcement *)

Definition hybrid_policy (s : TypedSignature) (message : string) : result unit :=
  if negb (require_hybrid_validator_signatures (flags config)) then Ok tt
  else ensure (bool_decide (c_scheme s = SigHybrid)) message.

(** The genesis check of [run_node]. *)
Definition validate_hybrid_enforcement_genesis (g : GenesisConfig) : result unit :=
  if negb (require_hybrid_validator_signatures (flags config)) then Ok tt
  else ensure (forallb (fun v => bool_decide (c_scheme (public_identity v) = PkHybrid)) (validators g))
         "hybrid enforcement requires validators to advertise a hybrid public identity".

Definition validate_hybrid_block_policy (b : Block) : result unit :=
  hybrid_policy (block_signature b) "hybrid enforcement requires block proposer to sign with a hybrid signature".
Definition validate_hybrid_transaction_policy (t : SignedTransaction) : result unit :=
  hybrid_policy (stx_signature t) "hybrid enforcement requires transaction to use a hybrid signature".
Definition validate_hybrid_receipt_policy (r : RelayReceipt) : result unit :=
  hybrid_policy (rr_signature r) "hybrid enforcement requires relay receipt to use a hybrid signature".
Definition validate_hybrid_service_attestation_policy (a : ServiceAttestation) : result unit :=
  hybrid_policy (sa_signature a) "hybrid enforcement requires service attestation to use a hybrid signature".
Definition validate_hybrid_proposal_vote_policy (v : ProposalVote) : result unit :=
  hybrid_policy (pv_signature v) "hybrid enforcement requires proposal vote to use a hybrid signature".

(** ** Receipts *)

Definition record_invalid_receipt (epoch : Epoch) (id : ValidatorId) (v : ServiceState)
    : ServiceState :=
  mkService (service_attestations v) (service_aggregates v) (seen_service_attestations v)
    (seen_service_aggregates v) (latest_service_scores v) (latest_service_counters v)
    (failed_sessions_total v) (wadd (invalid_receipts_total v) 1)
    (observed_failed_sessions v) (observed_successful_sessions v)
    (<[(epoch, id) := wadd (default 0 (observed_invalid_receipts v !! (epoch, id))) 1]>
       (observed_invalid_receipts v))
    (known_live_peers v).

(** Count the failure against the witness, then return it. *)
Definition reject_receipt {A} (r : RelayReceipt) (error : string) : M A :=
  _ ← modify (with_service (record_invalid_receipt (rr_epoch r) (rr_witness r)));
  fail error.

Definition validate_receipt (r : RelayReceipt) : M unit :=
  seen ← gets (fun s => seen_receipts (pool s));
  if bool_decide (canonical_hash (CReceipt r) ∈ seen) then mret tt
  else
    match validate_hybrid_receipt_policy r with
    | Err error => reject_receipt r error
    | Ok _ =>
        verified ← lift (verify (rr_witness r) (hash_to_bytes (receipt_signing_hash r))
                           (rr_signature r));
        if negb verified then reject_receipt r "invalid receipt signature"
        else match validate_receipt_assignment e r with
             | Err error => reject_receipt r error
             | Ok _ => mret tt
             end
    end.

Definition add_receipt (r : RelayReceipt) (p : PoolState) : PoolState :=
  mkPool (mempool p) (seen_transactions p) (seen_blocks p) (receipts p ++ [r])
    ({[canonical_hash (CReceipt r)]} ∪ seen_receipts p)
    ({[receipt_event_hash r]} ∪ seen_receipt_events p).

Definition persist_receipt (r : RelayReceipt) : M bool :=
  p ← gets pool;
  if bool_decide (canonical_hash (CReceipt r) ∈ seen_receipts p) then mret false
  else if bool_decide (receipt_event_hash r ∈ seen_receipt_events p)
  then _ ← bump DuplicateReceiptsIgnored 1; mret false
  else
    _ ← modify (with_pool (add_receipt r));
    _ ← modify (with_storage (set_receipts_file (fun l => l ++ [r])));
    _ ← bump ReceiptsCreated (if rr_witness r =? node_id config then 1 else 0);
    _ ← bump ReceiptsVerified 1;
    _ ← log_event "receipt-accepted";
    mret true.

Definition store_receipt (r : RelayReceipt) : M bool :=
  checked ← try (validate_receipt r);
  match checked with
  | Err _ => _ ← log_event "invalid-receipt"; mret false
  | Ok _ => persist_receipt r
  end.

Definition import_commitment_receipts (rs : list RelayReceipt) : M unit :=
  for_each rs (fun r => _ ← persist_receipt r; mret tt).

Definition maybe_issue_receipt (source destination : ValidatorId) (class : MessageClass)
    (slot : Slot) (transcript byte_hash : HashBytes) (sequence : Z) : M unit :=
  if negb (enable_receipts (flags config)) then mret tt
  else if source =? node_id config then mret tt
  else
    let epoch := epoch_for_slot e slot in
    if negb (is_witness_for e (node_id config) source epoch) then mret tt
    else if negb (is_relay_target_for e source destination epoch) then mret tt
    else
      let unsigned := mkReceipt epoch slot source destination (node_id config) class transcript
        (Z.min (slot_duration_millis (genesis e)) 1000) (hash_byte byte_hash 0) sequence
        TypedSig.default in
      signature ← lift (sign (node_id config) (hash_to_bytes (receipt_signing_hash unsigned)));
      let r := mkReceipt epoch slot source destination (node_id config) class transcript
        (Z.min (slot_duration_millis (genesis e)) 1000) (hash_byte byte_hash 0) sequence
        signature in
      _ ← lift (validate_hybrid_receipt_policy r);
      stored ← store_receipt r;
      if stored : bool then broadcast (peers config) (MsgRelayReceipt r) else mret tt.

(** ** Transactions *)

(** The pending transactions of the sender, in nonce order, applied on top of
    the ledger as far as they go. *)
Definition validate_tx_against_mempool (s : NodeRunner) (t : SignedTransaction) : result unit :=
  let pending :=
    sort_by (fun a b => tx_nonce (stx_transaction a) ?= tx_nonce (stx_transaction b))
      (filter (fun p => tx_from (stx_transaction p) = tx_from (stx_transaction t))
         (bt_values (mempool (pool s)))) in
  let state :=
    foldl (fun st p =>
             match validate_hybrid_transaction_policy p ≫= fun _ => validate_tx st p with
             | Ok _ => match apply_transaction st p with Ok st' => st' | Err _ => st end
             | Err _ => st
             end)
      (ledger (chain s)) pending in
  _ ← validate_hybrid_transaction_policy t;
  validate_tx state t.

Definition add_transaction (t : SignedTransaction) (p : PoolState) : PoolState :=
  mkPool (<[stx_hash t := t]> (mempool p)) ({[stx_hash t]} ∪ seen_transactions p)
    (seen_blocks p) (receipts p) (seen_receipts p) (seen_receipt_events p).

(** [self.last_processed_slot.unwrap_or_else(|| consensus.current_slot())]. *)
Definition processed_or_current_slot : M Slot :=
  s ← get;
  match last_processed_slot (slots s) with
  | Some slot => mret slot
  | None => or_panic (slot_at e (clock s))
  end.

Definition handle_transaction (t : SignedTransaction) (from : ValidatorId) (local_ingress : bool)
    : M unit :=
  seen ← gets (fun s => seen_transactions (pool s));
  if bool_decide (stx_hash t ∈ seen) then mret tt
  else
    s ← get;
    _ ← lift (validate_tx_against_mempool s t);
    _ ← modify (with_pool (add_transaction t));
    _ ← bump TxIngress 1;
    _ ← bump TxPropagated 1;
    _ ← log_event "tx-accepted";
    slot ← processed_or_current_slot;
    _ ← maybe_issue_receipt from (node_id config) TransactionClass slot (stx_hash t) (stx_hash t)
          (tx_nonce (stx_transaction t));
    if local_ingress || negb (from =? node_id config)
    then broadcast (peers config) (MsgTransactionBroadcast t)
    else mret tt.

Definition select_transactions_for_block (s : NodeRunner) : list SignedTransaction :=
  take (Z.to_nat (max_txs_per_block (genesis e))) (bt_values (mempool (pool s))).

(** [rebuild_seen_sets]. *)
Definition rebuild_seen_pool (bs : list Block) (p : PoolState) : PoolState :=
  mkPool (mempool p)
    (list_to_set (concat ((fun b => stx_hash <$> transactions b) <$> bs)) ∪ seen_transactions p)
    (list_to_set (block_hash <$> bs))
    (receipts p)
    (list_to_set ((fun r => canonical_hash (CReceipt r)) <$> receipts p))
    (list_to_set (receipt_event_hash <$> receipts p)).

Definition rebuild_seen_service (v : ServiceState) : ServiceState :=
  mkService (service_attestations v) (service_aggregates v)
    (list_to_set (service_attestation_signing_hash <$>
       concat ((fun m : gmap ValidatorId ServiceAttestation => (map_to_list m).*2)
                 <$> (map_to_list (service_attestations v)).*2)))
    (list_to_set ((fun a => canonical_hash (CAggregate a))
       <$> (map_to_list (service_aggregates v)).*2))
    (latest_service_scores v) (latest_service_counters v)
    (failed_sessions_total v) (invalid_receipts_total v)
    (observed_failed_sessions v) (observed_successful_sessions v)
    (observed_invalid_receipts v) (known_live_peers v).

Definition rebuild_seen_sets : M unit :=
  _ ← modify (fun s => with_pool (rebuild_seen_pool (blocks (chain s))) s);
  modify (with_service rebuild_seen_service).
End receipts.
