(* ===== verification/SyncServe.v ===== *)
(** * Serving and requesting synchronisation

    What a node tells its peers of its chain, what it remembers of theirs, and
    the requests, pushes and status messages it queues
    (crates/entangrid-node/src/lib.rs).  Nothing here touches the chain. *)
From S2P Require Import Prelude F64 Hybrid Types Concrete Crypto Ledger Consensus.
From S2P Require Import Policy Snapshots NodeState Branches.

Open Scope Z_scope.

(** ** The view a node exports of itself *)

Definition local_sync_view (s : NodeRunner) : LocalSyncView :=
  let snap := ledger (chain s) in
  let qc := highest_local_qc s in
  let raw := mkView (height snap) (tip_hash snap) (last_slot snap)
               (qc_block_hash <$> qc) (from_option qc_block_number 0 qc) in
  if negb (startup_sync_barrier (slots s)) then raw
  else match qc with
       | None => raw
       | Some qc =>
           if lv_height raw <=? qc_block_number qc then raw
           else mkView (qc_block_number qc) (qc_block_hash qc) (qc_slot qc)
                  (Some (qc_block_hash qc)) (qc_block_number qc)
       end.

Definition sync_export_prefix_len (s : NodeRunner) : nat :=
  Z.to_nat (Z.min (lv_height (local_sync_view s)) (Z.of_nat (length (blocks (chain s))))).

Definition infer_tip_last_slot (s : NodeRunner) (h : Z) (tip : HashBytes) : Z :=
  if (h =? 0) || (tip =? empty_hash) then 0
  else match known_block s tip with
       | Some b => bh_slot (header b)
       | None => from_option qc_slot 0 (quorum_certificates (votes s) !! tip)
       end.

(** ** What is remembered of the peers *)

Definition record_status (id : ValidatorId) (h : Z) (tip : HashBytes) (tip_last_slot : Z)
    (qc_hash : option HashBytes) (qc_height : Z) (anchors : list SyncQcAnchor)
    (m : gmap ValidatorId PeerSyncStatus) : gmap ValidatorId PeerSyncStatus :=
  if negb (should_record_peer_sync_status h tip) then m
  else
    let existing := m !! id in
    let restart_frontier_update :=
      match existing with
      | Some st => (h <? ps_height st) && (0 <? qc_height) && (qc_height =? h)
                   && bool_decide (qc_hash = Some tip)
      | None => false
      end in
    if restart_frontier_update then
      let anchors := match anchors with [] => [mkAnchor tip h] | _ => anchors end in
      <[id := mkStatus h tip tip_last_slot qc_hash qc_height anchors]> m
    else
      let '(h', tip', slot') :=
        match existing with
        | Some st =>
            if lex_ltb (sync_view_preference h tip_last_slot tip) (peer_sync_status_preference st)
            then (ps_height st, ps_tip_hash st, ps_tip_last_slot st)
            else (h, tip, tip_last_slot)
        | None => (h, tip, tip_last_slot)
        end in
      let '(qh, qn) :=
        match existing with
        | Some st => if qc_height <? ps_highest_qc_height st
                     then (ps_highest_qc_hash st, ps_highest_qc_height st)
                     else (qc_hash, qc_height)
        | None => (qc_hash, qc_height)
        end in
      let merged := merge_sync_qc_anchors (from_option recent_qc_anchors [] existing) anchors
                      CERTIFIED_SYNC_ANCHOR_LIMIT in
      <[id := mkStatus h' tip' slot' qh qn merged]> m.

Definition record_peer_sync_status_with_slot (id : ValidatorId) (h : Z) (tip : HashBytes)
    (tip_last_slot : Z) (qc_hash : option HashBytes) (qc_height : Z)
    (anchors : list SyncQcAnchor) : M unit :=
  modify (with_sync (set_peer_sync_status
            (record_status id h tip tip_last_slot qc_hash qc_height anchors))).

Definition record_peer_sync_status (id : ValidatorId) (h : Z) (tip : HashBytes)
    (qc_hash : option HashBytes) (qc_height : Z) (anchors : list SyncQcAnchor) : M unit :=
  s ← get;
  record_peer_sync_status_with_slot id h tip (infer_tip_last_slot s h tip) qc_hash qc_height anchors.

Definition record_sync_repair_failure (id : ValidatorId) : M unit :=
  modify (with_sync (set_repair_failures (fun m => <[id := wadd (default 0 (m !! id)) 1]> m))).
Definition clear_sync_repair_memory (id : ValidatorId) : M unit :=
  modify (with_sync (set_repair_failures (delete id))).

Definition allow_peer_message (id : ValidatorId) (c : PeerMessageClass) (now : Z) : M bool :=
  w ← gets (fun s => default default_window (peer_message_windows (sync s) !! id));
  let '(ok, w') := allow_peer_message_in_window w c now in
  _ ← modify (with_sync (set_windows (<[id := w']>)));
  mret ok.

Section serve.
Context `{Hashing} `{CryptoBackend}.
Context (config : NodeConfig) (e : ConsensusEngine).

Definition find_peer (id : ValidatorId) : result PeerConfig :=
  ok_or (find_first (fun p => peer_id p =? id) (peers config)) "unknown peer".

(** [replay] of the exported prefix; its failure is the caller's. *)
Definition sync_export_snapshot (s : NodeRunner) : result StateSnapshot :=
  let prefix_len := sync_export_prefix_len s in
  if (prefix_len =? length (blocks (chain s)))%nat then Ok (ledger (chain s))
  else replay_blocks (genesis e) (take prefix_len (blocks (chain s))).

(** ** Comparing with a peer *)

Definition peer_status_is_ahead (s : NodeRunner) (id : ValidatorId) : bool :=
  match peer_sync_status (sync s) !! id with
  | None => false
  | Some st =>
      let v := local_sync_view s in
      (lv_highest_qc_height v <? ps_highest_qc_height st)
      || ((ps_highest_qc_height st =? lv_highest_qc_height v)
          && negb (bool_decide (ps_highest_qc_hash st = lv_highest_qc_hash v)))
      || ((0 <? lv_highest_qc_height v)
          && (ps_highest_qc_height st =? lv_highest_qc_height v)
          && bool_decide (ps_highest_qc_hash st = lv_highest_qc_hash v)
          && (ps_height st =? lv_height v)
          && negb (ps_tip_hash st =? lv_tip_hash v)
          && (ps_tip_last_slot st =? 0))
      || lex_ltb (local_sync_view_preference v) (peer_sync_status_preference st)
  end.

Definition peer_shares_local_certified_frontier_with_divergent_suffix (s : NodeRunner)
    (id : ValidatorId) : bool :=
  match peer_sync_status (sync s) !! id, highest_local_qc s with
  | Some st, Some qc =>
      let v := local_sync_view s in
      (qc_block_number qc <? lv_height v)
      && (ps_highest_qc_height st =? lv_highest_qc_height v)
      && bool_decide (ps_highest_qc_hash st = lv_highest_qc_hash v)
      && bool_decide (ps_highest_qc_hash st = Some (qc_block_hash qc))
      && lex_ltb (local_sync_view_preference v) (peer_sync_status_preference st)
  | _, _ => false
  end.

Definition recovery_sync_only_active (s : NodeRunner) : bool :=
  startup_sync_barrier (slots s)
  && existsb (fun p => peer_status_is_ahead s (peer_id p)) (peers config).

Inductive V2SyncMode := CertifiedMode | LegacyMode.

Definition preferred_v2_sync_mode_for_peer (s : NodeRunner) (id : ValidatorId) : V2SyncMode :=
  match peer_sync_status (sync s) !! id with
  | None => if bool_decide (highest_local_qc s = None) then LegacyMode else CertifiedMode
  | Some st =>
      let v := local_sync_view s in
      let distinct_or_higher :=
        (lv_highest_qc_height v <? ps_highest_qc_height st)
        || ((ps_highest_qc_height st =? lv_highest_qc_height v)
            && negb (bool_decide (ps_highest_qc_hash st = lv_highest_qc_hash v))) in
      let peer_preferred :=
        lex_ltb (local_sync_view_preference v) (peer_sync_status_preference st) in
      if (0 <? default 0 (peer_sync_repair_failures (sync s) !! id))
         && (distinct_or_higher || peer_shares_local_certified_frontier_with_divergent_suffix s id)
      then CertifiedMode
      else if (ps_highest_qc_height st =? 0) && (lv_highest_qc_height v =? 0) then LegacyMode
      else if lv_highest_qc_height v <? ps_highest_qc_height st then CertifiedMode
      else if (ps_highest_qc_height st =? lv_highest_qc_height v)
              && bool_decide (ps_highest_qc_hash st = lv_highest_qc_hash v) && peer_preferred
           then LegacyMode
      else if (ps_highest_qc_height st =? lv_highest_qc_height v)
              && negb (bool_decide (ps_highest_qc_hash st = lv_highest_qc_hash v))
           then CertifiedMode
      else if peer_preferred then LegacyMode
      else if 0 <? lv_highest_qc_height v then CertifiedMode else LegacyMode
  end.

(** ** Requests *)

Definition should_force_full_snapshot_for_peer (s : NodeRunner) (id : ValidatorId) : bool :=
  sync_repair_should_force_full_snapshot (default 0 (peer_sync_repair_failures (sync s) !! id)).

Definition sync_request_hint_for_peer (s : NodeRunner) (id : ValidatorId) : Z * HashBytes :=
  let force := should_force_full_snapshot_for_peer s id
               && negb (peer_shares_local_certified_frontier_with_divergent_suffix s id) in
  let v := local_sync_view s in
  let from_view := sync_request_known_state (lv_height v) (lv_tip_hash v) force in
  if consensus_v2 (flags config) && negb force && negb (startup_sync_barrier (slots s))
     && peer_status_is_ahead s id
  then match highest_local_qc s with
       | Some qc => if qc_block_number qc <? height (ledger (chain s))
                    then sync_request_known_state (qc_block_number qc) (qc_block_hash qc) false
                    else from_view
       | None => from_view
       end
  else from_view.

Definition request_legacy_sync_from (id : ValidatorId) : M unit :=
  s ← get;
  let '(known_height, known_tip) := sync_request_hint_for_peer s id in
  peer ← lift (find_peer id);
  send_control_to peer (MsgSyncRequest (node_id config) known_height known_tip).

Definition request_followup_legacy_sync_from (id : ValidatorId) : M unit :=
  v ← gets local_sync_view;
  peer ← lift (find_peer id);
  send_control_to peer (MsgSyncRequest (node_id config) (lv_height v) (lv_tip_hash v)).

Definition request_certified_sync_from (id : ValidatorId) : M unit :=
  peer ← lift (find_peer id);
  s ← get;
  let qc := highest_local_qc s in
  send_control_to peer (MsgCertifiedSyncRequest
    (mkChunkedRequest (node_id config) (qc_block_hash <$> qc) (from_option qc_block_number 0 qc)
       (local_qc_anchors s CERTIFIED_SYNC_ANCHOR_LIMIT) (height (ledger (chain s))) true)).

Definition request_sync_from (id : ValidatorId) : M unit :=
  if consensus_v2 (flags config) then
    mode ← gets (fun s => preferred_v2_sync_mode_for_peer s id);
    match mode with
    | CertifiedMode => request_certified_sync_from id
    | LegacyMode => request_legacy_sync_from id
    end
  else request_legacy_sync_from id.

(** The order of candidates: certified height, then preference, then id, all
    descending for the first two. *)
Definition candidate_cmp (l r : ValidatorId * PeerSyncStatus) : comparison :=
  cmp_then (ps_highest_qc_height r.2 ?= ps_highest_qc_height l.2)
    (cmp_then (lex_compare (peer_sync_status_preference r.2) (peer_sync_status_preference l.2))
       (r.1 ?= l.1)).

Definition ahead_candidates (s : NodeRunner) (excluded : option ValidatorId)
    : list (ValidatorId * PeerSyncStatus) :=
  sort_by candidate_cmp
    (omap (fun p =>
             if bool_decide (excluded = Some (peer_id p)) then None
             else st ← peer_sync_status (sync s) !! peer_id p;
                  if peer_status_is_ahead s (peer_id p) then Some (peer_id p, st) else None)
       (peers config)).

Definition best_available_ahead_peer (s : NodeRunner) : option ValidatorId :=
  fst <$> head (ahead_candidates s None).

Definition request_best_available_sync_from_ahead_peers_excluding (excluded : option ValidatorId)
    : M bool :=
  candidates ← gets (fun s => ahead_candidates s excluded);
  match candidates with
  | [] => mret false
  | (id, _) :: _ => _ ← request_sync_from id; mret true
  end.

Definition request_best_available_sync_from_ahead_peers : M bool :=
  request_best_available_sync_from_ahead_peers_excluding None.

Definition broadcast_sync_request : M unit :=
  barrier ← gets (fun s => startup_sync_barrier (slots s));
  requested ← (if barrier : bool then request_best_available_sync_from_ahead_peers else mret false);
  if requested : bool then mret tt
  else v ← gets local_sync_view;
       broadcast_control (peers config)
         (MsgSyncRequest (node_id config) (lv_height v) (lv_tip_hash v)).

Definition broadcast_sync_status : M unit :=
  s ← get;
  let v := local_sync_view s in
  broadcast_control (peers config)
    (MsgSyncStatus (node_id config) (lv_height v) (lv_tip_hash v) (lv_tip_last_slot v)
       (lv_highest_qc_hash v) (lv_highest_qc_height v)
       (local_qc_anchors s CERTIFIED_SYNC_ANCHOR_LIMIT)).

(** ** Serving: shared certified anchors and exports *)

Definition highest_shared_qc_anchor (s : NodeRunner) (anchors : list SyncQcAnchor)
    : option SyncQcAnchor :=
  find_first (fun a => existsb (fun b => block_hash b =? an_hash a) (blocks (chain s))
                       && has_qc s (an_hash a))
    (sort_by anchor_cmp anchors).

Definition anchors_or_highest (anchors : list SyncQcAnchor) (qc_hash : option HashBytes)
    (qc_height : Z) : list SyncQcAnchor :=
  match anchors with
  | [] => match qc_hash with
          | Some h => if 0 <? qc_height then [mkAnchor h qc_height] else []
          | None => []
          end
  | _ => anchors
  end.

Definition shared_qc_anchor_for_peer (s : NodeRunner) (id : ValidatorId) : option SyncQcAnchor :=
  st ← peer_sync_status (sync s) !! id;
  match anchors_or_highest (recent_qc_anchors st) (ps_highest_qc_hash st)
          (ps_highest_qc_height st) with
  | [] => None
  | anchors => highest_shared_qc_anchor s anchors
  end.

(** The certified run of blocks that follows a block of the chain. *)
Fixpoint certified_run (qcs : gmap HashBytes QuorumCertificate) (bs : list Block)
    : list (Block * QuorumCertificate) :=
  match bs with
  | [] => []
  | b :: bs' => match qcs !! block_hash b with
                | Some qc => (b, qc) :: certified_run qcs bs'
                | None => []
                end
  end.

Definition certified_suffix_from_shared_qc (s : NodeRunner) (h : HashBytes)
    : option (list Block * list QuorumCertificate * list ServiceAggregate) :=
  i ← position (fun b => block_hash b =? h) (blocks (chain s));
  let run := certified_run (quorum_certificates (votes s)) (drop (S i) (blocks (chain s))) in
  match run with
  | [] => None
  | _ =>
      let first_epoch := from_option (fun b => bh_epoch (header b)) 0 (head run.*1) in
      let last_epoch := from_option (fun b => bh_epoch (header b)) 0 (last run.*1) in
      let earliest := saturating_sub first_epoch (service_score_window_epochs (flags config)) in
      let entries := sort_by (fun x y => lex_compare [x.1.1; x.1.2] [y.1.1; y.1.2])
                       (map_to_list (service_aggregates (service s))) in
      Some (run.*1, run.*2,
            filter (fun a => earliest <= ag_epoch a /\ ag_epoch a <= last_epoch) entries.*2)
  end.

Definition build_certified_sync_response_for_peer (s : NodeRunner) (anchors : list SyncQcAnchor)
    : ChunkedSyncResponse :=
  let unavailable := Unavailable (node_id config) in
  match highest_shared_qc_anchor s anchors with
  | None => unavailable
  | Some anchor =>
      match find_first (fun b => block_hash b =? an_hash anchor) (blocks (chain s)) with
      | None => unavailable
      | Some shared =>
          if negb (has_qc s (an_hash anchor)) then unavailable
          else match certified_suffix_from_shared_qc s (an_hash anchor) with
               | None => unavailable
               | Some (bs, qcs, aggregates) =>
                   match bs with
                   | [] => unavailable
                   | _ =>
                       let v := local_sync_view s in
                       Certified (node_id config) (lv_height v) (lv_tip_hash v) (an_hash anchor)
                         (block_number (header shared))
                         (zip_with (fun b qc => mkCertifiedHeader (header b) (block_hash b)
                                                  (Some qc) None) bs qcs)
                         bs qcs aggregates
                   end
               end
      end
  end.

Definition build_certified_sync_response (s : NodeRunner) (r : ChunkedSyncRequest)
    : ChunkedSyncResponse :=
  if negb (consensus_v2 (flags config)) || negb (want_certified_only r)
  then Unavailable (node_id config)
  else build_certified_sync_response_for_peer s
         (anchors_or_highest (known_qc_anchors r) (known_qc_hash r) (known_qc_height r)).

(** The votes of a map's blocks, in key order. *)
Definition votes_for (hashes : list HashBytes) (m : VoteMap) : list ProposalVote :=
  concat ((fun kv => bt_values kv.2) <$> filter (fun kv => kv.1 ∈ hashes) (bt_entries m)).

Definition build_chain_snapshot (s : NodeRunner) : result ChainSnapshot :=
  let bs := take (sync_export_prefix_len s) (blocks (chain s)) in
  snap ← sync_export_snapshot s;
  Ok (mkChainSnapshot snap bs (receipts (pool s))
        (votes_for (block_hash <$> bs) (proposal_votes (votes s)))).

Definition build_chain_segment (s : NodeRunner) (known_height : Z) (known_tip : HashBytes)
    : result (option ChainSegment) :=
  let prefix_len := sync_export_prefix_len s in
  let anchored :=
    match highest_local_qc s with
    | Some qc => (known_height =? qc_block_number qc) && (known_tip =? qc_block_hash qc)
                 && (qc_block_number qc <? Z.of_nat prefix_len)
    | None => false
    end in
  let preferred := if consensus_v2 (flags config) && anchored then MAX_INCREMENTAL_SYNC_BLOCKS
                   else MAX_PREFERRED_INCREMENTAL_SYNC_BLOCKS in
  snap ← sync_export_snapshot s;
  Ok match build_chain_segment_from_chain snap (take prefix_len (blocks (chain s)))
             (receipts (pool s)) (service_score_window_epochs (flags config))
             known_height known_tip preferred with
     | None => None
     | Some seg =>
         Some (mkSegment (base_height seg) (base_tip_hash seg) (target_snapshot seg)
                 (seg_blocks seg) (seg_receipts seg)
                 (votes_for (block_hash <$> seg_blocks seg) (proposal_votes (votes s))))
     end.

(** ** Sending *)

Definition send_full_snapshot_to (p : PeerConfig) : M unit :=
  s ← get;
  c ← lift (build_chain_snapshot s);
  _ ← bump FullSyncServed 1;
  send_control_to p (MsgSyncResponse (node_id config) c).

Definition send_best_sync_to (id : ValidatorId) (known_height : Z) (known_tip : HashBytes)
    : M unit :=
  p ← lift (find_peer id);
  s ← get;
  seg ← lift (build_chain_segment s known_height known_tip);
  match seg with
  | Some c => _ ← bump IncrementalSyncServed 1;
              send_control_to p (MsgSyncBlocks (node_id config) c)
  | None => send_full_snapshot_to p
  end.

Definition send_anchored_suffix_sync_to (id : ValidatorId) (anchor : SyncQcAnchor) : M unit :=
  s ← get;
  if lv_height (local_sync_view s) <=? an_number anchor then mret tt
  else
    snap ← lift (sync_export_snapshot s);
    match build_chain_segment_from_chain snap
            (take (sync_export_prefix_len s) (blocks (chain s))) (receipts (pool s))
            (service_score_window_epochs (flags config))
            (an_number anchor) (an_hash anchor) MAX_INCREMENTAL_SYNC_BLOCKS with
    | None => mret tt
    | Some c =>
        _ ← bump IncrementalSyncServed 1;
        p ← lift (find_peer id);
        send_control_to p (MsgSyncBlocks (node_id config) c)
    end.

Definition send_best_certified_sync_to (id : ValidatorId) : M (option SyncQcAnchor) :=
  s ← get;
  match shared_qc_anchor_for_peer s id with
  | None => mret None
  | Some anchor =>
      match build_certified_sync_response_for_peer s [anchor] with
      | Unavailable _ => mret None
      | response =>
          _ ← bump CertifiedSyncServed 1;
          p ← lift (find_peer id);
          _ ← send_control_to p (MsgCertifiedSyncResponse response);
          mret (Some anchor)
      end
  end.

Definition sync_push_state_for_peer (s : NodeRunner) (id : ValidatorId) (known_height : Z)
    (known_tip : HashBytes) : ServedSyncPush :=
  let st := default (mkStatus known_height known_tip 0 None 0 []) (peer_sync_status (sync s) !! id) in
  let v := local_sync_view s in
  mkServedPush (ps_height st) (ps_tip_hash st) (ps_highest_qc_hash st) (ps_highest_qc_height st)
    (lv_height v) (lv_tip_hash v) (lv_highest_qc_hash v) (lv_highest_qc_height v).

Definition record_sync_push_served (id : ValidatorId) (state : ServedSyncPush) : M unit :=
  modify (with_sync (set_push_served (<[id := state]>))).

Definition push_best_sync_to (id : ValidatorId) (known_height : Z) (known_tip : HashBytes)
    : M unit :=
  s ← get;
  let state := sync_push_state_for_peer s id known_height known_tip in
  if bool_decide (last_sync_push_served (sync s) !! id = Some state) then mret tt
  else
    let fallback :=
      _ ← send_best_sync_to id known_height known_tip; record_sync_push_served id state in
    if consensus_v2 (flags config) then
      let shared := shared_qc_anchor_for_peer s id in
      _ ← send_best_certified_sync_to id;
      match shared with
      | Some anchor =>
          if an_number anchor <? lv_height (local_sync_view s) then
            _ ← send_anchored_suffix_sync_to id anchor; record_sync_push_served id state
          else fallback
      | None => fallback
      end
    else fallback.

Definition push_sync_to_stale_peers : M unit :=
  v ← gets local_sync_view;
  for_each (peers config) (fun p =>
    s ← get;
    match peer_sync_status (sync s) !! peer_id p with
    | Some st =>
        if local_sync_view_is_ahead_of_status v st
        then push_best_sync_to (peer_id p) (ps_height st) (ps_tip_hash st) else mret tt
    | None => if 0 <? lv_height v then send_full_snapshot_to p else mret tt
    end).

Definition maybe_push_tip_progress_to_stale_peers : M unit :=
  if negb (consensus_v2 (flags config)) then mret tt
  else
    s ← get;
    let v := local_sync_view s in
    if existsb (fun kv => negb (kv.1 =? node_id config) && local_sync_view_is_ahead_of_status v kv.2)
         (map_to_list (peer_sync_status (sync s)))
    then _ ← broadcast_sync_status; push_sync_to_stale_peers
    else mret tt.

Definition announce_certified_progress : M unit :=
  _ ← broadcast_sync_status;
  _ ← push_sync_to_stale_peers;
  _ ← request_best_available_sync_from_ahead_peers;
  mret tt.

(** ** Throttling *)

Definition sync_request_is_throttled (s : NodeRunner) (id : ValidatorId) (known_height : Z)
    (known_tip : HashBytes) : bool :=
  let v := local_sync_view s in
  match last_sync_request_served (sync s) !! id with
  | Some served =>
      sync_request_should_throttle served (clock s) known_height known_tip (lv_height v)
        (lv_tip_hash v) (lv_highest_qc_height v) (lv_highest_qc_hash v)
  | None => false
  end.

Definition record_sync_request_served (id : ValidatorId) (known_height : Z)
    (known_tip : HashBytes) : M unit :=
  s ← get;
  let v := local_sync_view s in
  modify (with_sync (set_request_served
    (<[id := mkServedRequest (clock s) known_height known_tip (lv_height v) (lv_tip_hash v)
               (lv_highest_qc_height v) (lv_highest_qc_hash v)]>))).

Definition run_sync_maintenance : M unit :=
  _ ← broadcast_sync_request;
  _ ← broadcast_sync_status;
  _ ← push_sync_to_stale_peers;
  barrier ← gets (fun s => startup_sync_barrier (slots s));
  if barrier : bool then mret tt
  else _ ← request_best_available_sync_from_ahead_peers; mret tt.

Definition maybe_broadcast_recovery_sync_status (current : Slot) : M bool :=
  s ← get;
  let v := local_sync_view s in
  let recent :=
    match last_recovery_sync_status (sync s) with
    | Some memo => bool_decide (sm_local_view memo = v)
                   && (saturating_sub current (sm_slot memo) <? RECOVERY_SYNC_RETRY_SLOTS)
    | None => false
    end in
  if recent then mret false
  else
    _ ← broadcast_sync_status;
    _ ← modify (with_sync (set_recovery_status (Some (mkStatusMemo current v))));
    mret true.

Definition maybe_request_recovery_sync_from_ahead_peer (current : Slot) : M bool :=
  s ← get;
  match best_available_ahead_peer s with
  | None => _ ← modify (with_sync (set_recovery_request None)); mret false
  | Some id =>
      let v := local_sync_view s in
      let recent :=
        match last_recovery_sync_request (sync s) with
        | Some memo => (rm_peer memo =? id) && bool_decide (rm_local_view memo = v)
                       && (saturating_sub current (rm_slot memo) <? RECOVERY_SYNC_RETRY_SLOTS)
        | None => false
        end in
      if recent then mret false
      else
        _ ← request_sync_from id;
        _ ← modify (with_sync (set_recovery_request (Some (mkRequestMemo current id v))));
        mret true
  end.

Definition maybe_repair_stale_pending_certified_child (current : Slot) : M bool :=
  s ← get;
  match preferred_pending_child_for_certified_head s with
  | None => mret false
  | Some child =>
      if current <=? bh_slot (header child) then mret false
      else
        let proposer := proposer_id (header child) in
        let ask := negb (proposer =? node_id config) && is_ok (find_peer proposer) in
        _ ← (if ask then request_legacy_sync_from proposer else mret tt);
        more ← request_best_available_sync_from_ahead_peers_excluding
                 (Some (if ask then proposer else node_id config));
        if ask || more then
          _ ← log_event "pending-certified-repair-request"; mret true
        else mret false
  end.

Definition request_receipt_reconciliation (epoch : Epoch) : M unit :=
  if negb (enable_receipts (flags config)) || bool_decide (length (peers config) = 0%nat)
  then mret tt
  else
    _ ← for_each (build_receipt_fetch_plan (node_id config)
                    (list_to_set (peer_id <$> peers config)))
          (fun id => p ← lift (find_peer id);
                     send_control_to p (MsgReceiptFetch (node_id config) epoch (node_id config)));
    log_event "receipt-fetch-round".
End serve.

(** ** Synchronisation traffic never touches what the node decides *)

Section quiet.
Context `{Hashing} `{CryptoBackend}.
Context (config : NodeConfig) (e : ConsensusEngine).
Context (I : NodeRunner -> Prop) `{!Quiet I}.

Lemma keeps_modify_sync f : keeps I (modify (with_sync f)).
Proof. apply keeps_modify. intros s. apply quiet_sync. Qed.
Hint Resolve keeps_modify_sync : keeps.

Lemma keeps_record_peer_sync_status_with_slot a b c d q n l :
  keeps I (record_peer_sync_status_with_slot a b c d q n l).
Proof. apply keeps_modify_sync. Qed.
Hint Resolve keeps_record_peer_sync_status_with_slot : keeps.
Lemma keeps_record_peer_sync_status a b c q n l : keeps I (record_peer_sync_status a b c q n l).
Proof. unfold record_peer_sync_status. keeps_auto. Qed.
Lemma keeps_record_sync_repair_failure id : keeps I (record_sync_repair_failure id).
Proof. apply keeps_modify_sync. Qed.
Lemma keeps_clear_sync_repair_memory id : keeps I (clear_sync_repair_memory id).
Proof. apply keeps_modify_sync. Qed.
Lemma keeps_allow_peer_message id c n : keeps I (allow_peer_message id c n).
Proof. unfold allow_peer_message. keeps_auto. Qed.
Lemma keeps_request_legacy_sync_from id : keeps I (request_legacy_sync_from config id).
Proof. unfold request_legacy_sync_from. keeps_auto. Qed.
Lemma keeps_request_followup_legacy_sync_from id :
  keeps I (request_followup_legacy_sync_from config id).
Proof. unfold request_followup_legacy_sync_from. keeps_auto. Qed.
Lemma keeps_request_certified_sync_from id : keeps I (request_certified_sync_from config id).
Proof. unfold request_certified_sync_from. keeps_auto. Qed.
Hint Resolve keeps_request_legacy_sync_from keeps_request_certified_sync_from : keeps.
Lemma keeps_request_sync_from id : keeps I (request_sync_from config id).
Proof. unfold request_sync_from. keeps_auto. Qed.
Hint Resolve keeps_request_sync_from : keeps.
Lemma keeps_request_best_excluding x :
  keeps I (request_best_available_sync_from_ahead_peers_excluding config x).
Proof. unfold request_best_available_sync_from_ahead_peers_excluding. keeps_auto. Qed.
Lemma keeps_request_best : keeps I (request_best_available_sync_from_ahead_peers config).
Proof. apply keeps_request_best_excluding. Qed.
Lemma keeps_broadcast_sync_status : keeps I (broadcast_sync_status config).
Proof. unfold broadcast_sync_status. keeps_auto. Qed.
Hint Resolve keeps_request_best_excluding keeps_request_best keeps_broadcast_sync_status : keeps.
Lemma keeps_broadcast_sync_request : keeps I (broadcast_sync_request config).
Proof. unfold broadcast_sync_request. keeps_auto. Qed.
Lemma keeps_send_full_snapshot_to p : keeps I (send_full_snapshot_to config e p).
Proof. unfold send_full_snapshot_to. keeps_auto. Qed.
Hint Resolve keeps_send_full_snapshot_to keeps_broadcast_sync_request : keeps.
Lemma keeps_send_best_sync_to id h t : keeps I (send_best_sync_to config e id h t).
Proof. unfold send_best_sync_to. keeps_auto. Qed.
Lemma keeps_send_anchored_suffix_sync_to id a :
  keeps I (send_anchored_suffix_sync_to config e id a).
Proof. unfold send_anchored_suffix_sync_to. keeps_auto. Qed.
Lemma keeps_send_best_certified_sync_to id : keeps I (send_best_certified_sync_to config id).
Proof. unfold send_best_certified_sync_to. keeps_auto. Qed.
Hint Resolve keeps_send_best_sync_to keeps_send_anchored_suffix_sync_to
  keeps_send_best_certified_sync_to : keeps.
Lemma keeps_push_best_sync_to id h t : keeps I (push_best_sync_to config e id h t).
Proof. unfold push_best_sync_to, record_sync_push_served. keeps_auto. Qed.
Hint Resolve keeps_push_best_sync_to : keeps.
Lemma keeps_push_sync_to_stale_peers : keeps I (push_sync_to_stale_peers config e).
Proof. unfold push_sync_to_stale_peers. keeps_auto. Qed.
Hint Resolve keeps_push_sync_to_stale_peers : keeps.
Lemma keeps_maybe_push_tip_progress : keeps I (maybe_push_tip_progress_to_stale_peers config e).
Proof. unfold maybe_push_tip_progress_to_stale_peers. keeps_auto. Qed.
Lemma keeps_announce : keeps I (announce_certified_progress config e).
Proof. unfold announce_certified_progress. keeps_auto. Qed.
Lemma keeps_record_sync_request_served id h t : keeps I (record_sync_request_served id h t).
Proof. unfold record_sync_request_served. keeps_auto. Qed.
Lemma keeps_run_sync_maintenance : keeps I (run_sync_maintenance config e).
Proof. unfold run_sync_maintenance. keeps_auto. Qed.
Lemma keeps_maybe_broadcast_recovery_sync_status c :
  keeps I (maybe_broadcast_recovery_sync_status config c).
Proof. unfold maybe_broadcast_recovery_sync_status. keeps_auto. Qed.
Lemma keeps_maybe_request_recovery_sync c :
  keeps I (maybe_request_recovery_sync_from_ahead_peer config c).
Proof. unfold maybe_request_recovery_sync_from_ahead_peer. keeps_auto. Qed.
Lemma keeps_maybe_repair c : keeps I (maybe_repair_stale_pending_certified_child config c).
Proof. unfold maybe_repair_stale_pending_certified_child. keeps_auto. Qed.
Lemma keeps_request_receipt_reconciliation c :
  keeps I (request_receipt_reconciliation config c).
Proof. unfold request_receipt_reconciliation. keeps_auto. Qed.
End quiet.

#[export] Hint Resolve keeps_modify_sync keeps_record_peer_sync_status_with_slot
  keeps_record_peer_sync_status keeps_record_sync_repair_failure keeps_clear_sync_repair_memory
  keeps_allow_peer_message keeps_request_legacy_sync_from keeps_request_followup_legacy_sync_from
  keeps_request_certified_sync_from keeps_request_sync_from keeps_request_best_excluding
  keeps_request_best keeps_broadcast_sync_status keeps_broadcast_sync_request
  keeps_send_full_snapshot_to keeps_send_best_sync_to keeps_send_anchored_suffix_sync_to
  keeps_send_best_certified_sync_to keeps_push_best_sync_to keeps_push_sync_to_stale_peers
  keeps_maybe_push_tip_progress keeps_announce keeps_record_sync_request_served
  keeps_run_sync_maintenance keeps_maybe_broadcast_recovery_sync_status
  keeps_maybe_request_recovery_sync keeps_maybe_repair keeps_request_receipt_reconciliation : keeps.

(** ** What is remembered of a peer *)

(** A report that a peer restarted from its certified frontier. *)
Definition restart_report (st : PeerSyncStatus) (h : Z) (tip : HashBytes)
    (qc_hash : option HashBytes) (qc_height : Z) : Prop :=
  h < ps_height st /\ 0 < qc_height /\ qc_height = h /\ qc_hash = Some tip.

Section remembered.
(** What a node remembers of a peer only moves forward: a report leaves
    every other peer's entry alone and, whatever it claims, neither lowers
    the peer's remembered certified height nor replaces its view by a less
    preferred one, and keeps the anchors within their limit; the one
    exception is a peer that reports exactly its certified frontier as its
    tip, below its earlier height, whose entry then is that report. *)
Lemma peer_status_monotone id h tip slot qh qn anchors m :
  let m' := record_status id h tip slot qh qn anchors m in
  (forall id', id' <> id -> m' !! id' = m !! id') /\
  (forall st, m !! id = Some st -> exists st', m' !! id = Some st' /\
     ((restart_report st h tip qh qn /\
       ps_height st' = h /\ ps_tip_hash st' = tip /\ ps_highest_qc_height st' = h) \/
      (ps_highest_qc_height st <= ps_highest_qc_height st' /\
       lex_ltb (peer_sync_status_preference st') (peer_sync_status_preference st) = false /\
       (length (recent_qc_anchors st') <= CERTIFIED_SYNC_ANCHOR_LIMIT \/ st' = st)%nat))) /\
  (m !! id = None -> should_record_peer_sync_status h tip = true ->
     exists st', m' !! id = Some st' /\ ps_height st' = h /\ ps_tip_hash st' = tip /\
       ps_tip_last_slot st' = slot /\ ps_highest_qc_hash st' = qh /\ ps_highest_qc_height st' = qn).
Proof.
  intros m'. unfold m', record_status. clear m'.
  destruct (should_record_peer_sync_status h tip) eqn:Er; cbn [negb].
  2: { split_and!; [done| |done]. intros st Hst. exists st. split; [done|]. right.
       split_and!; [lia|apply lex_ltb_irrefl|by right]. }
  assert (Hlim : forall a b, (length (merge_sync_qc_anchors a b CERTIFIED_SYNC_ANCHOR_LIMIT)
    <= CERTIFIED_SYNC_ANCHOR_LIMIT)%nat)
    by (intros; unfold merge_sync_qc_anchors; rewrite length_take; lia).
  destruct (m !! id) as [st|] eqn:Em.
  - destruct (_ && _) eqn:Erf.
    + split_and!; [intros; by rewrite lookup_insert_ne| |done].
      intros ? [= <-]. rewrite lookup_insert_eq. eexists; split; [done|]. left.
      bool_to_prop. cbn. unfold restart_report. split_and!; done || lia.
    + clear Erf. cbn [from_option].
      destruct (lex_ltb (sync_view_preference h slot tip) (peer_sync_status_preference st)) eqn:El;
        destruct (Z.ltb_spec qn (ps_highest_qc_height st));
        (split_and!; [intros; by rewrite lookup_insert_ne| |done]);
        intros ? [= <-]; rewrite lookup_insert_eq; eexists; (split; [done|]); right;
        cbn; unfold peer_sync_status_preference in *; cbn;
        (split_and!; [lia|first [exact El|apply lex_ltb_irrefl]|left; apply Hlim]).
  - split_and!; [intros; by rewrite lookup_insert_ne|done|]. intros _ _.
    rewrite lookup_insert_eq. eexists; split; [done|]. by cbn.
Qed.
End remembered.
