(* ===== verification/Service.v ===== *)
(** * Service evidence, scores and gating

    Attestations and aggregates a node stores, the scores it derives from them
    and from its own receipts, the proposer gate they feed, and the session
    penalties (crates/entangrid-node/src/lib.rs). *)
From S2P Require Import Prelude F64 Hybrid Types Concrete Crypto Ledger Consensus.
From S2P Require Import Policy Snapshots NodeState Branches Receipts.

Open Scope Z_scope.

(** ** Setters *)

Definition set_attestations f (v : ServiceState) := mkService (f (service_attestations v))
  (service_aggregates v) (seen_service_attestations v) (seen_service_aggregates v)
  (latest_service_scores v) (latest_service_counters v) (failed_sessions_total v)
  (invalid_receipts_total v) (observed_failed_sessions v) (observed_successful_sessions v)
  (observed_invalid_receipts v) (known_live_peers v).
Definition set_aggregates f (v : ServiceState) := mkService (service_attestations v)
  (f (service_aggregates v)) (seen_service_attestations v) (seen_service_aggregates v)
  (latest_service_scores v) (latest_service_counters v) (failed_sessions_total v)
  (invalid_receipts_total v) (observed_failed_sessions v) (observed_successful_sessions v)
  (observed_invalid_receipts v) (known_live_peers v).
Definition set_seen_attestations f (v : ServiceState) := mkService (service_attestations v)
  (service_aggregates v) (f (seen_service_attestations v)) (seen_service_aggregates v)
  (latest_service_scores v) (latest_service_counters v) (failed_sessions_total v)
  (invalid_receipts_total v) (observed_failed_sessions v) (observed_successful_sessions v)
  (observed_invalid_receipts v) (known_live_peers v).
Definition set_seen_aggregates f (v : ServiceState) := mkService (service_attestations v)
  (service_aggregates v) (seen_service_attestations v) (f (seen_service_aggregates v))
  (latest_service_scores v) (latest_service_counters v) (failed_sessions_total v)
  (invalid_receipts_total v) (observed_failed_sessions v) (observed_successful_sessions v)
  (observed_invalid_receipts v) (known_live_peers v).
Definition set_scores scores counters (v : ServiceState) := mkService (service_attestations v)
  (service_aggregates v) (seen_service_attestations v) (seen_service_aggregates v)
  scores counters (failed_sessions_total v)
  (invalid_receipts_total v) (observed_failed_sessions v) (observed_successful_sessions v)
  (observed_invalid_receipts v) (known_live_peers v).
Definition set_sessions failed_total failed successful invalid live (v : ServiceState) :=
  mkService (service_attestations v)
  (service_aggregates v) (seen_service_attestations v) (seen_service_aggregates v)
  (latest_service_scores v) (latest_service_counters v) failed_total
  (invalid_receipts_total v) failed successful invalid live.

(** ** Sessions and penalties *)

Section sessions.
Context `{Hashing}.
Context (e : ConsensusEngine).

Definition record_failed_session (epoch : Epoch) (id peer : ValidatorId) (v : ServiceState)
    : ServiceState :=
  if negb (should_record_failed_session e (known_live_peers v) (observed_successful_sessions v)
             epoch id peer) then v
  else set_sessions (failed_sessions_total v) ({[(epoch, id, peer)]} ∪ observed_failed_sessions v)
         (observed_successful_sessions v) (observed_invalid_receipts v) (known_live_peers v) v.

Definition record_successful_session (epoch : Epoch) (id peer : ValidatorId) (v : ServiceState)
    : ServiceState :=
  if negb (is_relay_target_for e id peer epoch) then v
  else set_sessions (failed_sessions_total v) (observed_failed_sessions v ∖ {[(epoch, id, peer)]})
         ({[(epoch, id, peer)]} ∪ observed_successful_sessions v)
         (observed_invalid_receipts v) (known_live_peers v) v.

Definition failed_sessions_for (v : ServiceState) (id : ValidatorId) (epoch : Epoch) : Z :=
  Z.of_nat (size (filter (fun k => k.1.1 = epoch /\ k.1.2 = id) (observed_failed_sessions v))).
Definition invalid_receipts_for (v : ServiceState) (id : ValidatorId) (epoch : Epoch) : Z :=
  default 0 (observed_invalid_receipts v !! (epoch, id)).

Definition prune_penalty_observations (earliest : Epoch) (v : ServiceState) : ServiceState :=
  set_sessions (failed_sessions_total v)
    (filter (fun k => earliest <= k.1.1) (observed_failed_sessions v))
    (filter (fun k => earliest <= k.1.1) (observed_successful_sessions v))
    (filter (fun kv => earliest <= kv.1.1) (observed_invalid_receipts v))
    (known_live_peers v) v.
End sessions.

Section service.
Context `{Hashing} `{CryptoBackend}.
Context (config : NodeConfig) (e : ConsensusEngine).

(** ** Evidence *)

(** The aggregates of a subject over an epoch range, oldest first:
    [service_aggregates.range((id, lo)..=(id, hi))]. *)
Definition aggregates_between (v : ServiceState) (id : ValidatorId) (lo hi : Epoch)
    : list ServiceAggregate :=
  snd <$> sort_by (fun x y => x.1.2 ?= y.1.2)
            (filter (fun kv => kv.1.1 = id /\ lo <= kv.1.2 /\ kv.1.2 <= hi)
               (map_to_list (service_aggregates v))).

Definition latest_service_aggregate_before_epoch (v : ServiceState) (id : ValidatorId)
    (current : Epoch) : option ServiceAggregate :=
  if current =? 0 then None else last (aggregates_between v id 0 (current - 1)).

(** The weighted sum over the accepted aggregates of the window, newer
    epochs weighing more, with the epoch of the last one. *)
Definition weigh_aggregates (first_epoch : Epoch) (l : list ServiceAggregate)
    : ServiceCounters * option Epoch :=
  foldl (fun acc a =>
           if is_ok (consensus_validate_service_aggregate e a)
           then (accumulate_weighted_counters acc.1 (ag_counters a)
                   (wadd (saturating_sub (ag_epoch a) first_epoch) 1), Some (ag_epoch a))
           else acc)
    (default_counters, None) l.

Definition weighted_recent_service_evidence_before_epoch (v : ServiceState) (id : ValidatorId)
    (current : Epoch) : option (Epoch * ServiceCounters * f64) :=
  if current =? 0 then None
  else
    let window := Z.max (service_score_window_epochs (flags config)) 1 in
    let first_epoch := saturating_sub current window in
    let '(counters, latest) :=
      match weigh_aggregates first_epoch (aggregates_between v id first_epoch (current - 1)) with
      | (c, Some l) => (c, Some l)
      | (c, None) =>
          match latest_service_aggregate_before_epoch v id current with
          | Some fallback =>
              if is_ok (consensus_validate_service_aggregate e fallback)
              then (accumulate_weighted_counters c (ag_counters fallback) 1, Some (ag_epoch fallback))
              else (c, None)
          | None => (c, None)
          end
      end in
    l ← latest;
    Some (l, counters,
          compute_service_score_with_weights counters (service_score_weights (flags config))).

Inductive V2ServiceEvidenceState :=
| RecentConfirmed (latest_epoch : Epoch) (counters : ServiceCounters) (score : f64)
| StaleConfirmed
| NoEvidence.

Definition v2_service_evidence_state (v : ServiceState) (id : ValidatorId) (current : Epoch)
    : V2ServiceEvidenceState :=
  match weighted_recent_service_evidence_before_epoch v id current with
  | Some (l, c, score) => RecentConfirmed l c score
  | None => match latest_service_aggregate_before_epoch v id current with
            | Some _ => StaleConfirmed
            | None => NoEvidence
            end
  end.

Inductive V2GatingState :=
| AllowNoEvidence
| AllowInsufficientEvidence
| AllowScore (score : f64)
| RejectScore (score : f64).

Definition v2_gating_state (v : ServiceState) (id : ValidatorId) (epoch : Epoch) : V2GatingState :=
  if epoch =? 0 then AllowNoEvidence
  else match v2_service_evidence_state v id epoch with
       | RecentConfirmed _ _ score =>
           if f64_ltb score (service_gating_threshold (flags config)) then RejectScore score
           else AllowScore score
       | StaleConfirmed => AllowInsufficientEvidence
       | NoEvidence => AllowNoEvidence
       end.

Definition service_score_for_validator (v : ServiceState) (id : ValidatorId) : f64 :=
  default f64_one (latest_service_scores v !! id).
Definition local_service_counters (v : ServiceState) : ServiceCounters :=
  default default_counters (latest_service_counters v !! node_id config).
Definition service_gating_active (epoch : Epoch) : bool :=
  service_gating_start_epoch (flags config) <=? epoch.

(** ** Scores *)

(** The weighted counters of one validator over the window, from the local
    receipts (the rule without confirmed evidence). *)
Definition windowed_counters (s : NodeRunner) (id : ValidatorId) (earliest completed : Epoch)
    : ServiceCounters :=
  foldl (fun acc epoch =>
           accumulate_weighted_counters acc
             (counters_for_validator e id epoch (receipts (pool s))
                (failed_sessions_for (service s) id epoch)
                (invalid_receipts_for (service s) id epoch))
             (wadd (saturating_sub epoch earliest) 1))
    default_counters (seqZ earliest (completed - earliest + 1)).

Definition write_score_metrics (epoch : Epoch) (fallback_score : f64) : M unit :=
  modify (fun s =>
    with_metrics (fun m =>
      mkMetrics (counter m) (m_current_slot m) (m_current_epoch m) epoch
        (default fallback_score (latest_service_scores (service s) !! node_id config))
        (local_service_counters (service s)) (latest_service_scores (service s))) s).

Definition set_score (id : ValidatorId) (score : f64) (c : ServiceCounters) (v : ServiceState) :=
  set_scores (<[id := score]> (latest_service_scores v))
    (<[id := c]> (latest_service_counters v)) v.

Definition refresh_service_scores : M unit :=
  s ← get;
  let current := from_option (epoch_for_slot e) 0 (last_processed_slot (slots s)) in
  let ids := validator_id <$> validators (genesis e) in
  let completed := saturating_sub current 1 in
  if current =? 0 then
    _ ← for_each ids (fun id => modify (with_service (set_score id f64_one default_counters)));
    write_score_metrics 0 f64_one
  else if consensus_v2 (flags config) then
    let previous := service s in
    let previous_epoch := last_completed_service_epoch (metrics s) in
    _ ← for_each ids (fun id =>
          modify (with_service (fun v =>
            match v2_service_evidence_state v id current with
            | RecentConfirmed _ c score => set_score id score c v
            | _ => set_score id (default f64_one (latest_service_scores previous !! id))
                     (default default_counters (latest_service_counters previous !! id)) v
            end)));
    let local_epoch :=
      if bool_decide (node_id config ∈ ids)
      then match v2_service_evidence_state previous (node_id config) current with
           | RecentConfirmed l _ _ => l
           | _ => previous_epoch
           end
      else 0 in
    write_score_metrics local_epoch f64_zero
  else
    let window := Z.max (service_score_window_epochs (flags config)) 1 in
    let earliest := saturating_sub completed (saturating_sub window 1) in
    _ ← modify (with_service (prune_penalty_observations earliest));
    _ ← for_each ids (fun id =>
          modify (fun s => with_service (fun v =>
            let c := windowed_counters s id earliest completed in
            set_score id (compute_service_score_with_weights c (service_score_weights (flags config)))
              c v) s));
    write_score_metrics completed f64_one.

(** ** Attestations *)

Definition build_local_service_attestation (s : NodeRunner) (subject : ValidatorId)
    (epoch : Epoch) : result ServiceAttestation :=
  let counters := counters_for_validator_from_observer e subject (node_id config) epoch
                    (receipts (pool s)) in
  let unsigned := mkAttestation subject (node_id config) epoch counters TypedSig.default in
  signature ← sign (node_id config) (hash_to_bytes (service_attestation_signing_hash unsigned));
  let a := mkAttestation subject (node_id config) epoch counters signature in
  _ ← validate_hybrid_service_attestation_policy config a;
  Ok a.

Definition validate_service_attestation (a : ServiceAttestation) : result unit :=
  _ ← ensure (bool_decide (sa_member a ∈ service_committee_for e (sa_epoch a) (sa_subject a)))
        "service attestation signer is not in the service committee";
  _ ← validate_hybrid_service_attestation_policy config a;
  verified ← verify (sa_member a) (hash_to_bytes (service_attestation_signing_hash a))
               (sa_signature a);
  ensure verified "invalid service attestation signature".

Definition members_of (v : ServiceState) (key : ValidatorId * Epoch)
    : gmap ValidatorId ServiceAttestation := default ∅ (service_attestations v !! key).

Definition add_attestation (a : ServiceAttestation) (v : ServiceState) : ServiceState :=
  let key := (sa_subject a, sa_epoch a) in
  set_seen_attestations (fun seen => {[service_attestation_signing_hash a]} ∪ seen)
    (set_attestations (<[key := <[sa_member a := a]> (members_of v key)]>) v).

Definition insert_service_attestation (a : ServiceAttestation) (persist : bool) : M bool :=
  v ← gets service;
  let key := (sa_subject a, sa_epoch a) in
  let id := service_attestation_signing_hash a in
  if bool_decide (id ∈ seen_service_attestations v) then mret false
  else
    let insert :=
      _ ← modify (with_service (add_attestation a));
      _ ← (if persist
           then modify (with_storage (set_attestations_file (fun l => l ++ [a]))) else mret tt);
      mret true in
    match members_of v key !! sa_member a with
    | Some existing =>
        if service_attestation_signing_hash existing =? id then mret false
        else if service_counters_dominate (sa_counters existing) (sa_counters a) then mret false
        else if negb (service_counters_dominate (sa_counters a) (sa_counters existing))
             then mret false
        else insert
    | None => insert
    end.

Definition import_service_attestation (a : ServiceAttestation) : M bool :=
  if negb (consensus_v2 (flags config)) then fail "service attestations require consensus_v2"
  else _ ← lift (validate_service_attestation a); insert_service_attestation a true.

(** ** Aggregates *)

Definition build_service_aggregate (v : ServiceState) (subject : ValidatorId) (epoch : Epoch)
    : option ServiceAggregate :=
  if negb (consensus_v2 (flags config)) then None
  else
    by_member ← service_attestations v !! (subject, epoch);
    let attestations := bt_values by_member in
    let a := mkAggregate subject epoch (service_attestation_root attestations) attestations
               (aggregate_service_counters attestations) in
    if is_ok (consensus_validate_service_aggregate e a) then Some a else None.

Definition validate_service_aggregate (a : ServiceAggregate) : result unit :=
  _ ← consensus_validate_service_aggregate e a;
  foldr (fun t rest => _ ← validate_service_attestation t; rest) (Ok tt) (ag_attestations a).

Definition insert_service_aggregate (a : ServiceAggregate) (persist : bool) : M bool :=
  v ← gets service;
  let key := (ag_subject a, ag_epoch a) in
  let id := canonical_hash (CAggregate a) in
  if bool_decide (id ∈ seen_service_aggregates v) then mret false
  else if from_option (fun x => canonical_hash (CAggregate x) =? id) false
            (service_aggregates v !! key) then mret false
  else
    _ ← modify (with_service (fun v =>
          set_seen_aggregates (fun seen => {[id]} ∪ seen) (set_aggregates (<[key := a]>) v)));
    _ ← (if persist
         then modify (with_storage (set_aggregates_file (fun l => l ++ [a]))) else mret tt);
    mret true.

(** The attestations are inserted one by one, then the aggregate is rebuilt
    from everything known. *)
Fixpoint insert_attestations (l : list ServiceAttestation) (persist changed : bool) : M bool :=
  match l with
  | [] => mret changed
  | a :: l' => inserted ← insert_service_attestation a persist;
               insert_attestations l' persist (changed || inserted)
  end.

Definition merge_service_aggregate (a : ServiceAggregate) (persist : bool) : M bool :=
  changed ← insert_attestations (ag_attestations a) persist false;
  v ← gets service;
  match build_service_aggregate v (ag_subject a) (ag_epoch a) with
  | None => mret changed
  | Some canonical => inserted ← insert_service_aggregate canonical persist;
                      mret (changed || inserted)
  end.

Definition import_service_aggregate (a : ServiceAggregate) : M bool :=
  if negb (consensus_v2 (flags config)) then fail "service aggregates require consensus_v2"
  else _ ← lift (validate_service_aggregate a); merge_service_aggregate a true.

Definition maybe_publish_service_aggregate (subject : ValidatorId) (epoch : Epoch) : M bool :=
  if negb (consensus_v2 (flags config)) then mret false
  else if negb (is_service_aggregator_for e epoch subject (node_id config)) then mret false
  else
    v ← gets service;
    match build_service_aggregate v subject epoch with
    | None => mret false
    | Some a =>
        imported ← import_service_aggregate a;
        if imported : bool then
          _ ← bump ServiceAggregatesPublished 1;
          _ ← refresh_service_scores;
          _ ← broadcast (peers config) (MsgServiceAggregate a);
          mret true
        else mret false
    end.

Definition emit_service_attestations_for_completed_epoch (epoch : Epoch) : M unit :=
  if negb (consensus_v2 (flags config)) then mret tt
  else for_each (validator_id <$> validators (genesis e)) (fun subject =>
    if subject =? node_id config then mret tt
    else if negb (bool_decide (node_id config ∈ service_committee_for e epoch subject)) then mret tt
    else
      s ← get;
      a ← lift (build_local_service_attestation s subject epoch);
      imported ← import_service_attestation a;
      _ ← (if imported : bool then
             _ ← bump ServiceAttestationsEmitted 1;
             for_each (filter (fun p => peer_id p ∈ service_aggregators_for e epoch subject)
                         (peers config))
               (fun p => send_control_to p (MsgServiceAttestation a))
           else mret tt);
      _ ← maybe_publish_service_aggregate subject epoch;
      mret tt).

Definition refresh_recent_service_attestations (current : Epoch) : M unit :=
  if negb (consensus_v2 (flags config)) || (current <=? 2) then mret tt
  else
    let backfill := Z.max (service_score_window_epochs (flags config)) 1 in
    let last_epoch := saturating_sub current 3 in
    let first_epoch := saturating_sub last_epoch (saturating_sub backfill 1) in
    for_each (seqZ first_epoch (last_epoch - first_epoch + 1))
      emit_service_attestations_for_completed_epoch.

Definition restore_service_evidence (attestations : list ServiceAttestation)
    (aggregates : list ServiceAggregate) : M unit :=
  if negb (consensus_v2 (flags config)) then mret tt
  else
    _ ← for_each attestations (fun a =>
          _ ← lift (validate_service_attestation a);
          _ ← insert_service_attestation a false; mret tt);
    for_each aggregates (fun a =>
      _ ← lift (validate_service_aggregate a);
      _ ← merge_service_aggregate a false; mret tt).
End service.

(** ** Properties *)

Lemma dominate_refl c : service_counters_dominate c c = true.
Proof. unfold service_counters_dominate. by rewrite !Z.eqb_refl, !Z.leb_refl. Qed.

Lemma dominate_trans a b c :
  service_counters_dominate a b = true -> service_counters_dominate b c = true ->
  service_counters_dominate a c = true.
Proof.
  unfold service_counters_dominate. rewrite !andb_true_iff, !Z.eqb_eq, !Z.leb_le. lia.
Qed.

(** Every attestation of [v] is still there in [v'], or replaced by one of the
    same member whose counters dominate it. *)
Definition evidence_le (v v' : ServiceState) : Prop :=
  forall key member a, members_of v key !! member = Some a ->
    exists a', members_of v' key !! member = Some a' /\
      service_counters_dominate (sa_counters a') (sa_counters a) = true.

#[export] Instance evidence_le_preorder : PreOrder evidence_le.
Proof.
  split.
  - intros v key member a Ha. exists a. eauto using dominate_refl.
  - intros u v w Huv Hvw key member a Ha. destruct (Huv _ _ _ Ha) as (b & Hb & Hba).
    destruct (Hvw _ _ _ Hb) as (c & Hc & Hcb). eauto using dominate_trans.
Qed.

Section properties.
Context `{Hashing} `{CryptoBackend}.
Context (config : NodeConfig) (e : ConsensusEngine).

(** The evidence never falls below [v0]. *)
Definition evidence_above (v0 : ServiceState) (s : NodeRunner) : Prop :=
  evidence_le v0 (service s).

#[local] Instance evidence_above_quiet v0 : Quiet (evidence_above v0).
Proof. by split. Qed.

Lemma add_attestation_le a v :
  (forall old, members_of v (sa_subject a, sa_epoch a) !! sa_member a = Some old ->
     service_counters_dominate (sa_counters a) (sa_counters old) = true) ->
  evidence_le v (add_attestation a v).
Proof.
  intros Hd key member b Hb. unfold members_of, add_attestation in *; simpl in *.
  destruct (decide (key = (sa_subject a, sa_epoch a))) as [->|Hne].
  - rewrite lookup_insert_eq. simpl. destruct (decide (member = sa_member a)) as [->|Hm].
    + rewrite lookup_insert_eq. eauto.
    + rewrite lookup_insert_ne by done. eauto using dominate_refl.
  - rewrite lookup_insert_ne by done. eauto using dominate_refl.
Qed.

Lemma insert_attestation_keeps v0 a persist :
  keeps (evidence_above v0) (insert_service_attestation a persist).
Proof.
  intros s Hs. unfold insert_service_attestation, mbind, M_bind, gets.
  case_bool_decide; [done|].
  assert (Hins : (forall old, members_of (service s) (sa_subject a, sa_epoch a) !! sa_member a = Some old ->
     service_counters_dominate (sa_counters a) (sa_counters old) = true) ->
     evidence_above v0 (with_service (add_attestation a) s)).
  { intros Hd. unfold evidence_above in *; simpl. etrans; [exact Hs|]. by apply add_attestation_le. }
  destruct (members_of _ _ !! _) as [old|] eqn:Eo.
  - destruct (_ =? _); [done|]. destruct (service_counters_dominate (sa_counters old) _); [done|].
    destruct (service_counters_dominate (sa_counters a) _) eqn:Ed; [|done].
    specialize (Hins ltac:(by intros ? [= <-])). by destruct persist.
  - specialize (Hins ltac:(done)). by destruct persist.
Qed.

Lemma insert_attestations_keeps v0 l persist changed :
  keeps (evidence_above v0) (insert_attestations l persist changed).
Proof.
  revert changed. induction l as [|a l IHl]; intros changed; simpl; [apply keeps_ret|].
  apply keeps_bind; [apply insert_attestation_keeps | intros; apply IHl].
Qed.

Lemma insert_aggregate_keeps v0 a persist :
  keeps (evidence_above v0) (insert_service_aggregate a persist).
Proof.
  intros s Hs. unfold insert_service_aggregate, mbind, M_bind, gets.
  case_bool_decide; [done|]. destruct (from_option _ _ _); [done|]. by destruct persist.
Qed.

Lemma refresh_scores_keeps v0 : keeps (evidence_above v0) (refresh_service_scores config e).
Proof.
  unfold refresh_service_scores, write_score_metrics, set_score. keeps_auto; try done.
  all: unfold evidence_above in *; simpl; by repeat case_match.
Qed.

Hint Resolve insert_attestation_keeps insert_attestations_keeps insert_aggregate_keeps
  refresh_scores_keeps : keeps.

Lemma import_aggregate_keeps v0 a :
  keeps (evidence_above v0) (import_service_aggregate config e a).
Proof. unfold import_service_aggregate, merge_service_aggregate. keeps_auto. Qed.
Hint Resolve import_aggregate_keeps : keeps.

Lemma import_attestation_keeps v0 a :
  keeps (evidence_above v0) (import_service_attestation config e a).
Proof. unfold import_service_attestation. keeps_auto. Qed.
Hint Resolve import_attestation_keeps : keeps.

Lemma publish_aggregate_keeps v0 subject epoch :
  keeps (evidence_above v0) (maybe_publish_service_aggregate config e subject epoch).
Proof. unfold maybe_publish_service_aggregate. keeps_auto. Qed.
Hint Resolve publish_aggregate_keeps : keeps.

Lemma emit_attestations_keeps v0 epoch :
  keeps (evidence_above v0) (emit_service_attestations_for_completed_epoch config e epoch).
Proof. unfold emit_service_attestations_for_completed_epoch. keeps_auto. Qed.

(** Service evidence only accumulates: whatever attestations and
    aggregates arrive, from peers or from the node itself, valid or not, each
    member's stored attestation is kept or replaced by one whose counters
    dominate it; a stale or conflicting one never displaces it. *)
Lemma service_evidence_monotone s a g subject epoch :
  evidence_le (service s) (service (import_service_attestation config e a s).2) /\
  evidence_le (service s) (service (import_service_aggregate config e g s).2) /\
  evidence_le (service s) (service (maybe_publish_service_aggregate config e subject epoch s).2) /\
  evidence_le (service s)
    (service (emit_service_attestations_for_completed_epoch config e epoch s).2).
Proof.
  assert (Hs : evidence_above (service s) s) by (unfold evidence_above; reflexivity).
  split_and!.
  - exact (import_attestation_keeps (service s) a s Hs).
  - exact (import_aggregate_keeps (service s) g s Hs).
  - exact (publish_aggregate_keeps (service s) subject epoch s Hs).
  - exact (emit_attestations_keeps (service s) epoch s Hs).
Qed.

Lemma weigh_aggregates_latest first_epoch l c epoch :
  weigh_aggregates e first_epoch l = (c, Some epoch) ->
  exists a, a ∈ l /\ ag_epoch a = epoch /\ consensus_validate_service_aggregate e a = Ok tt.
Proof.
  unfold weigh_aggregates. revert c epoch. induction l as [|a l IHl] using rev_ind; intros c epoch.
  { done. }
  rewrite foldl_snoc. destruct (is_ok _) eqn:Ev.
  - intros [= _ <-]. exists a. apply is_ok_exists in Ev as [[] Ev].
    split; [apply elem_of_app; right; by left | done].
  - intros (b & Hb & ?)%IHl. exists b. split; [apply elem_of_app; by left | done].
Qed.

Lemma aggregates_between_elem v id lo hi a :
  a ∈ aggregates_between v id lo hi ->
  exists k, service_aggregates v !! k = Some a /\ k.1 = id /\ lo <= k.2 <= hi.
Proof.
  unfold aggregates_between. intros ([k b] & -> & Hk)%list_elem_of_fmap.
  rewrite sort_by_elem_of, list_elem_of_filter, elem_of_map_to_list in Hk.
  exists k. naive_solver.
Qed.

(** The proposer gate of the second consensus version never rejects on
    hearsay: a rejection means a committee-confirmed aggregate about that
    validator from an earlier epoch is stored and the score computed from
    confirmed evidence is below the threshold; without any such aggregate
    the proposer is let through. *)
Lemma gating_needs_confirmed_evidence v id epoch score :
  0 <= epoch ->
  v2_gating_state config e v id epoch = RejectScore score ->
  f64_ltb score (service_gating_threshold (flags config)) = true /\
  exists k a, service_aggregates v !! k = Some a /\ k.1 = id /\ 0 <= k.2 < epoch /\
    consensus_validate_service_aggregate e a = Ok tt.
Proof.
  intros Hep. unfold v2_gating_state, v2_service_evidence_state.
  destruct (Z.eqb_spec epoch 0); [done|].
  destruct (weighted_recent_service_evidence_before_epoch config e v id epoch)
    as [[[l c] sc]|] eqn:Ew; [|by destruct (latest_service_aggregate_before_epoch _ _ _)].
  destruct (f64_ltb sc _) eqn:Elt; [|done]. intros [= <-]. split; [done|].
  unfold weighted_recent_service_evidence_before_epoch in Ew.
  rewrite (proj2 (Z.eqb_neq epoch 0)) in Ew by done.
  set (first := saturating_sub epoch _) in Ew.
  assert (Hfirst : 0 <= first) by (unfold first, saturating_sub; lia).
  destruct (weigh_aggregates e first _) as [c1 [l1|]] eqn:Ewe.
  - apply weigh_aggregates_latest in Ewe as (a & Ha & _ & Hv).
    apply aggregates_between_elem in Ha as (k & Hk & Hid & Hr). exists k, a.
    split_and!; try done; lia.
  - destruct (latest_service_aggregate_before_epoch v id epoch) as [a|] eqn:El; [|done].
    destruct (is_ok _) eqn:Ev; [|done]. apply is_ok_exists in Ev as [[] Ev].
    unfold latest_service_aggregate_before_epoch in El.
    rewrite (proj2 (Z.eqb_neq epoch 0)) in El by done.
    apply last_Some_elem_of in El.
    apply aggregates_between_elem in El as (k & Hk & Hid & Hr). exists k, a.
    split_and!; try done; lia.
Qed.
End properties.
