(* ===== verification/Votes.v ===== *)
(** * Proposal votes and quorum certificates

    The voting core of the node (crates/entangrid-node/src/lib.rs): storing and
    replacing votes, building and importing certificates, adopting branches.
    A vote can complete a certificate, which can move the chain, which makes
    the node vote again: [import_proposal_vote] calls itself through the rest.
    The operations of that cycle take the recursive call as the argument
    [import]; fuel closes the knot. *)
From S2P Require Import Prelude F64 Hybrid Types Concrete Crypto Ledger Consensus.
From S2P Require Import Policy Snapshots NodeState Branches Receipts SyncServe.

Open Scope Z_scope.

(** ** Vote maps *)

(** Remove one validator's vote for a block, and the block's entry with the
    last one. *)
Definition drop_vote (h : HashBytes) (id : ValidatorId) (m : VoteMap) : VoteMap :=
  match m !! h with
  | Some inner => let inner' := delete id inner in
                  if decide (inner' = ∅) then delete h m else <[h := inner']> m
  | None => m
  end.

Definition remove_proposal_vote_from_maps (v : ProposalVote) (vs : VoteState) : VoteState :=
  set_buffered (drop_vote (pv_block_hash v) (pv_validator v))
    (set_proposal_votes (drop_vote (pv_block_hash v) (pv_validator v)) vs).

(** [retain] with the votes a certified vote contradicts taken out. *)
Definition retain_compatible (v : ProposalVote) (m : VoteMap) : VoteMap :=
  map_imap (fun h inner =>
              let inner' :=
                if h =? pv_block_hash v then inner
                else filter (fun kv => negb ((kv.1 =? pv_validator v)
                                             && negb (pv_block_hash kv.2 =? pv_block_hash v)
                                             && (pv_block_number kv.2 =? pv_block_number v)) = true)
                       inner in
              if decide (inner' = ∅) then None else Some inner') m.

Definition remove_conflicting_votes_for_certified_vote (v : ProposalVote) (vs : VoteState)
    : VoteState :=
  set_buffered (retain_compatible v) (set_proposal_votes (retain_compatible v) vs).

Definition insert_vote (v : ProposalVote) (m : VoteMap) : VoteMap :=
  <[pv_block_hash v := <[pv_validator v := v]> (default ∅ (m !! pv_block_hash v))]> m.

Definition retain_hashes (p : HashBytes -> bool) (m : VoteMap) : VoteMap :=
  filter (fun kv => p kv.1 = true /\ kv.2 <> ∅) m.

Definition prune_votes_not_extending_certified_block (certified : HashBytes) (certified_height : Z)
    (s : NodeRunner) : NodeRunner :=
  let keep h := vote_extends_certified_block s h certified certified_height in
  with_votes (fun vs => set_buffered (retain_hashes keep) (set_proposal_votes (retain_hashes keep) vs)) s.

Section votes.
Context `{Hashing} `{CryptoBackend}.
Context (config : NodeConfig) (e : ConsensusEngine).

(** ** Adopting a chain *)

Definition persist_quorum_certificates : M unit :=
  modify (fun s => with_storage
    (set_qcs_file (fun _ => bt_values (quorum_certificates (votes s)))) s).

(** The blocks left out of the new chain become orphans. *)
Definition switch_chain (l : LedgerState) (bs : list Block) (c : ChainState) : ChainState :=
  mkChain l bs
    (filter (fun b => block_hash b ∉ block_hash <$> bs)
       (blocks c ++ orphan_blocks c ++ pending_certified_children c)) [].

Definition adopt_canonical_chain (candidate : list Block) (event : string) : M unit :=
  l ← lift (replay_blocks (genesis e) candidate);
  _ ← modify (with_chain (switch_chain l candidate));
  _ ← for_each (concat (commitment_receipts <$> candidate))
        (fun r => _ ← persist_receipt config r; mret tt);
  _ ← rebuild_seen_sets;
  _ ← write_snapshot;
  _ ← modify (fun s => with_storage (set_blocks_file (fun _ => blocks (chain s))) s);
  _ ← modify (fun s => with_storage (set_orphan_file (fun _ => orphan_blocks (chain s))) s);
  _ ← persist_quorum_certificates;
  log_event event.

(** ** Checks *)

Definition validate_proposal_vote_signature_and_signer (v : ProposalVote) : result unit :=
  _ ← ensure (existsb (fun x => validator_id x =? pv_validator v) (validators (genesis e)))
        "proposal vote signer is not a validator";
  verified ← verify (pv_validator v) (hash_to_bytes (proposal_vote_signing_hash v))
               (pv_signature v);
  ensure verified "invalid proposal vote signature".

Definition validate_proposal_vote_for_block (v : ProposalVote) (b : Block) : result unit :=
  _ ← validate_proposal_vote_signature_and_signer v;
  _ ← validate_hybrid_proposal_vote_policy config v;
  ensure ((pv_block_number v =? block_number (header b)) && (pv_epoch v =? bh_epoch (header b))
          && (pv_slot v =? bh_slot (header b))) "proposal vote metadata does not match block".

Definition certificate_threshold : Z :=
  Z.of_nat (quorum_certificate_threshold (length (validators (genesis e)))).

Definition validate_quorum_certificate_for_block (qc : QuorumCertificate) (b : Block)
    : result unit :=
  _ ← ensure ((qc_block_hash qc =? block_hash b)
              && (qc_block_number qc =? block_number (header b))
              && (qc_epoch qc =? bh_epoch (header b)) && (qc_slot qc =? bh_slot (header b)))
        "quorum certificate metadata does not match block";
  _ ← ensure (qc_is_well_formed qc) "malformed quorum certificate";
  _ ← ensure (certificate_threshold <=? Z.of_nat (length (qc_votes qc)))
        "quorum certificate does not meet threshold";
  _ ← ensure (quorum_certificate_vote_root (qc_votes qc) =? qc_vote_root qc)
        "quorum certificate vote root mismatch";
  foldr (fun v rest => _ ← validate_proposal_vote_for_block v b; rest) (Ok tt) (qc_votes qc).

(** ** Conflicts *)

Definition can_replace_pre_qc_conflicting_vote (s : NodeRunner) (existing candidate : ProposalVote)
    : bool :=
  if pv_block_hash existing =? pv_block_hash candidate then false
  else if negb (bool_decide (block_hash <$> last (blocks (chain s)) = Some (pv_block_hash candidate)))
  then false
  else match build_chain_to_tip s (pv_block_hash existing),
             build_chain_to_tip s (pv_block_hash candidate) with
       | Some existing_chain, Some candidate_chain =>
           match branch_relation s (pv_block_hash existing) (pv_block_hash candidate) with
           | Incompatible =>
               match compare_branch_quality config s candidate_chain existing_chain with
               | Gt => true
               | _ => false
               end
           | _ => false
           end
       | None, Some _ => true
       | _, _ => false
       end.

Definition can_replace_conflicting_proposal_vote (s : NodeRunner)
    (existing candidate : ProposalVote) : bool :=
  match highest_local_qc s with
  | None => can_replace_pre_qc_conflicting_vote s existing candidate
  | Some _ =>
      if negb (certified_head_only_active config s)
         || negb (pv_block_number existing =? pv_block_number candidate) then false
      else if has_qc s (pv_block_hash existing) then false
      else match current_certified_head s, known_block s (pv_block_hash existing),
                 known_block s (pv_block_hash candidate) with
           | Some head, Some existing_block, Some candidate_block =>
               if negb (pv_block_number existing =? wadd head.2 1) then false
               else if negb (parent_hash (header existing_block) =? head.1)
                       || negb (parent_hash (header candidate_block) =? head.1) then false
               else bh_slot (header existing_block) <? bh_slot (header candidate_block)
           | _, _, _ => false
           end
  end.

(** All the votes a node holds of one validator, in map order. *)
Definition votes_of (s : NodeRunner) (id : ValidatorId) : list ProposalVote :=
  omap (fun m : gmap ValidatorId ProposalVote => m !! id)
    (bt_values (proposal_votes (votes s)) ++ bt_values (buffered_proposal_votes (votes s))).

Definition local_vote_would_scatter_before_qc (s : NodeRunner) (candidate : ProposalVote) : bool :=
  if certified_head_only_active config s || negb (bool_decide (highest_local_qc s = None))
  then false
  else existsb (fun existing =>
         negb (pv_block_hash existing =? pv_block_hash candidate)
         && match branch_relation s (pv_block_hash existing) (pv_block_hash candidate) with
            | SameChain => false
            | _ => negb (can_replace_conflicting_proposal_vote s existing candidate)
            end) (votes_of s (node_id config)).

(** The votes to replace, or the refusal. *)
Fixpoint scan_conflicts (s : NodeRunner) (v : ProposalVote) (existing : list ProposalVote)
    : result (list ProposalVote) :=
  match existing with
  | [] => Ok []
  | x :: rest =>
      if pv_block_hash x =? pv_block_hash v then scan_conflicts s v rest
      else if can_replace_conflicting_proposal_vote s x v
      then conflicts ← scan_conflicts s v rest; Ok (x :: conflicts)
      else if negb (pv_block_number x =? pv_block_number v)
              && negb ((pv_epoch x =? pv_epoch v) && (pv_slot x =? pv_slot v))
              && proposal_vote_branches_are_compatible s (pv_block_hash x) (pv_block_hash v)
      then scan_conflicts s v rest
      else Err "conflicting proposal vote"
  end.

Definition resolve_conflicting_proposal_vote (v : ProposalVote) : M unit :=
  s ← get;
  conflicts ← lift (scan_conflicts s v (votes_of s (pv_validator v)));
  for_each conflicts (fun x =>
    _ ← modify (with_votes (remove_proposal_vote_from_maps x));
    log_event "proposal-vote-replaced").

(** ** Storing votes *)

Definition same_vote (a b : ProposalVote) : bool :=
  (proposal_vote_signing_hash a =? proposal_vote_signing_hash b)
  && bool_decide (pv_signature a = pv_signature b).

Definition stored_vote (m : VoteMap) (v : ProposalVote) : option ProposalVote :=
  inner ← m !! pv_block_hash v; inner !! pv_validator v.

Definition store_proposal_vote (v : ProposalVote) : M bool :=
  _ ← resolve_conflicting_proposal_vote v;
  m ← gets (fun s => proposal_votes (votes s));
  match stored_vote m v with
  | Some existing => if same_vote existing v then mret false else fail "conflicting proposal vote"
  | None => _ ← modify (with_votes (set_proposal_votes (insert_vote v))); mret true
  end.

Definition store_buffered_proposal_vote (v : ProposalVote) : M bool :=
  _ ← resolve_conflicting_proposal_vote v;
  m ← gets (fun s => buffered_proposal_votes (votes s));
  match stored_vote m v with
  | Some existing => if same_vote existing v then mret false else fail "conflicting proposal vote"
  | None => _ ← modify (with_votes (set_buffered (insert_vote v)));
            _ ← log_event "proposal-vote-buffered";
            mret true
  end.

(** ** Certificates *)

Definition insert_qc (qc : QuorumCertificate) : M unit :=
  _ ← modify (with_votes (set_qcs (<[qc_block_hash qc := qc]>)));
  modify (with_storage (set_qcs_file (fun l => l ++ [qc]))).

Definition maybe_build_qc (h : HashBytes) : M (option QuorumCertificate) :=
  s ← get;
  match quorum_certificates (votes s) !! h with
  | Some existing => mret (Some existing)
  | None =>
      match known_block s h, proposal_votes (votes s) !! h with
      | Some b, Some by_validator =>
          if Z.of_nat (size by_validator) <? certificate_threshold then mret None
          else
            let vs := bt_values by_validator in
            let qc := mkQc h (block_number (header b)) (bh_epoch (header b)) (bh_slot (header b))
                        (quorum_certificate_vote_root vs) vs in
            if negb (qc_is_well_formed qc) then fail "built malformed quorum certificate"
            else
              _ ← insert_qc qc;
              _ ← modify (prune_votes_not_extending_certified_block h (block_number (header b)));
              mret (Some qc)
      | _, _ => mret None
      end
  end.

Definition maybe_adopt_certified_branch (tip : HashBytes) : M bool :=
  s ← get;
  match build_chain_to_tip s tip with
  | None => mret false
  | Some candidate =>
      if bool_decide (length candidate = 0%nat) then mret false
      else if negb (bool_decide (block_hash <$> last (blocks (chain s)) = Some tip))
              && existsb (fun b => block_hash b =? tip) (blocks (chain s))
      then mret false
      else match compare_branch_quality config s candidate (blocks (chain s)) with
           | Gt => _ ← adopt_canonical_chain candidate "certified-reorg"; mret true
           | _ => mret false
           end
  end.

Definition build_local_proposal_vote (b : Block) : result ProposalVote :=
  let unsigned := mkVote (node_id config) (block_hash b) (block_number (header b))
                    (bh_epoch (header b)) (bh_slot (header b)) TypedSig.default in
  signature ← sign (node_id config) (hash_to_bytes (proposal_vote_signing_hash unsigned));
  Ok (mkVote (node_id config) (block_hash b) (block_number (header b))
        (bh_epoch (header b)) (bh_slot (header b)) signature).

(** [error.to_string().contains(..)]. *)
Definition is_conflict_error (error : string) : bool :=
  bool_decide (is_Some (String.index 0 "conflicting proposal vote" error)).

(** ** The voting cycle *)

Section cycle.
Variable import : ProposalVote -> M bool.

Definition maybe_broadcast_local_proposal_vote (b : Block) : M unit :=
  if negb (consensus_v2 (flags config)) then mret tt
  else
    v ← lift (build_local_proposal_vote b);
    scatter ← gets (fun s => local_vote_would_scatter_before_qc s v);
    if scatter : bool then log_event "proposal-vote-skipped"
    else
      outcome ← try (import v);
      match outcome with
      | Ok imported => if imported : bool then broadcast (peers config) (MsgProposalVote v)
                       else mret tt
      | Err error => if is_conflict_error error then log_event "proposal-vote-skipped"
                     else fail error
      end.

Definition maybe_adopt_better_uncertified_child_for_certified_head : M bool :=
  s ← get;
  let current_child := current_uncertified_child_for_certified_head s in
  let known_children := known_uncertified_children_for_certified_head s in
  if bool_decide (length known_children = 0%nat) then mret false
  else match best_known_uncertified_child_for_certified_head s with
       | None => mret false
       | Some best =>
           let stay :=
             match current_child with
             | Some current => (block_hash best =? block_hash current)
                               || (bh_slot (header best) <=? bh_slot (header current))
             | None => (length known_children <? 2)%nat
             end in
           if stay then mret false
           else match build_chain_to_tip s (block_hash best) with
                | None => mret false
                | Some best_chain =>
                    _ ← adopt_canonical_chain best_chain
                          match current_child with
                          | Some _ => "certified-child-replaced"
                          | None => "certified-child-adopted"
                          end;
                    _ ← maybe_broadcast_local_proposal_vote best;
                    mret true
                end
       end.

Definition maybe_finalize_quorum_certificate (h : HashBytes) : M (option QuorumCertificate) :=
  already ← gets (fun s => has_qc s h);
  built ← maybe_build_qc h;
  match built with
  | None => mret None
  | Some qc =>
      _ ← maybe_adopt_certified_branch (qc_block_hash qc);
      _ ← maybe_adopt_better_uncertified_child_for_certified_head;
      _ ← (if negb already then
             _ ← broadcast (peers config) (MsgQuorumCertificate qc);
             _ ← log_event "qc-built";
             announce_certified_progress config e
           else mret tt);
      mret (Some qc)
  end.

Definition maybe_broadcast_local_vote_for_current_pre_qc_tip : M unit :=
  s ← get;
  if negb (consensus_v2 (flags config)) || negb (bool_decide (highest_local_qc s = None))
  then mret tt
  else match last (blocks (chain s)) with
       | None => mret tt
       | Some tip => maybe_broadcast_local_proposal_vote tip
       end.

Definition locked_in (s : NodeRunner) (bs : list Block) : bool :=
  match highest_locked_qc_hash s with
  | Some locked => existsb (fun b => block_hash b =? locked) bs
  | None => true
  end.

Definition maybe_adopt_vote_supported_branch (tip : HashBytes) : M bool :=
  s ← get;
  if negb (consensus_v2 (flags config)) || certified_head_only_active config s then mret false
  else match build_chain_to_tip s tip with
       | None => mret false
       | Some candidate =>
           if negb (locked_in s candidate) then mret false
           else match compare_branch_quality config s candidate (blocks (chain s)) with
                | Gt => _ ← adopt_canonical_chain candidate "vote-supported-branch-adopted";
                        _ ← maybe_broadcast_local_vote_for_current_pre_qc_tip;
                        mret true
                | _ => mret false
                end
       end.

Definition import_proposal_vote_step (v : ProposalVote) : M bool :=
  if negb (consensus_v2 (flags config)) then fail "proposal votes require consensus_v2"
  else
    _ ← lift (validate_proposal_vote_signature_and_signer v);
    _ ← lift (validate_hybrid_proposal_vote_policy config v);
    s ← get;
    match known_block s (pv_block_hash v) with
    | None => store_buffered_proposal_vote v
    | Some b =>
        if recovery_sync_only_active config s
           && existsb (fun p => block_hash p =? block_hash b)
                (pending_certified_children (chain s))
        then _ ← log_event "proposal-vote-deferred"; mret false
        else
          _ ← lift (validate_proposal_vote_for_block v b);
          inserted ← store_proposal_vote v;
          _ ← (if inserted : bool then
                 qc ← maybe_finalize_quorum_certificate (pv_block_hash v);
                 match qc with
                 | None => _ ← maybe_adopt_vote_supported_branch (pv_block_hash v); mret tt
                 | Some _ => mret tt
                 end
               else mret tt);
          mret inserted
    end.

Definition import_quorum_certificate (qc : QuorumCertificate) : M bool :=
  if negb (consensus_v2 (flags config)) then fail "quorum certificates require consensus_v2"
  else
    s ← get;
    match known_block s (qc_block_hash qc) with
    | None => fail "quorum certificate references unknown block"
    | Some b =>
        _ ← lift (validate_quorum_certificate_for_block qc b);
        _ ← for_each (qc_votes qc) (fun v =>
              _ ← modify (with_votes (remove_conflicting_votes_for_certified_vote v));
              _ ← store_proposal_vote v; mret tt);
        known ← gets (fun s => has_qc s (qc_block_hash qc));
        if known : bool then mret false
        else
          _ ← insert_qc qc;
          _ ← modify (prune_votes_not_extending_certified_block (qc_block_hash qc)
                        (qc_block_number qc));
          _ ← maybe_adopt_certified_branch (qc_block_hash qc);
          _ ← maybe_adopt_better_uncertified_child_for_certified_head;
          _ ← log_event "qc-imported";
          mret true
    end.

(** [buffered_proposal_votes.remove(&hash)], then each vote is imported. *)
Definition import_buffered_proposal_votes_for_block (b : Block) : M unit :=
  buffered ← gets (fun s => buffered_proposal_votes (votes s) !! block_hash b);
  match buffered with
  | None => mret tt
  | Some by_validator =>
      _ ← modify (with_votes (set_buffered (delete (block_hash b))));
      for_each (bt_values by_validator) (fun v =>
        outcome ← try (import v);
        match outcome with
        | Ok _ => mret tt
        | Err _ => log_event "proposal-vote-buffer-dropped"
        end)
  end.
End cycle.

Fixpoint import_proposal_vote (fuel : nat) (v : ProposalVote) : M bool :=
  match fuel with
  | O => out_of_fuel
  | S fuel' => import_proposal_vote_step (import_proposal_vote fuel') v
  end.

(** Restart: the certificates of the file whose block is in the chain. *)
Definition restore_quorum_certificates (qcs : list QuorumCertificate) : M unit :=
  _ ← for_each qcs (fun qc =>
        s ← get;
        match find_first (fun b => block_hash b =? qc_block_hash qc) (blocks (chain s)) with
        | None => mret tt
        | Some b =>
            _ ← lift (validate_quorum_certificate_for_block qc b);
            _ ← for_each (qc_votes qc) (fun v =>
                  _ ← modify (with_votes (remove_conflicting_votes_for_certified_vote v));
                  _ ← store_proposal_vote v; mret tt);
            modify (with_votes (set_qcs (<[qc_block_hash qc := qc]>)))
        end);
  modify (fun s => match highest_local_qc s with
                   | Some qc => prune_votes_not_extending_certified_block (qc_block_hash qc)
                                  (qc_block_number qc) s
                   | None => s
                   end).
End votes.
