(* ===== verification/Safety.v ===== *)
(** * Invariants of the voting core

    What a state predicate must satisfy to survive the voting cycle
    ([VoteInvariant]), and the predicates that do: no stored votes of one
    validator contradict each other, and every stored certificate is well
    formed, signed and large enough.  Durable has those about the ledger and
    the files.  Also here: the certificate check counts a repeated vote. *)
From S2P Require Import Prelude F64 Hybrid Types Concrete Crypto Ledger Consensus.
From S2P Require Import Policy Snapshots NodeState Branches Receipts SyncServe Votes.

Open Scope Z_scope.

Section interface.
Context `{Hashing} `{CryptoBackend}.
Context (config : NodeConfig) (e : ConsensusEngine).

Definition vote_valid (v : ProposalVote) : Prop :=
  validate_proposal_vote_signature_and_signer e v = Ok tt.

(** A certificate with what its acceptance checked. *)
Definition qc_checked (qc : QuorumCertificate) : Prop :=
  qc_is_well_formed qc = true /\ certificate_threshold e <= Z.of_nat (length (qc_votes qc)) /\
  Forall vote_valid (qc_votes qc).

(** What the voting cycle does to the state, operation by operation. *)
Class VoteInvariant (I : NodeRunner -> Prop) : Prop := {
  vi_quiet : Quiet I;
  vi_adopt bs ev : keeps I (adopt_canonical_chain config e bs ev);
  vi_store v : vote_valid v -> keeps I (store_proposal_vote config v);
  vi_buffer v : vote_valid v -> keeps I (store_buffered_proposal_vote config v);
  vi_build h : keeps I (maybe_build_qc e h);
  vi_insert_qc qc s : qc_checked qc -> has_qc s (qc_block_hash qc) = false ->
    I s -> I (insert_qc qc s).2;
  vi_take h : keeps I (modify (with_votes (set_buffered (delete h))));
  vi_retract v : keeps I (modify (with_votes (remove_conflicting_votes_for_certified_vote v)));
  vi_prune h n : keeps I (modify (prune_votes_not_extending_certified_block h n)) }.

Lemma validate_qc_votes_ok b l :
  foldr (fun v rest => _ ← validate_proposal_vote_for_block config e v b; rest) (Ok tt) l = Ok tt ->
  Forall vote_valid l.
Proof.
  induction l as [|v l IHl]; simpl; [constructor|]. intros (u & Hv & Hl)%result_bind_ok.
  constructor; [|by apply IHl]. unfold validate_proposal_vote_for_block in Hv.
  by apply result_bind_ok in Hv as ([] & ? & _).
Qed.

Lemma validate_qc_ok qc b :
  validate_quorum_certificate_for_block config e qc b = Ok tt ->
  qc_checked qc /\ qc_block_hash qc = block_hash b.
Proof.
  unfold validate_quorum_certificate_for_block.
  intros (u1 & H1 & (u2 & H2 & (u3 & H3 & (u4 & H4 & Hvs)
    %result_bind_ok)%result_bind_ok)%result_bind_ok)%result_bind_ok.
  inv_ok. bool_to_prop. split; [|done]. split_and!; [done|lia|by eapply validate_qc_votes_ok].
Qed.

(** ** The cycle preserves every such invariant *)

Section preservation.
Context (I : NodeRunner -> Prop) `{HI : !VoteInvariant I}.
#[local] Instance vote_invariant_quiet : Quiet I := vi_quiet.
Hint Resolve vi_adopt vi_store vi_buffer vi_build vi_take vi_retract vi_prune : keeps.

Section step.
Variable import : ProposalVote -> M bool.
Hypothesis import_keeps : forall v, keeps I (import v).
Hint Resolve import_keeps : keeps.

Lemma keeps_adopt_certified_branch h : keeps I (maybe_adopt_certified_branch config e h).
Proof using HI. unfold maybe_adopt_certified_branch. keeps_auto. Qed.
Hint Resolve keeps_adopt_certified_branch : keeps.

Lemma keeps_broadcast_local_vote b :
  keeps I (maybe_broadcast_local_proposal_vote config import b).
Proof using HI import_keeps. unfold maybe_broadcast_local_proposal_vote. keeps_auto. Qed.
Hint Resolve keeps_broadcast_local_vote : keeps.

Lemma keeps_adopt_better_child :
  keeps I (maybe_adopt_better_uncertified_child_for_certified_head config e import).
Proof using HI import_keeps.
  unfold maybe_adopt_better_uncertified_child_for_certified_head. keeps_auto.
Qed.
Hint Resolve keeps_adopt_better_child : keeps.

Lemma keeps_finalize h : keeps I (maybe_finalize_quorum_certificate config e import h).
Proof using HI import_keeps. unfold maybe_finalize_quorum_certificate. keeps_auto. Qed.
Hint Resolve keeps_finalize : keeps.

Lemma keeps_vote_for_tip :
  keeps I (maybe_broadcast_local_vote_for_current_pre_qc_tip config import).
Proof using HI import_keeps.
  unfold maybe_broadcast_local_vote_for_current_pre_qc_tip. keeps_auto.
Qed.
Hint Resolve keeps_vote_for_tip : keeps.

Lemma keeps_adopt_vote_supported h :
  keeps I (maybe_adopt_vote_supported_branch config e import h).
Proof using HI import_keeps. unfold maybe_adopt_vote_supported_branch. keeps_auto. Qed.
Hint Resolve keeps_adopt_vote_supported : keeps.

Lemma keeps_import_step v : keeps I (import_proposal_vote_step config e import v).
Proof using HI import_keeps.
  unfold import_proposal_vote_step. destruct (consensus_v2 _); simpl; [|keeps_auto].
  apply keeps_lift_bind. intros [] Hv. keeps_auto.
Qed.

Lemma keeps_store_certified_votes l :
  Forall vote_valid l ->
  keeps I (for_each l (fun v =>
    _ ← modify (with_votes (remove_conflicting_votes_for_certified_vote v));
    _ ← store_proposal_vote config v; mret tt)).
Proof using HI. induction 1; simpl; keeps_auto. Qed.

Lemma keeps_import_qc qc : keeps I (import_quorum_certificate config e import qc).
Proof using HI import_keeps.
  unfold import_quorum_certificate. destruct (consensus_v2 _); simpl; [|keeps_auto].
  apply keeps_bind; [apply keeps_get|]. intros s0.
  destruct (known_block s0 _) as [b|]; [|keeps_auto].
  apply keeps_lift_bind. intros [] (Hqc & _)%validate_qc_ok.
  apply keeps_bind; [apply keeps_store_certified_votes, Hqc|]. intros _ s Hs.
  unfold mbind at 1, M_bind at 1, gets. destruct (has_qc s (qc_block_hash qc)) eqn:Eq; [done|].
  apply bind_keeps_from; [by apply vi_insert_qc | keeps_auto].
Qed.

Lemma keeps_import_buffered b :
  keeps I (import_buffered_proposal_votes_for_block import b).
Proof using HI import_keeps. unfold import_buffered_proposal_votes_for_block. keeps_auto. Qed.
End step.

Lemma keeps_import_proposal_vote fuel v : keeps I (import_proposal_vote config e fuel v).
Proof using HI.
  revert v. induction fuel as [|fuel IH]; intros v; simpl; [apply keeps_halt|].
  by apply keeps_import_step.
Qed.
End preservation.
End interface.

(** ** The vote store *)

Definition holds (m : VoteMap) (h : HashBytes) (id : ValidatorId) (v : ProposalVote) : Prop :=
  exists inner, m !! h = Some inner /\ inner !! id = Some v.

(** A vote the node holds, counted or buffered. *)
Definition voted (vs : VoteState) (h : HashBytes) (id : ValidatorId) (v : ProposalVote) : Prop :=
  holds (proposal_votes vs) h id v \/ holds (buffered_proposal_votes vs) h id v.

(** Two votes that a correct validator does not both cast. *)
Definition compatible_votes (v w : ProposalVote) : Prop :=
  pv_block_number v <> pv_block_number w /\ ~ (pv_epoch v = pv_epoch w /\ pv_slot v = pv_slot w).

Definition sub_votes (vs vs' : VoteState) : Prop :=
  forall h id v, voted vs h id v -> voted vs' h id v.

Lemma drop_vote_holds h0 id0 m h id v :
  holds (drop_vote h0 id0 m) h id v <-> holds m h id v /\ ~ (h = h0 /\ id = id0).
Proof.
  unfold holds, drop_vote. destruct (m !! h0) as [inner0|] eqn:E0.
  - case_decide as Hd.
    + destruct (decide (h = h0)) as [->|Hne].
      * rewrite lookup_delete_eq. split; [by intros (? & ? & _)|].
        intros [(inner & Hi & Hv) Hn]. simplify_eq. exfalso.
        pose proof (f_equal (fun m => m !! id) Hd) as Hl. simpl in Hl.
        rewrite lookup_delete_ne, lookup_empty in Hl by naive_solver. congruence.
      * rewrite lookup_delete_ne by done. naive_solver.
    + destruct (decide (h = h0)) as [->|Hne].
      * rewrite lookup_insert_eq. split.
        -- intros (inner & [= <-] & Hv). apply lookup_delete_Some in Hv as [? Hv]. naive_solver.
        -- intros [(inner & Hi & Hv) Hn]. simplify_eq. eexists; split; [done|].
           by rewrite lookup_delete_ne by naive_solver.
      * rewrite lookup_insert_ne by done. naive_solver.
  - split; [|naive_solver]. intros (inner & Hi & Hv). split; [by exists inner|].
    intros [-> _]. congruence.
Qed.

Lemma retain_compatible_sub w m h id v :
  holds (retain_compatible w m) h id v -> holds m h id v.
Proof.
  unfold holds, retain_compatible. intros (inner & Hi & Hv).
  rewrite map_lookup_imap in Hi. apply bind_Some in Hi as (inner0 & Hm & Hi). exists inner0.
  split; [done|]. case_decide; simplify_eq. destruct (h =? pv_block_hash w); [done|].
  by apply map_lookup_filter_Some in Hv as [? _].
Qed.

Lemma retain_hashes_sub p m h id v : holds (retain_hashes p m) h id v -> holds m h id v.
Proof.
  unfold holds, retain_hashes. intros (inner & [Hi _]%map_lookup_filter_Some & Hv). eauto.
Qed.

Lemma delete_sub h0 (m : VoteMap) h id v : holds (delete h0 m) h id v -> holds m h id v.
Proof. intros (inner & [_ Hi]%lookup_delete_Some & Hv). by exists inner. Qed.

Lemma insert_vote_holds w m h id v :
  holds (insert_vote w m) h id v ->
  holds m h id v \/ (h = pv_block_hash w /\ id = pv_validator w /\ v = w).
Proof.
  unfold holds, insert_vote. intros (inner & Hi & Hv).
  apply lookup_insert_Some in Hi as [[<- <-]|[Hne Hi]]; [|by left; exists inner].
  apply lookup_insert_Some in Hv as [[<- <-]|[Hne Hv]]; [by right|]. left.
  destruct (m !! pv_block_hash w) as [inner|] eqn:E; simpl in Hv; [by exists inner|].
  by rewrite lookup_empty in Hv.
Qed.

Lemma votes_of_elem s id v : v ∈ votes_of s id <-> exists h, voted (votes s) h id v.
Proof.
  unfold votes_of, voted, holds. rewrite list_elem_of_omap. setoid_rewrite elem_of_app.
  setoid_rewrite bt_values_elem. naive_solver.
Qed.

Section vote_store.
Context `{Hashing} `{CryptoBackend}.
Context (config : NodeConfig) (e : ConsensusEngine).

(** Stored votes are filed under their own hash and signer, are signed by a
    validator, and no validator's votes contradict each other. *)
Definition votes_ok (vs : VoteState) : Prop :=
  (forall h id v, voted vs h id v ->
     pv_block_hash v = h /\ pv_validator v = id /\ vote_valid e v) /\
  (forall h h' id v v', voted vs h id v -> voted vs h' id v' -> h <> h' -> compatible_votes v v').

Definition qcs_ok (vs : VoteState) : Prop :=
  forall h qc, quorum_certificates vs !! h = Some qc -> qc_block_hash qc = h /\ qc_checked e qc.

Definition vote_store_ok (s : NodeRunner) : Prop := votes_ok (votes s) /\ qcs_ok (votes s).

#[export] Instance vote_store_quiet : Quiet vote_store_ok.
Proof. by split. Qed.

Lemma votes_ok_sub vs vs' : sub_votes vs' vs -> votes_ok vs -> votes_ok vs'.
Proof. intros Hsub [H1 H2]. split; [eauto | intros; eapply H2; eauto]. Qed.

Lemma compatible_sym v w : compatible_votes v w -> compatible_votes w v.
Proof. unfold compatible_votes. intros [? ?]. split; [congruence|]. naive_solver congruence. Qed.

Lemma scan_conflicts_ok s v l out :
  scan_conflicts config s v l = Ok out ->
  out ⊆ l /\ forall x, x ∈ l -> pv_block_hash x <> pv_block_hash v -> x ∈ out \/ compatible_votes x v.
Proof.
  revert out. induction l as [|x l IHl]; intros out; cbn [scan_conflicts].
  { intros [= <-]. split; [done|]. by intros x ?%elem_of_nil. }
  destruct (Z.eqb_spec (pv_block_hash x) (pv_block_hash v)) as [E|E].
  { intros [Hs Ho]%IHl. split; [set_solver|]. intros y [->|Hy]%elem_of_cons; [done|]. auto. }
  destruct (can_replace_conflicting_proposal_vote config s x v).
  { intros (c & [Hs Ho]%IHl & [= <-])%result_bind_ok. split; [set_solver|].
    intros y [->|Hy]%elem_of_cons Hne; [left; by left|]. destruct (Ho y Hy Hne); [left; by right|auto]. }
  destruct (_ && _ && _) eqn:Ec; [|done]. intros [Hs Ho]%IHl. split; [set_solver|].
  intros y [->|Hy]%elem_of_cons Hne; [right | by auto]. bool_to_prop.
  split; [done|]. intros [E1 E2]. rewrite E1, E2, !Z.eqb_refl in *. done.
Qed.

(** The replacement loop takes exactly the listed votes out. *)
Lemma remove_votes_loop l s :
  exists s', for_each l (fun x =>
    _ ← modify (with_votes (remove_proposal_vote_from_maps x));
    log_event "proposal-vote-replaced") s = (Done tt, s') /\
    quorum_certificates (votes s') = quorum_certificates (votes s) /\
    (forall h id v, voted (votes s') h id v -> voted (votes s) h id v /\
       forall x, x ∈ l -> ~ (h = pv_block_hash x /\ id = pv_validator x)).
Proof.
  revert s. induction l as [|x l IHl]; intros s.
  { exists s. split_and!; [done..|]. intros h id v Hv. split; [done|]. by intros x ?%elem_of_nil. }
  cbn [for_each]. rewrite run_bind, run_modify. unfold log_event at 1, modify at 1.
  destruct (IHl (with_log (fun l => l ++ ["proposal-vote-replaced"%string])
                   (with_votes (remove_proposal_vote_from_maps x) s))) as (s' & Hr & Hq & Hv).
  exists s'. split_and!; [exact Hr | by rewrite Hq |].
  intros h id v [Hvx Hl]%Hv. unfold voted in Hvx. simpl in Hvx. rewrite !drop_vote_holds in Hvx.
  split; [unfold voted; naive_solver|]. intros y [->|Hy]%elem_of_cons; [naive_solver|]. auto.
Qed.

Lemma resolve_spec v s :
  vote_store_ok s ->
  match resolve_conflicting_proposal_vote config v s with
  | (Done _, s') => sub_votes (votes s') (votes s) /\
      quorum_certificates (votes s') = quorum_certificates (votes s) /\
      (forall h w, voted (votes s') h (pv_validator v) w -> h <> pv_block_hash v ->
         compatible_votes w v)
  | (_, s') => s' = s
  end.
Proof.
  intros [[Hkeys _] _]. unfold resolve_conflicting_proposal_vote. rewrite run_get, run_lift.
  destruct (scan_conflicts config s v (votes_of s (pv_validator v))) as [l|] eqn:Es; [|done].
  destruct (remove_votes_loop l s) as (s' & Hr & Hq & Hv). rewrite Hr.
  apply scan_conflicts_ok in Es as [_ Hc]. split_and!; [|done|].
  - intros h id w Hw. by apply Hv in Hw as [? _].
  - intros h w Hw Hne. destruct (Hv _ _ _ Hw) as [Hold Hnot].
    destruct (Hkeys _ _ _ Hold) as (Hh & Hid & _).
    destruct (Hc w) as [Hin|?]; [apply votes_of_elem; eauto | congruence | | done].
    exfalso. apply (Hnot w Hin). done.
Qed.

Lemma vote_store_sub vs vs' :
  sub_votes vs' vs -> quorum_certificates vs' = quorum_certificates vs ->
  votes_ok vs /\ qcs_ok vs -> votes_ok vs' /\ qcs_ok vs'.
Proof. intros Hs Hq [Hv Hc]. split; [by eapply votes_ok_sub|]. unfold qcs_ok. by rewrite Hq. Qed.

(** Adding a valid vote that contradicts nothing its signer voted for. *)
Lemma votes_ok_insert v vs vs' :
  vote_valid e v ->
  (forall h w, voted vs h (pv_validator v) w -> h <> pv_block_hash v -> compatible_votes w v) ->
  (forall h id w, voted vs' h id w -> voted vs h id w \/
     (h = pv_block_hash v /\ id = pv_validator v /\ w = v)) ->
  votes_ok vs -> votes_ok vs'.
Proof.
  intros Hv Hc Hins [H1 H2]. split.
  - intros h id w [Hw|(-> & -> & ->)]%Hins; [by apply H1|done].
  - intros h h' id w w' [Hw|(-> & -> & ->)]%Hins [Hw'|(-> & Hid & ->)]%Hins Hne.
    + by eapply H2.
    + subst. by apply (Hc h).
    + apply compatible_sym, (Hc h'); [done|congruence].
    + done.
Qed.

Lemma store_keeps v : vote_valid e v -> keeps vote_store_ok (store_proposal_vote config v).
Proof.
  intros Hv s Hs. unfold store_proposal_vote. rewrite run_bind.
  pose proof (resolve_spec v s Hs) as Hr.
  destruct (resolve_conflicting_proposal_vote config v s) as [[u|m|r] s1]; [|by subst..].
  destruct Hr as (Hsub & Hq & Hc).
  assert (Hs1 : vote_store_ok s1) by (by eapply vote_store_sub).
  rewrite run_gets. destruct (stored_vote _ v) as [old|]; [by destruct (same_vote old v)|].
  rewrite run_modify. destruct Hs1 as [Hok Hqok]. split; [|exact Hqok].
  eapply votes_ok_insert; [exact Hv|exact Hc| |exact Hok].
  intros h id w [Hw|Hw]; simpl in Hw; [|by left; right].
  apply insert_vote_holds in Hw as [?|?]; [by left; left|by right].
Qed.

Lemma buffer_keeps v : vote_valid e v -> keeps vote_store_ok (store_buffered_proposal_vote config v).
Proof.
  intros Hv s Hs. unfold store_buffered_proposal_vote. rewrite run_bind.
  pose proof (resolve_spec v s Hs) as Hr.
  destruct (resolve_conflicting_proposal_vote config v s) as [[u|m|r] s1]; [|by subst..].
  destruct Hr as (Hsub & Hq & Hc).
  assert (Hs1 : vote_store_ok s1) by (by eapply vote_store_sub).
  rewrite run_gets. destruct (stored_vote _ v) as [old|]; [by destruct (same_vote old v)|].
  destruct Hs1 as [Hok Hqok]. split; [|exact Hqok].
  eapply votes_ok_insert; [exact Hv|exact Hc| |exact Hok].
  intros h id w [Hw|Hw]; simpl in Hw; [by left; left|].
  apply insert_vote_holds in Hw as [?|?]; [by left; right|by right].
Qed.

Lemma retract_keeps v :
  keeps vote_store_ok (modify (with_votes (remove_conflicting_votes_for_certified_vote v))).
Proof.
  apply keeps_modify. intros s. apply vote_store_sub; [|done].
  intros h id w [Hw|Hw]; simpl in Hw; apply retain_compatible_sub in Hw; [by left|by right].
Qed.

Lemma prune_keeps h n :
  keeps vote_store_ok (modify (prune_votes_not_extending_certified_block h n)).
Proof.
  apply keeps_modify. intros s. apply vote_store_sub; [|done].
  intros k id w [Hw|Hw]; simpl in Hw; apply retain_hashes_sub in Hw; [by left|by right].
Qed.

Lemma take_keeps h : keeps vote_store_ok (modify (with_votes (set_buffered (delete h)))).
Proof.
  apply keeps_modify. intros s. apply vote_store_sub; [|done].
  intros k id w [Hw|Hw]; simpl in Hw; [by left|right; by eapply delete_sub].
Qed.

Lemma insert_qc_keeps qc s :
  qc_checked e qc -> vote_store_ok s -> vote_store_ok (insert_qc qc s).2.
Proof.
  intros Hqc [Hv Hq]. split; [exact Hv|]. intros h q Hl. simpl in Hl.
  apply lookup_insert_Some in Hl as [[<- <-]|[_ Hl]]; [done|by apply Hq].
Qed.

(** What building a certificate does. *)
Lemma maybe_build_qc_spec h s :
  vote_store_ok s ->
  match maybe_build_qc e h s with
  | (Done (Some qc), s') =>
      (quorum_certificates (votes s) !! h = Some qc /\ s' = s) \/
      (quorum_certificates (votes s) !! h = None /\ qc_checked e qc /\ qc_block_hash qc = h /\
       NoDup (pv_validator <$> qc_votes qc) /\
       s' = prune_votes_not_extending_certified_block h (qc_block_number qc) (insert_qc qc s).2)
  | (Done None, s') | (Failed _, s') | (Halted _, s') => s' = s
  end.
Proof.
  intros [Hv Hq]. unfold maybe_build_qc. rewrite run_get.
  destruct (quorum_certificates (votes s) !! h) as [qc|] eqn:Eq; [by left|].
  destruct (known_block s h) as [b|]; [|done].
  destruct (proposal_votes (votes s) !! h) as [m|] eqn:Em; [|done].
  destruct (Z.ltb_spec (Z.of_nat (size m)) (certificate_threshold e)) as [|Hsz]; [done|].
  destruct (qc_is_well_formed _) eqn:Ewf; [|done]. simpl.
  assert (Hm : forall id v, m !! id = Some v -> pv_validator v = id /\ vote_valid e v).
  { intros id v Hid. destruct Hv as [Hk _]. destruct (Hk h id v) as (_ & ? & ?); [|done].
    left. by exists m. }
  right. split_and!; [done| |done| |done].
  - split_and!; [done | simpl; by rewrite bt_values_length |].
    apply Forall_forall. intros v [id Hid]%bt_values_elem. by apply (Hm id).
  - assert (Hkeys : pv_validator <$> bt_values m = bt_keys m).
    { unfold bt_values, bt_keys. rewrite <- list_fmap_compose. apply list_fmap_ext.
      intros i [k v] Hi. apply list_elem_of_lookup_2 in Hi. apply bt_entries_elem in Hi.
      by destruct (Hm _ _ Hi). }
    simpl. rewrite Hkeys. apply bt_keys_NoDup.
Qed.

Lemma build_qc_keeps h : keeps vote_store_ok (maybe_build_qc e h).
Proof.
  intros s Hs. pose proof (maybe_build_qc_spec h s Hs) as Hb.
  destruct (maybe_build_qc e h s) as [[[qc|]|m|r] s']; [|by subst..].
  destruct Hb as [[_ ->]|(_ & Hqc & _ & _ & ->)]; [done|].
  apply (prune_keeps h (qc_block_number qc)). by apply insert_qc_keeps.
Qed.

(** Whatever only depends on the votes survives adopting a chain. *)
Lemma adopt_keeps_votes (P : VoteState -> Prop) bs ev :
  keeps (fun s => P (votes s)) (adopt_canonical_chain config e bs ev).
Proof.
  assert (Quiet (fun s => P (votes s))) by (by split).
  unfold adopt_canonical_chain, persist_receipt, rebuild_seen_sets, write_snapshot,
    persist_quorum_certificates. keeps_auto; done.
Qed.

#[export] Instance vote_store_invariant : VoteInvariant config e vote_store_ok.
Proof.
  split; eauto using store_keeps, buffer_keeps, build_qc_keeps, take_keeps, retract_keeps,
    prune_keeps, insert_qc_keeps with typeclass_instances.
  intros bs ev. apply (adopt_keeps_votes (fun vs => votes_ok vs /\ qcs_ok vs)).
Qed.
End vote_store.

(** ** Repeated votes *)

Section repetition.
Context `{Hashing} `{CryptoBackend}.
Context (config : NodeConfig) (e : ConsensusEngine).

(** The check of a received certificate counts votes, not validators:
    for any block and any one valid vote for it, the certificate that repeats
    this vote up to the threshold passes, so a single validator certifies any
    block it voted for. *)
Lemma repeated_vote_certificate_accepted v b :
  validators (genesis e) <> [] -> pv_block_hash v = block_hash b ->
  validate_proposal_vote_for_block config e v b = Ok tt ->
  let vs := replicate (quorum_certificate_threshold (length (validators (genesis e)))) v in
  validate_quorum_certificate_for_block config e
    (mkQc (block_hash b) (block_number (header b)) (bh_epoch (header b)) (bh_slot (header b))
       (quorum_certificate_vote_root vs) vs) b = Ok tt.
Proof.
  intros Hne Hh Hv vs. pose proof Hv as Hm. unfold validate_proposal_vote_for_block in Hm.
  apply result_bind_ok in Hm as ([] & _ & ([] & _ & Hm)%result_bind_ok). apply ensure_ok in Hm.
  unfold validate_quorum_certificate_for_block, certificate_threshold, qc_is_well_formed.
  cbn [qc_block_hash qc_block_number qc_epoch qc_slot qc_votes qc_vote_root].
  assert (Hlen : length vs = quorum_certificate_threshold (length (validators (genesis e))))
    by (unfold vs; by rewrite length_replicate).
  assert (Hnil : vs <> []).
  { intros E. rewrite E in Hlen. unfold quorum_certificate_threshold in Hlen.
    destruct (validators (genesis e)); [done|]. simpl in Hlen. lia. }
  assert (Hall : forallb (fun w => (pv_block_hash w =? block_hash b)
      && (pv_block_number w =? block_number (header b)) && (pv_epoch w =? bh_epoch (header b))
      && (pv_slot w =? bh_slot (header b))) vs = true).
  { apply forallb_forall. intros w Hw%list_elem_of_In%elem_of_replicate_inv. by rewrite Hw, Hh, Z.eqb_refl. }
  rewrite !Z.eqb_refl, Hlen, Z.leb_refl, bool_decide_false, Hall by done. simpl.
  unfold vs. clear -Hv. induction (quorum_certificate_threshold _) as [|n IH]; simpl; [done|].
  by rewrite Hv.
Qed.
End repetition.
