(* ===== verification/Durable.v ===== *)
(** * What survives a restart

    The ledger is the replay of the node's chain, the files hold the chain,
    the snapshot, the receipts and the certificates, and no relay event is
    counted twice.  The voting cycle keeps all of it. *)
From S2P Require Import Prelude F64 Hybrid Types Concrete Crypto Ledger Consensus.
From S2P Require Import Policy Snapshots NodeState Branches Receipts SyncServe Votes Safety.

Open Scope Z_scope.

Section durable.
Context `{Hashing} `{CryptoBackend}.
Context (config : NodeConfig) (e : ConsensusEngine).

Definition ledger_ok (c : ChainState) : Prop := replay_blocks (genesis e) (blocks c) = Ok (ledger c).

(** Every relay event at most once, and remembered. *)
Definition receipts_ok (p : PoolState) : Prop :=
  NoDup (receipt_event_hash <$> receipts p) /\
  (forall r, r ∈ receipts p -> canonical_hash (CReceipt r) ∈ seen_receipts p /\
                               receipt_event_hash r ∈ seen_receipt_events p).

(** What [run_node] would load. *)
Definition files_ok (c : ChainState) (p : PoolState) (qcs : gmap HashBytes QuorumCertificate)
    (d : Storage) : Prop :=
  blocks_file d = blocks c /\ default (from_genesis (genesis e)) (snapshot_file d) = ledger c /\
  receipts_file d = receipts p /\
  (forall h qc, qcs !! h = Some qc -> qc ∈ quorum_certificates_file d).

Definition durable_ok (s : NodeRunner) : Prop :=
  ledger_ok (chain s) /\ receipts_ok (pool s) /\
  files_ok (chain s) (pool s) (quorum_certificates (votes s)) (storage s).

#[export] Instance durable_quiet : Quiet durable_ok.
Proof. by split. Qed.

(** [persist_receipt] always returns, and only touches the receipts, their
    file, the counters and the log. *)
Definition receipts_only (s s' : NodeRunner) : Prop :=
  chain s' = chain s /\ votes s' = votes s /\ service s' = service s /\ slots s' = slots s /\
  sync s' = sync s /\ outbox s' = outbox s /\ clock s' = clock s /\
  exists rs, receipts (pool s') = receipts (pool s) ++ rs /\
    storage s' = set_receipts_file (fun l => l ++ rs) (storage s).

#[export] Instance receipts_only_preorder : PreOrder receipts_only.
Proof.
  split.
  - intros s. split_and!; try done. exists []. rewrite app_nil_r. split; [done|].
    destruct s as [????????]; simpl. destruct storage. unfold set_receipts_file; simpl.
    by rewrite app_nil_r.
  - intros s t u (? & ? & ? & ? & ? & ? & ? & rs & Hr & Hd) (? & ? & ? & ? & ? & ? & ? & rs' & Hr' & Hd').
    split_and!; try congruence. exists (rs ++ rs'). rewrite Hr', Hr, app_assoc. split; [done|].
    rewrite Hd', Hd. unfold set_receipts_file; simpl. by rewrite app_assoc.
Qed.

Lemma receipts_ok_add r p :
  receipts_ok p -> receipt_event_hash r ∉ seen_receipt_events p -> receipts_ok (add_receipt r p).
Proof.
  intros [Hnd Hseen] Hev. split; simpl.
  - rewrite fmap_app. apply NoDup_app. split_and!; [done| |simpl; constructor; [apply not_elem_of_nil|constructor]].
    intros h (x & -> & Hx)%list_elem_of_fmap Heq. apply list_elem_of_singleton in Heq.
    apply Hev. rewrite <- Heq. by apply Hseen.
  - intros x [Hx|Hx]%elem_of_app.
    + destruct (Hseen x Hx). split; apply elem_of_union; by right.
    + apply list_elem_of_singleton in Hx as ->. split; apply elem_of_union; left;
        by apply elem_of_singleton.
Qed.

Lemma persist_receipt_spec r s :
  exists b s', persist_receipt config r s = (Done b, s') /\ receipts_only s s' /\
    (receipts_ok (pool s) -> receipts_ok (pool s')).
Proof.
  unfold persist_receipt. rewrite run_gets. case_bool_decide as H1.
  { exists false, s. split_and!; [done|reflexivity|done]. }
  case_bool_decide as H2.
  { eexists _, _. split_and!; [done| |done]. destruct s as [????????]; simpl. split_and!; try done.
    exists []. rewrite app_nil_r. split; [done|]. destruct storage.
    unfold set_receipts_file; simpl. by rewrite app_nil_r. }
  eexists _, _. split_and!; [done| |].
  - split_and!; try done. by exists [r].
  - intros Hok. by apply receipts_ok_add.
Qed.

Lemma persist_loop_spec rs s :
  exists s', for_each rs (fun r => _ ← persist_receipt config r; mret tt) s = (Done tt, s') /\
    receipts_only s s' /\ (receipts_ok (pool s) -> receipts_ok (pool s')).
Proof.
  revert s. induction rs as [|r rs IH]; intros s; cbn [for_each].
  { exists s. split_and!; [done|reflexivity|done]. }
  destruct (persist_receipt_spec r s) as (b & s1 & E1 & Ho1 & Hr1).
  destruct (IH s1) as (s2 & E2 & Ho2 & Hr2). exists s2.
  rewrite run_bind, run_bind, E1. split_and!; [exact E2|by etrans|auto].
Qed.

(** What adopting a chain leaves, when its blocks replay. *)
Lemma adopt_spec bs ev s :
  match replay_blocks (genesis e) bs with
  | Err m => adopt_canonical_chain config e bs ev s = (Failed m, s)
  | Ok l =>
      exists s', adopt_canonical_chain config e bs ev s = (Done tt, s') /\
        chain s' = switch_chain l bs (chain s) /\ votes s' = votes s /\
        slots s' = slots s /\ sync s' = sync s /\ outbox s' = outbox s /\
        clock s' = clock s /\ (durable_ok s -> durable_ok s')
  end.
Proof.
  unfold adopt_canonical_chain. rewrite run_lift.
  destruct (replay_blocks (genesis e) bs) as [l|m] eqn:El; [|done].
  rewrite run_modify. set (s1 := with_chain (switch_chain l bs) s).
  destruct (persist_loop_spec (concat (commitment_receipts <$> bs)) s1)
    as (s2 & E2 & (Hc & Hv & _ & Hsl & Hsy & Ho & Hcl & rs & Hr & Hd) & Hok).
  rewrite run_bind, E2. eexists. split; [reflexivity|].
  cbn [chain votes slots sync outbox clock with_log with_storage with_service with_pool]. rewrite Hc, Hv, Hsl, Hsy, Ho, Hcl.
  split_and!; try done.
  intros (_ & Hrec & (_ & _ & Hf & _)). specialize (Hok Hrec). destruct Hok as [Hnd _].
  split_and!.
  - unfold ledger_ok. cbn [chain with_log with_storage with_service with_pool]. by rewrite Hc.
  - split; cbn [pool with_log with_storage with_service with_pool rebuild_seen_pool receipts
      seen_receipts seen_receipt_events]; [done|].
    intros r Hr0. split; apply elem_of_list_to_set.
    + by apply (list_elem_of_fmap_2 (fun r => canonical_hash (CReceipt r))).
    + by apply list_elem_of_fmap_2.
  - unfold files_ok; simpl. rewrite Hc, Hv, Hd. simpl. split_and!; try done.
    + by rewrite Hr, Hf.
    + intros h qc Hqc. apply bt_values_elem. eauto.
Qed.

Lemma durable_adopt bs ev : keeps durable_ok (adopt_canonical_chain config e bs ev).
Proof.
  intros s Hs. pose proof (adopt_spec bs ev s) as Ha.
  destruct (replay_blocks (genesis e) bs) as [l|m]; [|by rewrite Ha].
  destruct Ha as (s' & -> & _ & _ & _ & _ & _ & _ & Hk). by apply Hk.
Qed.

Lemma durable_insert_qc qc s : durable_ok s -> durable_ok (insert_qc qc s).2.
Proof.
  intros (Hl & Hr & Hb & Hsn & Hrf & Hq). split_and!; try done.
  unfold files_ok. split_and!; try done. simpl.
  intros h q [[<- <-]|[_ Hh]]%lookup_insert_Some; apply elem_of_app; [right; by left|left; eauto].
Qed.

Lemma durable_build h : keeps durable_ok (maybe_build_qc e h).
Proof.
  intros s Hs. unfold maybe_build_qc. rewrite run_get.
  destruct (quorum_certificates (votes s) !! h) as [qc|] eqn:Eq; [done|].
  destruct (known_block s h) as [b|]; [|done].
  destruct (proposal_votes (votes s) !! h) as [m|]; [|done].
  destruct (_ <? _); [done|]. destruct (qc_is_well_formed _); [|done]. simpl.
  by apply (durable_insert_qc (mkQc h _ _ _ _ _) s).
Qed.

Lemma durable_resolve v : keeps durable_ok (resolve_conflicting_proposal_vote config v).
Proof. unfold resolve_conflicting_proposal_vote. keeps_auto; done. Qed.

Lemma durable_retract v :
  keeps durable_ok (modify (with_votes (remove_conflicting_votes_for_certified_vote v))).
Proof. by apply keeps_modify. Qed.

#[export] Instance durable_invariant : VoteInvariant config e durable_ok.
Proof.
  split.
  - apply _.
  - apply durable_adopt.
  - intros v _. unfold store_proposal_vote. apply keeps_bind; [apply durable_resolve|].
    keeps_auto; done.
  - intros v _. unfold store_buffered_proposal_vote. apply keeps_bind; [apply durable_resolve|].
    keeps_auto; done.
  - apply durable_build.
  - intros qc s _ _. apply durable_insert_qc.
  - intros h. by apply keeps_modify.
  - apply durable_retract.
  - intros h n. by apply keeps_modify.
Qed.

Lemma durable_store_receipt r : keeps durable_ok (store_receipt config e r).
Proof.
  unfold store_receipt, validate_receipt, reject_receipt. keeps_auto; try done.
  intros s (Hl & Hr & Hf). destruct (persist_receipt_spec r s) as (b & s' & -> & Ho & Hok).
  destruct Ho as (Hc & Hv & _ & _ & _ & _ & _ & rs & Hrs & Hd). simpl.
  destruct Hf as (Hb & Hsn & Hrf & Hq). unfold durable_ok, files_ok. rewrite Hc, Hv, Hd. simpl.
  split_and!; try done; [by apply Hok | by rewrite Hrs, Hrf].
Qed.
End durable.
