(* ===== verification/Termination.v ===== *)
(** * The voting cycle ends

    Importing a vote can certify a block, which can move the chain, which makes
    the node vote, which imports that vote.  Every such round certifies one
    more of the known blocks, or votes for a block the node has voted for, so
    the number of known uncertified blocks bounds the depth of the recursion:
    that much fuel always is enough for [import_proposal_vote] of Votes. *)
From S2P Require Import Prelude F64 Hybrid Types Concrete Crypto Ledger Consensus Policy.
From S2P Require Import Snapshots NodeState Branches Receipts SyncServe Votes Safety Durable.

Open Scope Z_scope.

(** ** Methods that never run out of fuel *)

Definition returns {A} (m : M A) : Prop := forall s, (m s).1 <> Halted OutOfFuel.

Lemma returns_ret {A} (a : A) : returns (mret a).
Proof. by intros s. Qed.
Lemma returns_gets {A} (f : NodeRunner -> A) : returns (gets f).
Proof. by intros s. Qed.
Lemma returns_get : returns get.
Proof. by intros s. Qed.
Lemma returns_modify f : returns (modify f).
Proof. by intros s. Qed.
Lemma returns_fail {A} x : returns (fail (A:=A) x).
Proof. by intros s. Qed.
Lemma returns_lift {A} (r : result A) : returns (lift r).
Proof. by destruct r. Qed.
Lemma returns_bind {A B} (m : M A) (f : A -> M B) :
  returns m -> (forall a, returns (f a)) -> returns (m ≫= f).
Proof.
  intros Hm Hf s. rewrite run_bind. specialize (Hm s).
  destruct (m s) as [[a|x|r] s']; simpl in *; [apply Hf|done|congruence].
Qed.
Lemma returns_try {A} (m : M A) : returns m -> returns (try m).
Proof.
  intros Hm s. specialize (Hm s). unfold try. destruct (m s) as [[a|x|r] s']; simpl in *; congruence.
Qed.
Lemma returns_for_each {A} (l : list A) (f : A -> M unit) :
  (forall a, returns (f a)) -> returns (for_each l f).
Proof.
  intros Hf. induction l as [|a l IH]; [apply returns_ret|]. by apply returns_bind.
Qed.

Create HintDb returns.
#[export] Hint Resolve returns_ret returns_gets returns_get returns_modify returns_fail returns_lift
  : returns.

Ltac returns_step :=
  match goal with
  | |- forall _, _ => intros
  | |- returns (_ ≫= _) => apply returns_bind
  | |- returns (try _) => apply returns_try
  | |- returns (for_each _ _) => apply returns_for_each
  | |- returns (if ?b then _ else _) => destruct b
  | |- returns (match ?x with _ => _ end) => destruct x
  | |- returns _ => solve [eauto with returns]
  end.
Ltac returns_auto := repeat returns_step.

Section termination.
Context `{Hashing} `{CryptoBackend}.
Context (config : NodeConfig) (e : ConsensusEngine).

Lemma returns_log ev : returns (log_event ev).
Proof. apply returns_modify. Qed.
Lemma returns_bump c n : returns (bump c n).
Proof. apply returns_modify. Qed.
Lemma returns_send a p m : returns (send_to a p m).
Proof. apply returns_modify. Qed.
Hint Resolve returns_log returns_bump returns_send : returns.
Lemma returns_broadcast ps m : returns (broadcast ps m).
Proof. apply returns_for_each. intros. apply returns_send. Qed.
Lemma returns_broadcast_control ps m : returns (broadcast_control ps m).
Proof. apply returns_for_each. intros. apply returns_send. Qed.
Hint Resolve returns_broadcast returns_broadcast_control : returns.

Lemma returns_full_snapshot p : returns (send_full_snapshot_to config e p).
Proof. unfold send_full_snapshot_to, send_control_to. returns_auto. Qed.
Hint Resolve returns_full_snapshot : returns.
Lemma returns_push_best id h t : returns (push_best_sync_to config e id h t).
Proof.
  unfold push_best_sync_to, send_best_sync_to, send_best_certified_sync_to,
    send_anchored_suffix_sync_to, record_sync_push_served, send_control_to. returns_auto.
Qed.
Hint Resolve returns_push_best : returns.
Lemma returns_announce : returns (announce_certified_progress config e).
Proof.
  unfold announce_certified_progress, broadcast_sync_status, push_sync_to_stale_peers,
    request_best_available_sync_from_ahead_peers, request_best_available_sync_from_ahead_peers_excluding,
    request_sync_from, request_certified_sync_from, request_legacy_sync_from, send_control_to.
  returns_auto.
Qed.
Lemma returns_persist_receipt r : returns (persist_receipt config r).
Proof. unfold persist_receipt. returns_auto. Qed.
Hint Resolve returns_announce returns_persist_receipt : returns.
Lemma returns_adopt bs ev : returns (adopt_canonical_chain config e bs ev).
Proof.
  unfold adopt_canonical_chain, rebuild_seen_sets, write_snapshot, persist_quorum_certificates.
  returns_auto.
Qed.
Lemma returns_resolve v : returns (resolve_conflicting_proposal_vote config v).
Proof. unfold resolve_conflicting_proposal_vote. returns_auto. Qed.
Hint Resolve returns_adopt returns_resolve : returns.
Lemma returns_store v : returns (store_proposal_vote config v).
Proof. unfold store_proposal_vote. returns_auto. Qed.
Lemma returns_buffer v : returns (store_buffered_proposal_vote config v).
Proof. unfold store_buffered_proposal_vote. returns_auto. Qed.
Lemma returns_build h : returns (maybe_build_qc e h).
Proof. unfold maybe_build_qc, insert_qc. returns_auto. Qed.
Lemma returns_adopt_certified h : returns (maybe_adopt_certified_branch config e h).
Proof. unfold maybe_adopt_certified_branch. returns_auto. Qed.

(** ** The measure *)

Definition known_hashes (s : NodeRunner) : gset HashBytes :=
  list_to_set (block_hash <$> known_blocks s).

(** The known blocks without a certificate. *)
Definition uncertified (s : NodeRunner) : gset HashBytes :=
  filter (fun h => has_qc s h = false) (known_hashes s).

(** The cycle moves blocks around and adds certificates. *)
Definition advances (s s' : NodeRunner) : Prop :=
  known_hashes s' = known_hashes s /\ (forall h, has_qc s h = true -> has_qc s' h = true).

#[export] Instance advances_preorder : PreOrder advances.
Proof.
  split; [by intros s|]. intros s t u [Hk Hq] [Hk' Hq']. split; [congruence|auto].
Qed.

Lemma advances_uncertified s s' : advances s s' -> uncertified s' ⊆ uncertified s.
Proof.
  intros [Hk Hq] h. unfold uncertified. rewrite !elem_of_filter, Hk. intros [Hn Hh]. split; [|done].
  destruct (has_qc s h) eqn:E; [|done]. apply Hq in E. congruence.
Qed.

Lemma advances_size s s' n :
  advances s s' -> (size (uncertified s) <= n)%nat -> (size (uncertified s') <= n)%nat.
Proof. intros Ha Hn. apply advances_uncertified, subseteq_size in Ha. lia. Qed.

Lemma known_hash_elem s h b : known_block s h = Some b -> h ∈ known_hashes s.
Proof.
  intros [Hin <-]%known_block_elem. apply elem_of_list_to_set. by apply list_elem_of_fmap_2.
Qed.

#[export] Instance advances_quiet s0 : Quiet (advances s0).
Proof. by split. Qed.

(** ** Methods that end and advance *)

Definition ends_from {A} (s : NodeRunner) (m : M A) : Prop :=
  (m s).1 <> Halted OutOfFuel /\ advances s (m s).2.

Lemma ends_bind {A B} s (m : M A) (f : A -> M B) :
  ends_from s m -> (forall a s', m s = (Done a, s') -> ends_from s' (f a)) -> ends_from s (m ≫= f).
Proof.
  intros [Hm Ha] Hf. unfold ends_from. rewrite run_bind.
  destruct (m s) as [[a|x|r] s'] eqn:E; simpl in *; [|done|split; congruence].
  destruct (Hf a s' eq_refl) as [Hf1 Hf2]. split; [done|by etrans].
Qed.

Lemma ends_try {A} s (m : M A) : ends_from s m -> ends_from s (try m).
Proof.
  unfold ends_from, try. intros [Hm Ha]. destruct (m s) as [[a|x|r] s']; simpl in *; split; congruence.
Qed.

Lemma ends_ret {A} s (a : A) : ends_from s (mret a).
Proof. split; [done|reflexivity]. Qed.

Lemma ends_from_parts {A} s (m : M A) : returns m -> keeps (advances s) m -> ends_from s m.
Proof. intros Hr Hk. split; [apply Hr|]. by apply Hk. Qed.

(** Methods that touch neither the blocks nor the certificates. *)
Lemma ends_quiet {A} s (m : M A) :
  returns m -> (forall I, Quiet I -> keeps I m) -> ends_from s m.
Proof. intros Hr Hk. apply ends_from_parts; [done|]. apply Hk. apply _. Qed.

Lemma ends_votes s f :
  (forall vs, quorum_certificates (f vs) = quorum_certificates vs) ->
  advances s (with_votes f s).
Proof. intros Hf. split; [done|]. intros h. unfold has_qc. simpl. by rewrite Hf. Qed.

Lemma known_hashes_switch l bs s :
  bs ⊆ known_blocks s -> known_hashes (with_chain (switch_chain l bs) s) = known_hashes s.
Proof.
  intros Hsub. apply set_eq. intros h. unfold known_hashes, known_blocks.
  rewrite !elem_of_list_to_set. cbn [chain with_chain switch_chain blocks pending_certified_children orphan_blocks].
  rewrite !list_elem_of_fmap. split.
  - intros (b & -> & Hb). exists b. split; [done|]. apply elem_of_app in Hb as [Hb|Hb].
    + by apply Hsub.
    + apply elem_of_app in Hb as [Hb|Hb]; [by apply elem_of_nil in Hb|].
      apply list_elem_of_filter in Hb as [_ Hb]. rewrite !elem_of_app in *. tauto.
  - intros (b & -> & Hb). destruct (decide (block_hash b ∈ block_hash <$> bs)) as [Hin|Hout].
    + apply list_elem_of_fmap in Hin as (b' & Hh & Hb'). exists b'. split; [done|].
      apply elem_of_app. by left.
    + exists b. split; [done|]. apply elem_of_app. right. apply elem_of_app. right.
      apply list_elem_of_filter. split; [done|]. rewrite !elem_of_app in *. tauto.
Qed.

(** Adopting known blocks: the votes stay, and so do the known blocks. *)
Lemma adopt_known bs ev s u s' :
  bs ⊆ known_blocks s -> adopt_canonical_chain config e bs ev s = (Done u, s') ->
  advances s s' /\ votes s' = votes s /\ blocks (chain s') = bs.
Proof.
  intros Hsub E. pose proof (adopt_spec config e bs ev s) as Ha.
  destruct (replay_blocks (genesis e) bs) as [l|x]; [|congruence].
  destruct Ha as (s1 & E1 & Hc & Hv & _). rewrite E1 in E. injection E as _ <-.
  split_and!; [split| done | by rewrite Hc].
  - rewrite <- (known_hashes_switch l bs s Hsub). unfold known_hashes, known_blocks. by rewrite Hc.
  - intros h. unfold has_qc. by rewrite Hv.
Qed.

Lemma ends_adopt bs ev s :
  bs ⊆ known_blocks s -> ends_from s (adopt_canonical_chain config e bs ev).
Proof.
  intros Hsub. split; [apply returns_adopt|].
  destruct (adopt_canonical_chain config e bs ev s) as [o s'] eqn:E. simpl.
  pose proof (adopt_spec config e bs ev s) as Ha.
  destruct (replay_blocks (genesis e) bs) as [l|x].
  - destruct Ha as (s1 & E1 & _). rewrite E1 in E. injection E as <- <-.
    by destruct (adopt_known bs ev s tt s1 Hsub E1).
  - rewrite Ha in E. injection E as _ <-. reflexivity.
Qed.

(** ** The votes of the cycle *)

Lemma certified_shrinks s s' h n :
  advances s s' -> h ∈ known_hashes s -> has_qc s h = false -> has_qc s' h = true ->
  (size (uncertified s) <= S n)%nat -> (size (uncertified s') <= n)%nat.
Proof.
  intros Ha Hh Hn Hq Hs. apply advances_uncertified in Ha.
  assert (Hlt : uncertified s' ⊂ uncertified s).
  { split; [done|]. intros Hsub. assert (Hin : h ∈ uncertified s) by (by apply elem_of_filter).
    apply Hsub, elem_of_filter in Hin as [Hf _]. congruence. }
  apply subset_size in Hlt. lia.
Qed.

Lemma uncertified_pos s h n :
  h ∈ known_hashes s -> has_qc s h = false -> (size (uncertified s) <= n)%nat -> (1 <= n)%nat.
Proof.
  intros Hh Hn Hs. destruct n; [|lia].
  assert (Hin : h ∈ uncertified s) by (by apply elem_of_filter).
  assert (Hz : size (uncertified s) = 0%nat) by lia.
  apply size_empty_inv in Hz. set_solver.
Qed.

(** Storing a vote leaves the blocks and the certificates alone. *)
Definition store_only (s s' : NodeRunner) : Prop :=
  chain s' = chain s /\ quorum_certificates (votes s') = quorum_certificates (votes s).

#[export] Instance store_only_quiet s0 : Quiet (store_only s0).
Proof. by split. Qed.

Lemma store_only_advances s s' : store_only s s' -> advances s s'.
Proof.
  intros [Hc Hq]. unfold advances, known_hashes, known_blocks, has_qc. rewrite Hc, Hq. by split.
Qed.

Lemma store_only_modify s0 f :
  (forall vs, quorum_certificates (f vs) = quorum_certificates vs) ->
  keeps (store_only s0) (modify (with_votes f)).
Proof. intros Hf. apply keeps_modify. intros s [Hc Hq]. split; [done|]. simpl. by rewrite Hf. Qed.

Lemma store_only_resolve s0 v : keeps (store_only s0) (resolve_conflicting_proposal_vote config v).
Proof.
  unfold resolve_conflicting_proposal_vote. keeps_auto. all: try by apply store_only_modify.
Qed.

Lemma store_only_store s0 v : keeps (store_only s0) (store_proposal_vote config v).
Proof.
  unfold store_proposal_vote. apply keeps_bind; [apply store_only_resolve|]. keeps_auto.
  all: try by apply store_only_modify.
Qed.

Lemma ends_buffer v s : ends_from s (store_buffered_proposal_vote config v).
Proof.
  apply ends_from_parts; [apply returns_buffer|]. intros s1 Ha.
  assert (Hk : store_only s1 (store_buffered_proposal_vote config v s1).2).
  { assert (Hk : keeps (store_only s1) (store_buffered_proposal_vote config v)); [|by apply Hk].
    unfold store_buffered_proposal_vote. apply keeps_bind; [apply store_only_resolve|].
    keeps_auto. all: try by apply store_only_modify. }
  etrans; [exact Ha|by apply store_only_advances].
Qed.

Lemma store_done v s b s' : store_proposal_vote config v s = (Done b, s') -> store_only s s'.
Proof.
  intros E. pose proof (store_only_store s v s (conj eq_refl eq_refl)) as Hs. by rewrite E in Hs.
Qed.

Lemma ends_store v s : ends_from s (store_proposal_vote config v).
Proof.
  apply ends_from_parts; [apply returns_store|]. intros s1 Ha.
  etrans; [exact Ha|]. apply store_only_advances. by apply store_only_store.
Qed.
(** A vote that is stored stays so while a vote for the same block is looked
    at, and is not stored twice. *)
Definition has_voted (s : NodeRunner) (v : ProposalVote) : Prop :=
  exists x, holds (proposal_votes (votes s)) (pv_block_hash v) (pv_validator v) x.

#[export] Instance has_voted_quiet v : Quiet (fun s => has_voted s v).
Proof. by split. Qed.

Lemma stored_vote_holds m v x :
  stored_vote m v = Some x <-> holds m (pv_block_hash v) (pv_validator v) x.
Proof. unfold stored_vote, holds. by rewrite bind_Some. Qed.

Lemma conflicts_other_blocks s v l out :
  scan_conflicts config s v l = Ok out ->
  forall x, x ∈ out -> pv_block_hash x <> pv_block_hash v.
Proof.
  revert out. induction l as [|y l IH]; intros out; cbn [scan_conflicts].
  { intros [= <-] x Hx. by apply elem_of_nil in Hx. }
  destruct (Z.eqb_spec (pv_block_hash y) (pv_block_hash v)) as [|Hne]; [apply IH|].
  destruct (can_replace_conflicting_proposal_vote config s y v).
  - intros (c & Hc & [= <-])%result_bind_ok x [->|Hx]%elem_of_cons; [done|]. by eapply IH.
  - destruct (_ && _ && _); [apply IH|done].
Qed.

Lemma has_voted_resolve v :
  keeps (fun s => has_voted s v) (resolve_conflicting_proposal_vote config v).
Proof.
  unfold resolve_conflicting_proposal_vote. apply keeps_bind; [apply keeps_get|]. intros s.
  apply keeps_lift_bind. intros l Hl. apply keeps_for_each_in. intros x Hx.
  apply (conflicts_other_blocks _ _ _ _ Hl) in Hx.
  apply keeps_bind; [|intros; apply keeps_log, _]. apply keeps_modify. intros s1 (w & Hw).
  exists w. simpl. apply drop_vote_holds. split; [done|]. intros [E _]. congruence.
Qed.

Lemma store_voted v s : has_voted s v -> forall s', store_proposal_vote config v s <> (Done true, s').
Proof.
  intros Hv s'. unfold store_proposal_vote. rewrite run_bind.
  pose proof (has_voted_resolve v s Hv) as Hr.
  destruct (resolve_conflicting_proposal_vote config v s) as [[u|m|r] s1]; [|done..].
  destruct Hr as (x & Hx). rewrite run_gets. apply stored_vote_holds in Hx. simpl in Hx. rewrite Hx.
  by destruct (same_vote x v).
Qed.

Lemma store_inserted v s s' :
  store_proposal_vote config v s = (Done true, s') -> has_voted s' v.
Proof.
  unfold store_proposal_vote. rewrite run_bind.
  destruct (resolve_conflicting_proposal_vote config v s) as [[u|m|r] s1]; [|done..].
  rewrite run_gets. destruct (stored_vote _ v) as [x|]; [by destruct (same_vote x v)|].
  rewrite run_modify. intros [= <-]. exists v. simpl.
  unfold holds, insert_vote. eexists. rewrite lookup_insert_eq. split; [done|]. by rewrite lookup_insert_eq.
Qed.
(** ** The cycle, given imports that end *)

Section import.
Variable import : ProposalVote -> M bool.

Definition good_own (k : nat) : Prop := forall s w,
  pv_validator w = node_id config -> has_qc s (pv_block_hash w) = false ->
  (size (uncertified s) <= k)%nat -> ends_from s (import w).

Lemma build_vote_fields b v :
  build_local_proposal_vote config b = Ok v ->
  pv_validator v = node_id config /\ pv_block_hash v = block_hash b.
Proof. unfold build_local_proposal_vote. by intros (sg & _ & [= <-])%result_bind_ok. Qed.

Lemma ends_local_vote b s :
  (forall v, pv_validator v = node_id config -> pv_block_hash v = block_hash b ->
     ends_from s (import v)) ->
  ends_from s (maybe_broadcast_local_proposal_vote config import b).
Proof.
  intros Hi. unfold maybe_broadcast_local_proposal_vote. destruct (negb _); [apply ends_ret|].
  destruct (build_local_proposal_vote config b) as [v|x] eqn:Ev; [|by split].
  apply build_vote_fields in Ev as [Hid Hh]. unfold ends_from.
  rewrite run_lift, run_gets. destruct (local_vote_would_scatter_before_qc config s v).
  { apply ends_quiet; [apply returns_log|]. intros; apply keeps_log; apply _. }
  apply ends_bind; [by apply ends_try, Hi|]. intros [[]|error] s' _.
  - apply ends_quiet; [apply returns_broadcast|]. intros; by apply keeps_broadcast.
  - apply ends_ret.
  - destruct (is_conflict_error error); [|by split].
    apply ends_quiet; [apply returns_log|]. intros; apply keeps_log; apply _.
Qed.

Lemma best_child_uncertified s b :
  best_known_uncertified_child_for_certified_head s = Some b -> has_qc s (block_hash b) = false.
Proof.
  unfold best_known_uncertified_child_for_certified_head. intros (hd & _ & Hm)%bind_Some.
  apply max_by_elem, list_elem_of_filter in Hm as [Hb _]. by destruct (has_qc s (block_hash b)).
Qed.

Lemma ends_better_child k s :
  good_own k -> (size (uncertified s) <= k)%nat ->
  ends_from s (maybe_adopt_better_uncertified_child_for_certified_head config e import).
Proof.
  intros Hg Hk. unfold maybe_adopt_better_uncertified_child_for_certified_head, ends_from.
  rewrite run_get. case_bool_decide; [apply ends_ret|].
  destruct (best_known_uncertified_child_for_certified_head s) as [best|] eqn:Eb; [|apply ends_ret].
  apply best_child_uncertified in Eb. match goal with |- context [if ?c then _ else _] => destruct c end;
    [apply ends_ret|].
  destruct (build_chain_to_tip s (block_hash best)) as [bs|] eqn:Ec; [|apply ends_ret].
  apply build_chain_to_tip_ok in Ec as (_ & Hsub & _).
  apply ends_bind; [by apply ends_adopt|]. intros u s' Ea.
  apply adopt_known in Ea as (Ha & Hv & _); [|done].
  apply ends_bind; [|intros; apply ends_ret].
  apply ends_local_vote. intros v Hid Hh. apply Hg; [done| |by eapply advances_size].
  rewrite Hh. unfold has_qc. by rewrite Hv.
Qed.

Lemma ends_adopt_certified h s : ends_from s (maybe_adopt_certified_branch config e h).
Proof.
  unfold maybe_adopt_certified_branch, ends_from. rewrite run_get.
  destruct (build_chain_to_tip s h) as [bs|] eqn:Ec; [|apply ends_ret].
  apply build_chain_to_tip_ok in Ec as (_ & Hsub & _).
  case_bool_decide; [apply ends_ret|]. destruct (_ && _); [apply ends_ret|].
  destruct (compare_branch_quality _ _ _ _); try apply ends_ret.
  apply ends_bind; [by apply ends_adopt|]. intros. apply ends_ret.
Qed.

Lemma build_qc_cases h s :
  match maybe_build_qc e h s with
  | (Done (Some qc), s') => advances s s' /\ (has_qc s h = true \/
      (h ∈ known_hashes s /\ has_qc s h = false /\ has_qc s' h = true))
  | (Done None, s') => s' = s /\ has_qc s h = false
  | (_, s') => s' = s
  end.
Proof.
  unfold maybe_build_qc. rewrite run_get. destruct (quorum_certificates (votes s) !! h) as [qc|] eqn:Eq.
  { split; [reflexivity|]. left. unfold has_qc. rewrite Eq. by apply bool_decide_eq_true. }
  assert (Hn : has_qc s h = false).
  { unfold has_qc. rewrite Eq. apply bool_decide_eq_false. by intros []. }
  destruct (known_block s h) as [b|] eqn:Eb; [|done].
  destruct (proposal_votes (votes s) !! h) as [m|]; [|done].
  destruct (_ <? _); [done|]. destruct (qc_is_well_formed _); [|done]. simpl.
  apply known_hash_elem in Eb. split; [split; [done|]|right; split_and!; [done|done|]].
  - intros h'. unfold has_qc. simpl. rewrite !bool_decide_eq_true. intros [q Hq].
    destruct (decide (h' = h)) as [->|Hne]; [by rewrite lookup_insert_eq|].
    rewrite lookup_insert_ne by done. by exists q.
  - unfold has_qc. simpl. rewrite lookup_insert_eq. by apply bool_decide_eq_true.
Qed.

Lemma ends_announce s : ends_from s (announce_certified_progress config e).
Proof.
  apply ends_quiet; [apply returns_announce|]. intros I HI. by apply keeps_announce.
Qed.
Lemma ends_finalize k h s :
  good_own k ->
  (size (uncertified s) <= if has_qc s h then k else S k)%nat ->
  ends_from s (maybe_finalize_quorum_certificate config e import h).
Proof.
  intros Hg Hk. unfold maybe_finalize_quorum_certificate, ends_from. rewrite run_gets.
  rewrite run_bind. pose proof (build_qc_cases h s) as Hb. pose proof (returns_build h s) as Hr.
  destruct (maybe_build_qc e h s) as [[[qc|]|x|r] s1];
    [|by destruct Hb as [-> _]|by rewrite Hb|by rewrite Hb].
  destruct Hb as [Ha Hc].
  assert (Hk1 : (size (uncertified s1) <= k)%nat).
  { destruct Hc as [Hq|(Hh & Hq & Hq1)]; rewrite Hq in Hk; [by eapply advances_size|].
    by apply (certified_shrinks s s1 h). }
  assert (He : forall m : M (option QuorumCertificate), ends_from s1 m ->
    (m s1).1 <> Halted OutOfFuel /\ advances s (m s1).2) by (intros m [? ?]; split; [done|by etrans]).
  apply He. apply ends_bind; [apply ends_adopt_certified|]. intros [] s2 E2.
  all: pose proof (ends_adopt_certified (qc_block_hash qc) s1) as [_ H2]; rewrite E2 in H2; simpl in H2.
  all: apply ends_bind; [apply (ends_better_child k); [done|by eapply advances_size]|].
  all: intros _ s3 _; apply ends_bind; [|intros; apply ends_ret].
  all: destruct (negb (has_qc s h)); [|apply ends_ret].
  all: apply ends_bind; [apply ends_quiet; [apply returns_broadcast|intros; by apply keeps_broadcast]|].
  all: intros _ s4 _; apply ends_bind;
    [apply ends_quiet; [apply returns_log|intros; by apply keeps_log]|].
  all: intros; apply ends_announce.
Qed.

Lemma highest_qc_none s b :
  highest_local_qc s = None -> b ∈ blocks (chain s) -> has_qc s (block_hash b) = false.
Proof.
  unfold highest_local_qc, has_qc. intros Hn Hb. apply bool_decide_eq_false. intros [q Hq].
  apply head_None in Hn. assert (Hin : q ∈ omap (fun b => quorum_certificates (votes s) !! block_hash b)
    (reverse (blocks (chain s)))).
  { apply list_elem_of_omap. exists b. split; [|done]. by apply elem_of_reverse. }
  rewrite Hn in Hin. by apply elem_of_nil in Hin.
Qed.

Lemma ends_supported h s :
  (forall s' w, advances s s' -> votes s' = votes s -> pv_validator w = node_id config ->
     pv_block_hash w = h -> ends_from s' (import w)) ->
  ends_from s (maybe_adopt_vote_supported_branch config e import h).
Proof.
  intros Hi. unfold maybe_adopt_vote_supported_branch, ends_from. rewrite run_get.
  destruct (_ || _); [apply ends_ret|].
  destruct (build_chain_to_tip s h) as [bs|] eqn:Ec; [|apply ends_ret].
  apply build_chain_to_tip_ok in Ec as (_ & Hsub & Htip).
  destruct (negb _); [apply ends_ret|].
  destruct (compare_branch_quality _ _ _ _); try apply ends_ret.
  apply ends_bind; [by apply ends_adopt|]. intros u s' Ea.
  apply adopt_known in Ea as (Ha & Hv & Hb); [|done].
  apply ends_bind; [|intros; apply ends_ret].
  unfold maybe_broadcast_local_vote_for_current_pre_qc_tip, ends_from. rewrite run_get.
  destruct (_ || _); [apply ends_ret|]. rewrite Hb.
  destruct (last bs) as [tip|] eqn:El; [|apply ends_ret].
  unfold tip_of in Htip. rewrite El in Htip. simpl in Htip.
  apply ends_local_vote. intros v Hid Hh. apply Hi; [done..|congruence].
Qed.

Lemma ends_step k v s :
  good_own k ->
  (size (uncertified s) <= if has_qc s (pv_block_hash v) then k else S k)%nat ->
  (forall s' w, advances s s' -> has_qc s (pv_block_hash v) = false -> 
     has_qc s' (pv_block_hash v) = false -> has_voted s' v ->
     pv_validator w = node_id config -> pv_block_hash w = pv_block_hash v ->
     ends_from s' (import w)) ->
  ends_from s (import_proposal_vote_step config e import v).
Proof.
  intros Hg Hk Hi. unfold import_proposal_vote_step, ends_from.
  destruct (negb _); [by split|]. rewrite run_lift.
  destruct (validate_proposal_vote_signature_and_signer _ _) as [[]|]; [|by split].
  rewrite run_lift. destruct (validate_hybrid_proposal_vote_policy _ _) as [[]|]; [|by split].
  rewrite run_get. destruct (known_block s (pv_block_hash v)) as [b|]; [|apply ends_buffer].
  destruct (_ && _).
  { apply ends_bind; [apply ends_quiet; [apply returns_log|intros; by apply keeps_log]|].
    intros; apply ends_ret. }
  rewrite run_lift. destruct (validate_proposal_vote_for_block _ _ _ _) as [[]|]; [|by split].
  apply ends_bind; [apply ends_store|]. intros inserted s1 E1.
  apply ends_bind; [|intros; apply ends_ret]. destruct inserted; [|apply ends_ret].
  pose proof (store_done _ _ _ _ E1) as Ho. pose proof (store_only_advances _ _ Ho) as Ha.
  assert (Hq : has_qc s1 (pv_block_hash v) = has_qc s (pv_block_hash v)).
  { unfold has_qc. by rewrite (proj2 Ho). }
  assert (Hf : ends_from s1 (maybe_finalize_quorum_certificate config e import (pv_block_hash v))).
  { apply (ends_finalize k); [done|]. rewrite Hq. by eapply advances_size. }
  apply ends_bind; [exact Hf|]. intros [qc|] s2 E2; [apply ends_ret|].
  apply ends_bind; [|intros; apply ends_ret].
  assert (s2 = s1 /\ has_qc s1 (pv_block_hash v) = false) as [-> Hn].
  { revert E2. unfold maybe_finalize_quorum_certificate. rewrite run_gets, run_bind.
    pose proof (build_qc_cases (pv_block_hash v) s1) as Hb.
    destruct (maybe_build_qc e (pv_block_hash v) s1) as [[[q|]|x|r] s3];
      [|destruct Hb as [-> Hn]; by intros [= ->]|done|done].
    rewrite M_bind_done. intros (a & s4 & _ & E). revert E. rewrite M_bind_done.
    intros (a' & s5 & _ & E). revert E. rewrite M_bind_done. by intros (? & ? & _ & ?). }
  apply ends_supported. intros s' w Ha' Hv Hid Hh. apply Hi; [by etrans| |  | |done|done].
  - by rewrite <- Hq.
  - unfold has_qc. by rewrite Hv.
  - apply store_inserted in E1. unfold has_voted in *. by rewrite Hv.
Qed.
(** A vote the node holds is not imported again: no recursion. *)
Lemma ends_voted v s : has_voted s v -> ends_from s (import_proposal_vote_step config e import v).
Proof.
  intros Hs. unfold import_proposal_vote_step, ends_from.
  destruct (negb _); [by split|]. rewrite run_lift.
  destruct (validate_proposal_vote_signature_and_signer _ _) as [[]|]; [|by split].
  rewrite run_lift. destruct (validate_hybrid_proposal_vote_policy _ _) as [[]|]; [|by split].
  rewrite run_get. destruct (known_block s (pv_block_hash v)) as [b|]; [|apply ends_buffer].
  destruct (_ && _).
  { apply ends_bind; [apply ends_quiet; [apply returns_log|intros; by apply keeps_log]|].
    intros; apply ends_ret. }
  rewrite run_lift. destruct (validate_proposal_vote_for_block _ _ _ _) as [[]|]; [|by split].
  apply ends_bind; [apply ends_store|]. intros [] s1 E1; [|apply ends_bind; intros; apply ends_ret].
  by apply store_voted in E1.
Qed.
End import.

(** ** Enough fuel *)

Lemma own_votes_end k fuel : (k < fuel)%nat -> good_own (import_proposal_vote config e fuel) k.
Proof.
  revert fuel. induction k as [k IH] using lt_wf_ind. intros [|fuel] Hf s w Hid Hq Hk; [lia|].
  cbn [import_proposal_vote]. destruct (known_block s (pv_block_hash w)) as [b|] eqn:Eb.
  - apply known_hash_elem in Eb. pose proof (uncertified_pos _ _ _ Eb Hq Hk).
    destruct k as [|k]; [lia|]. apply (ends_step _ k); [apply IH; lia|by rewrite Hq|].
    intros s' w' _ _ _ Hv Hid' Hh. destruct fuel as [|fuel]; [lia|]. cbn [import_proposal_vote].
    apply ends_voted. unfold has_voted in *. by rewrite Hh, Hid', <- Hid.
  - unfold import_proposal_vote_step, ends_from.
    destruct (negb _); [by split|]. rewrite run_lift.
    destruct (validate_proposal_vote_signature_and_signer _ _) as [[]|]; [|by split].
    rewrite run_lift. destruct (validate_hybrid_proposal_vote_policy _ _) as [[]|]; [|by split].
    rewrite run_get, Eb. apply ends_buffer.
Qed.

Lemma vote_import_ends fuel v s :
  (size (uncertified s) + 2 <= fuel)%nat -> ends_from s (import_proposal_vote config e fuel v).
Proof.
  intros Hf. destruct fuel as [|fuel]; [lia|]. cbn [import_proposal_vote].
  apply (ends_step _ (size (uncertified s))).
  - apply own_votes_end. lia.
  - destruct (has_qc _ _); lia.
  - intros s' w Ha _ Hq Hv Hid Hh. apply (own_votes_end (size (uncertified s))); [lia|done|by rewrite Hh|].
    by eapply advances_size.
Qed.

(** The fuel that is enough, read off the state. *)
Definition vote_rounds (s : NodeRunner) : nat :=
  S (S (length (blocks (chain s)) + length (pending_certified_children (chain s))
        + length (orphan_blocks (chain s)))).

Lemma uncertified_length s : (size (uncertified s) + 2 <= vote_rounds s)%nat.
Proof.
  unfold uncertified, vote_rounds.
  assert (size (filter (fun h => has_qc s h = false) (known_hashes s)) <= size (known_hashes s))%nat
    by (apply subseteq_size; set_solver).
  assert (size (known_hashes s) <= length (known_blocks s))%nat.
  { unfold known_hashes. rewrite <- (length_fmap block_hash (known_blocks s)).
    induction (block_hash <$> known_blocks s) as [|h l IH]; simpl; [done|].
    rewrite size_union_alt, size_singleton.
    assert (size (list_to_set l ∖ {[h]} : gset HashBytes) <= size (list_to_set l : gset HashBytes))%nat
      by (apply subseteq_size; set_solver). lia. }
  unfold known_blocks in *. rewrite !length_app in *. lia.
Qed.

(** C26: Importing a vote always ends, although an import can build a
    certificate, adopt another chain and make the node import a vote of its
    own: with as many rounds as the node holds blocks, plus two, the import
    returns, and it forgets no block and loses no certificate. *)
Theorem import_proposal_vote_terminates fuel v s :
  (vote_rounds s <= fuel)%nat ->
  (import_proposal_vote config e fuel v s).1 <> Halted OutOfFuel /\
  advances s (import_proposal_vote config e fuel v s).2.
Proof. intros Hf. apply vote_import_ends. pose proof (uncertified_length s). lia. Qed.
End termination.
