(* ===== verification/Blocks.v ===== *)
(** * Accepting, proposing and synchronising blocks

    Block acceptance with its three outcomes (extend the tip, compete with it,
    wait on a certified head), orphan promotion, block proposal, and the
    import of snapshots, segments and certified chains
    (crates/entangrid-node/src/lib.rs). *)
From S2P Require Import Prelude F64 Hybrid Types Concrete Crypto Ledger Consensus.
From S2P Require Import Policy Snapshots NodeState Branches Receipts SyncServe Service Votes.
From S2P Require Import Safety Durable.

Open Scope Z_scope.

Inductive BlockAcceptance := Accepted | Duplicate | Orphan.
#[export] Instance BlockAcceptance_eq_dec : EqDecision BlockAcceptance.
Proof. solve_decision. Defined.

Section blocks.
Context `{Hashing} `{CryptoBackend}.
Context (config : NodeConfig) (e : ConsensusEngine).
(** Fuel for the voting cycle. *)
Context (fuel : nat).

Abbreviation import := (import_proposal_vote config e fuel).

(** ** Checks that do not depend on the chain *)

Definition check_block_seal (b : Block) : result unit :=
  _ ← ensure (block_content_hash b =? block_hash b) "block hash mismatch";
  verified ← verify (proposer_id (header b)) (hash_to_bytes (block_hash b)) (block_signature b);
  ensure verified "invalid block signature".

Definition check_block_body (b : Block) : result unit :=
  _ ← ensure (canonical_hash (CTransactions (transactions b)) =? transactions_root (header b))
        "transactions root mismatch";
  _ ← ensure (topology_root_of (commitment b) =? topology_root (header b))
        "topology root mismatch";
  _ ← match commitment b with
      | None => ensure (bool_decide (commitment_receipts b = []))
                  "commitment receipts present without commitment"
      | Some c => validate_commitment_bundle e c (commitment_receipts b)
                    (service_score_weights (flags config))
      end;
  _ ← foldr (fun t rest => _ ← validate_hybrid_transaction_policy config t; rest) (Ok tt)
        (transactions b);
  validate_hybrid_block_policy config b.

(** ** Competing blocks *)

Definition lex_leb (l k : list Z) : bool :=
  match lex_compare l k with Gt => false | _ => true end.

Definition can_vote_for_competing_block (s : NodeRunner) (b : Block) : result bool :=
  match build_parent_chain_for_block s b with
  | None => Ok false
  | Some parents =>
      if negb (locked_in s parents) then Ok false
      else
        st ← replay_blocks (genesis e) parents;
        _ ← apply_block_clone st b;
        Ok (lex_leb (branch_quality_with_extra_tip_vote config s (blocks (chain s)) None)
              (branch_quality_with_extra_tip_vote config s (parents ++ [b]) (Some (block_hash b))))
  end.

Definition maybe_broadcast_vote_for_competing_block (b : Block) : M unit :=
  if negb (consensus_v2 (flags config)) then mret tt
  else
    s ← get;
    can ← lift (can_vote_for_competing_block s b);
    if can : bool then maybe_broadcast_local_proposal_vote config import b else mret tt.

Definition maybe_adopt_preferred_competing_branch (b : Block) : M bool :=
  s ← get;
  if negb (consensus_v2 (flags config)) || certified_head_only_active config s then mret false
  else match build_parent_chain_for_block s b with
       | None => mret false
       | Some parents =>
           if negb (locked_in s parents) then mret false
           else
             st ← lift (replay_blocks (genesis e) parents);
             _ ← lift (apply_block_clone st b);
             let candidate := parents ++ [b] in
             match compare_branch_quality config s candidate (blocks (chain s)) with
             | Gt => _ ← adopt_canonical_chain config e candidate "preferred-branch-adopted";
                     _ ← maybe_broadcast_local_vote_for_current_pre_qc_tip config import;
                     mret true
             | _ => mret false
             end
       end.

Definition tip_is (b : Block) (s : NodeRunner) : bool := tip_hash (ledger (chain s)) =? block_hash b.

Definition push_orphan (b : Block) : M unit :=
  modify (with_chain (set_orphans (fun l => l ++ [b]))).
Definition is_orphan (s : NodeRunner) (b : Block) : bool :=
  existsb (fun o => block_hash o =? block_hash b) (orphan_blocks (chain s)).

(** The branch of [accept_block] for a parent other than the tip. *)
Definition accept_competing_block (b : Block) : M BlockAcceptance :=
  s ← get;
  let direct_certified_child := is_direct_child_of_current_certified_head s b in
  _ ← (if is_orphan s b then mret tt
       else
         _ ← push_orphan b;
         _ ← modify (with_storage (set_orphan_file (fun l => l ++ [b])));
         log_event "fork-observed");
  _ ← import_buffered_proposal_votes_for_block import b;
  adopted ← (if direct_certified_child then
               _ ← maybe_adopt_better_uncertified_child_for_certified_head config e import;
               gets (tip_is b)
             else mret false);
  if adopted : bool then mret Accepted
  else
    _ ← maybe_broadcast_vote_for_competing_block b;
    _ ← maybe_finalize_quorum_certificate config e import (block_hash b);
    preferred ← maybe_adopt_preferred_competing_branch b;
    at_tip ← gets (tip_is b);
    mret (if preferred || at_tip then Accepted else Orphan).

(** The branch for an uncertified block once a head is certified: a child of
    the head waits, a deeper descendant becomes an orphan. *)
Definition accept_under_certified_head (b : Block) : M BlockAcceptance :=
  s ← get;
  match current_certified_head s with
  | None => mret Orphan
  | Some head =>
      if extends_head head b then
        _ ← (if existsb (fun p => block_hash p =? block_hash b) (pending_certified_children (chain s))
             then mret tt
             else
               _ ← modify (with_chain (set_pending (fun l => l ++ [b])));
               log_event "certified-head-pending");
        s1 ← get;
        _ ← (if recovery_sync_only_active config s1 then mret tt
             else
               _ ← import_buffered_proposal_votes_for_block import b;
               s2 ← get;
               let support :=
                 match preferred_pending_child_for_certified_head s2 with
                 | Some p => block_hash p =? block_hash b
                 | None => false
                 end in
               _ ← (if support then maybe_broadcast_local_proposal_vote config import b
                    else mret tt);
               _ ← maybe_finalize_quorum_certificate config e import (block_hash b);
               mret tt);
        _ ← maybe_adopt_better_uncertified_child_for_certified_head config e import;
        at_tip ← gets (tip_is b);
        mret (if at_tip : bool then Accepted else Orphan)
      else
        _ ← (if is_orphan s b then mret tt
             else _ ← push_orphan b; log_event "certified-head-descendant-buffered");
        mret Orphan
  end.

Definition extend_chain (next : LedgerState) (b : Block) (c : ChainState) : ChainState :=
  mkChain next (blocks c ++ [b]) (orphan_blocks c) (pending_certified_children c).
Definition mark_block_seen (b : Block) (p : PoolState) : PoolState :=
  mkPool (mempool p) (seen_transactions p) ({[block_hash b]} ∪ seen_blocks p) (receipts p)
    (seen_receipts p) (seen_receipt_events p).
Definition forget_transactions (b : Block) (p : PoolState) : PoolState :=
  mkPool (foldl (fun m t => delete (stx_hash t) m) (mempool p) (transactions b))
    (seen_transactions p) (seen_blocks p) (receipts p) (seen_receipts p) (seen_receipt_events p).

(** The branch that extends the chain. *)
Definition accept_at_tip (next : LedgerState) (b : Block) (local_proposal : bool)
    : M BlockAcceptance :=
  _ ← modify (with_chain (extend_chain next b));
  _ ← modify (with_pool (mark_block_seen b));
  _ ← modify (with_storage (set_blocks_file (fun l => l ++ [b])));
  _ ← write_snapshot;
  _ ← import_commitment_receipts config (commitment_receipts b);
  _ ← import_buffered_proposal_votes_for_block import b;
  _ ← maybe_finalize_quorum_certificate config e import (block_hash b);
  _ ← modify (with_pool (forget_transactions b));
  _ ← bump BlocksValidated 1;
  _ ← (if local_proposal then bump BlocksProposed 1 else mret tt);
  _ ← maybe_broadcast_local_proposal_vote config import b;
  _ ← log_event (if local_proposal then "block-proposed" else "block-accepted");
  pushed ← try (maybe_push_tip_progress_to_stale_peers config e);
  _ ← match pushed with Ok _ => mret tt | Err _ => log_event "sync-push-failed" end;
  mret Accepted.

(** Whether the proposer's score is enforced, and the score. *)
Definition service_gate (s : NodeRunner) (b : Block) (local_proposal : bool)
    : bool * option f64 :=
  if should_enforce_service_gating_for_block (enable_service_gating (flags config)) local_proposal
       (bh_epoch (header b)) (service_gating_start_epoch (flags config))
  then
    if consensus_v2 (flags config) then
      match v2_gating_state config e (service s) (proposer_id (header b)) (bh_epoch (header b)) with
      | AllowNoEvidence | AllowInsufficientEvidence => (false, None)
      | AllowScore score | RejectScore score => (true, Some score)
      end
    else (true, Some (service_score_for_validator (service s) (proposer_id (header b))))
  else (false, None).

Definition accept_block (b : Block) (local_proposal : bool) : M BlockAcceptance :=
  s ← get;
  match known_block s (block_hash b) with
  | Some _ => mret Duplicate
  | None =>
      _ ← lift (check_block_seal b);
      expected ← or_panic (proposer_for_slot e (bh_slot (header b)));
      _ ← lift (ensure (proposer_id (header b) =? expected) "unexpected proposer");
      _ ← lift (check_block_body b);
      if negb (parent_hash (header b) =? tip_hash (ledger (chain s)))
      then accept_competing_block b
      else
        let '(enforced, score) := service_gate s b local_proposal in
        _ ← lift (validate_block_basic e b (tip_hash (ledger (chain s))) score enforced
                    (service_gating_threshold (flags config)));
        next ← lift (apply_block_clone (ledger (chain s)) b);
        if certified_head_only_active config s && negb (has_qc s (block_hash b))
        then accept_under_certified_head b
        else accept_at_tip next b local_proposal
  end.

(** ** Orphan promotion

    The [while] loop, one orphan per round. *)
Fixpoint try_promote_orphans (rounds : nat) : M unit :=
  s ← get;
  match position (fun o => parent_hash (header o) =? tip_hash (ledger (chain s)))
          (orphan_blocks (chain s)) with
  | None => mret tt
  | Some index =>
      match rounds with
      | O => out_of_fuel
      | S rounds' =>
          orphan ← or_panic (orphan_blocks (chain s) !! index);
          _ ← modify (with_chain (set_orphans (delete index)));
          outcome ← try (accept_block orphan false);
          _ ← match outcome with
              | Ok Accepted | Ok Duplicate => mret tt
              | Ok Orphan | Err _ => log_event "orphan-rejected"
              end;
          try_promote_orphans rounds'
      end
  end.

(** ** Proposing *)

Definition startup_sync_blocks_proposal : M bool :=
  s ← get;
  if negb (startup_sync_barrier (slots s)) then mret false
  else if (size (peer_sync_status (sync s)) <? length (peers config))%nat then mret true
  else if existsb (fun p => peer_status_is_ahead s (peer_id p)) (peers config) then mret true
  else
    _ ← modify (with_slots (fun t => mkSlots (last_processed_slot t) (last_logged_epoch t)
                  (last_heartbeat_slot t) (last_proposed_slot t) false));
    mret false.

Definition set_local_score (score : f64) (c : ServiceCounters) : M unit :=
  modify (with_metrics (fun m => mkMetrics (counter m) (m_current_slot m) (m_current_epoch m)
    (last_completed_service_epoch m) score c (relay_scores m))).

(** The miss of a slot because of the score. *)
Definition reject_by_score (score : f64) (c : ServiceCounters) : M unit :=
  _ ← bump MissedProposerSlots 1;
  _ ← bump ServiceGatingRejections 1;
  set_local_score score c.

(** The gate on the node's own proposal: [true] lets it propose. *)
Definition proposal_gate (epoch : Epoch) : M bool :=
  if negb (enable_service_gating (flags config)) then mret true
  else if negb (service_gating_active config epoch) then
    _ ← log_event "service-gating-warmup"; mret true
  else
    v ← gets service;
    let counters := local_service_counters config v in
    let local_score := service_score_for_validator v (node_id config) in
    if consensus_v2 (flags config) then
      match v2_gating_state config e v (node_id config) epoch with
      | AllowNoEvidence | AllowInsufficientEvidence =>
          _ ← bump ServiceGatingEnforcementSkips 1;
          _ ← set_local_score local_score counters;
          _ ← log_event "service-gating-skip";
          mret true
      | AllowScore _ => _ ← log_event "service-gating-check"; mret true
      | RejectScore score =>
          _ ← reject_by_score score counters;
          _ ← log_event "service-gating-reject";
          _ ← log_event "missed-slot";
          mret false
      end
    else
      _ ← log_event "service-gating-check";
      if f64_ltb local_score (service_gating_threshold (flags config)) then
        _ ← reject_by_score local_score counters;
        _ ← log_event "missed-slot";
        mret false
      else mret true.

(** Transactions in mempool order, as far as they execute. *)
Fixpoint select_executable (st : LedgerState) (ts : list SignedTransaction)
    : LedgerState * list SignedTransaction :=
  match ts with
  | [] => (st, [])
  | t :: ts' =>
      match (validate_hybrid_transaction_policy config t ≫= fun _ => validate_tx st t)
              ≫= fun _ => apply_transaction st t with
      | Ok st' => let '(out, l) := select_executable st' ts' in (out, t :: l)
      | Err _ => select_executable st ts'
      end
  end.

Definition proposal_commitment (s : NodeRunner) (epoch : Epoch)
    : option TopologyCommitment * list RelayReceipt :=
  if enable_receipts (flags config) && (0 <? epoch) then
    let rs := receipts_for_validator (node_id config) (epoch - 1) (receipts (pool s)) in
    (Some (commitment_from_receipts_with_weights e (node_id config) (epoch - 1) rs 0 0
             (service_score_weights (flags config))), rs)
  else (None, []).

(** The unsigned block a node builds on its tip. *)
Definition build_block (s : NodeRunner) (slot : Slot) (epoch : Epoch) : Block :=
  let '(c, rs) := proposal_commitment s epoch in
  let '(simulated, accepted) :=
    select_executable (ledger (chain s)) (select_transactions_for_block e s) in
  let h := mkHeader (wadd (height (ledger (chain s))) 1) (tip_hash (ledger (chain s))) slot epoch
             (node_id config) (clock s) (ledger_state_root simulated)
             (canonical_hash (CTransactions accepted)) (topology_root_of c) in
  mkBlock h accepted c rs TypedSig.default (canonical_hash (CBlockContent h accepted c)).

Definition sign_block (b : Block) : result Block :=
  signature ← sign (node_id config) (hash_to_bytes (block_hash b));
  Ok (mkBlock (header b) (transactions b) (commitment b) (commitment_receipts b) signature
        (block_hash b)).

Definition maybe_propose_block (rounds : nat) (slot : Slot) (epoch : Epoch) : M unit :=
  if pause_slot_production (fault_profile config) then mret tt
  else
    s ← get;
    if bool_decide (last_proposed_slot (slots s) = Some slot) then mret tt
    else
      proposer ← or_panic (proposer_for_slot e slot);
      _ ← log_event "proposer-decision";
      if negb (proposer =? node_id config) then mret tt
      else
        blocked ← startup_sync_blocks_proposal;
        if blocked : bool then log_event "startup-sync-wait"
        else
          allowed ← proposal_gate epoch;
          if negb allowed then mret tt
          else
            _ ← modify (with_slots (fun t => mkSlots (last_processed_slot t) (last_logged_epoch t)
                          (last_heartbeat_slot t) (Some slot) (startup_sync_barrier t)));
            s ← get;
            match preferred_pending_child_for_certified_head s with
            | Some child =>
                _ ← maybe_broadcast_local_proposal_vote config import child;
                _ ← broadcast (peers config) (MsgBlockProposal child);
                log_event "pending-block-rebroadcast"
            | None =>
                b ← lift (sign_block (build_block s slot epoch));
                acceptance ← accept_block b true;
                pending ← gets (fun s => is_pending_certified_head_block s b);
                match acceptance with
                | Accepted =>
                    _ ← try_promote_orphans rounds;
                    broadcast (peers config) (MsgBlockProposal b)
                | Orphan => if pending : bool then broadcast (peers config) (MsgBlockProposal b)
                            else mret tt
                | Duplicate => mret tt
                end
            end.

(** ** Importing chains *)

Definition replace_chain (l : LedgerState) (bs : list Block) (c : ChainState) : ChainState :=
  mkChain l bs [] [].
Definition set_receipts (rs : list RelayReceipt) (p : PoolState) : PoolState :=
  mkPool (mempool p) (seen_transactions p) (seen_blocks p) rs (seen_receipts p)
    (seen_receipt_events p).

(** [known_hashes.contains(..)]. *)
Definition known_in (applied : list Block) (h : HashBytes) : bool :=
  bool_decide (h ∈ block_hash <$> applied).

(** The end both imports share: the votes that came along, those waiting for
    the new blocks, and what is no longer about a known block goes. *)
Definition import_chain_votes (vs : list ProposalVote) : M unit :=
  applied ← gets (fun s => blocks (chain s));
  _ ← for_each vs (fun v => _ ← try (import v); mret tt);
  _ ← for_each applied (fun b => import_buffered_proposal_votes_for_block import b);
  _ ← modify (with_votes (set_proposal_votes (retain_hashes (known_in applied))));
  _ ← modify (with_votes (set_qcs (filter (fun kv => known_in applied kv.1 = true))));
  _ ← modify (with_votes (set_buffered (filter (fun kv => known_in applied kv.1 = false))));
  persist_quorum_certificates.

Definition write_chain_files : M unit :=
  _ ← write_snapshot;
  _ ← modify (fun s => with_storage (set_blocks_file (fun _ => blocks (chain s))) s);
  modify (fun s => with_storage (set_orphan_file (fun _ => orphan_blocks (chain s))) s).

Definition apply_chain_snapshot (c : ChainSnapshot) : M unit :=
  checked ← lift (validate_chain_snapshot (genesis e) e c);
  _ ← modify (with_chain (replace_chain checked.1 (cs_blocks c)));
  _ ← modify (with_pool (set_receipts checked.2));
  _ ← rebuild_seen_sets;
  _ ← write_chain_files;
  _ ← modify (fun s => with_storage (set_receipts_file (fun _ => receipts (pool s))) s);
  import_chain_votes (cs_votes c).

(** The blocks a segment builds on: the chain, or its certified prefix.  The
    slice panics past the end ([None] stands for it). *)
Definition sync_repair_base_for_segment (s : NodeRunner) (c : ChainSegment)
    : option (result (list Block * StateSnapshot)) :=
  let whole := Some (Ok (blocks (chain s), ledger (chain s))) in
  if negb (consensus_v2 (flags config)) then whole
  else match highest_local_qc s with
       | Some qc =>
           if (qc_block_number qc <? height (ledger (chain s)))
              && (base_height c =? qc_block_number qc) && (base_tip_hash c =? qc_block_hash qc)
           then
             let n := Z.to_nat (qc_block_number qc) in
             if (length (blocks (chain s)) <? n)%nat then None
             else Some (l ← replay_blocks (genesis e) (take n (blocks (chain s)));
                        Ok (take n (blocks (chain s)), l))
           else whole
       | None => whole
       end.

Definition apply_chain_segment (c : ChainSegment) : M unit :=
  s ← get;
  base ← or_panic (sync_repair_base_for_segment s c);
  base ← lift base;
  c ← lift (align_chain_segment_to_local_chain base.1 base.2 c);
  rs ← lift (validate_snapshot_receipts e (seg_receipts c));
  start ← lift (replay_blocks (genesis e) base.1);
  l ← lift (validate_snapshot_blocks e start (tip_hash base.2) (seg_blocks c));
  _ ← lift (ensure (bool_decide (l = target_snapshot c)) "incremental sync replay mismatch");
  _ ← modify (with_chain (replace_chain l (base.1 ++ seg_blocks c)));
  _ ← rebuild_seen_sets;
  _ ← write_chain_files;
  _ ← for_each rs (fun r => _ ← store_receipt config e r; mret tt);
  import_chain_votes (seg_votes c).

Definition should_adopt_chain_segment (s : NodeRunner) (local : StateSnapshot) (c : ChainSegment)
    : bool :=
  if should_adopt_snapshot local (target_snapshot c) then true
  else if negb (consensus_v2 (flags config)) then false
  else match highest_local_qc s with
       | None => false
       | Some qc =>
           (qc_block_number qc <? height local)
           && (base_height c =? qc_block_number qc) && (base_tip_hash c =? qc_block_hash qc)
           && (qc_block_number qc <? height (target_snapshot c))
           && negb (bool_decide (snapshot_preference (target_snapshot c) = snapshot_preference local))
       end.

Definition should_adopt_chain_snapshot (s : NodeRunner) (local : StateSnapshot) (c : ChainSnapshot)
    : bool :=
  if negb (consensus_v2 (flags config)) || negb (bool_decide (highest_local_qc s = None))
  then should_adopt_snapshot local (cs_snapshot c)
  else lex_ltb (branch_quality_with_extra_tip_vote config s (blocks (chain s)) None)
         (snapshot_branch_quality (cs_blocks c) (cs_votes c)).

Definition should_push_local_snapshot_after_sync_response (s : NodeRunner) (local : StateSnapshot)
    (c : ChainSnapshot) : bool :=
  if negb (consensus_v2 (flags config)) || negb (bool_decide (highest_local_qc s = None))
  then should_adopt_snapshot (cs_snapshot c) local
  else lex_ltb (snapshot_branch_quality (cs_blocks c) (cs_votes c))
         (branch_quality_with_extra_tip_vote config s (blocks (chain s)) None).

(** ** Certified chains *)

Inductive CertifiedSyncIgnoreReason :=
| ReasonUnavailable | EmptyPayload | SharedQcMismatch | StaleSnapshot.
Inductive CertifiedSyncImportOutcome :=
| Applied
| Ignored (reason : CertifiedSyncIgnoreReason).

(** The loop over headers, blocks and certificates. *)
Fixpoint check_certified_payload (l : list (CertifiedBlockHeader * Block * QuorumCertificate))
    : result unit :=
  match l with
  | [] => Ok tt
  | (h, b, qc) :: l' =>
      _ ← ensure ((ch_block_hash h =? block_hash b) && bool_decide (ch_header h = header b))
            "certified sync header mismatch";
      _ ← validate_quorum_certificate_for_block config e qc b;
      check_certified_payload l'
  end.

Definition import_certified_sync_response (r : ChunkedSyncResponse)
    : M CertifiedSyncImportOutcome :=
  match r with
  | Unavailable _ => _ ← log_event "certified-sync-unavailable"; mret (Ignored ReasonUnavailable)
  | Certified responder responder_height responder_tip shared_hash shared_height hs bs qcs aggs =>
      if bool_decide (length bs = 0%nat) then mret (Ignored EmptyPayload)
      else if negb (length bs =? length qcs)%nat || negb (length hs =? length bs)%nat
      then fail "certified sync payload length mismatch"
      else
        s ← get;
        local_shared ← lift (ok_or (expected_tip_at (blocks (chain s)) shared_height)
                               "missing local shared QC height");
        if negb (local_shared =? shared_hash) then
          _ ← log_event "certified-sync-shared-qc-mismatch"; mret (Ignored SharedQcMismatch)
        else
          let repeats_shared :=
            (0 <? shared_height)
            && from_option (fun b => block_hash b =? shared_hash) false (head bs) in
          let skip {A} (l : list A) := if repeats_shared then tail l else l in
          let hs := skip hs in
          let bs := skip bs in
          let qcs := skip qcs in
          if repeats_shared && bool_decide (length bs = 0%nat) then
            _ ← record_peer_sync_status responder responder_height responder_tip
                  (Some shared_hash) shared_height [mkAnchor shared_hash shared_height];
            mret (Ignored StaleSnapshot)
          else
            let candidate := take (Z.to_nat shared_height) (blocks (chain s)) ++ bs in
            l ← lift (validate_snapshot_blocks e (from_genesis (genesis e)) empty_hash candidate);
            _ ← lift (check_certified_payload (zip (zip hs bs) qcs));
            let '(qc_hash, qc_height) :=
              match last qcs with
              | Some qc => (Some (qc_block_hash qc), qc_block_number qc)
              | None => (if 0 <? shared_height then Some shared_hash else None, shared_height)
              end in
            _ ← record_peer_sync_status responder (Z.max responder_height (height l)) responder_tip
                  qc_hash qc_height
                  ((fun qc => mkAnchor (qc_block_hash qc) (qc_block_number qc))
                     <$> take CERTIFIED_SYNC_ANCHOR_LIMIT (reverse qcs));
            if negb (should_adopt_certified_snapshot (ledger (chain s))
                       (from_option qc_block_number 0 (highest_local_qc s)) l qc_height)
            then _ ← log_event "certified-sync-skipped"; mret (Ignored StaleSnapshot)
            else
              _ ← adopt_canonical_chain config e candidate "certified-sync-applied";
              _ ← for_each qcs (fun qc =>
                    _ ← import_quorum_certificate config e import qc; mret tt);
              _ ← for_each aggs (fun a => _ ← import_service_aggregate config e a; mret tt);
              _ ← refresh_service_scores config e;
              _ ← bump CertifiedSyncApplied 1;
              _ ← clear_sync_repair_memory responder;
              mret Applied
  end.
End blocks.
