(* ===== verification/Handlers.v ===== *)
(** * The node's event loop

    Every event the loop of [NodeRunner::run] reacts to
    (crates/entangrid-node/src/lib.rs): protocol messages, session events, slot
    ticks, inbox files, shutdown and restart, and the states they lead to. *)
From S2P Require Import Prelude F64 Hybrid Types Concrete Crypto Ledger Consensus.
From S2P Require Import Policy Snapshots NodeState Branches Receipts SyncServe Service Votes.
From S2P Require Import Safety Durable Blocks.

Open Scope Z_scope.

Section handlers.
Context `{Hashing} `{CryptoBackend}.
Context (config : NodeConfig) (e : ConsensusEngine).
(** Fuel for the voting cycle, and rounds for orphan promotion. *)
Context (fuel rounds : nat).

Abbreviation import := (import_proposal_vote config e fuel).

(** [if let Err(error) = m { self.log_event(event, ..)? }]. *)
Definition or_log {A} (event : string) (m : M A) : M unit :=
  outcome ← try m;
  match outcome with Ok _ => mret tt | Err _ => log_event event end.

(** ** Messages *)

Definition on_block_proposal (from : ValidatorId) (b : Block) : M unit :=
  _ ← record_peer_sync_status_with_slot from (block_number (header b)) (block_hash b)
        (bh_slot (header b)) None 0 [];
  _ ← maybe_issue_receipt config e from (node_id config) BlockClass (bh_slot (header b))
        (block_hash b) (canonical_hash (CHeader (header b))) (block_number (header b));
  outcome ← try (accept_block config e fuel b false);
  match outcome with
  | Ok Accepted =>
      _ ← try_promote_orphans config e fuel rounds;
      broadcast (peers config) (MsgBlockProposal b)
  | Ok Orphan =>
      pending ← gets (fun s => is_pending_certified_head_block s b);
      if pending : bool then or_log "sync-request-failed" (request_legacy_sync_from config from)
      else
        _ ← record_sync_repair_failure from;
        _ ← or_log "sync-push-failed"
              (push_best_sync_to config e from (saturating_sub (block_number (header b)) 1)
                 (parent_hash (header b)));
        or_log "sync-request-failed" (request_sync_from config from)
  | Ok Duplicate => mret tt
  | Err _ => log_event "peer-block-rejected"
  end.

Definition on_quorum_certificate (from : ValidatorId) (qc : QuorumCertificate) : M unit :=
  if negb (consensus_v2 (flags config)) then mret tt
  else
    s ← get;
    match known_block s (qc_block_hash qc) with
    | None =>
        _ ← record_peer_sync_status_with_slot from (qc_block_number qc) (qc_block_hash qc)
              (qc_slot qc) (Some (qc_block_hash qc)) (qc_block_number qc)
              [mkAnchor (qc_block_hash qc) (qc_block_number qc)];
        _ ← log_event "qc-rejected";
        or_log "sync-request-failed" (request_sync_from config from)
    | Some _ =>
        outcome ← try (import_quorum_certificate config e import qc);
        match outcome with
        | Ok true => announce_certified_progress config e
        | Ok false => mret tt
        | Err _ => log_event "qc-rejected"
        end
    end.

Definition on_sync_status (id : ValidatorId) (h : Z) (tip : HashBytes) (tip_slot : Z)
    (qc_hash : option HashBytes) (qc_height : Z) (anchors : list SyncQcAnchor) : M unit :=
  _ ← record_peer_sync_status_with_slot id h tip tip_slot qc_hash qc_height anchors;
  v ← gets local_sync_view;
  if lv_height v <? h then or_log "sync-request-failed" (request_sync_from config id)
  else if (h <? lv_height v) || negb (tip =? lv_tip_hash v)
  then or_log "sync-push-failed" (push_best_sync_to config e id h tip)
  else mret tt.

Definition on_sync_request (requester : ValidatorId) (known_height : Z) (known_tip : HashBytes)
    : M unit :=
  let force_full := is_force_full_snapshot_hint known_height known_tip in
  _ ← record_peer_sync_status requester known_height known_tip None 0 [];
  throttled ← gets (fun s => sync_request_is_throttled s requester known_height known_tip);
  if negb force_full && throttled then
    _ ← bump SyncRequestsThrottled 1; log_event "sync-request-throttled"
  else if negb force_full then
    _ ← record_sync_request_served requester known_height known_tip;
    if consensus_v2 (flags config) then push_best_sync_to config e requester known_height known_tip
    else send_best_sync_to config e requester known_height known_tip
  else
    p ← lift (find_peer config requester);
    send_full_snapshot_to config e p.

(** What follows an applied import. *)
Definition after_sync (responder : ValidatorId) (c : MetricCounter) (event : string) : M unit :=
  _ ← try_promote_orphans config e fuel rounds;
  _ ← clear_sync_repair_memory responder;
  _ ← bump c 1;
  _ ← log_event event;
  ahead ← gets (fun s => peer_status_is_ahead s responder);
  _ ← (if ahead : bool then request_sync_from config responder else mret tt);
  or_log "sync-push-failed" (maybe_push_tip_progress_to_stale_peers config e).

Definition on_sync_response (responder : ValidatorId) (c : ChainSnapshot) : M unit :=
  let snap := cs_snapshot c in
  _ ← record_peer_sync_status_with_slot responder (height snap) (tip_hash snap) (last_slot snap)
        None 0 [];
  s ← get;
  let local := ledger (chain s) in
  if should_adopt_chain_snapshot config s local c then
    outcome ← try (apply_chain_snapshot config e fuel c);
    match outcome with
    | Ok _ => after_sync responder FullSyncApplied "sync-applied"
    | Err _ => log_event "sync-rejected"
    end
  else if should_push_local_snapshot_after_sync_response config s local c
  then or_log "sync-push-failed" (push_best_sync_to config e responder (height snap) (tip_hash snap))
  else mret tt.

Definition on_sync_blocks (responder : ValidatorId) (c : ChainSegment) : M unit :=
  let target := target_snapshot c in
  _ ← record_peer_sync_status_with_slot responder (height target) (tip_hash target)
        (last_slot target) None 0 [];
  s ← get;
  if negb (should_adopt_chain_segment config s (ledger (chain s)) c) then mret tt
  else
    outcome ← try (apply_chain_segment config e fuel c);
    match outcome with
    | Ok _ => after_sync responder IncrementalSyncApplied "sync-blocks-applied"
    | Err _ =>
        _ ← record_sync_repair_failure responder;
        _ ← log_event "sync-blocks-rejected";
        or_log "sync-request-failed" (request_sync_from config responder)
    end.

Definition on_certified_sync_request (r : ChunkedSyncRequest) : M unit :=
  if negb (consensus_v2 (flags config)) then mret tt
  else
    p ← lift (find_peer config (cr_requester r));
    s ← get;
    let shared := highest_shared_qc_anchor s (peer_qc_anchors_from_request r) in
    let response := build_certified_sync_response config s r in
    _ ← match response with
        | Certified _ _ _ _ _ _ _ _ _ => bump CertifiedSyncServed 1
        | Unavailable _ => mret tt
        end;
    _ ← send_control_to p (MsgCertifiedSyncResponse response);
    match shared with
    | Some anchor => send_anchored_suffix_sync_to config e (cr_requester r) anchor
    | None => mret tt
    end.

(** The follow-up to an ignored certified response. *)
Definition certified_followup (responder : ValidatorId) (reason : CertifiedSyncIgnoreReason)
    : M unit :=
  match reason with
  | ReasonUnavailable =>
      barrier ← gets (fun s => startup_sync_barrier (slots s));
      if barrier : bool then request_followup_legacy_sync_from config responder
      else
        requested ← request_best_available_sync_from_ahead_peers_excluding config (Some responder);
        if requested : bool then mret tt else request_followup_legacy_sync_from config responder
  | SharedQcMismatch => request_followup_legacy_sync_from config responder
  | StaleSnapshot =>
      s ← get;
      match preferred_pending_child_for_certified_head s with
      | Some _ => request_followup_legacy_sync_from config responder
      | None => mret tt
      end
  | EmptyPayload => mret tt
  end.

Definition on_certified_sync_response (from : ValidatorId) (r : ChunkedSyncResponse) : M unit :=
  if negb (consensus_v2 (flags config)) then mret tt
  else
    outcome ← try (import_certified_sync_response config e fuel r);
    match outcome with
    | Ok Applied =>
        _ ← try_promote_orphans config e fuel rounds;
        announce_certified_progress config e
    | Ok (Ignored reason) => or_log "sync-request-failed" (certified_followup from reason)
    | Err _ =>
        _ ← log_event "certified-sync-rejected";
        _ ← record_sync_repair_failure from;
        or_log "sync-request-failed"
          (request_best_available_sync_from_ahead_peers_excluding config (Some from))
    end.

Definition on_service_attestation (a : ServiceAttestation) : M unit :=
  if negb (consensus_v2 (flags config)) then mret tt
  else
    outcome ← try (import_service_attestation config e a);
    match outcome with
    | Err _ => log_event "service-attestation-rejected"
    | Ok _ =>
        _ ← bump ServiceAttestationsImported 1;
        _ ← maybe_publish_service_aggregate config e (sa_subject a) (sa_epoch a);
        mret tt
    end.

Definition on_service_aggregate (a : ServiceAggregate) : M unit :=
  if negb (consensus_v2 (flags config)) then mret tt
  else
    outcome ← try (import_service_aggregate config e a);
    match outcome with
    | Err _ => log_event "service-aggregate-rejected"
    | Ok _ => _ ← bump ServiceAggregatesImported 1; refresh_service_scores config e
    end.

Definition on_receipt_fetch (requester : ValidatorId) (epoch : Epoch) (id : ValidatorId) : M unit :=
  s ← get;
  let rs := filter (fun r => rr_epoch r = epoch /\ rr_source r = id) (receipts (pool s)) in
  p ← lift (find_peer config requester);
  send_control_to p (MsgReceiptResponse (node_id config) epoch id rs).

Definition dispatch (from : ValidatorId) (m : ProtocolMessage) : M unit :=
  match m with
  | MsgTransactionBroadcast t =>
      or_log "peer-tx-rejected" (handle_transaction config e t from false)
  | MsgBlockProposal b => on_block_proposal from b
  | MsgProposalVote v =>
      if consensus_v2 (flags config) then or_log "proposal-vote-rejected" (import v) else mret tt
  | MsgQuorumCertificate qc => on_quorum_certificate from qc
  | MsgSyncStatus id h tip tip_slot qc_hash qc_height anchors =>
      on_sync_status id h tip tip_slot qc_hash qc_height anchors
  | MsgSyncRequest requester h tip => on_sync_request requester h tip
  | MsgSyncResponse responder c => on_sync_response responder c
  | MsgSyncBlocks responder c => on_sync_blocks responder c
  | MsgHeartbeatPulse p =>
      maybe_issue_receipt config e (hp_source p) (node_id config) Heartbeat (hp_slot p)
        (canonical_hash (CPulse p)) (canonical_hash (CPulse p)) (hp_sequence p)
  | MsgCertifiedSyncRequest r => on_certified_sync_request r
  | MsgCertifiedSyncResponse r => on_certified_sync_response from r
  | MsgRelayReceipt r =>
      stored ← store_receipt config e r;
      if stored : bool then broadcast (peers config) (MsgRelayReceipt r) else mret tt
  | MsgServiceAttestation a => on_service_attestation a
  | MsgServiceAggregate a => on_service_aggregate a
  | MsgReceiptFetch requester epoch id => on_receipt_fetch requester epoch id
  | MsgReceiptResponse _ _ _ rs => for_each rs (fun r => _ ← store_receipt config e r; mret tt)
  end.

Definition handle_protocol_message (from : ValidatorId) (m : ProtocolMessage) : M unit :=
  now ← gets clock;
  allowed ← match classify_peer_message m with
            | Some c => allow_peer_message from c now
            | None => mret true
            end;
  if negb allowed then _ ← bump PeerRateLimitDrops 1; log_event "peer-rate-limited"
  else dispatch from m.

(** ** Network events *)

Inductive NetworkEvent :=
| Received (from : ValidatorId) (payload : ProtocolMessage)
| SessionObserved (peer : ValidatorId) (outbound accountable : bool)
| SessionFailed (peer : option ValidatorId) (outbound accountable : bool) (kind : NetworkFailureKind)
| InboundSessionDropped.

Definition current_epoch : M Epoch :=
  slot ← processed_or_current_slot e;
  mret (epoch_for_slot e slot).

Definition mark_live (id : ValidatorId) (v : ServiceState) : ServiceState :=
  set_sessions (failed_sessions_total v) (observed_failed_sessions v)
    (observed_successful_sessions v) (observed_invalid_receipts v)
    ({[id]} ∪ known_live_peers v) v.
Definition count_failed_session (v : ServiceState) : ServiceState :=
  set_sessions (wadd (failed_sessions_total v) 1) (observed_failed_sessions v)
    (observed_successful_sessions v) (observed_invalid_receipts v) (known_live_peers v) v.

Definition handle_network_event (ev : NetworkEvent) : M unit :=
  match ev with
  | Received from payload =>
      _ ← modify (with_service (mark_live from));
      _ ← log_event "network-recv";
      handle_protocol_message from payload
  | SessionObserved peer outbound accountable =>
      _ ← (if should_track_outbound_service_session outbound accountable then
             _ ← modify (with_service (mark_live peer));
             epoch ← current_epoch;
             modify (with_service (record_successful_session e epoch (node_id config) peer))
           else mret tt);
      log_event "session-observed"
  | SessionFailed peer outbound accountable kind =>
      _ ← modify (with_service count_failed_session);
      _ ← (if should_record_failed_service_session outbound accountable kind then
             match peer with
             | Some peer =>
                 epoch ← current_epoch;
                 modify (with_service (record_failed_session e epoch (node_id config) peer))
             | None => mret tt
             end
           else mret tt);
      _ ← bump HandshakeFailures 1;
      log_event "disconnect"
  | InboundSessionDropped => log_event "inbound-session-dropped"
  end.

(** ** Slot ticks *)

Definition broadcast_heartbeat (slot : Slot) (epoch : Epoch) : M unit :=
  s ← get;
  if bool_decide (last_heartbeat_slot (slots s) = Some slot) then mret tt
  else
    _ ← modify (with_slots (fun t => mkSlots (last_processed_slot t) (last_logged_epoch t)
                  (Some slot) (last_proposed_slot t) (startup_sync_barrier t)));
    broadcast (peers config) (MsgHeartbeatPulse (mkPulse epoch slot (node_id config) slot (clock s))).

Definition epoch_transition (epoch : Epoch) (live : bool) : M unit :=
  logged ← gets (fun s => last_logged_epoch (slots s));
  if bool_decide (logged = Some epoch) then mret tt
  else
    _ ← modify (with_slots (fun t => mkSlots (last_processed_slot t) (Some epoch)
                  (last_heartbeat_slot t) (last_proposed_slot t) (startup_sync_barrier t)));
    if live then
      _ ← log_event "epoch-transition";
      _ ← log_event "service-score";
      _ ← (if 0 <? epoch then request_receipt_reconciliation config (epoch - 1) else mret tt);
      if 2 <? epoch then refresh_recent_service_attestations config e epoch else mret tt
    else mret tt.

Definition live_slot (slot : Slot) (epoch : Epoch) : M unit :=
  _ ← broadcast_heartbeat slot epoch;
  ahead ← gets (fun s => existsb (fun p => peer_status_is_ahead s (peer_id p)) (peers config));
  _ ← (if sync_on_startup config && ahead then
         _ ← maybe_broadcast_recovery_sync_status config slot;
         _ ← maybe_request_recovery_sync_from_ahead_peer config slot; mret tt
       else mret tt);
  _ ← (if consensus_v2 (flags config) then
         _ ← maybe_repair_stale_pending_certified_child config slot; mret tt
       else mret tt);
  _ ← maybe_propose_block config e fuel rounds slot epoch;
  try_promote_orphans config e fuel rounds.

Definition process_slot (current slot : Slot) : M unit :=
  let live := slot =? current in
  let epoch := epoch_for_slot e slot in
  _ ← modify (with_slots (fun t => mkSlots (Some slot) (last_logged_epoch t)
                (last_heartbeat_slot t) (last_proposed_slot t) (startup_sync_barrier t)));
  _ ← refresh_service_scores config e;
  _ ← modify (with_metrics (fun m => mkMetrics (counter m) slot epoch
        (last_completed_service_epoch m) (last_local_service_score m)
        (last_local_service_counters m) (relay_scores m)));
  _ ← epoch_transition epoch live;
  if live then live_slot slot epoch else mret tt.

Definition process_slot_tick : M unit :=
  s ← get;
  if clock s <? genesis_time_unix_millis (genesis e) then mret tt
  else
    current ← or_panic (slot_at e (clock s));
    if bool_decide (last_processed_slot (slots s) = Some current) then mret tt
    else for_each (pending_slots_to_process (last_processed_slot (slots s)) current)
           (process_slot current).

(** ** Inbox and shutdown

    The inbox files are given as (file name, transaction) pairs in the order
    the directory listing returned them. *)
Definition string_le_cmp (a b : string) : comparison :=
  lex_compare (string_to_bytes a) (string_to_bytes b).
Definition inbox_cmp (a b : string * SignedTransaction) : comparison :=
  cmp_then (lex_compare
              [stx_signer_id a.2; tx_nonce (stx_transaction a.2); stx_submitted_at a.2]
              [stx_signer_id b.2; tx_nonce (stx_transaction b.2); stx_submitted_at b.2])
    (string_le_cmp a.1 b.1).

Definition process_inbox (files : list (string * SignedTransaction)) : M unit :=
  for_each (sort_by inbox_cmp files) (fun f =>
    or_log "inbox-tx-rejected" (handle_transaction config e f.2 (node_id config) true)).

Definition handle_shutdown : M unit :=
  _ ← refresh_service_scores config e;
  _ ← write_snapshot;
  log_event "node-stopped".

(** ** Start

    [run_node] up to its event loop: load the files, restore the evidence
    and the certificates, rebuild the duplicate filters. *)
Definition loaded_ledger (d : Storage) : LedgerState :=
  match snapshot_file d with
  | Some snap => snap
  | None => match replay_blocks (genesis e) (blocks_file d) with
            | Ok l => l
            | Err _ => from_genesis (genesis e)
            end
  end.

Definition empty_service : ServiceState := mkService ∅ ∅ ∅ ∅ ∅ ∅ 0 0 ∅ ∅ ∅ ∅.
Definition empty_sync : SyncState := mkSync ∅ ∅ None None ∅ ∅ ∅.
Definition empty_metrics : NodeMetrics :=
  mkMetrics (fun _ => 0) 0 0 0 f64_zero default_counters ∅.

(** The fields before the restore; a zero slot duration panics. *)
Definition loaded_node (d : Storage) (now : Z) : option NodeRunner :=
  let l := loaded_ledger d in
  slot ← initial_last_processed_slot e (last_slot <$> snapshot_file d) now;
  Some (mkNode (mkChain l (blocks_file d) [] []) (mkVotes ∅ ∅ ∅)
          (mkPool ∅ ∅ ∅ (receipts_file d) ∅ ∅) empty_service
          (mkSlots slot None None None
             (sync_on_startup config && negb (bool_decide (length (peers config) = 0%nat))
              && (0 <? height l) && (genesis_time_unix_millis (genesis e) <=? now)))
          empty_sync d empty_metrics [] [] now).

Definition restore (d : Storage) : M unit :=
  _ ← restore_service_evidence config e (service_attestations_file d) (service_aggregates_file d);
  _ ← restore_quorum_certificates config e (quorum_certificates_file d);
  rebuild_seen_sets.

(** ** Runs

    What the loop of [run] reacts to, the clock read at each event, and the
    states that follow: a fresh start, a restart on the files of a state
    that was reached, and any event. *)
Inductive node_event :=
| NetworkInput (ev : NetworkEvent)
| SlotTick
| InboxTick (files : list (string * SignedTransaction))
| MetricsTick
| SyncTick
| ShutdownSignal.

Definition run_event (ev : node_event) : M unit :=
  match ev with
  | NetworkInput ev => handle_network_event ev
  | SlotTick => process_slot_tick
  | InboxTick files => process_inbox files
  | MetricsTick => refresh_service_scores config e
  | SyncTick => if sync_on_startup config then run_sync_maintenance config e else mret tt
  | ShutdownSignal => handle_shutdown
  end.

Definition at_time (now : Z) (s : NodeRunner) : NodeRunner :=
  mkNode (chain s) (votes s) (pool s) (service s) (slots s) (sync s) (storage s) (metrics s)
    (outbox s) (event_log s) now.

Definition empty_storage : Storage := mkStorage [] [] [] [] [] [] None.
End handlers.

Section reachability.
Context `{Hashing} `{CryptoBackend}.
Context (config : NodeConfig) (e : ConsensusEngine).

Inductive reachable : NodeRunner -> Prop :=
| reach_fresh now s s' :
    validate_hybrid_enforcement_genesis config (genesis e) = Ok tt ->
    loaded_node config e empty_storage now = Some s ->
    restore config e empty_storage s = (Done tt, s') -> reachable s'
| reach_restart s0 now s s' :
    reachable s0 -> validate_hybrid_enforcement_genesis config (genesis e) = Ok tt ->
    loaded_node config e (storage s0) now = Some s ->
    restore config e (storage s0) s = (Done tt, s') -> reachable s'
| reach_event s now fuel rounds ev :
    reachable s -> reachable (run_event config e fuel rounds ev (at_time now s)).2.
End reachability.
