(* ===== verification/Invariants.v ===== *)
(** * Invariants of the running node

    Every event leaves the vote store consistent and the node's memory equal
    to its files, whatever the event, its outcome, and the fuel given to the
    model; a restart resumes from the same chain. *)
From S2P Require Import Prelude F64 Hybrid Types Concrete Crypto Ledger Consensus.
From S2P Require Import Policy Snapshots NodeState Branches Receipts SyncServe Service Votes.
From S2P Require Import Safety Durable Blocks Handlers.

Open Scope Z_scope.

Lemma keeps_and (I J : NodeRunner -> Prop) {A} (m : M A) :
  keeps I m -> keeps J m -> keeps (fun s => I s /\ J s) m.
Proof. intros HI HJ s [Hi Hj]. split; [by apply HI | by apply HJ]. Qed.

Section invariants.
Context `{Hashing} `{CryptoBackend}.
Context (config : NodeConfig) (e : ConsensusEngine).

Definition node_ok (s : NodeRunner) : Prop := vote_store_ok e s /\ durable_ok e s.

#[export] Instance node_ok_quiet : Quiet node_ok.
Proof. by split. Qed.

#[export] Instance node_ok_invariant : VoteInvariant config e node_ok.
Proof.
  pose proof (vote_store_invariant config e) as V. pose proof (durable_invariant config e) as D.
  split.
  - apply _.
  - intros bs ev. apply keeps_and; [apply (@vi_adopt _ _ _ _ _ V)|apply (@vi_adopt _ _ _ _ _ D)].
  - intros v Hv. apply keeps_and;
      [by apply (@vi_store _ _ _ _ _ V)|by apply (@vi_store _ _ _ _ _ D)].
  - intros v Hv. apply keeps_and;
      [by apply (@vi_buffer _ _ _ _ _ V)|by apply (@vi_buffer _ _ _ _ _ D)].
  - intros h. apply keeps_and; [apply (@vi_build _ _ _ _ _ V)|apply (@vi_build _ _ _ _ _ D)].
  - intros qc s Hq Hn [Hv Hd].
    split; [by apply (@vi_insert_qc _ _ _ _ _ V)|by apply (@vi_insert_qc _ _ _ _ _ D)].
  - intros h. apply keeps_and; [apply (@vi_take _ _ _ _ _ V)|apply (@vi_take _ _ _ _ _ D)].
  - intros v. apply keeps_and;
      [apply (@vi_retract _ _ _ _ _ V)|apply (@vi_retract _ _ _ _ _ D)].
  - intros h n. apply keeps_and;
      [apply (@vi_prune _ _ _ _ _ V)|apply (@vi_prune _ _ _ _ _ D)].
Qed.

(** Updates that leave the chain, the votes, the receipts and their files
    alone keep [node_ok] by computation. *)
Lemma node_ok_service f : keeps node_ok (modify (with_service f)).
Proof. by apply keeps_modify. Qed.
Lemma node_ok_slots f : keeps node_ok (modify (with_slots f)).
Proof. by apply keeps_modify. Qed.
Lemma node_ok_metrics f : keeps node_ok (modify (with_metrics f)).
Proof. by apply keeps_modify. Qed.
Lemma node_ok_orphans f : keeps node_ok (modify (with_chain (set_orphans f))).
Proof. by apply keeps_modify. Qed.
Lemma node_ok_pending f : keeps node_ok (modify (with_chain (set_pending f))).
Proof. by apply keeps_modify. Qed.
Lemma node_ok_orphan_file f : keeps node_ok (modify (with_storage (set_orphan_file f))).
Proof. by apply keeps_modify. Qed.
Lemma node_ok_attestations_file f : keeps node_ok (modify (with_storage (set_attestations_file f))).
Proof. by apply keeps_modify. Qed.
Lemma node_ok_aggregates_file f : keeps node_ok (modify (with_storage (set_aggregates_file f))).
Proof. by apply keeps_modify. Qed.
Lemma node_ok_transaction t : keeps node_ok (modify (with_pool (add_transaction t))).
Proof. by apply keeps_modify. Qed.
Lemma node_ok_forget b : keeps node_ok (modify (with_pool (forget_transactions b))).
Proof. by apply keeps_modify. Qed.
Hint Resolve node_ok_service node_ok_slots node_ok_metrics node_ok_orphans node_ok_pending
  node_ok_orphan_file node_ok_attestations_file node_ok_aggregates_file node_ok_transaction
  node_ok_forget : keeps.

Lemma node_ok_write_snapshot : keeps node_ok write_snapshot.
Proof.
  apply keeps_modify. intros s [Hv (Hl & Hr & Hb & Hs & Hrf & Hq)].
  split; [done|]. split_and!; try done.
Qed.

(** ** Receipts and transactions *)

Lemma node_ok_persist_receipt r : keeps node_ok (persist_receipt config r).
Proof.
  intros s [Hv (Hl & Hr & Hb & Hs & Hrf & Hq)].
  destruct (persist_receipt_spec config r s) as (b & s' & -> & Ho & Hok).
  destruct Ho as (Hc & Hvs & _ & _ & _ & _ & _ & rs & Hrs & Hd). unfold node_ok, vote_store_ok,
    durable_ok, files_ok. simpl. rewrite Hc, Hvs, Hd. simpl.
  split; [done|]. split_and!; try done; [by apply Hok | by rewrite Hrs, Hrf].
Qed.
Hint Resolve node_ok_persist_receipt node_ok_write_snapshot : keeps.

Lemma node_ok_store_receipt r : keeps node_ok (store_receipt config e r).
Proof. unfold store_receipt, validate_receipt, reject_receipt. keeps_auto. Qed.
Hint Resolve node_ok_store_receipt : keeps.

Lemma node_ok_issue_receipt a b c d x y z :
  keeps node_ok (maybe_issue_receipt config e a b c d x y z).
Proof. unfold maybe_issue_receipt. keeps_auto. Qed.
Hint Resolve node_ok_issue_receipt : keeps.

Lemma node_ok_current_slot : keeps node_ok (processed_or_current_slot e).
Proof. unfold processed_or_current_slot. keeps_auto. Qed.
Hint Resolve node_ok_current_slot : keeps.

Lemma node_ok_handle_transaction t from l : keeps node_ok (handle_transaction config e t from l).
Proof. unfold handle_transaction. keeps_auto. Qed.
Hint Resolve node_ok_handle_transaction : keeps.

(** ** Service evidence *)

Lemma node_ok_refresh : keeps node_ok (refresh_service_scores config e).
Proof. unfold refresh_service_scores, write_score_metrics. keeps_auto; done. Qed.
Hint Resolve node_ok_refresh : keeps.

Lemma node_ok_insert_attestation a p : keeps node_ok (insert_service_attestation a p).
Proof. unfold insert_service_attestation. keeps_auto. Qed.
Hint Resolve node_ok_insert_attestation : keeps.

Lemma node_ok_insert_attestations l p c : keeps node_ok (insert_attestations l p c).
Proof. revert c. induction l; intros c; simpl; keeps_auto. Qed.
Lemma node_ok_insert_aggregate a p : keeps node_ok (insert_service_aggregate a p).
Proof. unfold insert_service_aggregate. keeps_auto. Qed.
Hint Resolve node_ok_insert_attestations node_ok_insert_aggregate : keeps.

Lemma node_ok_merge_aggregate a p : keeps node_ok (merge_service_aggregate config e a p).
Proof. unfold merge_service_aggregate. keeps_auto. Qed.
Hint Resolve node_ok_merge_aggregate : keeps.
Lemma node_ok_import_aggregate a : keeps node_ok (import_service_aggregate config e a).
Proof. unfold import_service_aggregate. keeps_auto. Qed.
Lemma node_ok_import_attestation a : keeps node_ok (import_service_attestation config e a).
Proof. unfold import_service_attestation. keeps_auto. Qed.
Hint Resolve node_ok_import_aggregate node_ok_import_attestation : keeps.
Lemma node_ok_publish a b : keeps node_ok (maybe_publish_service_aggregate config e a b).
Proof. unfold maybe_publish_service_aggregate. keeps_auto. Qed.
Hint Resolve node_ok_publish : keeps.
Lemma node_ok_emit x : keeps node_ok (emit_service_attestations_for_completed_epoch config e x).
Proof. unfold emit_service_attestations_for_completed_epoch. keeps_auto. Qed.
Hint Resolve node_ok_emit : keeps.
Lemma node_ok_refresh_attestations x :
  keeps node_ok (refresh_recent_service_attestations config e x).
Proof. unfold refresh_recent_service_attestations. keeps_auto. Qed.
Hint Resolve node_ok_refresh_attestations : keeps.

(** ** The voting cycle and the blocks *)

Section blocks.
Context (fuel : nat).
Abbreviation import := (import_proposal_vote config e fuel).

Lemma node_ok_import v : keeps node_ok (import v).
Proof. apply keeps_import_proposal_vote, _. Qed.
Lemma node_ok_vote b : keeps node_ok (maybe_broadcast_local_proposal_vote config import b).
Proof. eapply keeps_broadcast_local_vote; [apply _|apply node_ok_import]. Qed.
Lemma node_ok_better_child :
  keeps node_ok (maybe_adopt_better_uncertified_child_for_certified_head config e import).
Proof. apply keeps_adopt_better_child; [apply _|apply node_ok_import]. Qed.
Lemma node_ok_finalize h : keeps node_ok (maybe_finalize_quorum_certificate config e import h).
Proof. apply keeps_finalize; [apply _|apply node_ok_import]. Qed.
Lemma node_ok_vote_for_tip :
  keeps node_ok (maybe_broadcast_local_vote_for_current_pre_qc_tip config import).
Proof. eapply keeps_vote_for_tip; [apply _|apply node_ok_import]. Qed.
Lemma node_ok_import_qc qc : keeps node_ok (import_quorum_certificate config e import qc).
Proof. apply keeps_import_qc; [apply _|apply node_ok_import]. Qed.
Lemma node_ok_import_buffered b :
  keeps node_ok (import_buffered_proposal_votes_for_block import b).
Proof. eapply keeps_import_buffered; [apply _|apply node_ok_import]. Qed.
Lemma node_ok_adopt bs ev : keeps node_ok (adopt_canonical_chain config e bs ev).
Proof. apply (@vi_adopt _ _ _ _ _ node_ok_invariant). Qed.
Hint Resolve node_ok_import node_ok_vote node_ok_better_child node_ok_finalize
  node_ok_vote_for_tip node_ok_import_qc node_ok_import_buffered node_ok_adopt : keeps.

Lemma node_ok_competing b : keeps node_ok (accept_competing_block config e fuel b).
Proof.
  unfold accept_competing_block, maybe_broadcast_vote_for_competing_block,
    maybe_adopt_preferred_competing_branch, push_orphan. keeps_auto.
Qed.
Lemma node_ok_under_head b : keeps node_ok (accept_under_certified_head config e fuel b).
Proof. unfold accept_under_certified_head, push_orphan. keeps_auto. Qed.
Hint Resolve node_ok_competing node_ok_under_head : keeps.

(** Extending the chain: after the ledger, the block list and both files
    are written the state is consistent again. *)
Lemma node_ok_at_tip s next b l :
  node_ok s -> apply_block_clone (ledger (chain s)) b = Ok next ->
  node_ok (accept_at_tip config e fuel next b l s).2.
Proof.
  intros [Hv (Hl & Hr & Hb & Hs & Hrf & Hq)] Hn. unfold accept_at_tip.
  rewrite !run_modify. set (s4 := with_storage _ (with_pool _ _)).
  assert (Hk : node_ok (write_snapshot s4).2).
  { split; [exact Hv|]. split_and!; try done.
    - unfold ledger_ok; simpl. by rewrite replay_blocks_snoc, Hl.
    - unfold files_ok; simpl. by rewrite Hb. }
  apply bind_keeps_from; [exact Hk|]. unfold import_commitment_receipts. keeps_auto.
Qed.

Lemma node_ok_accept b l : keeps node_ok (accept_block config e fuel b l).
Proof.
  intros s Hs. unfold accept_block. rewrite run_get. destruct (known_block s _); [done|].
  rewrite run_lift. destruct (check_block_seal b) as [u|m]; [|done].
  rewrite run_bind. destruct (proposer_for_slot e _) as [p|]; [|done]. simpl.
  rewrite run_lift. destruct (ensure _ _) as [u1|m]; [|done].
  rewrite run_lift. destruct (check_block_body config e b) as [u2|m]; [|done].
  destruct (negb _); [by apply node_ok_competing|].
  destruct (service_gate config e s b l) as [enforced score].
  rewrite run_lift. destruct (validate_block_basic _ _ _ _ _ _) as [u3|m]; [|done].
  rewrite run_lift. destruct (apply_block_clone _ b) as [next|m] eqn:En; [|done].
  destruct (_ && _); [by apply node_ok_under_head | by apply node_ok_at_tip].
Qed.
Hint Resolve node_ok_accept : keeps.

Lemma node_ok_promote rounds : keeps node_ok (try_promote_orphans config e fuel rounds).
Proof. induction rounds as [|rounds IH]; simpl; keeps_auto. Qed.
Hint Resolve node_ok_promote : keeps.

Lemma node_ok_startup : keeps node_ok (startup_sync_blocks_proposal config).
Proof. unfold startup_sync_blocks_proposal. keeps_auto. Qed.
Lemma node_ok_gate x : keeps node_ok (proposal_gate config e x).
Proof. unfold proposal_gate, reject_by_score, set_local_score. keeps_auto. Qed.
Hint Resolve node_ok_startup node_ok_gate : keeps.

Lemma node_ok_propose rounds slot epoch :
  keeps node_ok (maybe_propose_block config e fuel rounds slot epoch).
Proof. unfold maybe_propose_block. keeps_auto. Qed.
Hint Resolve node_ok_propose : keeps.

(** ** Imported chains *)

Lemma node_ok_retain p : keeps node_ok (modify (with_votes (set_proposal_votes (retain_hashes p)))).
Proof.
  apply keeps_modify. intros s [Hv Hd]. split; [|exact Hd]. revert Hv.
  apply vote_store_sub; [|done].
  intros h id v [Hw|Hw]; simpl in Hw; [left; by eapply retain_hashes_sub|by right].
Qed.
Lemma node_ok_filter_qcs p :
  keeps node_ok (modify (with_votes (set_qcs (filter (fun kv => p kv.1 = true))))).
Proof.
  apply keeps_modify. intros s [[Hv Hq] (Hl & Hr & Hb & Hs & Hrf & Hf)].
  split; [split; [exact Hv|]|split_and!; try done; unfold files_ok; split_and!; try done].
  - intros h qc [Hh _]%map_lookup_filter_Some. by apply Hq.
  - intros h qc [Hh _]%map_lookup_filter_Some. by eapply Hf.
Qed.
Lemma node_ok_filter_buffered p :
  keeps node_ok (modify (with_votes (set_buffered (filter (fun kv => p kv.1 = false))))).
Proof.
  apply keeps_modify. intros s [Hv Hd]. split; [|exact Hd]. revert Hv.
  apply vote_store_sub; [|done]. intros h id v [Hw|Hw]; simpl in Hw; [by left|right].
  destruct Hw as (inner & [Hi _]%map_lookup_filter_Some & Hv). by exists inner.
Qed.
Lemma node_ok_persist_qcs : keeps node_ok persist_quorum_certificates.
Proof.
  apply keeps_modify. intros s [Hv (Hl & Hr & Hb & Hs & Hrf & Hf)].
  split; [exact Hv|]. split_and!; try done. unfold files_ok. split_and!; try done.
  intros h qc Hh. apply bt_values_elem. eauto.
Qed.
Hint Resolve node_ok_retain node_ok_filter_qcs node_ok_filter_buffered node_ok_persist_qcs : keeps.

Lemma node_ok_import_votes vs : keeps node_ok (import_chain_votes config e fuel vs).
Proof.
  unfold import_chain_votes. apply keeps_bind; [apply keeps_gets|]. intros applied.
  apply keeps_bind; [keeps_auto|]. intros _. apply keeps_bind; [keeps_auto|]. intros _.
  apply keeps_bind; [apply node_ok_retain|]. intros _.
  apply keeps_bind; [apply node_ok_filter_qcs|]. intros _.
  apply keeps_bind; [apply node_ok_filter_buffered|]. intros _. apply node_ok_persist_qcs.
Qed.
Hint Resolve node_ok_import_votes : keeps.

(** Replacing the chain and the receipts, then rebuilding the filters and
    writing the files. *)
Lemma rebuilt_receipts_ok bs p :
  NoDup (receipt_event_hash <$> receipts p) -> receipts_ok (rebuild_seen_pool bs p).
Proof.
  intros Hnd. split; [exact Hnd|]. intros r Hr. split; apply elem_of_list_to_set.
  - by apply (list_elem_of_fmap_2 (fun r => canonical_hash (CReceipt r))).
  - by apply list_elem_of_fmap_2.
Qed.

Lemma node_ok_apply_snapshot c : keeps node_ok (apply_chain_snapshot config e fuel c).
Proof.
  intros s Hs. pose proof Hs as [Hv (_ & _ & _ & _ & _ & Hf)].
  unfold apply_chain_snapshot. rewrite run_lift.
  destruct (validate_chain_snapshot (genesis e) e c) as [[st rs]|m] eqn:Ec; [|exact Hs].
  apply (validate_chain_snapshot_ok e) in Ec as (_ & Hrep & -> & -> & _ & Hnd).
  unfold rebuild_seen_sets, write_chain_files, write_snapshot. run_updates.
  apply node_ok_import_votes. split; [exact Hv|]. split_and!.
  - exact Hrep.
  - exact (rebuilt_receipts_ok (cs_blocks c) (set_receipts (cs_receipts c) (pool s)) Hnd).
  - unfold files_ok. split_and!; try done.
Qed.
Hint Resolve node_ok_apply_snapshot : keeps.

(** The base a segment is applied to is the chain or a prefix of it, with
    the ledger it replays to. *)
Lemma repair_base_prefix s c base :
  ledger_ok e (chain s) -> sync_repair_base_for_segment config e s c = Some (Ok base) ->
  base.1 `prefix_of` blocks (chain s) /\ replay_blocks (genesis e) base.1 = Ok base.2.
Proof.
  intros Hl. unfold sync_repair_base_for_segment.
  assert (Hwhole : Some (Ok (blocks (chain s), ledger (chain s))) = Some (Ok base) ->
    base.1 `prefix_of` blocks (chain s) /\ replay_blocks (genesis e) base.1 = Ok base.2)
    by (by intros [= <-]).
  destruct (consensus_v2 _); [|exact Hwhole]. simpl.
  destruct (highest_local_qc s) as [qc|]; [|exact Hwhole].
  destruct (_ && _ && _); [|exact Hwhole]. destruct (_ <? _)%nat; [done|].
  intros [= (l & Hr & [= <-])%result_bind_ok]. split; [|exact Hr].
  exists (drop (Z.to_nat (qc_block_number qc)) (blocks (chain s))). symmetry. apply take_drop.
Qed.

Lemma node_ok_apply_segment c : keeps node_ok (apply_chain_segment config e fuel c).
Proof.
  intros s Hs. pose proof Hs as [Hv (Hl & [Hnd _] & _ & _ & Hrf & Hf)].
  unfold apply_chain_segment. rewrite run_get, run_bind.
  destruct (sync_repair_base_for_segment config e s c) as [base|] eqn:Eb; [|exact Hs]. simpl.
  rewrite run_lift. destruct base as [base|m]; [|exact Hs].
  destruct (repair_base_prefix s c base Hl Eb) as [_ Hbase].
  rewrite run_lift. destruct (align_chain_segment_to_local_chain _ _ c) as [c'|m]; [|exact Hs].
  rewrite run_lift. destruct (validate_snapshot_receipts e _) as [rs|m]; [|exact Hs].
  rewrite run_lift. rewrite Hbase. rewrite run_lift.
  destruct (validate_snapshot_blocks e _ _ _) as [l|m] eqn:El; [|exact Hs].
  apply validate_snapshot_blocks_ok in El as [_ Hrep].
  rewrite run_lift. destruct (ensure _ _) as [u|m]; [|exact Hs].
  unfold rebuild_seen_sets, write_chain_files, write_snapshot. run_updates.
  match goal with |- node_ok (?m ?s1).2 => assert (Hs1 : node_ok s1) end.
  { split; [exact Hv|]. split_and!.
    - unfold ledger_ok; simpl. unfold replay_blocks in *. by rewrite replay_from_app, Hbase.
    - by apply rebuilt_receipts_ok.
    - unfold files_ok. split_and!; [done|done|exact Hrf|exact Hf]. }
  revert Hs1. match goal with |- _ -> node_ok (?m ?s1).2 => generalize s1; change (keeps node_ok m) end.
  keeps_auto.
Qed.
Hint Resolve node_ok_apply_segment : keeps.

Lemma node_ok_certified r : keeps node_ok (import_certified_sync_response config e fuel r).
Proof. unfold import_certified_sync_response. keeps_auto. Qed.
Hint Resolve node_ok_certified : keeps.

(** ** The event loop *)

Context (rounds : nat).

Lemma node_ok_or_log {A} ev (m : M A) : keeps node_ok m -> keeps node_ok (or_log ev m).
Proof. intros Hm. unfold or_log. keeps_auto. Qed.
Hint Resolve node_ok_or_log : keeps.

Lemma node_ok_after_sync r c ev : keeps node_ok (after_sync config e fuel rounds r c ev).
Proof. unfold after_sync. keeps_auto. Qed.
Hint Resolve node_ok_after_sync : keeps.

Lemma node_ok_dispatch from m : keeps node_ok (dispatch config e fuel rounds from m).
Proof.
  destruct m; unfold dispatch, on_block_proposal, on_quorum_certificate, on_sync_status,
    on_sync_request, on_sync_response, on_sync_blocks, on_certified_sync_request,
    on_certified_sync_response, certified_followup, on_service_attestation,
    on_service_aggregate, on_receipt_fetch; keeps_auto.
  all: try (apply node_ok_or_log; keeps_auto).
Qed.
Hint Resolve node_ok_dispatch : keeps.

Lemma node_ok_message from m : keeps node_ok (handle_protocol_message config e fuel rounds from m).
Proof. unfold handle_protocol_message. keeps_auto. Qed.
Hint Resolve node_ok_message : keeps.

Lemma node_ok_network ev : keeps node_ok (handle_network_event config e fuel rounds ev).
Proof. destruct ev; unfold handle_network_event, current_epoch; keeps_auto. Qed.

Lemma node_ok_live_slot slot epoch : keeps node_ok (live_slot config e fuel rounds slot epoch).
Proof. unfold live_slot, broadcast_heartbeat. keeps_auto. Qed.
Lemma node_ok_epoch_transition epoch l : keeps node_ok (epoch_transition config e epoch l).
Proof. unfold epoch_transition. keeps_auto. Qed.
Hint Resolve node_ok_live_slot node_ok_epoch_transition : keeps.

Lemma node_ok_tick : keeps node_ok (process_slot_tick config e fuel rounds).
Proof. unfold process_slot_tick, process_slot. keeps_auto. Qed.

Lemma node_ok_inbox fs : keeps node_ok (process_inbox config e fs).
Proof. unfold process_inbox. keeps_auto. Qed.

Lemma node_ok_shutdown : keeps node_ok (handle_shutdown config e).
Proof. unfold handle_shutdown. keeps_auto. Qed.
End blocks.

(** ** Start and restart *)

Section restart.
Context (c0 : ChainState) (r0 : list RelayReceipt) (f0 : list QuorumCertificate).

(** What loading establishes before the duplicate filters are rebuilt. *)
Definition loaded_ok (s : NodeRunner) : Prop :=
  vote_store_ok e s /\ chain s = c0 /\ receipts (pool s) = r0 /\
  blocks_file (storage s) = blocks c0 /\
  default (from_genesis (genesis e)) (snapshot_file (storage s)) = ledger c0 /\
  receipts_file (storage s) = r0 /\ quorum_certificates_file (storage s) = f0 /\
  (forall h qc, quorum_certificates (votes s) !! h = Some qc -> qc ∈ f0).

#[local] Instance loaded_ok_quiet : Quiet loaded_ok.
Proof. by split. Qed.

Lemma loaded_ok_service f : keeps loaded_ok (modify (with_service f)).
Proof. by apply keeps_modify. Qed.
Hint Resolve loaded_ok_service : keeps.

Lemma loaded_ok_insert_attestation a : keeps loaded_ok (insert_service_attestation a false).
Proof. unfold insert_service_attestation. keeps_auto. Qed.
Hint Resolve loaded_ok_insert_attestation : keeps.
Lemma loaded_ok_insert_attestations l b : keeps loaded_ok (insert_attestations l false b).
Proof. revert b. induction l; intros b; simpl; keeps_auto. Qed.
Lemma loaded_ok_insert_aggregate a : keeps loaded_ok (insert_service_aggregate a false).
Proof. unfold insert_service_aggregate. keeps_auto. Qed.
Hint Resolve loaded_ok_insert_attestations loaded_ok_insert_aggregate : keeps.

Lemma loaded_ok_evidence l k : keeps loaded_ok (restore_service_evidence config e l k).
Proof. unfold restore_service_evidence, merge_service_aggregate. keeps_auto. Qed.

Lemma loaded_ok_store v : vote_valid e v -> keeps loaded_ok (store_proposal_vote config v).
Proof.
  intros Hv. apply keeps_and; [by apply store_keeps|].
  assert (Quiet (fun s => chain s = c0 /\ receipts (pool s) = r0 /\
    blocks_file (storage s) = blocks c0 /\
    default (from_genesis (genesis e)) (snapshot_file (storage s)) = ledger c0 /\
    receipts_file (storage s) = r0 /\ quorum_certificates_file (storage s) = f0 /\
    (forall h qc, quorum_certificates (votes s) !! h = Some qc -> qc ∈ f0))) by by split.
  unfold store_proposal_vote, resolve_conflicting_proposal_vote. keeps_auto; done.
Qed.

Lemma loaded_ok_retract v :
  keeps loaded_ok (modify (with_votes (remove_conflicting_votes_for_certified_vote v))).
Proof.
  intros s [Hv Hd]. split; [|exact Hd].
  exact (retract_keeps e v s Hv).
Qed.

Lemma loaded_ok_certificates : keeps loaded_ok (restore_quorum_certificates config e f0).
Proof.
  unfold restore_quorum_certificates. apply keeps_bind.
  - apply keeps_for_each_in. intros qc Hin. apply keeps_bind; [apply keeps_get|]. intros s.
    destruct (find_first _ _) as [b|]; [|apply keeps_ret].
    apply keeps_lift_bind. intros [] (Hqc & _)%validate_qc_ok. apply keeps_bind.
    + apply keeps_for_each_in. intros v Hvin. destruct Hqc as (_ & _ & Hall).
      rewrite Forall_forall in Hall. specialize (Hall v Hvin).
      apply keeps_bind; [apply loaded_ok_retract|]. intros _.
      apply keeps_bind; [by apply loaded_ok_store|]. intros. apply keeps_ret.
    + intros _. apply keeps_modify. intros s1 [[Hv Hq] (Hc & Hr & Hb & Hs & Hrf & Hf & Hm)].
      split; [split; [exact Hv|]|split_and!; try done].
      * intros h q Hh. simpl in Hh. apply lookup_insert_Some in Hh as [[<- <-]|[_ Hh]]; [done|by apply (Hq h)].
      * intros h q Hh. simpl in Hh. apply lookup_insert_Some in Hh as [[<- <-]|[_ Hh]]; [done|by apply (Hm h)].
  - intros _. apply keeps_modify. intros s [Hv Hd].
    destruct (highest_local_qc s) as [qc|]; [|by split]. split; [|exact Hd].
    exact (prune_keeps e _ _ s Hv).
Qed.

Lemma loaded_ok_rebuild s :
  ledger_ok e c0 -> NoDup (receipt_event_hash <$> r0) -> loaded_ok s ->
  node_ok (rebuild_seen_sets s).2 /\ chain (rebuild_seen_sets s).2 = c0.
Proof.
  intros Hl Hnd (Hv & Hc & Hr & Hb & Hs & Hrf & Hf & Hm). unfold rebuild_seen_sets.
  run_updates. split; [|exact Hc]. split; [exact Hv|]. simpl. split_and!.
  - unfold ledger_ok; simpl. by rewrite Hc.
  - apply rebuilt_receipts_ok. by rewrite Hr.
  - unfold files_ok; simpl. rewrite Hc, Hr. split_and!; try done. rewrite Hf. exact Hm.
Qed.
End restart.

(** What a completed restore established before the last step. *)
Lemma restore_loaded d now s s' :
  default (from_genesis (genesis e)) (snapshot_file d) = loaded_ledger e d ->
  loaded_node config e d now = Some s -> restore config e d s = (Done tt, s') ->
  exists s2, rebuild_seen_sets s2 = (Done tt, s') /\
    loaded_ok (mkChain (loaded_ledger e d) (blocks_file d) [] []) (receipts_file d)
      (quorum_certificates_file d) s2.
Proof.
  intros Hsn (slot & _ & [= <-])%bind_Some. unfold restore.
  intros ([] & s1 & E1 & ([] & s2 & E2 & E3)%M_bind_done)%M_bind_done.
  exists s2. split; [exact E3|]. set (c0 := mkChain _ _ _ _) in *.
  assert (H1 : loaded_ok c0 (receipts_file d) (quorum_certificates_file d) s1).
  { pose proof (loaded_ok_evidence c0 (receipts_file d) (quorum_certificates_file d)
      (service_attestations_file d) (service_aggregates_file d)) as Hk.
    match type of E1 with _ ?s0 = _ => specialize (Hk s0) end. rewrite E1 in Hk. apply Hk.
    split; [split; [split|]|split_and!; try done].
    - intros h id v [(m & Hm & _)|(m & Hm & _)]; simpl in Hm; by rewrite lookup_empty in Hm.
    - intros h h' id v w [(m & Hm & _)|(m & Hm & _)]; simpl in Hm; by rewrite lookup_empty in Hm.
    - intros h q Hq. simpl in Hq. by rewrite lookup_empty in Hq. }
  pose proof (loaded_ok_certificates c0 (receipts_file d) (quorum_certificates_file d) s1 H1) as Hk.
  by rewrite E2 in Hk.
Qed.

(** A restore keeps the chain the files hold. *)
Lemma restore_chain d now s s' :
  default (from_genesis (genesis e)) (snapshot_file d) = loaded_ledger e d ->
  loaded_node config e d now = Some s -> restore config e d s = (Done tt, s') ->
  chain s' = mkChain (loaded_ledger e d) (blocks_file d) [] [].
Proof.
  intros Hsn Hload Hrest.
  destruct (restore_loaded d now s s' Hsn Hload Hrest) as (s2 & E3 & (_ & Hc & _)).
  unfold rebuild_seen_sets in E3. injection E3 as <-. exact Hc.
Qed.

Lemma restore_ok d now s s' :
  ledger_ok e (mkChain (loaded_ledger e d) (blocks_file d) [] []) ->
  default (from_genesis (genesis e)) (snapshot_file d) = loaded_ledger e d ->
  NoDup (receipt_event_hash <$> receipts_file d) ->
  loaded_node config e d now = Some s -> restore config e d s = (Done tt, s') ->
  node_ok s' /\ chain s' = mkChain (loaded_ledger e d) (blocks_file d) [] [] /\
  receipts (pool s') = receipts_file d.
Proof.
  intros Hl Hsn Hnd Hload Hrest.
  destruct (restore_loaded d now s s' Hsn Hload Hrest) as (s2 & E3 & H2).
  destruct (loaded_ok_rebuild _ _ _ s2 Hl Hnd H2) as [Hok Hc]. rewrite E3 in Hok, Hc.
  split_and!; [exact Hok|exact Hc|]. destruct H2 as (_ & _ & Hr & _).
  unfold rebuild_seen_sets in E3. injection E3 as <-. exact Hr.
Qed.

(** What the files of a consistent node load to. *)
Lemma loaded_ledger_durable s :
  durable_ok e s -> loaded_ledger e (storage s) = ledger (chain s) /\
  default (from_genesis (genesis e)) (snapshot_file (storage s)) = loaded_ledger e (storage s).
Proof.
  intros (Hl & _ & Hb & Hs & _). unfold loaded_ledger. destruct (snapshot_file _) as [snap|]; simpl in *.
  - done.
  - rewrite Hb. unfold ledger_ok in Hl. by rewrite Hl.
Qed.

Lemma run_event_ok fuel rounds ev : keeps node_ok (run_event config e fuel rounds ev).
Proof.
  destruct ev; simpl.
  - apply node_ok_network.
  - apply node_ok_tick.
  - apply node_ok_inbox.
  - apply node_ok_refresh.
  - destruct (sync_on_startup config); [apply keeps_run_sync_maintenance; apply _|apply keeps_ret].
  - apply node_ok_shutdown.
Qed.

Lemma reachable_ok s : reachable config e s -> node_ok s.
Proof.
  induction 1 as [now s s' _ Hload Hrest|s0 now s s' Hr IH _ Hload Hrest|s now fuel rounds ev Hr IH].
  - apply (restore_ok empty_storage now s s'); try done. constructor.
  - destruct IH as [_ Hd]. pose proof (loaded_ledger_durable s0 Hd) as [Hll Hsn].
    destruct Hd as (Hl & [Hnd _] & Hb & _ & Hrf & _).
    apply (restore_ok (storage s0) now s s'); try done.
    + unfold ledger_ok; simpl. rewrite Hll, Hb. exact Hl.
    + by rewrite Hrf.
  - by apply run_event_ok.
Qed.
End invariants.

(** ** What holds of a running node *)

Section properties.
Context `{Hashing} `{CryptoBackend}.
Context (config : NodeConfig) (e : ConsensusEngine).

(** C1: Whatever events a node processed, in any order and with whatever
    outcome, through any number of restarts, its ledger is exactly the replay
    of its chain from genesis, its files hold that chain, that state, its
    receipts and its certificates, and no relay event is stored twice. *)
Theorem reachable_node_consistent s :
  reachable config e s ->
  replay_blocks (genesis e) (blocks (chain s)) = Ok (ledger (chain s)) /\
  blocks_file (storage s) = blocks (chain s) /\
  default (from_genesis (genesis e)) (snapshot_file (storage s)) = ledger (chain s) /\
  receipts_file (storage s) = receipts (pool s) /\
  (forall h qc, quorum_certificates (votes s) !! h = Some qc ->
     qc ∈ quorum_certificates_file (storage s)) /\
  NoDup (receipt_event_hash <$> receipts (pool s)).
Proof. intros [_ (Hl & [Hnd _] & Hb & Hs & Hr & Hq)]%reachable_ok. by split_and!. Qed.


(** C9: Every certificate a node stores is filed under its block, is well
    formed, meets the two-thirds threshold in number of votes, and consists
    of validly signed votes of validators for that block. *)
Theorem stored_certificates_checked s h qc :
  reachable config e s -> quorum_certificates (votes s) !! h = Some qc ->
  qc_block_hash qc = h /\ qc_is_well_formed qc = true /\
  certificate_threshold e <= Z.of_nat (length (qc_votes qc)) /\
  Forall (fun v => vote_valid e v /\ pv_block_hash v = h) (qc_votes qc).
Proof.
  intros [[_ Hq] _]%reachable_ok Hl. destruct (Hq _ _ Hl) as (<- & Hw & Ht & Hv).
  split_and!; try done. apply Forall_forall. intros v Hin. rewrite Forall_forall in Hv.
  split; [by apply Hv|]. unfold qc_is_well_formed in Hw.
  apply andb_true_iff in Hw as [_ Hw]. rewrite forallb_forall in Hw.
  apply list_elem_of_In, Hw in Hin. bool_to_prop. done.
Qed.


(** Whatever a running node exports validates by itself: building a
    snapshot never fails, and the snapshot's blocks are a prefix of the
    node's chain whose replay from genesis is the snapshot's state, with
    distinct receipts. *)
Lemma exported_snapshot_replays s :
  reachable config e s ->
  exists c, build_chain_snapshot e s = Ok c /\
    cs_blocks c `prefix_of` blocks (chain s) /\
    replay_blocks (genesis e) (cs_blocks c) = Ok (cs_snapshot c) /\
    NoDup (receipt_event_hash <$> cs_receipts c).
Proof.
  intros [_ (Hl & [Hnd _] & _)]%reachable_ok. unfold ledger_ok in Hl.
  unfold build_chain_snapshot, sync_export_snapshot. set (n := sync_export_prefix_len s).
  assert (Hpre : take n (blocks (chain s)) `prefix_of` blocks (chain s))
    by (exists (drop n (blocks (chain s))); by rewrite take_drop).
  destruct (Nat.eqb_spec n (length (blocks (chain s)))) as [En|_].
  - eexists. split; [done|]. cbn. by rewrite firstn_all2 by lia.
  - destruct (replay_prefix_ok (genesis e) _ _ _ Hpre Hl) as [l Hr]. rewrite Hr.
    eexists. split; [done|]. by cbn.
Qed.
End properties.

(** ** Accountability *)

Section accountability.
Context `{Hashing} `{CryptoBackend}.
Context (e : ConsensusEngine).

Lemma vote_valid_signer v : vote_valid e v -> pv_validator v ∈ validator_id <$> validators (genesis e).
Proof.
  unfold vote_valid, validate_proposal_vote_signature_and_signer.
  intros (u & Hs%ensure_ok & _)%result_bind_ok. apply existsb_exists in Hs as (x & Hx%list_elem_of_In & Hid).
  apply list_elem_of_fmap. exists x. split; [lia|done].
Qed.

Lemma checked_votes_match qc v :
  qc_checked e qc -> v ∈ qc_votes qc ->
  vote_valid e v /\ pv_block_hash v = qc_block_hash qc /\ pv_block_number v = qc_block_number qc.
Proof.
  intros (Hw & _ & Hv) Hin. rewrite Forall_forall in Hv. split; [by apply Hv|].
  unfold qc_is_well_formed in Hw. apply andb_true_iff in Hw as [_ Hw].
  rewrite forallb_forall in Hw. apply list_elem_of_In, Hw in Hin. by bool_to_prop.
Qed.

Lemma checked_signers qc : qc_checked e qc -> (pv_validator <$> qc_votes qc) ⊆ validator_id <$> validators (genesis e).
Proof.
  intros Hqc i (v & -> & Hin)%list_elem_of_fmap. by apply vote_valid_signer, (checked_votes_match qc).
Qed.

(** A validator who signed for two blocks of one height. *)
Definition equivocator (qa qb : QuorumCertificate) (id : ValidatorId) : Prop :=
  exists a b, a ∈ qc_votes qa /\ b ∈ qc_votes qb /\ pv_validator a = id /\ pv_validator b = id /\
    vote_valid e a /\ vote_valid e b /\ pv_block_hash a = qc_block_hash qa /\
    pv_block_hash b = qc_block_hash qb /\ pv_block_number a = pv_block_number b.

Lemma certificates_overlap qa qb :
  qc_checked e qa -> qc_checked e qb -> NoDup (pv_validator <$> qc_votes qa) ->
  NoDup (pv_validator <$> qc_votes qb) -> qc_block_number qa = qc_block_number qb ->
  exists ids, NoDup ids /\ (length (validators (genesis e)) < 3 * length ids)%nat /\
    Forall (equivocator qa qb) ids.
Proof.
  intros Ha Hb Hnda Hndb Hn.
  destruct (quorum_intersection _ _ _ Hnda Hndb (checked_signers qa Ha) (checked_signers qb Hb))
    as (ids & Hnd & Hsa & Hsb & Hlen).
  exists ids. split_and!; [done| |].
  - rewrite !length_fmap in Hlen. destruct Ha as (Hwa & Hta & Hva), Hb as (_ & Htb & _).
    unfold certificate_threshold, quorum_certificate_threshold in *.
    destruct (length (validators (genesis e))) as [|n] eqn:En.
    + exfalso. apply nil_length_inv in En. unfold qc_is_well_formed in Hwa. bool_to_prop.
      destruct (qc_votes qa) as [|v vs]; [done|]. apply Forall_cons in Hva as [Hv _].
      apply vote_valid_signer in Hv. rewrite En in Hv. by apply not_elem_of_nil in Hv.
    + pose proof (Nat.div_mod_eq (S n * 2) 3). pose proof (Nat.mod_upper_bound (S n * 2) 3 ltac:(lia)).
      lia.
  - apply Forall_forall. intros id Hid.
    pose proof (Hsa _ Hid) as (a & Eva & Hia)%list_elem_of_fmap.
    pose proof (Hsb _ Hid) as (b & Evb & Hib)%list_elem_of_fmap.
    destruct (checked_votes_match qa a Ha Hia) as (? & ? & ?), (checked_votes_match qb b Hb Hib) as (? & ? & ?).
    exists a, b. split_and!; try done. congruence.
Qed.

(** Two nodes never certify different blocks of one height by
    themselves unless more than a third of the validators voted twice: if each
    of two nodes (in a state satisfying the vote store invariant, as every
    state of a running node does) collects a certificate from its votes, for
    different blocks with the same number, then more than a third of all
    validators validly signed for both blocks. *)
Lemma conflicting_certificates_expose_equivocators sa sb sa' sb' ha hb qa qb :
  vote_store_ok e sa -> vote_store_ok e sb ->
  quorum_certificates (votes sa) !! ha = None -> quorum_certificates (votes sb) !! hb = None ->
  maybe_build_qc e ha sa = (Done (Some qa), sa') -> maybe_build_qc e hb sb = (Done (Some qb), sb') ->
  ha <> hb -> qc_block_number qa = qc_block_number qb ->
  qc_block_hash qa <> qc_block_hash qb /\
  exists ids, NoDup ids /\ (length (validators (genesis e)) < 3 * length ids)%nat /\
    Forall (equivocator qa qb) ids.
Proof.
  intros Ha Hb Hna Hnb Ea Eb Hne Hn.
  pose proof (maybe_build_qc_spec e ha sa Ha) as Sa. rewrite Ea in Sa.
  pose proof (maybe_build_qc_spec e hb sb Hb) as Sb. rewrite Eb in Sb.
  destruct Sa as [[? _]|(_ & Hqa & <- & Hda & _)]; [congruence|].
  destruct Sb as [[? _]|(_ & Hqb & <- & Hdb & _)]; [congruence|].
  split; [done|]. by apply certificates_overlap.
Qed.
End accountability.
