(* ===== verification/StorageFiles.v ===== *)
(** * The node's files

    [Storage] of crates/entangrid-node/src/lib.rs on text files by path: the
    names, every write, every load, and the start of [run_node] from the
    files.  The rest of the development keeps the lists the files stand for
    ([Storage] of NodeState); the theorem here is that the files refine them.
    How serde_json prints and parses the records is the interface
    [StorageFormats].  Directories exist and writes succeed; what a crash
    leaves of a write is [cut]. *)
From S2P Require Import Prelude Paths F64 Hybrid Types Concrete Crypto Sessions Ledger Consensus.
From S2P Require Import Policy Snapshots NodeState Branches Receipts SyncServe Service Votes.
From S2P Require Import Safety Durable Blocks Handlers Invariants JsonLines.

Open Scope Z_scope.

(** ** Formats *)

(** A whole file that is one pretty-printed document. *)
Class JsonDocument (T : Type) := {
  to_vec_pretty : T -> text;
  document_from_str : text -> Parsed T }.

Class JsonDocumentLaws (T : Type) `{JsonDocument T} := {
  document_not_empty : forall v : T, to_vec_pretty v <> [];
  document_parses : forall v : T, document_from_str (to_vec_pretty v) = Value v;
  document_truncated : forall (v : T) p s, to_vec_pretty v = p ++ s -> s <> [] -> document_from_str p = Eof }.

Class StorageFormats := {
  block_lines :: JsonLine Block;
  receipt_lines :: JsonLine RelayReceipt;
  attestation_lines :: JsonLine ServiceAttestation;
  aggregate_lines :: JsonLine ServiceAggregate;
  certificate_lines :: JsonLine QuorumCertificate;
  snapshot_document :: JsonDocument StateSnapshot }.

Class StorageFormatLaws `{StorageFormats} : Prop := {
  block_laws :: JsonLineLaws Block;
  receipt_laws :: JsonLineLaws RelayReceipt;
  attestation_laws :: JsonLineLaws ServiceAttestation;
  aggregate_laws :: JsonLineLaws ServiceAggregate;
  certificate_laws :: JsonLineLaws QuorumCertificate;
  snapshot_laws :: JsonDocumentLaws StateSnapshot }.

(** ** Names *)

Definition SNAPSHOT_FILE := "state_snapshot.json"%string.
Definition BLOCKS_FILE := "blocks.jsonl"%string.
Definition RECEIPTS_FILE := "receipts.jsonl"%string.
Definition SERVICE_ATTESTATIONS_FILE := "service_attestations.jsonl"%string.
Definition SERVICE_AGGREGATES_FILE := "service_aggregates.jsonl"%string.
Definition QUORUM_CERTIFICATES_FILE := "quorum_certificates.jsonl"%string.
Definition ORPHANS_FILE := "orphans.jsonl"%string.

Record StoragePaths := mkPaths {
  sp_data_dir : string;
  inbox_dir : string;
  processed_dir : string;
  blocks_path : string;
  receipts_path : string;
  service_attestations_path : string;
  service_aggregates_path : string;
  orphan_path : string;
  snapshot_path : string;
  sp_log_path : string;
  sp_metrics_path : string;
  quorum_certificates_path : string }.

Definition storage_new (config : NodeConfig) : StoragePaths :=
  let data_dir := data_dir config in
  mkPaths data_dir (path_join data_dir "inbox") (path_join data_dir "processed")
    (path_join data_dir BLOCKS_FILE) (path_join data_dir RECEIPTS_FILE)
    (path_join data_dir SERVICE_ATTESTATIONS_FILE) (path_join data_dir SERVICE_AGGREGATES_FILE)
    (path_join data_dir ORPHANS_FILE) (path_join data_dir SNAPSHOT_FILE)
    (log_path config) (metrics_path config) (path_join data_dir QUORUM_CERTIFICATES_FILE).

(** ** Files and writes *)

Abbreviation TextFiles := (gmap string text).

(** Appending, and [fs::write] or a new [File::create]d one, which replaces. *)
Inductive FileWrite :=
| AppendText (path : string) (t : text)
| ReplaceText (path : string) (t : text).

Definition perform (w : FileWrite) (fs : TextFiles) : TextFiles :=
  match w with
  | AppendText path t => <[path := default [] (fs !! path) ++ t]> fs
  | ReplaceText path t => <[path := t]> fs
  end.

(** A crash in the write leaves its first [k] characters. *)
Definition cut (k : nat) (w : FileWrite) (fs : TextFiles) : TextFiles :=
  match w with
  | AppendText path t => perform (AppendText path (take k t)) fs
  | ReplaceText path t => perform (ReplaceText path (take k t)) fs
  end.

(** What a crash can leave of a sequence of writes. *)
Inductive crashed : list FileWrite -> TextFiles -> TextFiles -> Prop :=
| crash_before ws fs : crashed ws fs fs
| crash_in k w ws fs : crashed (w :: ws) fs (cut k w fs)
| crash_after w ws fs fs' : crashed ws (perform w fs) fs' -> crashed (w :: ws) fs fs'.

(** The writes the node makes. *)
Inductive StorageOp :=
| AppendBlock (b : Block)
| AppendOrphan (b : Block)
| AppendReceipt (r : RelayReceipt)
| AppendCertificate (qc : QuorumCertificate)
| AppendAttestation (a : ServiceAttestation)
| AppendAggregate (a : ServiceAggregate)
| RewriteBlocks (bs : list Block)
| RewriteOrphans (bs : list Block)
| RewriteReceipts (rs : list RelayReceipt)
| RewriteCertificates (qcs : list QuorumCertificate)
| WriteSnapshot (s : StateSnapshot).

(** Their effect on the lists, as the methods of the model have it. *)
Definition apply_op (op : StorageOp) : Storage -> Storage :=
  match op with
  | AppendBlock b => set_blocks_file (fun l => l ++ [b])
  | AppendOrphan b => set_orphan_file (fun l => l ++ [b])
  | AppendReceipt r => set_receipts_file (fun l => l ++ [r])
  | AppendCertificate qc => set_qcs_file (fun l => l ++ [qc])
  | AppendAttestation a => set_attestations_file (fun l => l ++ [a])
  | AppendAggregate a => set_aggregates_file (fun l => l ++ [a])
  | RewriteBlocks bs => set_blocks_file (fun _ => bs)
  | RewriteOrphans bs => set_orphan_file (fun _ => bs)
  | RewriteReceipts rs => set_receipts_file (fun _ => rs)
  | RewriteCertificates qcs => set_qcs_file (fun _ => qcs)
  | WriteSnapshot s => set_snapshot_file (Some s)
  end.

Section files.
Context `{StorageFormats}.
Variable p : StoragePaths.

(** Their effect on the files. *)
Definition write_of (op : StorageOp) : FileWrite :=
  match op with
  | AppendBlock b => AppendText (blocks_path p) (json_line b)
  | AppendOrphan b => AppendText (orphan_path p) (json_line b)
  | AppendReceipt r => AppendText (receipts_path p) (json_line r)
  | AppendCertificate qc => AppendText (quorum_certificates_path p) (json_line qc)
  | AppendAttestation a => AppendText (service_attestations_path p) (json_line a)
  | AppendAggregate a => AppendText (service_aggregates_path p) (json_line a)
  | RewriteBlocks bs => ReplaceText (blocks_path p) (concat (json_line <$> bs))
  | RewriteOrphans bs => ReplaceText (orphan_path p) (concat (json_line <$> bs))
  | RewriteReceipts rs => ReplaceText (receipts_path p) (concat (json_line <$> rs))
  | RewriteCertificates qcs => ReplaceText (quorum_certificates_path p) (concat (json_line <$> qcs))
  | WriteSnapshot s => ReplaceText (snapshot_path p) (to_vec_pretty s)
  end.

Definition load_blocks (fs : TextFiles) : result (list Block) := load_json_lines (fs !! blocks_path p).
Definition load_receipts (fs : TextFiles) : result (list RelayReceipt) :=
  load_json_lines (fs !! receipts_path p).
Definition load_service_attestations (fs : TextFiles) : result (list ServiceAttestation) :=
  load_json_lines (fs !! service_attestations_path p).
Definition load_service_aggregates (fs : TextFiles) : result (list ServiceAggregate) :=
  load_json_lines (fs !! service_aggregates_path p).
Definition load_quorum_certificates (fs : TextFiles) : result (list QuorumCertificate) :=
  load_json_lines (fs !! quorum_certificates_path p).
Definition load_snapshot (fs : TextFiles) : result (option StateSnapshot) :=
  match fs !! snapshot_path p with
  | None => Ok None
  | Some contents =>
      match document_from_str contents with
      | Value s => Ok (Some s)
      | Eof => Err "EOF while parsing"
      | Malformed => Err "malformed snapshot"
      end
  end.

(** Nothing reads the orphan file; the field of [Storage] records it. *)
Definition orphan_record (fs : TextFiles) : list Block :=
  match load_json_lines (fs !! orphan_path p) with Ok bs => bs | Err _ => [] end.

(** The loads of [run_node], in its order. *)
Definition load_storage (fs : TextFiles) : result Storage :=
  bs ← load_blocks fs;
  rs ← load_receipts fs;
  attestations ← load_service_attestations fs;
  aggregates ← load_service_aggregates fs;
  qcs ← load_quorum_certificates fs;
  snapshot ← load_snapshot fs;
  Ok (mkStorage bs (orphan_record fs) rs qcs attestations aggregates snapshot).
End files.

(** [run_node] until it runs; the network is spawned on the way. *)
Section start.
Context `{Hashing} `{CryptoBackend} `{StorageFormats}.
Context (config : NodeConfig) (e : ConsensusEngine).

Definition start_node (fs : TextFiles) (now : Z) : outcome NodeRunner :=
  match validate_hybrid_enforcement_genesis config (genesis e) with
  | Err m => Failed m
  | Ok _ =>
      match load_storage (storage_new config) fs with
      | Err m => Failed m
      | Ok d =>
          match loaded_node config e d now with
          | None => Halted Panicked
          | Some s =>
              match restore config e d s with
              | (Done _, s') => Done s'
              | (Failed m, _) => Failed m
              | (Halted r, _) => Halted r
              end
          end
      end
  end.
End start.

(** [run_node_from_path] and [run_node] until the node runs, with the parsers
    of the two TOML files. *)
Section from_path.
Context `{Hashing} `{MlDsa} `{KeyFiles} `{StorageFormats}.
Variable parse_config : text -> result NodeConfig.
Variable parse_genesis : text -> result GenesisConfig.

Definition run_node_from_path (config_path : string) (fs : TextFiles) (now : Z) : outcome NodeRunner :=
  match
    config_contents ← ok_or (fs !! config_path) "failed to read config";
    config ← parse_config config_contents;
    genesis_contents ← ok_or (fs !! genesis_path config) "failed to read genesis";
    genesis ← parse_genesis genesis_contents;
    _ ← validate_hybrid_enforcement_genesis config genesis;
    crypto ← build_crypto_backend genesis config;
    Ok (config, genesis, crypto)
  with
  | Err m => Failed m
  | Ok (config, genesis, crypto) =>
      start_node (H0 := configured_backend crypto) config (new_engine genesis) fs now
  end.
End from_path.

(** ** The files stand for the lists *)

Section refinement.
Context `{StorageFormats} `{!StorageFormatLaws}.

Definition holds {T} `{JsonLine T} (fs : TextFiles) (path : string) (vs : list T) : Prop :=
  fs !! path = Some (concat (json_line <$> vs)) \/ (fs !! path = None /\ vs = []).

Record represents (p : StoragePaths) (fs : TextFiles) (d : Storage) : Prop := {
  rep_blocks : holds fs (blocks_path p) (blocks_file d);
  rep_orphans : holds fs (orphan_path p) (orphan_file d);
  rep_receipts : holds fs (receipts_path p) (receipts_file d);
  rep_certificates : holds fs (quorum_certificates_path p) (quorum_certificates_file d);
  rep_attestations : holds fs (service_attestations_path p) (service_attestations_file d);
  rep_aggregates : holds fs (service_aggregates_path p) (service_aggregates_file d);
  rep_snapshot : fs !! snapshot_path p = to_vec_pretty <$> snapshot_file d }.

Lemma holds_load {T} `{JsonLine T} `{!JsonLineLaws T} fs path (vs : list T) :
  holds fs path vs -> load_json_lines (fs !! path) = Ok vs.
Proof.
  intros [-> | [-> ->]]; [|done]. pose proof (load_overwrite_app vs []) as Hl.
  rewrite app_nil_r in Hl. rewrite Hl. simpl. by rewrite app_nil_r.
Qed.

Lemma holds_contents {T} `{JsonLine T} fs path (vs : list T) :
  holds fs path vs -> default [] (fs !! path) = concat (json_line <$> vs).
Proof. by intros [-> | [-> ->]]. Qed.

Lemma holds_append {T} `{JsonLine T} fs path (vs : list T) v :
  holds fs path vs -> holds (perform (AppendText path (json_line v)) fs) path (vs ++ [v]).
Proof.
  intros Hv. left. simpl. rewrite lookup_insert_eq, (holds_contents fs path vs Hv).
  by rewrite fmap_app, concat_app, fmap_cons, concat_cons, app_nil_r.
Qed.

Lemma holds_replace {T} `{JsonLine T} fs path (vs : list T) :
  holds (perform (ReplaceText path (concat (json_line <$> vs))) fs) path vs.
Proof. left. simpl. by rewrite lookup_insert_eq. Qed.

Definition target (w : FileWrite) : string :=
  match w with AppendText path _ | ReplaceText path _ => path end.

Lemma perform_other w fs path : target w <> path -> perform w fs !! path = fs !! path.
Proof. intros Hne. destruct w; simpl in *; by rewrite lookup_insert_ne. Qed.

Lemma holds_other {T} `{JsonLine T} w fs path (vs : list T) :
  target w <> path -> holds fs path vs -> holds (perform w fs) path vs.
Proof. intros Hne. unfold holds. by rewrite perform_other. Qed.

Lemma load_represented p fs d : represents p fs d -> load_storage p fs = Ok d.
Proof.
  intros [Hb Ho Hr Hq Ha Hg Hs].
  unfold load_storage, load_blocks, load_receipts, load_service_attestations, load_service_aggregates,
    load_quorum_certificates, load_snapshot, orphan_record.
  rewrite (holds_load _ _ _ Hb), (holds_load _ _ _ Hr), (holds_load _ _ _ Ha), (holds_load _ _ _ Hg),
    (holds_load _ _ _ Hq), (holds_load _ _ _ Ho), Hs. simpl.
  destruct d as [? ? ? ? ? ? [s|]]; simpl; [|done]. by rewrite document_parses.
Qed.

Lemma represents_empty p : represents p ∅ empty_storage.
Proof. split; [by right; rewrite lookup_empty..|]. by rewrite lookup_empty. Qed.

(** Every write keeps the files in step with the lists; the names of the
    files are different. *)
Lemma represents_op config fs d op :
  let p := storage_new config in
  represents p fs d -> represents p (perform (write_of p op) fs) (apply_op op d).
Proof.
  intros p [Hb Ho Hr Hq Ha Hg Hs].
  assert (Hne : forall x y, x <> y -> path_join (data_dir config) x <> path_join (data_dir config) y)
    by (intros x y Hxy E; by apply (inj (path_join _)) in E).
  destruct op; split; unfold write_of, apply_op;
    first [by apply holds_append | apply holds_replace
          | apply holds_other; [by apply Hne|assumption]
          | rewrite perform_other by (by apply Hne); assumption
          | simpl; by rewrite lookup_insert_eq].
Qed.

Lemma represents_ops config fs d ops :
  let p := storage_new config in
  represents p fs d ->
  represents p (foldl (fun fs op => perform (write_of p op) fs) fs ops) (foldl (fun d op => apply_op op d) d ops).
Proof.
  intros p. revert fs d. induction ops as [|op ops IH]; intros fs d Hr; [done|]. simpl.
  by apply IH, represents_op.
Qed.

(** Any storage has files: write everything once. *)
Definition write_all (d : Storage) : list StorageOp :=
  [RewriteBlocks (blocks_file d); RewriteOrphans (orphan_file d); RewriteReceipts (receipts_file d);
   RewriteCertificates (quorum_certificates_file d)]
  ++ (AppendAttestation <$> service_attestations_file d) ++ (AppendAggregate <$> service_aggregates_file d)
  ++ (WriteSnapshot <$> option_list (snapshot_file d)).
Definition files_of (config : NodeConfig) (d : Storage) : TextFiles :=
  foldl (fun fs op => perform (write_of (storage_new config) op) fs) ∅ (write_all d).

Lemma apply_write_all d : foldl (fun d op => apply_op op d) empty_storage (write_all d) = d.
Proof.
  unfold write_all. rewrite !foldl_app. simpl.
  assert (Ha : forall l d0, foldl (fun d op => apply_op op d) d0 (AppendAttestation <$> l) =
    set_attestations_file (fun k => k ++ l) d0).
  { induction l as [|a l IH]; intros [b o r q at_ ag sn]; csimpl.
    - unfold set_attestations_file. simpl. by rewrite app_nil_r.
    - rewrite IH. unfold set_attestations_file. simpl. by rewrite <- app_assoc. }
  assert (Hg : forall l d0, foldl (fun d op => apply_op op d) d0 (AppendAggregate <$> l) =
    set_aggregates_file (fun k => k ++ l) d0).
  { induction l as [|a l IH]; intros [b o r q at_ ag sn]; csimpl.
    - unfold set_aggregates_file. simpl. by rewrite app_nil_r.
    - rewrite IH. unfold set_aggregates_file. simpl. by rewrite <- app_assoc. }
  rewrite Ha, Hg. by destruct d as [? ? ? ? ? ? [sn|]].
Qed.

Lemma files_of_represent config d : represents (storage_new config) (files_of config d) d.
Proof.
  pose proof (represents_ops config ∅ empty_storage (write_all d) (represents_empty _)) as Hr.
  by rewrite apply_write_all in Hr.
Qed.
End refinement.

Section start_refines.
Context `{Hashing} `{CryptoBackend} `{StorageFormats} `{!StorageFormatLaws}.
Context (config : NodeConfig) (e : ConsensusEngine).

(** C32: The text files refine the lists of the node's model: beginning from an
    empty directory, after any sequence of appends, rewrites and snapshots
    loading them gives back exactly the lists those operations leave, and
    what a node starts from on them is a restart of the model on those
    lists. *)
Theorem storage_files_refine_lists ops now :
  let p := storage_new config in
  let fs := foldl (fun fs op => perform (write_of p op) fs) ∅ ops in
  let d := foldl (fun d op => apply_op op d) empty_storage ops in
  load_storage p fs = Ok d /\
  forall s', start_node config e fs now = Done s' <->
    validate_hybrid_enforcement_genesis config (genesis e) = Ok tt /\
    exists s, loaded_node config e d now = Some s /\ restore config e d s = (Done tt, s').
Proof.
  intros p fs d.
  assert (Hload : load_storage p fs = Ok d)
    by (apply load_represented, represents_ops, represents_empty).
  split; [exact Hload|]. intros s'. unfold start_node. fold p. rewrite Hload. split.
  - destruct (validate_hybrid_enforcement_genesis _ _) as [[]|]; [|done].
    destruct (loaded_node _ _ _ _) as [s|]; [|done].
    destruct (restore _ _ _ s) as [[[]| |] s1] eqn:Er; try done. intros [= <-]. eauto.
  - intros (-> & s & -> & ->). done.
Qed.
End start_refines.
