(* ===== verification/Acceptance.v ===== *)
(** * What block acceptance guarantees

    A block that fails a check leaves the node as it was; certified
    synchronisation adopts nothing uncertified; and the promotion of orphans,
    which can fail to terminate. *)
From S2P Require Import Prelude F64 Hybrid Types Concrete Crypto Ledger Consensus.
From S2P Require Import Policy Snapshots NodeState Branches Receipts SyncServe Service Votes.
From S2P Require Import Safety Durable Blocks.

Open Scope Z_scope.

Section acceptance.
Context `{Hashing} `{CryptoBackend}.
Context (config : NodeConfig) (e : ConsensusEngine) (fuel : nat).

(** The checks on the block alone. *)
Definition admissible (b : Block) : Prop :=
  check_block_seal b = Ok tt /\
  proposer_for_slot e (bh_slot (header b)) = Some (proposer_id (header b)) /\
  check_block_body config e b = Ok tt.

#[local] Instance result_unit_dec (r : result unit) : Decision (r = Ok tt).
Proof. destruct r as [[]|x]; [by left | by right]. Defined.
#[export] Instance admissible_dec b : Decision (admissible b).
Proof. unfold admissible. apply _. Defined.

(** The checks against the tip it extends. *)
Definition extends_tip (s : NodeRunner) (b : Block) (local_proposal : bool) : Prop :=
  validate_block_basic e b (tip_hash (ledger (chain s)))
    (service_gate config e s b local_proposal).2 (service_gate config e s b local_proposal).1
    (service_gating_threshold (flags config)) = Ok tt /\
  exists next, apply_block_clone (ledger (chain s)) b = Ok next.

Lemma unit_result (r : result unit) : r = Ok tt \/ exists x, r = Err x.
Proof. destruct r as [[]|x]; eauto. Qed.

Lemma accept_block_unfold s b local_proposal :
  known_block s (block_hash b) = None -> admissible b ->
  accept_block config e fuel b local_proposal s =
    if negb (parent_hash (header b) =? tip_hash (ledger (chain s)))
    then accept_competing_block config e fuel b s
    else
      (_ ← lift (validate_block_basic e b (tip_hash (ledger (chain s)))
                   (service_gate config e s b local_proposal).2
                   (service_gate config e s b local_proposal).1
                   (service_gating_threshold (flags config)));
       next ← lift (apply_block_clone (ledger (chain s)) b);
       if certified_head_only_active config s && negb (has_qc s (block_hash b))
       then accept_under_certified_head config e fuel b
       else accept_at_tip config e fuel next b local_proposal) s.
Proof.
  intros Hk (Hs & Hp & Hb). unfold accept_block. rewrite run_get, Hk, run_lift, Hs, Hp.
  simpl. rewrite run_bind. simpl. rewrite run_lift, Z.eqb_refl. simpl. rewrite run_lift, Hb.
  destruct (_ =? _); simpl; [|done].
  by destruct (service_gate config e s b local_proposal).
Qed.

(** C11: A block the node does not know yet and that fails any check (content
    hash, signature, the slot's proposer, transaction and topology roots,
    commitment, hybrid policy; and, extending the tip, the service gate,
    every transaction and the state root) is refused and leaves the node's
    state exactly as it was. *)
Theorem inadmissible_block_changes_nothing s b local_proposal :
  known_block s (block_hash b) = None ->
  ~ admissible b \/
    (parent_hash (header b) = tip_hash (ledger (chain s)) /\ ~ extends_tip s b local_proposal) ->
  (accept_block config e fuel b local_proposal s).2 = s /\
  forall a, (accept_block config e fuel b local_proposal s).1 <> Done a.
Proof.
  intros Hk Hbad. destruct (decide (admissible b)) as [Ha|Ha].
  - destruct Hbad as [?|[Hp Hx]]; [done|]. rewrite accept_block_unfold by done.
    rewrite (proj2 (Z.eqb_eq _ _) Hp). simpl. rewrite run_lift.
    destruct (unit_result (validate_block_basic e b (tip_hash (ledger (chain s)))
      (service_gate config e s b local_proposal).2 (service_gate config e s b local_proposal).1
      (service_gating_threshold (flags config)))) as [E|[x E]]; rewrite E; [|done].
    rewrite run_lift. destruct (apply_block_clone _ _) as [next|x] eqn:En; [|done].
    exfalso. apply Hx. split; [done|eauto].
  - clear Hbad. unfold accept_block. rewrite run_get, Hk, run_lift.
    destruct (unit_result (check_block_seal b)) as [Hs|[x Hs]]; rewrite Hs; [|done].
    rewrite run_bind. destruct (proposer_for_slot e _) as [p|] eqn:Hp; simpl; [|done].
    rewrite run_lift. destruct (Z.eqb_spec (proposer_id (header b)) p) as [<-|]; simpl; [|done].
    rewrite run_lift. destruct (unit_result (check_block_body config e b)) as [Hb|[x Hb]];
      rewrite Hb; [|done]. exfalso. by apply Ha.
Qed.

(** ** Orphans under a certified head

    A block on an uncertified tip, while a block below the tip is certified,
    is neither accepted nor a child of the certified head. *)
Definition stuck (s : NodeRunner) (b : Block) : Prop :=
  orphan_blocks (chain s) = [b] /\
  parent_hash (header b) = tip_hash (ledger (chain s)) /\
  known_block (with_chain (set_orphans (fun _ => [])) s) (block_hash b) = None /\
  admissible b /\ extends_tip s b false /\
  certified_head_only_active config s = true /\ has_qc s (block_hash b) = false /\
  exists head, current_certified_head s = Some head /\ extends_head head b = false.

Definition stuck_events : list string :=
  ["certified-head-descendant-buffered"%string; "orphan-rejected"%string].

Lemma stuck_log f s b : stuck s b -> stuck (with_log f s) b.
Proof. intros Hs. exact Hs. Qed.

Lemma stuck_head s b : stuck s b ->
  exists head, current_certified_head (with_chain (set_orphans (fun _ => [])) s) = Some head /\
    extends_head head b = false.
Proof.
  intros (_ & _ & _ & _ & _ & _ & _ & head & Hh & He). exists head. split; [|done]. revert Hh.
  unfold current_certified_head, highest_locked_qc_hash.
  change (blocks (chain (with_chain (set_orphans (fun _ => [])) s))) with (blocks (chain s)).
  destruct (find_first _ (reverse (blocks (chain s)))) as [x|] eqn:Ef; [|done]. simpl.
  apply find_first_some in Ef as [_ Hq]. unfold has_qc in Hq. apply bool_decide_eq_true in Hq as [qc Hq].
  change (quorum_certificates (votes (with_chain (set_orphans (fun _ => [])) s)))
    with (quorum_certificates (votes s)). by rewrite Hq.
Qed.

(** One round takes the orphan out and puts it back. *)
Lemma stuck_round rounds s b :
  stuck s b -> try_promote_orphans config e fuel (S rounds) s =
    try_promote_orphans config e fuel rounds (with_log (fun l => l ++ stuck_events) s).
Proof.
  intros Hst. pose proof (stuck_head s b Hst) as (head & Hhead & Hext).
  destruct Hst as (Ho & Hp & Hk & Ha & [Hb [next Hn]] & Hc & Hq & _).
  set (s1 := with_chain (set_orphans (fun _ => [])) s) in *.
  assert (Hacc : accept_block config e fuel b false s1 =
    (Done Orphan, with_log (fun l => l ++ ["certified-head-descendant-buffered"%string]) s)).
  { rewrite accept_block_unfold by done.
    change (ledger (chain s1)) with (ledger (chain s)). rewrite Hp, Z.eqb_refl. cbn [negb].
    change (service_gate config e s1 b false) with (service_gate config e s b false).
    rewrite run_lift, Hb, run_lift, Hn.
    change (certified_head_only_active config s1) with (certified_head_only_active config s).
    change (has_qc s1 (block_hash b)) with (has_qc s (block_hash b)). rewrite Hc, Hq. cbn [andb negb].
    unfold accept_under_certified_head. rewrite run_get, Hhead, Hext.
    change (is_orphan s1 b) with false. cbn [negb]. unfold push_orphan, log_event. run_updates.
    cbn. f_equal. unfold s1, with_log, with_chain, set_orphans. cbn. rewrite <- Ho.
    destruct s as [[????] ?????????]; cbn. done. }
  assert (Hpos : position (fun o => parent_hash (header o) =? tip_hash (ledger (chain s)))
    (orphan_blocks (chain s)) = Some 0%nat).
  { rewrite Ho. cbn. by rewrite Hp, Z.eqb_refl. }
  cbn [try_promote_orphans]. rewrite run_get, Hpos, Ho, run_bind.
  change (or_panic ([b] !! 0%nat) s) with (Done b, s). cbv beta iota.
  assert (Hdel : with_chain (set_orphans (delete 0%nat)) s = s1).
  { unfold s1, with_chain, set_orphans. by rewrite Ho. }

  rewrite run_modify, Hdel, run_bind. unfold try. rewrite Hacc. cbv beta iota.
  unfold log_event. rewrite run_modify. f_equal. unfold with_log. cbn. by rewrite <- app_assoc.
Qed.

(** C27: Promoting orphans need not end: with one valid orphan whose parent is
    the node's tip, while that tip is uncertified and a block below it is
    certified, every round takes the orphan out and puts it back, so no
    number of rounds finishes the loop, and the node hangs. *)
Theorem orphan_promotion_diverges s b rounds :
  stuck s b -> (try_promote_orphans config e fuel rounds s).1 = Halted OutOfFuel.
Proof.
  revert s. induction rounds as [|rounds IH]; intros s Hst.
  - destruct Hst as (Ho & Hp & _). cbn [try_promote_orphans]. rewrite run_get, Ho. cbn.
    by rewrite Hp, Z.eqb_refl.
  - rewrite (stuck_round rounds s b Hst). by apply IH, stuck_log.
Qed.

(** ** Certified synchronisation *)

(** A block with its header and a certificate that passed the checks. *)
Definition certified_entry (x : CertifiedBlockHeader * Block * QuorumCertificate) : Prop :=
  ch_block_hash x.1.1 = block_hash x.1.2 /\ ch_header x.1.1 = header x.1.2 /\
  qc_block_hash x.2 = block_hash x.1.2 /\ qc_checked e x.2.

Lemma check_certified_payload_ok l :
  check_certified_payload config e l = Ok tt -> Forall certified_entry l.
Proof.
  induction l as [|[[h b] qc] l IH]; cbn; [by constructor|].
  intros (u & Hh%ensure_ok & ([] & [Hqc Hq]%validate_qc_ok & Hl)%result_bind_ok)%result_bind_ok.
  constructor; [|by apply IH]. bool_to_prop. by split_and!.
Qed.

#[local] Instance same_chain_quiet c : Quiet (fun s => chain s = c).
Proof. by split. Qed.


(** ** Proposing *)

Lemma select_executable_applies st ts st' l :
  select_executable config st ts = (st', l) ->
  apply_transactions st l = (st', Ok tt) /\ l `sublist_of` ts /\
  Forall (fun t => validate_hybrid_transaction_policy config t = Ok tt) l.
Proof.
  revert st st' l. induction ts as [|t ts IH]; intros st st' l; cbn.
  { intros [= <- <-]. by split_and!. }
  destruct (validate_hybrid_transaction_policy config t) as [[]|x] eqn:Ep; cbn.
  2: { intros (? & ? & ?)%IH. split_and!; try done. by apply sublist_cons. }
  destruct (validate_tx st t ≫= _) as [st1|x] eqn:Ev; cbn.
  2: { intros (? & ? & ?)%IH. split_and!; try done. by apply sublist_cons. }
  destruct (select_executable config st1 ts) as [out k] eqn:Es. intros [= <- <-].
  destruct (IH _ _ _ Es) as (? & ? & ?). split_and!; [|by apply sublist_skip|by constructor].
  cbn. by rewrite Ev.
Qed.

(** C12: A block the node builds for a slot passes the node's own checks: it is
    sealed (hash and signature), carries the roots of its transactions and of
    its commitment, sits on the tip at the next height for that slot, holds
    only transactions of the pool that execute in order and satisfy the
    hybrid policy, and applying it succeeds and makes it the tip. *)
Theorem built_block_extends_tip (signs_for : ValidatorId -> Prop) s slot epoch b :
  CryptoLaws _ signs_for -> signs_for (node_id config) ->
  sign_block config (build_block config e s slot epoch) = Ok b ->
  check_block_seal b = Ok tt /\
  canonical_hash (CTransactions (transactions b)) = transactions_root (header b) /\
  topology_root_of (commitment b) = topology_root (header b) /\
  parent_hash (header b) = tip_hash (ledger (chain s)) /\
  block_number (header b) = wadd (height (ledger (chain s))) 1 /\
  bh_slot (header b) = slot /\ proposer_id (header b) = node_id config /\
  transactions b `sublist_of` select_transactions_for_block e s /\
  Forall (fun t => validate_hybrid_transaction_policy config t = Ok tt) (transactions b) /\
  exists l, apply_block_clone (ledger (chain s)) b = Ok l /\ tip_hash l = block_hash b /\
    height l = block_number (header b).
Proof.
  intros HL Hme. unfold sign_block, build_block.
  destruct (proposal_commitment config e s epoch) as [c rs].
  destruct (select_executable config _ _) as [sim l] eqn:Es.
  apply select_executable_applies in Es as (Ha & Hl & Hp).
  set (h := mkHeader _ _ _ _ _ _ _ _ _). intros (sg & Hsg & [= <-])%result_bind_ok.
  cbn [header transactions commitment block_hash block_signature] in *.
  split_and!; try done.
  - unfold check_block_seal, block_content_hash.
    cbn [header transactions commitment block_hash block_signature]. rewrite Z.eqb_refl. cbn.
    change (proposer_id h) with (node_id config). by rewrite (sign_verify _ _ _ Hme Hsg).
  - unfold apply_block_clone, apply_block. cbn [header transactions block_hash].
    rewrite Ha. change (state_root h) with (ledger_state_root sim). rewrite Z.eqb_refl. cbn [negb].
    eexists. by split_and!.
Qed.

(** ** Block numbers

    Nothing in [accept_block] relates a block's number to its parent's, and
    the repair of a segment slices the chain at a certified block's number. *)

(** A certified block whose number exceeds the chain's length makes the
    node panic: any segment that starts at the highest certificate, of a
    number past the number of local blocks but below the recorded height,
    reaches the out-of-range slice of the sync repair. *)
Lemma oversized_certified_number_panics s c qc :
  consensus_v2 (flags config) = true -> highest_local_qc s = Some qc ->
  Z.of_nat (length (blocks (chain s))) < qc_block_number qc < height (ledger (chain s)) ->
  base_height c = qc_block_number qc -> base_tip_hash c = qc_block_hash qc ->
  apply_chain_segment config e fuel c s = (Halted Panicked, s).
Proof.
  intros Hv Hq [Hlo Hhi] Hb Ht. unfold apply_chain_segment, sync_repair_base_for_segment.
  rewrite run_get, Hv, Hq, Hb, Ht, !Z.eqb_refl, (proj2 (Z.ltb_lt _ _) Hhi). cbn [negb andb].
  destruct (Nat.ltb_spec (length (blocks (chain s))) (Z.to_nat (qc_block_number qc))); [done|lia].
Qed.
End acceptance.
