(* ===== verification/Delivery.v ===== *)
(** * From the transport to the node

    [run_node] gives the node the events of the transport, and both count in
    the same metrics.  Here the two models meet: what the node processes of a
    connection is authentic, and what a failed handshake adds to the counters. *)
From S2P Require Import Prelude F64 Hybrid Types Concrete Crypto Sessions Consensus Policy.
From S2P Require Import NodeState Branches Receipts SyncServe Service Votes Blocks Handlers.
From S2P Require Import Ledger Handshakes Network Channel.

Open Scope Z_scope.

(** The event as the node's handler takes it. *)
Definition deliver (ev : TransportEvent) : NetworkEvent :=
  match ev with
  | EvReceived from payload _ => Received from payload
  | EvSessionObserved peer _ outbound accountable => SessionObserved peer outbound accountable
  | EvSessionFailed peer outbound accountable kind => SessionFailed peer outbound accountable kind
  | EvInboundSessionDropped => InboundSessionDropped
  end.

Section delivery.
Context `{Hashing} `{CryptoBackend} `{HandshakeProvider} `{Aead} `{Environment}.
Context `{!Bincode SessionClientHello} `{!Bincode SessionServerHello}.
Context `{!Bincode SignedEnvelope} `{!Bincode ProtocolMessage} `{!Bincode NonceTuple}.
Context (config : NodeConfig) (e : ConsensusEngine) (fuel rounds : nat).

(** The node works through the events a task reported. *)
Definition process_events (evs : list TransportEvent) : M unit :=
  for_each evs (fun ev => handle_network_event config e fuel rounds (deliver ev)).

Definition unmetered (w w' : World) : Prop := w_metrics w' = w_metrics w.
#[local] Instance unmetered_preorder : PreOrder unmetered.
Proof. split; [by intros w|]. intros w w' w''. unfold unmetered. congruence. Qed.

Lemma unmetered_accept local : moves unmetered (accept_inbound_handshake local).
Proof.
  assert (Hread : moves unmetered read_frame_bytes)
    by (intros w; unfold read_frame_bytes; by destruct (read_frame (w_in w))).
  assert (Htick : moves unmetered tick) by (by intros w).
  assert (Hwrite : forall log b, moves unmetered (write_frame log b)).
  { intros log b w. unfold write_frame. rewrite n_run_bind. simpl. by destruct (write_at (w_io w)). }
  unfold accept_inbound_handshake, write_bincode_frame, decode_frame. moves_auto.
Qed.

(** A failed inbound handshake is counted twice: the transport advances
    [handshake_failures] and reports the failed session, and the node, which
    shares the metrics, advances the same counter again for the report. *)
Lemma failed_handshake_counted_twice w x w1 s :
  accept_inbound_handshake (node_id config) (set_metrics add_attempt w) = (inl x, w1) ->
  not_panic x ->
  let w' := (inbound_task (node_id config) (session_ttl_millis config) w).2 in
  let s' := (process_events (drop (length (w_events w)) (w_events w')) s).2 in
  handshake_failures (w_metrics w') = handshake_failures (w_metrics w) + 1 /\
  counter (metrics s') HandshakeFailures = wadd (counter (metrics s) HandshakeFailures) 1.
Proof.
  intros Ha Hx.
  pose proof (silent_accept (node_id config) (set_metrics add_attempt w)) as Hev.
  pose proof (unmetered_accept (node_id config) (set_metrics add_attempt w)) as Hm.
  rewrite Ha in Hev, Hm. unfold silent, unmetered in Hev, Hm. simpl in Hev, Hm.
  assert (Hin : inbound_task (node_id config) (session_ttl_millis config) w =
    (inr tt, set_events (fun l => l ++ [EvSessionFailed None false false Transport])
       (set_metrics (fun m => set_active 0 (add_failure m)) w1))).
  { unfold inbound_task. rewrite n_run_bind. unfold n_try at 1, handle_inbound. rewrite n_run_bind.
    unfold update_metrics at 1, n_modify at 1. cbv beta iota. rewrite n_run_bind. unfold n_try at 1. rewrite Ha.
    destruct x as [k|m|m]; [done|done|by destruct (Hx m)]. }
  rewrite Hin. cbn [snd w_events w_metrics set_events set_metrics]. rewrite Hm, Hev, drop_app_length.
  split; [done|]. done.
Qed.
End delivery.

(** ** Witnesses *)

Module DeliveryExample.
Import ChannelExample.
#[local] Existing Instance concrete_hashing.
#[local] Existing Instance backend.
#[local] Existing Instance handshakes.
#[local] Existing Instance cipher.
#[local] Existing Instance quiet_network.
#[local] Existing Instance HandshakeExample.countable_bincode.
#[local] Existing Instance HandshakeExample.container_countable.
#[local] Existing Instance HandshakeExample.session_scheme_countable.
#[local] Existing Instance HandshakeExample.signature_scheme_countable.
#[local] Existing Instance HandshakeExample.client_hello_countable.
#[local] Existing Instance HandshakeExample.server_hello_countable.
#[local] Existing Instance message_bincode.
#[local] Existing Instance envelope_bincode.

Definition config : NodeConfig := HandshakeExample.hybrid_config 2.

(** A connection that closes before its hello. *)
Lemma failed_handshake_counted_twice_witness :
  handshake_failures (w_metrics (inbound_task 2 None start).2) = 1.
Proof.
  destruct (failed_handshake_counted_twice config (new_engine HandshakeExample.hybrid_genesis) 0 0 start
    (Message "expected client hello before stream closed") (set_in (mkIn [] None) (set_metrics add_attempt start))
    (mkNode (mkChain (Ledger.from_genesis HandshakeExample.hybrid_genesis) [] [] []) (mkVotes ∅ ∅ ∅)
       (mkPool ∅ ∅ ∅ [] ∅ ∅) empty_service
       (mkSlots None None None None false) empty_sync empty_storage empty_metrics [] [] 0)) as [H _].
  - reflexivity.
  - intros m. discriminate.
  - exact H.
Defined.
End DeliveryExample.
