(* ===== verification/Scenario.v ===== *)
(** * A concrete network

    Four validators with deterministic signatures: their genesis, the
    configuration of validator 1, a few blocks, votes and certificates, and
    the states validator 1 goes through when they arrive.  The theorems about
    running nodes are applied here. *)
From S2P Require Import Prelude F64 Hybrid Types Concrete Crypto Ledger Consensus.
From S2P Require Import Policy Snapshots NodeState Branches Receipts SyncServe Service Votes.
From S2P Require Import Safety Durable Termination Blocks Handlers Invariants Acceptance.

Open Scope Z_scope.

Module Scenario.
#[local] Existing Instance concrete_hashing.
#[local] Instance network_backend : CryptoBackend :=
  DeterministicCryptoBackend {[1 := "s1"%string; 2 := "s2"%string; 3 := "s3"%string; 4 := "s4"%string]}.

Definition validator (id : ValidatorId) (secret : string) : ValidatorConfig :=
  mkValidator id 100 "127.0.0.1" secret PubId.default None.
Definition network : GenesisConfig :=
  mkGenesis "test" 0 0 1000 10 16 2
    [validator 1 "s1"; validator 2 "s2"; validator 3 "s3"; validator 4 "s4"]
    {[validator_account 1 := 100; validator_account 2 := 50]}.
Definition engine : ConsensusEngine := new_engine network.
Definition v2_flags : FeatureFlags :=
  mkFlags true false true false 3 f64_zero 4 default_service_score_weights.
Definition config : NodeConfig :=
  mkNodeConfig 1 "" "" "" [mkPeer 2 "b"; mkPeer 3 "c"; mkPeer 4 "d"] "" "" v2_flags
    (mkFaults 0 f64_zero false false) false SbDevDeterministic None SeDevDeterministic None None.

Definition leader (slot : Slot) : ValidatorId := default 0 (proposer_for_slot engine slot).
Definition state_0 : LedgerState := from_genesis network.

(** A signed block of [number] on [parent] for [slot], without
    transactions, so that every state root is the genesis one. *)
Definition block_at (number : Z) (parent : HashBytes) (slot : Slot) : Block :=
  let h := mkHeader number parent slot (epoch_for_slot engine slot) (leader slot) 0
             (ledger_state_root state_0) (canonical_hash (CTransactions [])) empty_hash in
  let content := canonical_hash (CBlockContent h [] None) in
  mkBlock h [] None []
    match sign (leader slot) (hash_to_bytes content) with Ok sg => sg | Err _ => TypedSig.default end
    content.
Definition vote_by (id : ValidatorId) (b : Block) : ProposalVote :=
  let unsigned := mkVote id (block_hash b) (block_number (header b)) (bh_epoch (header b))
                    (bh_slot (header b)) TypedSig.default in
  mkVote id (block_hash b) (block_number (header b)) (bh_epoch (header b)) (bh_slot (header b))
    match sign id (hash_to_bytes (proposal_vote_signing_hash unsigned)) with
    | Ok sg => sg | Err _ => TypedSig.default end.
Definition certificate (b : Block) (ids : list ValidatorId) : QuorumCertificate :=
  let vs := (fun id => vote_by id b) <$> ids in
  mkQc (block_hash b) (block_number (header b)) (bh_epoch (header b)) (bh_slot (header b))
    (quorum_certificate_vote_root vs) vs.

(** Blocks and states are kept evaluated; the equations that say how each
    state arises follow. *)
Definition block_1 : Block := Eval vm_compute in block_at 1 empty_hash 1.
Definition block_2 : Block := Eval vm_compute in block_at 2 (block_hash block_1) 2.
Definition block_3 : Block := Eval vm_compute in block_at 3 (block_hash block_2) 3.

(** Enough fuel and rounds for these runs: none of them runs out. *)
Definition step (now : Z) (ev : NetworkEvent) (s : NodeRunner) : NodeRunner :=
  (run_event config engine 8 8 (NetworkInput ev) (at_time now s)).2.
Definition fresh_start : NodeRunner :=
  match loaded_node config engine empty_storage 500 with
  | Some s => (restore config engine empty_storage s).2
  | None => mkNode (mkChain state_0 [] [] []) (mkVotes ∅ ∅ ∅) (mkPool ∅ ∅ ∅ [] ∅ ∅) empty_service
              (mkSlots None None None None false) empty_sync empty_storage empty_metrics [] [] 0
  end.
Definition started : NodeRunner := Eval vm_compute in fresh_start.
Definition with_block_1 : NodeRunner := Eval vm_compute in
  step 1500 (Received 2 (MsgBlockProposal block_1)) started.
Definition with_block_2 : NodeRunner := Eval vm_compute in
  step 2500 (Received 3 (MsgBlockProposal block_2)) with_block_1.
Definition certificate_1 : QuorumCertificate := Eval vm_compute in certificate block_1 [2; 3; 4].
Definition certified_1 : NodeRunner := Eval vm_compute in
  step 2600 (Received 2 (MsgQuorumCertificate certificate_1)) with_block_2.
Definition with_block_3 : NodeRunner := Eval vm_compute in
  step 3500 (Received 4 (MsgBlockProposal block_3)) certified_1.

Lemma started_eq : started = fresh_start.
Proof. vm_compute. reflexivity. Qed.
Lemma with_block_1_step : with_block_1 = step 1500 (Received 2 (MsgBlockProposal block_1)) started.
Proof. vm_compute. reflexivity. Qed.
Lemma with_block_2_step : with_block_2 = step 2500 (Received 3 (MsgBlockProposal block_2)) with_block_1.
Proof. vm_compute. reflexivity. Qed.
Lemma certified_1_step :
  certified_1 = step 2600 (Received 2 (MsgQuorumCertificate certificate_1)) with_block_2.
Proof. vm_compute. reflexivity. Qed.
Lemma with_block_3_step : with_block_3 = step 3500 (Received 4 (MsgBlockProposal block_3)) certified_1.
Proof. vm_compute. reflexivity. Qed.


(** A leader that numbers its first block 7. *)
Definition misnumbered : Block := Eval vm_compute in block_at 7 empty_hash 1.
Definition misnumbered_child : Block := Eval vm_compute in block_at 8 (block_hash misnumbered) 2.
Definition misnumbered_certificate : QuorumCertificate := Eval vm_compute in
  certificate misnumbered [2; 3; 4].
Definition with_misnumbered : NodeRunner := Eval vm_compute in
  step 2600 (Received 2 (MsgQuorumCertificate misnumbered_certificate))
    (step 2500 (Received 3 (MsgBlockProposal misnumbered_child))
      (step 1500 (Received 2 (MsgBlockProposal misnumbered)) started)).
(** A segment that starts at the certified block, as a peer would send it. *)
Definition repair_segment : ChainSegment :=
  mkSegment 7 (block_hash misnumbered)
    (mkSnapshot (balances state_0) (nonces state_0) (block_hash misnumbered_child) 9 9)
    [misnumbered_child] [] [].

(** ** Policies *)

Lemma rate_limit_bound_witness :
  admitted SyncControl default_window
    ((fun i => (SyncControl, 7000 + Z.of_nat i)) <$> seq 0 40) <= 2 * class_limit SyncControl.
Proof.
  apply (rate_limit_bound SyncControl default_window _ 7000).
  - intros c. destruct c; vm_compute; split; congruence.
  - lia.
  - repeat (constructor; [|]); try constructor; cbn; lia.
  - repeat constructor; cbn; lia.
Defined.

Lemma pending_slots_cover_witness :
  last (pending_slots_to_process (Some 3) 7) = Some 7 /\ 5 ∈ pending_slots_to_process (Some 3) 7.
Proof.
  destruct (pending_slots_cover (Some 3) 7 ltac:(lia) ltac:(cbn; lia)) as (_ & Hl & Hin).
  split; [exact Hl|]. apply Hin. right. cbn. lia.
Defined.

(** ** Snapshots *)

Definition two_blocks : ChainSnapshot :=
  mkChainSnapshot (mkSnapshot (balances state_0) (nonces state_0) (block_hash block_2) 2 2)
    [block_1; block_2] [] [].
Definition two_blocks_with_votes : ChainSnapshot :=
  mkChainSnapshot (cs_snapshot two_blocks) [block_1; block_2] [] [vote_by 2 block_2].

Lemma two_blocks_valid :
  validate_chain_snapshot network engine two_blocks = Ok (cs_snapshot two_blocks, []).
Proof. vm_compute. reflexivity. Qed.
Lemma two_blocks_with_votes_valid :
  validate_chain_snapshot network engine two_blocks_with_votes = Ok (cs_snapshot two_blocks, []).
Proof. vm_compute. reflexivity. Qed.

Lemma snapshot_validation_sound_witness :
  chain_in_place engine empty_hash 0 [block_1; block_2].
Proof. apply (snapshot_validation_sound engine network two_blocks _ _ two_blocks_valid). Defined.

Lemma blocks_differ : block_content_hash block_1 <> block_content_hash block_2.
Proof. vm_compute. congruence. Qed.

Lemma snapshot_tip_determines_chain_witness :
  block_content <$> cs_blocks two_blocks = block_content <$> cs_blocks two_blocks_with_votes.
Proof.
  apply (snapshot_tip_determines_chain engine network two_blocks two_blocks_with_votes _ _ _ _
           two_blocks_valid two_blocks_with_votes_valid);
    [discriminate|discriminate|lazy; reflexivity|lazy; reflexivity| |reflexivity].
  intros b c Hb Hc Hh. pose proof blocks_differ as Hne.
  apply elem_of_cons in Hb as [->|Hb%list_elem_of_singleton]; [|subst b];
    (apply elem_of_cons in Hc as [->|Hc%list_elem_of_singleton]; [|subst c]);
    [reflexivity|by destruct Hne|by destruct Hne|reflexivity].
Defined.

(** A peer at height 3 builds the blocks above height 1 for a node that
    reached height 2 in the meantime. *)
Definition three_state : StateSnapshot :=
  mkSnapshot (balances state_0) (nonces state_0) (block_hash block_3) 3 3.
Lemma built_segment_aligns_witness :
  exists seg aligned,
    build_chain_segment_from_chain three_state [block_1; block_2; block_3] [] 4 1 (block_hash block_1)
      MAX_INCREMENTAL_SYNC_BLOCKS = Some seg /\
    align_chain_segment_to_local_chain [block_1; block_2] (cs_snapshot two_blocks) seg = Ok aligned /\
    seg_blocks aligned = [block_3].
Proof.
  destruct (build_chain_segment_from_chain three_state [block_1; block_2; block_3] [] 4 1
    (block_hash block_1) MAX_INCREMENTAL_SYNC_BLOCKS) as [seg|] eqn:E.
  2: { exfalso. revert E. vm_compute. discriminate. }
  destruct (built_segment_aligns [block_1; block_2] (cs_snapshot two_blocks)
    [block_1; block_2; block_3] three_state [] 4 1 (block_hash block_1)
    MAX_INCREMENTAL_SYNC_BLOCKS seg) as (aligned & Ha & _ & _ & Hs & _).
  - split; vm_compute; reflexivity.
  - exists [block_hash block_3]. reflexivity.
  - cbn. lia.
  - exact E.
  - exists seg, aligned. auto.
Defined.

(** ** Running nodes *)

Lemma started_reachable : reachable config engine started.
Proof.
  rewrite started_eq. unfold fresh_start. destruct (loaded_node config engine empty_storage 500) as [s|] eqn:El.
  2: { exfalso. revert El. vm_compute. discriminate. }
  apply (reach_fresh config engine 500 s); [vm_compute; reflexivity|exact El|].
  assert (Hd : exists s', restore config engine empty_storage s = (Done tt, s')).
  { injection El as <-. eexists. vm_compute. reflexivity. }
  destruct Hd as [s' Hd]. rewrite Hd. reflexivity.
Qed.
Lemma step_reachable now ev s : reachable config engine s -> reachable config engine (step now ev s).
Proof. apply reach_event. Qed.

Lemma with_block_1_reachable : reachable config engine with_block_1.
Proof. rewrite with_block_1_step. apply step_reachable, started_reachable. Qed.
Lemma with_block_2_reachable : reachable config engine with_block_2.
Proof. rewrite with_block_2_step. apply step_reachable, with_block_1_reachable. Qed.
Lemma certified_1_reachable : reachable config engine certified_1.
Proof. rewrite certified_1_step. apply step_reachable. exact with_block_2_reachable. Qed.

Lemma stored_voted s h id v :
  (proposal_votes (votes s) !! h ≫= fun m => m !! id) = Some v -> voted (votes s) h id v.
Proof. intros (m & Hm & Hv)%bind_Some. left. by exists m. Qed.

Lemma reachable_node_consistent_witness :
  replay_blocks network (blocks (chain certified_1)) = Ok (ledger (chain certified_1)) /\
  length (blocks (chain certified_1)) = 2%nat.
Proof.
  split; [|vm_compute; reflexivity].
  destruct (reachable_node_consistent config engine certified_1 certified_1_reachable) as [Hr _].
  exact Hr.
Defined.


Lemma stored_certificates_checked_witness :
  certificate_threshold engine <= 3 /\
  Forall (fun v => vote_valid engine v /\ pv_block_hash v = block_hash block_1)
    (qc_votes certificate_1).
Proof.
  destruct (stored_certificates_checked config engine certified_1 (block_hash block_1)
    certificate_1 certified_1_reachable) as (_ & _ & Ht & Hv).
  - vm_compute. reflexivity.
  - split; [exact Ht|exact Hv].
Defined.

(** The restart on the files of [certified_1] goes through. *)
Definition restarts (d : Storage) : bool :=
  match loaded_node config engine d 9000 with
  | Some s => match (restore config engine d s).1 with Done _ => true | _ => false end
  | None => false
  end.
Lemma restarts_run d : restarts d = true ->
  exists s1 s2, loaded_node config engine d 9000 = Some s1 /\ restore config engine d s1 = (Done tt, s2).
Proof.
  unfold restarts. destruct (loaded_node config engine d 9000) as [s1|]; [|discriminate].
  destruct (restore config engine d s1) as [[[]|x|r] s2] eqn:E; try discriminate. eauto.
Qed.
Lemma certified_1_restarts : restarts (storage certified_1) = true.
Proof. vm_compute. reflexivity. Qed.


Lemma exported_snapshot_replays_witness :
  exists c, build_chain_snapshot engine certified_1 = Ok c /\
    replay_blocks network (cs_blocks c) = Ok (cs_snapshot c).
Proof.
  destruct (exported_snapshot_replays config engine certified_1 certified_1_reachable)
    as (c & Hc & _ & Hr & _).
  exists c. split; [exact Hc|exact Hr].
Defined.

(** ** Conflicting certificates *)

(** Another block of height 1, as validator 4 sees it. *)
Definition block_1' : Block := Eval vm_compute in block_at 1 empty_hash 3.
Definition config_4 : NodeConfig :=
  mkNodeConfig 4 "" "" "" [mkPeer 1 "a"; mkPeer 2 "b"; mkPeer 3 "c"] "" "" v2_flags
    (mkFaults 0 f64_zero false false) false SbDevDeterministic None SeDevDeterministic None None.
Definition store_votes (vs : list ProposalVote) (s : NodeRunner) : NodeRunner :=
  foldl (fun s v => (store_proposal_vote config v s).2) s vs.
Definition before_certificate : NodeRunner :=
  store_votes [vote_by 2 block_1; vote_by 3 block_1] with_block_1.
Definition with_block_1' : NodeRunner := Eval vm_compute in
  step 3500 (Received 1 (MsgBlockProposal block_1')) started.
Lemma with_block_1'_step :
  with_block_1' = step 3500 (Received 1 (MsgBlockProposal block_1')) started.
Proof. vm_compute. reflexivity. Qed.
Definition before_certificate' : NodeRunner :=
  store_votes [vote_by 2 block_1'; vote_by 3 block_1'] with_block_1'.

Lemma store_votes_ok vs s :
  Forall (vote_valid engine) vs -> vote_store_ok engine s -> vote_store_ok engine (store_votes vs s).
Proof.
  intros Hvs. revert s. induction Hvs as [|v vs Hv Hvs IH]; intros s Hs; [exact Hs|].
  apply (IH (store_proposal_vote config v s).2). by apply (store_keeps config engine v Hv s).
Qed.
Lemma votes_valid b : Forall (vote_valid engine) [vote_by 2 b; vote_by 3 b] <->
  vote_valid engine (vote_by 2 b) /\ vote_valid engine (vote_by 3 b).
Proof. rewrite !Forall_cons, Forall_nil. tauto. Qed.
Lemma before_certificate_ok : vote_store_ok engine before_certificate.
Proof.
  apply store_votes_ok; [apply votes_valid; split; vm_compute; reflexivity|].
  apply (reachable_ok config engine), with_block_1_reachable.
Qed.
Lemma before_certificate'_ok : vote_store_ok engine before_certificate'.
Proof.
  apply store_votes_ok; [apply votes_valid; split; vm_compute; reflexivity|].
  apply (reachable_ok config engine). rewrite with_block_1'_step. apply step_reachable, started_reachable.
Qed.

Lemma conflicting_certificates_expose_equivocators_witness :
  exists qa qb ids, NoDup ids /\ (4 < 3 * length ids)%nat /\ Forall (equivocator engine qa qb) ids.
Proof.
  destruct (maybe_build_qc engine (block_hash block_1) before_certificate) as [oa sa] eqn:Ea.
  destruct (maybe_build_qc engine (block_hash block_1') before_certificate') as [ob sb] eqn:Eb.
  assert (Hoa : oa = Done (Some (certificate block_1 [1; 2; 3]))).
  { apply (f_equal fst) in Ea. cbn [fst] in Ea. rewrite <- Ea. vm_compute. reflexivity. }
  assert (Hob : ob = Done (Some (certificate block_1' [1; 2; 3]))).
  { apply (f_equal fst) in Eb. cbn [fst] in Eb. rewrite <- Eb. vm_compute. reflexivity. }
  rewrite Hoa in Ea. rewrite Hob in Eb.
  assert (Hna : quorum_certificates (votes before_certificate) !! block_hash block_1 = None)
    by (vm_compute; reflexivity).
  assert (Hnb : quorum_certificates (votes before_certificate') !! block_hash block_1' = None)
    by (vm_compute; reflexivity).
  destruct (conflicting_certificates_expose_equivocators engine before_certificate
    before_certificate' sa sb (block_hash block_1) (block_hash block_1') _ _
    before_certificate_ok before_certificate'_ok Hna Hnb Ea Eb) as (_ & ids & Hids).
  - vm_compute. congruence.
  - vm_compute. reflexivity.
  - exists (certificate block_1 [1; 2; 3]), (certificate block_1' [1; 2; 3]), ids. exact Hids.
Defined.

(** ** The voting cycle *)

Lemma import_proposal_vote_terminates_witness :
  (import_proposal_vote config engine 3 (vote_by 2 block_1) with_block_1).1 <> Halted OutOfFuel.
Proof.
  apply (import_proposal_vote_terminates config engine 3 (vote_by 2 block_1) with_block_1).
  vm_compute. repeat constructor.
Defined.

(** ** One vote, repeated *)

Lemma repeated_vote_certificate_accepted_witness :
  validate_quorum_certificate_for_block config engine (certificate block_1 [2; 2; 2]) block_1 = Ok tt.
Proof.
  apply (repeated_vote_certificate_accepted config engine (vote_by 2 block_1) block_1).
  - discriminate.
  - reflexivity.
  - vm_compute. reflexivity.
Defined.

(** ** Blocks *)

(** The first block with a forged state root. *)
Definition forged : Block :=
  let h := mkHeader 1 empty_hash 1 0 (leader 1) 0 7 (canonical_hash (CTransactions [])) empty_hash in
  let content := canonical_hash (CBlockContent h [] None) in
  mkBlock h [] None []
    match sign (leader 1) (hash_to_bytes content) with Ok sg => sg | Err _ => TypedSig.default end content.

Lemma inadmissible_block_changes_nothing_witness :
  (accept_block config engine 8 forged false started).2 = started.
Proof.
  apply (inadmissible_block_changes_nothing config engine 8 started forged false).
  - vm_compute. reflexivity.
  - right. split; [vm_compute; reflexivity|]. intros [_ [next Hn]]. revert Hn. vm_compute. discriminate.
Defined.

Lemma with_block_3_stuck : stuck config engine with_block_3 block_3.
Proof.
  unfold stuck, admissible, extends_tip.
  split; [vm_compute; reflexivity|]. split; [vm_compute; reflexivity|].
  split; [vm_compute; reflexivity|].
  split; [split; [vm_compute; reflexivity|split; vm_compute; reflexivity]|].
  split; [split; [vm_compute; reflexivity|]|].
  { apply is_ok_exists. vm_compute. reflexivity. }
  split; [vm_compute; reflexivity|]. split; [vm_compute; reflexivity|].
  exists (block_hash block_1, 1). split; vm_compute; reflexivity.
Qed.

(** From a reachable state, the next slot tick never returns. *)
Lemma orphan_promotion_diverges_witness :
  reachable config engine with_block_3 /\
  forall rounds, (try_promote_orphans config engine 8 rounds with_block_3).1 = Halted OutOfFuel.
Proof.
  split; [rewrite with_block_3_step; apply step_reachable, certified_1_reachable|]. intros rounds.
  apply (orphan_promotion_diverges config engine 8 with_block_3 block_3). exact with_block_3_stuck.
Defined.

Lemma built_block_extends_tip_witness :
  exists b l, sign_block config (build_block config engine started 3 0) = Ok b /\
    apply_block_clone (ledger (chain started)) b = Ok l.
Proof.
  destruct (sign_block config (build_block config engine started 3 0)) as [b|] eqn:Eb.
  2: { exfalso. revert Eb. vm_compute. discriminate. }
  destruct (built_block_extends_tip config engine (fun _ => True) started 3 0 b) as (_ & _ & _ & _ & _ & _ & _ & _ & _ & l & Hl & _).
  - apply deterministic_laws.
  - exact I.
  - exact Eb.
  - exists b, l. split; [reflexivity|exact Hl].
Defined.

Lemma oversized_certified_number_panics_witness :
  apply_chain_segment config engine 8 repair_segment with_misnumbered = (Halted Panicked, with_misnumbered).
Proof.
  apply (oversized_certified_number_panics config engine 8 with_misnumbered repair_segment
           misnumbered_certificate); try (vm_compute; reflexivity).
  split; vm_compute; reflexivity.
Defined.

(** ** Certified synchronisation *)

Definition sync_response : ChunkedSyncResponse :=
  Certified 2 1 (block_hash block_1) empty_hash 0 [mkCertifiedHeader (header block_1) (block_hash block_1) None None]
    [block_1] [certificate_1] [].


(** ** Service gating *)

(** Validator 1's view after the committee of epoch 3 confirmed that
    validator 2 was barely up. *)
Definition strict_config : NodeConfig :=
  mkNodeConfig 1 "" "" "" [] "" ""
    (mkFlags true true true false 3 f64_one 4 default_service_score_weights)
    (mkFaults 0 f64_zero false false) false SbDevDeterministic None SeDevDeterministic None None.
Definition low_attestations : list ServiceAttestation :=
  (fun m => mkAttestation 2 m 3 (mkCounters 1 10 1 10 1 3 4 0) TypedSig.default)
    <$> service_committee_for engine 3 2.
Definition low_aggregate : ServiceAggregate :=
  mkAggregate 2 3 (service_attestation_root low_attestations) low_attestations
    (aggregate_service_counters low_attestations).
Definition warned : ServiceState :=
  mkService ∅ {[(2, 3) := low_aggregate]} ∅ ∅ ∅ ∅ 0 0 ∅ ∅ ∅ ∅.

Lemma gating_needs_confirmed_evidence_witness :
  exists score, v2_gating_state strict_config engine warned 2 5 = RejectScore score /\
    f64_ltb score f64_one = true.
Proof.
  destruct (v2_gating_state strict_config engine warned 2 5) as [| |score|score] eqn:E;
    try (exfalso; revert E; vm_compute; discriminate).
  exists score. split; [reflexivity|].
  destruct (gating_needs_confirmed_evidence strict_config engine warned 2 5 score ltac:(lia) E) as [Hl _].
  exact Hl.
Defined.
End Scenario.
