(* ===== verification/Cluster.v ===== *)
(** * Several nodes

    A network of nodes as one transition system: every node runs the event
    loop of Handlers, and receives only messages another one has put into its
    outbox for it, at any time and in any order or not at all.  What every
    member keeps follows from Invariants; what the network as a whole does
    not keep is agreement, and the run that shows it is here. *)
From stdpp Require Import relations.
From S2P Require Import Prelude F64 Hybrid Types Concrete Crypto Ledger Consensus.
From S2P Require Import Policy Snapshots NodeState Branches Receipts SyncServe Service Votes.
From S2P Require Import Safety Durable Termination Blocks Handlers Invariants Acceptance Scenario.

Open Scope Z_scope.

(** The nodes with their configurations. *)
Abbreviation Cluster := (list (NodeConfig * NodeRunner)).

(** Events of a node's own: everything but a message. *)
Definition own_event (ev : node_event) : bool :=
  match ev with NetworkInput (Received _ _) => false | _ => true end.

Section cluster.
Context `{Hashing} `{CryptoBackend}.
Context (e : ConsensusEngine).

(** A node starts on empty files. *)
Definition starts (config : NodeConfig) (s : NodeRunner) : Prop := exists now s0,
  validate_hybrid_enforcement_genesis config (genesis e) = Ok tt /\
  loaded_node config e empty_storage now = Some s0 /\ restore config e empty_storage s0 = (Done tt, s).

(** An event handled to its end. *)
Definition handles (config : NodeConfig) (now : Z) (ev : node_event) (s s' : NodeRunner) : Prop :=
  exists fuel rounds r, run_event config e fuel rounds ev (at_time now s) = (r, s') /\ r <> Halted OutOfFuel.

Inductive cluster_step : Cluster -> Cluster -> Prop :=
| member_acts c i config s ev now s' :
    c !! i = Some (config, s) -> own_event ev = true -> handles config now ev s s' ->
    cluster_step c (<[i := (config, s')]> c)
| member_receives c i j config s sender t payload accountable now s' :
    c !! i = Some (config, s) -> c !! j = Some (sender, t) ->
    mkOutbound (node_id config) payload accountable ∈ outbox t ->
    handles config now (NetworkInput (Received (node_id sender) payload)) s s' ->
    cluster_step c (<[i := (config, s')]> c)
| member_restarts c i config s now s0 s' :
    c !! i = Some (config, s) -> validate_hybrid_enforcement_genesis config (genesis e) = Ok tt ->
    loaded_node config e (storage s) now = Some s0 -> restore config e (storage s) s0 = (Done tt, s') ->
    cluster_step c (<[i := (config, s')]> c).

Definition cluster_reachable (c : Cluster) : Prop := exists c0,
  Forall (fun m => starts m.1 m.2) c0 /\ rtc cluster_step c0 c.

(** Every member is a node of its own: what Invariants proves of one holds of
    each. *)
Lemma members_reachable c : cluster_reachable c -> Forall (fun m => reachable m.1 e m.2) c.
Proof.
  intros (c0 & Hstart & Hrun).
  assert (H0' : Forall (fun m => reachable m.1 e m.2) c0).
  { eapply Forall_impl; [exact Hstart|]. intros [config s] (now & s0 & Hv & Hl & Hr). by eapply reach_fresh. }
  clear Hstart. induction Hrun as [|c1 c2 c3 Hstep _ IH]; [done|]. apply IH. clear IH.
  destruct Hstep as [c i config s ev now s' Hi _ (fuel & rounds & r & Hr & _)
    |c i j config s sender t payload a now s' Hi _ _ (fuel & rounds & r & Hr & _)
    |c i config s now s0 s' Hi Hv Hl Hr]; apply Forall_insert; try done;
    pose proof (Forall_lookup_1 _ _ _ _ H0' Hi) as Hs; cbn [fst snd] in Hs |- *.
  - replace s' with (run_event config e fuel rounds ev (at_time now s)).2 by (by rewrite Hr). by apply reach_event.
  - replace s' with (run_event config e fuel rounds (NetworkInput (Received (node_id sender) payload))
      (at_time now s)).2 by (by rewrite Hr). by apply reach_event.
  - by eapply reach_restart.
Qed.

(** Holding a certificate of a supermajority: enough valid votes, all of
    different validators. *)
Definition certifies (s : NodeRunner) (qc : QuorumCertificate) : Prop :=
  quorum_certificates (votes s) !! qc_block_hash qc = Some qc /\
  NoDup (pv_validator <$> qc_votes qc) /\ certificate_threshold e <= Z.of_nat (length (qc_votes qc)).

Definition certified_in (c : Cluster) (qc : QuorumCertificate) : Prop :=
  exists config s, (config, s) ∈ c /\ certifies s qc.

(** A vote that counts in a certificate somewhere in the network. *)
Definition counted_in (c : Cluster) (v : ProposalVote) : Prop :=
  vote_valid e v /\ exists qc, certified_in c qc /\ v ∈ qc_votes qc.

(** A validator two of whose votes count for different blocks of one height. *)
Definition voted_twice (c : Cluster) (id : ValidatorId) : Prop := exists v w,
  counted_in c v /\ counted_in c w /\ pv_validator v = id /\ pv_validator w = id /\
  pv_block_number v = pv_block_number w /\ pv_block_hash v <> pv_block_hash w.

Lemma certified_checked c qc : cluster_reachable c -> certified_in c qc -> qc_checked e qc.
Proof.
  intros Hc%members_reachable (config & s & Hin & Hq & _). rewrite Forall_forall in Hc.
  apply Hc, reachable_ok in Hin as [[_ Hqcs] _]. by destruct (Hqcs _ _ Hq) as [_ ?].
Qed.

End cluster.

(** ** Four honest nodes that disagree

    Validator 2 proposes a block in slot 1; 3 and 4 get it and all three vote
    for it, but of the votes only those to 4 arrive: 4 certifies it.
    Validator 1, whom nothing reached, proposes another first block in slot 3
    and votes for it.  Its block ties with the other by support and wins by
    its slot, so 2 and 3 replace their votes; with those of 1, 2 and 3 the
    second block is certified as well. *)
Module ClusterRun.
#[local] Existing Instance concrete_hashing.
#[local] Existing Instance Scenario.network_backend.
Import Scenario.

Definition member_config (id : ValidatorId) : NodeConfig :=
  mkNodeConfig id "" "" "" ((fun p => mkPeer p "") <$> filter (fun p => p <> id) [1; 2; 3; 4]) "" "" v2_flags
    (mkFaults 0 f64_zero false false) false SbDevDeterministic None SeDevDeterministic None None.
Definition member_start (id : ValidatorId) : NodeRunner :=
  match loaded_node (member_config id) engine empty_storage 500 with
  | Some s => (restore (member_config id) engine empty_storage s).2
  | None => started
  end.
Definition handle (id : ValidatorId) (now : Z) (ev : node_event) (s : NodeRunner) : NodeRunner :=
  (run_event (member_config id) engine 8 8 ev (at_time now s)).2.
Definition get (id : ValidatorId) (now : Z) (from : ValidatorId) (m : ProtocolMessage) (s : NodeRunner)
    : NodeRunner := handle id now (NetworkInput (Received from m)) s.

(** The block a node proposed. *)
Definition proposed (s : NodeRunner) : option Block :=
  match omap (fun m => match ob_payload m with MsgBlockProposal b => Some b | _ => None end) (outbox s) with
  | b :: _ => Some b
  | [] => None
  end.

Definition start_1 : NodeRunner := Eval vm_compute in member_start 1.
Definition start_2 : NodeRunner := Eval vm_compute in member_start 2.
Definition start_3 : NodeRunner := Eval vm_compute in member_start 3.
Definition start_4 : NodeRunner := Eval vm_compute in member_start 4.

Definition proposer_2 : NodeRunner := Eval vm_compute in handle 2 1500 SlotTick start_2.
Definition early : Block := Eval vm_compute in default block_1 (proposed proposer_2).
Definition voter_3 : NodeRunner := Eval vm_compute in get 3 1600 2 (MsgBlockProposal early) start_3.
Definition voter_4 : NodeRunner := Eval vm_compute in get 4 1600 2 (MsgBlockProposal early) start_4.
Definition two_votes_4 : NodeRunner := Eval vm_compute in
  get 4 1700 2 (MsgProposalVote (vote_by 2 early)) voter_4.
Definition certifier_4 : NodeRunner := Eval vm_compute in
  get 4 1800 3 (MsgProposalVote (vote_by 3 early)) two_votes_4.

Definition proposer_1 : NodeRunner := Eval vm_compute in handle 1 3500 SlotTick start_1.
Definition late : Block := Eval vm_compute in default block_1 (proposed proposer_1).
Definition fork_2 : NodeRunner := Eval vm_compute in get 2 3600 1 (MsgBlockProposal late) proposer_2.
Definition switched_2 : NodeRunner := Eval vm_compute in get 2 3600 1 (MsgProposalVote (vote_by 1 late)) fork_2.
Definition fork_3 : NodeRunner := Eval vm_compute in get 3 3600 1 (MsgBlockProposal late) voter_3.
Definition switched_3 : NodeRunner := Eval vm_compute in get 3 3600 1 (MsgProposalVote (vote_by 1 late)) fork_3.
Definition certifier_2 : NodeRunner := Eval vm_compute in
  get 2 3700 3 (MsgProposalVote (vote_by 3 late)) switched_2.

Definition cluster_of (a b c d : NodeRunner) : Cluster :=
  [(member_config 1, a); (member_config 2, b); (member_config 3, c); (member_config 4, d)].

Lemma starts_fresh id s : is_ok (validate_hybrid_enforcement_genesis (member_config id) network) = true ->
  match loaded_node (member_config id) engine empty_storage 500 with
  | Some s0 => restore (member_config id) engine empty_storage s0 = (Done tt, s)
  | None => False
  end -> starts engine (member_config id) s.
Proof.
  intros Hv Hr. destruct (loaded_node _ _ _ _) as [s0|] eqn:El; [|done]. exists 500, s0.
  split_and!; [|done|done]. change (genesis engine) with network.
  destruct (validate_hybrid_enforcement_genesis (member_config id) network) as [[]|]; [done|discriminate].
Qed.

Lemma handled id now ev s s' :
  run_event (member_config id) engine 8 8 ev (at_time now s) = (Done tt, s') ->
  handles engine (member_config id) now ev s s'.
Proof. intros Hr. exists 8%nat, 8%nat, (Done tt). by split. Qed.

(** A member's own event and a delivery out of the sender's outbox, between
    clusters given as they are. *)
Lemma act (i : nat) id now ev s s' c c' :
  c !! i = Some (member_config id, s) -> own_event ev = true ->
  run_event (member_config id) engine 8 8 ev (at_time now s) = (Done tt, s') ->
  <[i := (member_config id, s')]> c = c' -> cluster_step engine c c'.
Proof. intros Hi Ho Hr <-. eapply member_acts; [done..|]. by apply handled. Qed.

Lemma receive (i j k : nat) id now m from s t s' c c' :
  c !! i = Some (member_config id, s) -> c !! j = Some (member_config from, t) ->
  outbox t !! k = Some (mkOutbound id m true) ->
  run_event (member_config id) engine 8 8 (NetworkInput (Received from m)) (at_time now s) = (Done tt, s') ->
  <[i := (member_config id, s')]> c = c' -> cluster_step engine c c'.
Proof.
  intros Hi Hj Hk Hr <-. eapply (member_receives engine c i j (member_config id) s (member_config from) t m true);
    [done..| |by apply handled].
  by eapply list_elem_of_lookup_2.
Qed.

Ltac acted := [> reflexivity | reflexivity | vm_compute; reflexivity | reflexivity].
Ltac received := [> reflexivity | reflexivity | reflexivity | vm_compute; reflexivity | reflexivity].
Ltac next c' := eapply (rtc_l _ _ c').

(** The first block is certified by 4 alone. *)
Lemma early_run : rtc (cluster_step engine) (cluster_of start_1 start_2 start_3 start_4)
  (cluster_of start_1 proposer_2 voter_3 certifier_4).
Proof.
  next (cluster_of start_1 proposer_2 start_3 start_4).
  { eapply (act 1 2 1500 SlotTick start_2); acted. }
  next (cluster_of start_1 proposer_2 voter_3 start_4).
  { eapply (receive 2 1 7 3 1600 (MsgBlockProposal early) 2 start_3 proposer_2); received. }
  next (cluster_of start_1 proposer_2 voter_3 voter_4).
  { eapply (receive 3 1 8 4 1600 (MsgBlockProposal early) 2 start_4 proposer_2); received. }
  next (cluster_of start_1 proposer_2 voter_3 two_votes_4).
  { eapply (receive 3 1 5 4 1700 (MsgProposalVote (vote_by 2 early)) 2 voter_4 proposer_2); received. }
  next (cluster_of start_1 proposer_2 voter_3 certifier_4).
  { eapply (receive 3 2 5 4 1800 (MsgProposalVote (vote_by 3 early)) 3 two_votes_4 voter_3); received. }
  reflexivity.
Qed.

Lemma start_fresh : Forall (fun m => starts engine m.1 m.2) (cluster_of start_1 start_2 start_3 start_4).
Proof. repeat (constructor; [apply starts_fresh; vm_compute; reflexivity|]). constructor. Qed.

Lemma early_reachable : cluster_reachable engine (cluster_of start_1 proposer_2 voter_3 certifier_4).
Proof. eexists. split; [apply start_fresh|apply early_run]. Qed.

Lemma run_reachable : cluster_reachable engine (cluster_of proposer_1 certifier_2 switched_3 certifier_4).
Proof.
  eexists. split; [apply start_fresh|]. etrans; [apply early_run|].
  next (cluster_of proposer_1 proposer_2 voter_3 certifier_4).
  { eapply (act 0 1 3500 SlotTick start_1); acted. }
  next (cluster_of proposer_1 fork_2 voter_3 certifier_4).
  { eapply (receive 1 0 6 2 3600 (MsgBlockProposal late) 1 proposer_2 proposer_1); received. }
  next (cluster_of proposer_1 switched_2 voter_3 certifier_4).
  { eapply (receive 1 0 3 2 3600 (MsgProposalVote (vote_by 1 late)) 1 fork_2 proposer_1); received. }
  next (cluster_of proposer_1 switched_2 fork_3 certifier_4).
  { eapply (receive 2 0 7 3 3600 (MsgBlockProposal late) 1 voter_3 proposer_1); received. }
  next (cluster_of proposer_1 switched_2 switched_3 certifier_4).
  { eapply (receive 2 0 4 3 3600 (MsgProposalVote (vote_by 1 late)) 1 fork_3 proposer_1); received. }
  next (cluster_of proposer_1 certifier_2 switched_3 certifier_4).
  { eapply (receive 1 2 15 2 3700 (MsgProposalVote (vote_by 3 late)) 3 switched_2 switched_3); received. }
  reflexivity.
Qed.

(** The certificates of the two. *)
Definition qc_of (s : NodeRunner) (h : HashBytes) : QuorumCertificate :=
  default (mkQc 0 0 0 0 0 []) (quorum_certificates (votes s) !! h).
Definition qc_early : QuorumCertificate := Eval vm_compute in qc_of certifier_4 (block_hash early).
Definition qc_late : QuorumCertificate := Eval vm_compute in qc_of certifier_2 (block_hash late).

Lemma certifies_by_computation s qc :
  quorum_certificates (votes s) !! qc_block_hash qc = Some qc ->
  bool_decide (NoDup (pv_validator <$> qc_votes qc)) = true ->
  (certificate_threshold engine <=? Z.of_nat (length (qc_votes qc))) = true -> certifies engine s qc.
Proof. intros Hq Hd Ht. split_and!; [done|by eapply bool_decide_eq_true_1|lia]. Qed.

(** The certificate of 4 reaches 2, and both hold it. *)
Definition agreeing_2 : NodeRunner := Eval vm_compute in
  get 2 2000 4 (MsgQuorumCertificate qc_early) proposer_2.
Definition agreeing : Cluster := cluster_of start_1 agreeing_2 voter_3 certifier_4.

Lemma agreeing_reachable : cluster_reachable engine agreeing.
Proof.
  eexists. split; [apply start_fresh|]. etrans; [apply early_run|].
  next agreeing; [|reflexivity].
  eapply (receive 1 3 10 2 2000 (MsgQuorumCertificate qc_early) 4 proposer_2 certifier_4); received.
Qed.

(** All certificates of a state are for one block. *)
Definition only_certifies (h : HashBytes) (s : NodeRunner) : bool :=
  forallb (fun kv => qc_block_hash kv.2 =? h) (map_to_list (quorum_certificates (votes s))).
Lemma only_certified h c qc : forallb (fun m => only_certifies h m.2) c = true ->
  certified_in engine c qc -> qc_block_hash qc = h.
Proof.
  intros Hall (config & s & Hin & Hq & _). rewrite forallb_forall in Hall.
  apply list_elem_of_In, Hall in Hin. unfold only_certifies in Hin. cbn in Hin.
  rewrite forallb_forall in Hin. apply elem_of_map_to_list, list_elem_of_In, Hin in Hq. cbn in Hq. lia.
Qed.


(** C4: Nodes without any fault can certify different blocks of one height:
    four of them start fresh, run the code as it is and receive only what the
    others sent them, some of it late or never, and two end up each with a
    certificate of three valid votes, for two blocks at height one.  Before a
    first certificate the vote of a node is replaced when a sibling becomes
    its tip, and the replaced vote keeps counting where it was sent. *)
Theorem honest_nodes_certify_conflicting_blocks : exists c s t qc qc',
  cluster_reachable engine c /\
  Forall (fun m => fault_profile m.1 = mkFaults 0 f64_zero false false /\ feature_flags m.1 = v2_flags) c /\
  (s ∈ c.*2 /\ certifies engine s qc) /\ (t ∈ c.*2 /\ certifies engine t qc') /\
  Forall (vote_valid engine) (qc_votes qc ++ qc_votes qc') /\
  qc_block_number qc = qc_block_number qc' /\ qc_block_hash qc <> qc_block_hash qc'.
Proof.
  exists (cluster_of proposer_1 certifier_2 switched_3 certifier_4), certifier_2, certifier_4, qc_late, qc_early.
  split; [apply run_reachable|]. split; [repeat constructor|].
  split_and!; try (apply certifies_by_computation; vm_compute; reflexivity).
  - by apply (list_elem_of_lookup_2 _ 1).
  - by apply (list_elem_of_lookup_2 _ 3).
  - repeat constructor.
  - done.
  - done.
Qed.
End ClusterRun.
