(* ===== verification/Rollback.v ===== *)
(** * A vote that shortens a chain

    A run of the network of Cluster in which a node gives up the last block
    of its own chain for that block's parent: [maybe_adopt_vote_supported_branch]
    compares the branch a vote is for with the chain of the node, and does not
    ask whether the one is the beginning of the other. *)
From stdpp Require Import relations.
From S2P Require Import Prelude F64 Hybrid Types Concrete Crypto Ledger Consensus.
From S2P Require Import Policy Snapshots NodeState Branches Receipts SyncServe Service Votes.
From S2P Require Import Safety Durable Termination Blocks Handlers Invariants Acceptance Scenario Cluster.

Open Scope Z_scope.

Module RollbackRun.
#[local] Existing Instance concrete_hashing.
#[local] Existing Instance Scenario.network_backend.
Import Scenario ClusterRun.

(** Validator 2 leads slots 1 and 2 and proposes a block in each; 1 receives
    both and restarts, which loses the votes it knew. *)
Definition follower_1 : NodeRunner := Eval vm_compute in get 1 1600 2 (MsgBlockProposal early) start_1.
Definition proposer_2' : NodeRunner := Eval vm_compute in handle 2 2500 SlotTick proposer_2.
Definition second : Block := Eval vm_compute in default block_1 (last (blocks (chain proposer_2'))).
Definition holder_1 : NodeRunner := Eval vm_compute in get 1 2600 2 (MsgBlockProposal second) follower_1.
Definition restarted_1 : NodeRunner := Eval vm_compute in
  match loaded_node (member_config 1) engine (storage holder_1) 3000 with
  | Some s => (restore (member_config 1) engine (storage holder_1) s).2
  | None => started
  end.
(** Then the vote of 2 for the first block arrives. *)
Definition late_vote : ProposalVote := Eval vm_compute in vote_by 2 early.
Definition cut_1 : NodeRunner := Eval vm_compute in get 1 3100 2 (MsgProposalVote late_vote) restarted_1.

Lemma restarts_from (i : nat) id now s s0 s' c c' :
  c !! i = Some (member_config id, s) ->
  is_ok (validate_hybrid_enforcement_genesis (member_config id) network) = true ->
  loaded_node (member_config id) engine (storage s) now = Some s0 ->
  restore (member_config id) engine (storage s) s0 = (Done tt, s') ->
  <[i := (member_config id, s')]> c = c' -> cluster_step engine c c'.
Proof.
  intros Hi Hv Hl Hr <-. eapply member_restarts; [done| |done..]. change (genesis engine) with network.
  destruct (validate_hybrid_enforcement_genesis (member_config id) network) as [[]|]; [done|discriminate].
Qed.

Definition before : Cluster := cluster_of restarted_1 proposer_2' start_3 start_4.
Definition after : Cluster := cluster_of cut_1 proposer_2' start_3 start_4.

Lemma before_reachable : cluster_reachable engine before.
Proof.
  eexists. split; [apply start_fresh|].
  next (cluster_of start_1 proposer_2 start_3 start_4).
  { eapply (act 1 2 1500 SlotTick start_2); acted. }
  next (cluster_of follower_1 proposer_2 start_3 start_4).
  { eapply (receive 0 1 6 1 1600 (MsgBlockProposal early) 2 start_1 proposer_2); received. }
  next (cluster_of follower_1 proposer_2' start_3 start_4).
  { eapply (act 1 2 2500 SlotTick proposer_2); acted. }
  next (cluster_of holder_1 proposer_2' start_3 start_4).
  { eapply (receive 0 1 15 1 2600 (MsgBlockProposal second) 2 follower_1 proposer_2'); received. }
  next before; [|reflexivity].
  eapply (restarts_from 0 1 3000 holder_1); [reflexivity|vm_compute; reflexivity..|reflexivity].
Qed.

Lemma late_vote_arrives : cluster_step engine before after.
Proof. eapply (receive 0 1 3 1 3100 (MsgProposalVote late_vote) 2 restarted_1 proposer_2'); received. Qed.

End RollbackRun.
