(* ===== verification/Queries.v ===== *)
(** * Queries of a peer

    What a node does for a peer that asks or reports: the branches of
    [handle_protocol_message] for synchronisation requests, whole and
    certified, statuses and receipt fetches.  The node answers with at most
    two messages and changes nothing of its own. *)
From S2P Require Import Prelude F64 Hybrid Types Concrete Crypto Ledger Consensus.
From S2P Require Import Policy Snapshots NodeState Branches Receipts SyncServe Service Votes.
From S2P Require Import Safety Durable Termination Blocks Handlers Invariants Acceptance Scenario.

Open Scope Z_scope.

(** The messages that ask or tell, with the validator they name. *)
Definition query_of (m : ProtocolMessage) : option ValidatorId :=
  match m with
  | MsgSyncStatus id _ _ _ _ _ _ => Some id
  | MsgSyncRequest id _ _ => Some id
  | MsgCertifiedSyncRequest r => Some (cr_requester r)
  | MsgReceiptFetch id _ _ => Some id
  | _ => None
  end.

(** What a node is, apart from what it remembers of its peers, counts, logs
    and queues. *)
Definition core (s : NodeRunner) :=
  (chain s, votes s, pool s, service s, slots s, storage s, clock s).

Section serving.
Context `{Hashing} `{CryptoBackend}.
Context (config : NodeConfig) (e : ConsensusEngine) (fuel rounds : nat).

(** [m] leaves the core and queues at most [n] messages, all for [id]. *)
Definition answers (id : ValidatorId) (n : nat) {A} (m : M A) : Prop := forall s,
  core (m s).2 = core s /\
  exists l, outbox (m s).2 = outbox s ++ l /\ (length l <= n)%nat /\
    Forall (fun o => ob_peer o = id /\ ob_accountable o = false) l.

Lemma answers_nothing id n {A} (m : M A) :
  (forall s, core (m s).2 = core s /\ outbox (m s).2 = outbox s) -> answers id n m.
Proof.
  intros Hm s. destruct (Hm s) as [Hc Ho]. split; [done|]. exists []. rewrite app_nil_r.
  split_and!; [done|cbn; lia|constructor].
Qed.

Lemma answers_bind id n k {A B} (m : M A) (f : A -> M B) :
  answers id n m -> (forall a, answers id k (f a)) -> answers id (n + k) (m ≫= f).
Proof.
  intros Hm Hf s. destruct (Hm s) as (Hc & l & Ho & Hl & Hp). unfold mbind, M_bind.
  destruct (m s) as [[a|x|r] s1]; cbn [fst snd] in *.
  - destruct (Hf a s1) as (Hc' & l' & Ho' & Hl' & Hp'). split; [congruence|]. exists (l ++ l').
    rewrite Ho', Ho, app_assoc, length_app. split_and!; [done|lia|by apply Forall_app].
  - split; [done|]. exists l. split_and!; [done|lia|done].
  - split; [done|]. exists l. split_and!; [done|lia|done].
Qed.

(** A step that queues nothing first. *)
Lemma answers_then id n {A B} (m : M A) (f : A -> M B) :
  answers id 0 m -> (forall a, answers id n (f a)) -> answers id n (m ≫= f).
Proof. apply (answers_bind id 0 n). Qed.

Lemma answers_weaken id n k {A} (m : M A) : (n <= k)%nat -> answers id n m -> answers id k m.
Proof.
  intros Hle Hm s. destruct (Hm s) as (Hc & l & ? & ? & ?). split; [done|]. exists l.
  split_and!; [done|lia|done].
Qed.

Lemma answers_ret id n {A} (a : A) : answers id n (mret a).
Proof. by apply answers_nothing. Qed.
Lemma answers_gets id n {A} (f : NodeRunner -> A) : answers id n (gets f).
Proof. by apply answers_nothing. Qed.
Lemma answers_get id n : answers id n get.
Proof. by apply answers_nothing. Qed.
Lemma answers_lift id n {A} (r : result A) : answers id n (lift r).
Proof. by destruct r; apply answers_nothing. Qed.
Lemma answers_log id n ev : answers id n (log_event ev).
Proof. by apply answers_nothing. Qed.
Lemma answers_bump id n c k : answers id n (bump c k).
Proof. by apply answers_nothing. Qed.
Lemma answers_sync id n f : answers id n (modify (with_sync f)).
Proof. by apply answers_nothing. Qed.

Lemma answers_try id n {A} (m : M A) : answers id n m -> answers id n (try m).
Proof. intros Hm s. specialize (Hm s). unfold try. by destruct (m s) as [[a|x|r] s1]. Qed.

Lemma answers_or_log id n {A} ev (m : M A) : answers id n m -> answers id n (or_log ev m).
Proof.
  intros Hm. unfold or_log. rewrite <- (Nat.add_0_r n). apply answers_bind; [by apply answers_try|].
  intros [a|x]; [apply answers_ret|apply answers_log].
Qed.

Lemma find_peer_id id p : find_peer config id = Ok p -> peer_id p = id.
Proof.
  unfold find_peer. destruct (find_first _ _) as [q|] eqn:Eq; [|done]. intros [= ->].
  apply find_first_some in Eq as [_ Hq]. lia.
Qed.

Lemma answers_find id n {A} (f : PeerConfig -> M A) :
  (forall p, peer_id p = id -> answers id n (f p)) -> answers id n (lift (find_peer config id) ≫= f).
Proof.
  intros Hf. destruct (find_peer config id) as [p|x] eqn:Ep; [|by apply answers_nothing].
  exact (Hf p (find_peer_id id p Ep)).
Qed.

Lemma answers_send id p m : peer_id p = id -> answers id 1 (send_control_to p m).
Proof.
  intros Hp s. split; [done|]. eexists. split; [reflexivity|]. split; [cbn; lia|].
  constructor; [done|constructor].
Qed.
End serving.

Create HintDb answers.
#[export] Hint Resolve answers_ret answers_gets answers_get answers_lift answers_log answers_bump
  answers_sync answers_send : answers.

(** Walk through a method that queues nothing before its last step. *)
Ltac answers_step :=
  match goal with
  | |- forall _, _ => intros
  | |- answers _ _ (lift (find_peer _ _) ≫= _) => apply answers_find
  | |- answers ?id 1 (send_control_to _ _ ≫= _) => apply (answers_bind id 1 0)
  | |- answers _ _ (_ ≫= _) => apply answers_then
  | |- answers _ _ (or_log _ _) => apply answers_or_log
  | |- answers _ _ (if ?b then _ else _) => destruct b
  | |- answers _ _ (match ?x with _ => _ end) => destruct x
  | |- answers _ _ _ => solve [eauto with answers]
  end.
Ltac answers_auto := repeat answers_step.

Section queries.
Context `{Hashing} `{CryptoBackend}.
Context (config : NodeConfig) (e : ConsensusEngine) (fuel rounds : nat).

Lemma record_status_answers id to h tip slot qh qn l :
  answers to 0 (record_peer_sync_status_with_slot id h tip slot qh qn l).
Proof. apply answers_sync. Qed.

Lemma request_sync_answers id : answers id 1 (request_sync_from config id).
Proof.
  unfold request_sync_from, request_certified_sync_from, request_legacy_sync_from. answers_auto.
Qed.

Lemma full_snapshot_answers id p : peer_id p = id -> answers id 1 (send_full_snapshot_to config e p).
Proof. intros Hp. unfold send_full_snapshot_to. answers_auto. Qed.

Lemma best_sync_answers id h tip : answers id 1 (send_best_sync_to config e id h tip).
Proof. unfold send_best_sync_to. answers_auto; by apply full_snapshot_answers. Qed.

Lemma certified_sync_answers id : answers id 1 (send_best_certified_sync_to config id).
Proof.
  unfold send_best_certified_sync_to. answers_auto.
Qed.

Lemma suffix_answers id a : answers id 1 (send_anchored_suffix_sync_to config e id a).
Proof. unfold send_anchored_suffix_sync_to. answers_auto. Qed.

Lemma served_answers id to state : answers to 0 (record_sync_push_served id state).
Proof. apply answers_sync. Qed.

Lemma push_best_answers id h tip : answers id 2 (push_best_sync_to config e id h tip).
Proof.
  assert (Hlast : forall (m : M unit) state, answers id 1 m ->
    answers id 1 (_ ← m; record_sync_push_served id state)).
  { intros m state Hm. rewrite <- (Nat.add_0_r 1). apply answers_bind; [done|]. intros. apply served_answers. }
  unfold push_best_sync_to. apply answers_then; [apply answers_get|]. intros s. case_match; [apply answers_ret|].
  destruct (consensus_v2 _).
  - apply (answers_bind id 1 1); [apply certified_sync_answers|]. intros _.
    destruct (shared_qc_anchor_for_peer s id) as [a|]; [case_match|]; apply Hlast;
      auto using suffix_answers, best_sync_answers.
  - apply (answers_weaken id 1); [lia|]. apply Hlast, best_sync_answers.
Qed.

Lemma on_status_answers id h tip slot qh qn l :
  answers id 2 (on_sync_status config e id h tip slot qh qn l).
Proof.
  unfold on_sync_status. apply answers_then; [apply record_status_answers|]. intros _.
  apply answers_then; [apply answers_gets|]. intros v. case_match; [|case_match; [|apply answers_ret]].
  - apply answers_or_log, (answers_weaken id 1); [lia|]. apply request_sync_answers.
  - apply answers_or_log, push_best_answers.
Qed.

Lemma on_request_answers id h tip : answers id 2 (on_sync_request config e id h tip).
Proof.
  unfold on_sync_request. apply answers_then.
  { apply answers_then; [apply answers_get|]. intros. apply record_status_answers. }
  intros _. apply answers_then; [apply answers_gets|]. intros throttled.
  case_match; [answers_auto|case_match].
  - apply answers_then; [apply answers_then; [apply answers_get|intros; apply answers_sync]|]. intros _.
    case_match; [apply push_best_answers|].
    apply (answers_weaken id 1); [lia|]. apply best_sync_answers.
  - apply (answers_weaken id 1); [lia|]. apply answers_find. intros. by apply full_snapshot_answers.
Qed.

Lemma on_certified_request_answers r :
  answers (cr_requester r) 2 (on_certified_sync_request config e r).
Proof.
  unfold on_certified_sync_request. case_match; [apply answers_ret|].
  apply answers_find. intros p Hp. apply answers_then; [apply answers_get|]. intros s.
  apply answers_then; [answers_auto|]. intros _. apply (answers_bind _ 1 1); [by apply answers_send|].
  intros _. case_match; [apply suffix_answers|apply answers_ret].
Qed.

Lemma on_fetch_answers id epoch v : answers id 2 (on_receipt_fetch config id epoch v).
Proof. apply (answers_weaken id 1); [lia|]. unfold on_receipt_fetch. answers_auto. Qed.

Lemma query_answers from m id : query_of m = Some id ->
  answers id 2 (handle_protocol_message config e fuel rounds from m).
Proof.
  intros Hq.
  assert (Hd : answers id 2 (dispatch config e fuel rounds from m)).
  { destruct m; simplify_eq/=; auto using on_status_answers, on_request_answers,
      on_certified_request_answers, on_fetch_answers. }
  unfold handle_protocol_message, allow_peer_message. answers_auto; done.
Qed.

(** C8: A query costs a node little: whatever a peer asks (a synchronisation
    request, whole, incremental or certified, a status, a fetch of receipts),
    and however often, handling the message leaves the node's chain, votes,
    receipts, pool, evidence and files as they were and queues at most two
    messages, uncounted ones, all for the validator the message names. *)
Theorem queries_answered_within_bounds from m id s :
  query_of m = Some id ->
  let s' := (handle_protocol_message config e fuel rounds from m s).2 in
  core s' = core s /\
  exists l, outbox s' = outbox s ++ l /\ (length l <= 2)%nat /\
    Forall (fun o => ob_peer o = id /\ ob_accountable o = false) l.
Proof. intros Hq. by apply query_answers. Qed.
End queries.

Module QueriesExample.
#[local] Existing Instance concrete_hashing.
#[local] Existing Instance Scenario.network_backend.
Import Scenario.

Lemma queries_answered_within_bounds_witness :
  chain (handle_protocol_message config engine 8 8 2 (MsgSyncRequest 3 0 empty_hash) with_block_2).2
    = chain with_block_2.
Proof.
  destruct (queries_answered_within_bounds config engine 8 8 2 (MsgSyncRequest 3 0 empty_hash) 3 with_block_2
    eq_refl) as [Hc _]. unfold core in Hc. congruence.
Defined.
End QueriesExample.
