(* ===== verification/Steady.v ===== *)
(** * Methods that return, and chains that votes cannot move

    A calculus for methods that neither panic nor run out of fuel and keep a
    property of the node; with it, that on a chain with a certificate and
    nothing beside it the voting cycle leaves the chain alone. *)
From S2P Require Import Prelude F64 Hybrid Types Concrete Crypto Ledger Consensus.
From S2P Require Import Policy Snapshots NodeState Branches Receipts SyncServe Service Votes.
From S2P Require Import Safety Durable Termination Blocks Handlers Invariants Acceptance.

Open Scope Z_scope.

(** ** Methods that return *)

(** [calm I m]: from a state that satisfies [I], [m] neither panics nor runs
    out of fuel and leaves [I]; [completes I m]: it returns a value as well. *)
Section returning.
Context (I : NodeRunner -> Prop).

Definition calm {A} (m : M A) : Prop := forall s, I s ->
  match m s with (Halted _, _) => False | (_, s') => I s' end.
Definition completes {A} (m : M A) : Prop := forall s, I s -> exists a s', m s = (Done a, s') /\ I s'.

Lemma completes_calm {A} (m : M A) : completes m -> calm m.
Proof. intros Hm s Hs. by destruct (Hm s Hs) as (a & s' & -> & ?). Qed.

Lemma calm_bind {A B} (m : M A) (f : A -> M B) :
  calm m -> (forall a, calm (f a)) -> calm (m ≫= f).
Proof.
  intros Hm Hf s Hs. specialize (Hm s Hs). unfold mbind, M_bind.
  destruct (m s) as [[a|x|r] s1]; [by apply Hf|done|done].
Qed.
Lemma completes_bind {A B} (m : M A) (f : A -> M B) :
  completes m -> (forall a, completes (f a)) -> completes (m ≫= f).
Proof.
  intros Hm Hf s Hs. destruct (Hm s Hs) as (a & s1 & E & Hs1). unfold mbind, M_bind. rewrite E.
  by apply Hf.
Qed.

Lemma completes_ret {A} (a : A) : completes (mret a).
Proof. intros s Hs. by exists a, s. Qed.
Lemma completes_gets {A} (f : NodeRunner -> A) : completes (gets f).
Proof. intros s Hs. by exists (f s), s. Qed.
Lemma completes_get : completes get.
Proof. intros s Hs. by exists s, s. Qed.
Lemma completes_modify f : (forall s, I s -> I (f s)) -> completes (modify f).
Proof. intros Hf s Hs. exists tt, (f s). auto. Qed.
Lemma calm_lift {A} (r : result A) : calm (lift r).
Proof. intros s Hs. by destruct r. Qed.
Lemma calm_fail {A} x : calm (fail (A:=A) x).
Proof. intros s Hs. exact Hs. Qed.

Lemma completes_try {A} (m : M A) : calm m -> completes (try m).
Proof.
  intros Hm s Hs. specialize (Hm s Hs). unfold try.
  destruct (m s) as [[a|x|r] s1]; [by eexists _, _|by eexists _, _|done].
Qed.
Lemma completes_for_each {A} (l : list A) (f : A -> M unit) :
  (forall a, a ∈ l -> completes (f a)) -> completes (for_each l f).
Proof.
  induction l as [|a l IH]; intros Hf; cbn; [apply completes_ret|].
  apply completes_bind; [apply Hf; by left|]. intros _. apply IH. intros. apply Hf. by right.
Qed.
Lemma calm_for_each {A} (l : list A) (f : A -> M unit) : (forall a, calm (f a)) -> calm (for_each l f).
Proof.
  intros Hf. induction l as [|a l IH]; cbn; [apply completes_calm, completes_ret|].
  apply calm_bind; [apply Hf|by intros _].
Qed.

Context `{!Quiet I}.
Lemma completes_log ev : completes (log_event ev).
Proof. apply completes_modify. intros. by apply quiet_log. Qed.
Lemma completes_bump c n : completes (bump c n).
Proof. apply completes_modify. intros. by apply quiet_metrics. Qed.
Lemma completes_send a p m : completes (send_to a p m).
Proof. apply completes_modify. intros. by apply quiet_outbox. Qed.
Lemma completes_sync f : completes (modify (with_sync f)).
Proof. apply completes_modify. intros. by apply quiet_sync. Qed.
Lemma completes_or_log {A} ev (m : M A) : calm m -> completes (or_log ev m).
Proof.
  intros Hm. apply completes_bind; [by apply completes_try|]. intros [a|x]; [apply completes_ret|apply completes_log].
Qed.
End returning.

Create HintDb completes.
#[export] Hint Resolve completes_ret completes_gets completes_get completes_log completes_bump completes_send
  completes_sync calm_lift calm_fail : completes.
#[export] Hint Extern 0 (Quiet _) => typeclasses eauto : completes.

Ltac calm_step :=
  match goal with
  | |- forall _, _ => intros
  | |- calm _ (or_log _ _) => apply completes_calm, completes_or_log
  | |- calm _ (_ ≫= _) => apply calm_bind
  | |- calm _ (for_each _ _) => apply calm_for_each
  | |- calm _ (try _) => apply completes_calm, completes_try
  | |- calm _ (if ?b then _ else _) => destruct b
  | |- calm _ (match ?x with _ => _ end) => destruct x
  | |- calm _ _ => solve [eauto with completes | apply completes_calm; eauto with completes]
  end.
Ltac calm_auto := repeat calm_step.

(** ** Votes that cannot move the chain

    Under the second consensus version the votes that come with a chain are
    counted and may certify its blocks.  On a linked chain of distinct blocks
    with a certificate and nothing beside it they leave the chain alone. *)
Section certified_chain.
Context `{Hashing} `{CryptoBackend}.
Context (config : NodeConfig) (e : ConsensusEngine) (fuel : nat).
Context (P : list RelayReceipt -> Prop) (l : LedgerState) (bs : list Block).
Context (Hlinked : chain_is_linked empty_hash 1 bs = true).
Context (Hdistinct : NoDup (empty_hash :: (block_hash <$> bs))).

Definition certified_chain (s : NodeRunner) : Prop :=
  chain s = mkChain l bs [] [] /\ P (receipts (pool s)) /\
  exists b, b ∈ bs /\ is_Some (quorum_certificates (votes s) !! block_hash b).

#[export] Instance certified_chain_quiet : Quiet certified_chain.
Proof. by split. Qed.

Lemma certified_chain_votes f s :
  (forall h, is_Some (quorum_certificates (votes s) !! h) -> is_Some (quorum_certificates (f (votes s)) !! h)) ->
  certified_chain s -> certified_chain (with_votes f s).
Proof. intros Hf (? & ? & b & Hb & Hq). split_and!; [done..|]. exists b. split; [done|by apply Hf]. Qed.

Lemma certified_known s : certified_chain s -> known_blocks s = bs.
Proof. intros (Hc & _). unfold known_blocks. by rewrite Hc, app_nil_r. Qed.

Lemma certified_head_active s : certified_chain s -> is_Some (highest_locked_qc_hash s).
Proof.
  intros (Hc & _ & b & Hb & Hq). unfold highest_locked_qc_hash. rewrite Hc. cbn.
  destruct (find_first _ _) as [x|] eqn:Ef; [by eexists|].
  rewrite find_first_none in Ef. assert (Hin : b ∈ reverse bs) by (by apply elem_of_reverse_2).
  specialize (Ef b Hin). unfold has_qc in Ef. by rewrite bool_decide_true in Ef.
Qed.

Lemma chain_in_by_hash s : certified_chain s ->
  Forall (fun b => by_hash s !! block_hash b = Some b /\ block_hash b <> empty_hash) bs.
Proof.
  intros Hs. destruct (proj1 (NoDup_cons _ _) Hdistinct) as [Hne Hnd]. apply Forall_forall. intros b Hb. split.
  - apply by_hash_lookup; by rewrite (certified_known s Hs).
  - intros E. apply Hne. rewrite <- E. by apply list_elem_of_fmap_2.
Qed.

(** A branch the node can rebuild to a block that is not strictly inside its
    chain is its chain, or empty. *)
Lemma rebuilt_is_chain s tip cs : certified_chain s -> build_chain_to_tip s tip = Some cs ->
  block_hash <$> last bs = Some tip \/ tip ∉ block_hash <$> bs -> cs = bs \/ cs = [].
Proof.
  intros Hs Hb [Htip|Hno].
  - left. assert (tip = tip_of bs) as -> by (unfold tip_of; destruct (last bs); simplify_eq/=; done).
    destruct (proj1 (NoDup_cons _ _) Hdistinct) as [_ Hnd].
    rewrite (build_chain_to_tip_complete s bs Hlinked (chain_in_by_hash s Hs) Hnd) in Hb. congruence.
  - right. apply build_chain_to_tip_ok in Hb as (_ & Hsub & Ht).
    destruct cs as [|b cs _] using rev_ind; [done|]. exfalso. apply Hno. rewrite <- Ht.
    unfold tip_of. rewrite last_snoc. cbn. apply list_elem_of_fmap_2.
    rewrite <- (certified_known s Hs). apply Hsub, elem_of_app. right. by left.
Qed.

Lemma certified_branch_calm tip : calm certified_chain (maybe_adopt_certified_branch config e tip).
Proof.
  intros s Hs. unfold maybe_adopt_certified_branch. rewrite run_get.
  destruct (build_chain_to_tip s tip) as [cs|] eqn:Eb; [|done].
  destruct (bool_decide_reflect (length cs = 0%nat)) as [|Hlen]; [done|].
  destruct (negb _ && _) eqn:Eg; [done|].
  assert (Hcase : block_hash <$> last bs = Some tip \/ tip ∉ block_hash <$> bs).
  { destruct Hs as (Hc & _). rewrite Hc in Eg. cbn in Eg. apply andb_false_iff in Eg as [Hl|He].
    - left. apply negb_false_iff in Hl. by apply bool_decide_eq_true_1 in Hl.
    - right. intros (b & -> & Hb)%list_elem_of_fmap. apply not_true_iff_false in He. apply He.
      apply existsb_exists. exists b. split; [by apply list_elem_of_In|lia]. }
  destruct (rebuilt_is_chain s tip cs Hs Eb Hcase) as [->| ->]; [|done].
  assert (Hchain : blocks (chain s) = bs) by (by destruct Hs as (-> & _)).
  rewrite Hchain, compare_branch_quality_key, lex_compare_refl. exact Hs.
Qed.
(** Two blocks of the chain with the same parent are the same block. *)
Lemma linked_parent i b : bs !! i = Some b ->
  parent_hash (header b) = from_option block_hash empty_hash (match i with O => None | S j => bs !! j end).
Proof.
  clear Hdistinct. revert Hlinked. generalize empty_hash 1. revert i.
  induction bs as [|c cs IH]; intros i p n Hl Hb; [done|]. cbn in Hl. bool_to_prop.
  destruct i as [|i]; simplify_eq/=; [done|]. erewrite (IH i (block_hash c)) by done.
  destruct i as [|i]; cbn; [done|].
  destruct (cs !! i) eqn:Ei; [done|].
  apply lookup_lt_Some in Hb. apply lookup_ge_None in Ei. lia.
Qed.

Lemma chain_hash_index i j b c : bs !! i = Some b -> bs !! j = Some c -> block_hash b = block_hash c -> i = j.
Proof.
  intros Hb Hc E. destruct (proj1 (NoDup_cons _ _) Hdistinct) as [_ Hnd].
  apply (NoDup_lookup (block_hash <$> bs) i j (block_hash b) Hnd); rewrite list_lookup_fmap; [by rewrite Hb|].
  by rewrite Hc, E.
Qed.

(** The block after [head] is its only child. *)
Lemma only_child i h b : bs !! i = Some h -> b ∈ bs -> parent_hash (header b) = block_hash h -> bs !! S i = Some b.
Proof.
  intros Hh (j & Hb)%list_elem_of_lookup Hp. pose proof (linked_parent j b Hb) as Hpar. rewrite Hp in Hpar.
  destruct (proj1 (NoDup_cons _ _) Hdistinct) as [Hne _].
  assert (Hno : block_hash h <> empty_hash).
  { intros E. apply Hne. rewrite <- E. apply list_elem_of_fmap_2. by eapply list_elem_of_lookup_2. }
  destruct j as [|j]; [by destruct Hno|].
  destruct (lookup_lt_is_Some_2 bs j) as [d Hd]; [apply lookup_lt_Some in Hb; lia|].
  rewrite Hd in Hpar. cbn in Hpar. by rewrite (chain_hash_index i j h d Hh Hd Hpar).
Qed.

Lemma dedup_same (x : Block) cs : Forall (fun c => c = x) cs ->
  (length (foldl (fun unique b => if existsb (fun y => block_hash y =? block_hash b)%Z unique then unique
    else unique ++ [b]) [] cs) < 2)%nat.
Proof.
  intros Hall. enough (Hgen : forall acc, (acc = [] \/ acc = [x]) ->
    let r := foldl (fun unique b => if existsb (fun y => block_hash y =? block_hash b) unique then unique
      else unique ++ [b]) acc cs in r = [] \/ r = [x]).
  { destruct (Hgen [] (or_introl eq_refl)) as [-> | ->]; cbn; lia. }
  induction Hall as [|c cs -> _ IH]; intros acc Hacc; [exact Hacc|]. cbn [foldl]. apply IH.
  destruct Hacc as [-> | ->]; cbn; [by right|]. rewrite Z.eqb_refl. by right.
Qed.
Lemma head_in_chain s head : certified_chain s -> current_certified_head s = Some head ->
  exists i b, bs !! i = Some b /\ block_hash b = head.1.
Proof.
  intros (Hc & _) Hh. unfold current_certified_head in Hh.
  apply bind_Some in Hh as (h & Hl & Hh). apply bind_Some in Hh as (n & _ & [= <-]).
  unfold highest_locked_qc_hash in Hl. apply fmap_Some in Hl as (b & Hf & ->).
  apply find_first_some in Hf as [Hin _]. rewrite elem_of_reverse, Hc in Hin. apply list_elem_of_lookup in Hin as [i Hi].
  by exists i, b.
Qed.

Lemma children_same s head i b : certified_chain s -> bs !! i = Some b -> block_hash b = head.1 ->
  forall x, x ∈ uncertified_children_of s head -> bs !! S i = Some x.
Proof.
  intros Hs Hi Hb x. unfold uncertified_children_of. rewrite list_elem_of_filter, (certified_known s Hs).
  unfold extends_head. intros [Hx Hin]. bool_to_prop. apply (only_child i b x Hi Hin). congruence.
Qed.

Lemma better_child_calm import : calm certified_chain (maybe_adopt_better_uncertified_child_for_certified_head config e import).
Proof.
  intros s Hs. unfold maybe_adopt_better_uncertified_child_for_certified_head. rewrite run_get.
  case_bool_decide; [exact Hs|].
  destruct (best_known_uncertified_child_for_certified_head s) as [best|] eqn:Eb; [|exact Hs].
  unfold best_known_uncertified_child_for_certified_head in Eb.
  apply bind_Some in Eb as (head & Hh & Hbest%max_by_elem).
  destruct (head_in_chain s head Hs Hh) as (i & b & Hi & Hb).
  pose proof (children_same s head i b Hs Hi Hb) as Hsame. pose proof (Hsame best Hbest) as Hbi.
  match goal with |- context [if ?c then _ else _] => enough (c = true) as -> by exact Hs end.
  destruct (current_uncertified_child_for_certified_head s) as [c|] eqn:Ec.
  - unfold current_uncertified_child_for_certified_head in Ec. rewrite Hh in Ec.
    apply bind_Some in Ec as (? & [= <-] & Ec). apply bind_Some in Ec as (tip & Htip & Ec).
    case_match; [done|]. apply bind_Some in Ec as (cs & Hcs & Ec). apply bind_Some in Ec as (j & Hj & Hc).
    assert (cs = bs) as ->.
    { assert (Hchain : blocks (chain s) = bs) by (by destruct Hs as (-> & _)). rewrite Hchain in Htip.
      destruct (rebuilt_is_chain s _ _ Hs Hcs) as [->| ->]; [left; by rewrite Htip|done|done]. }
    apply position_some in Hj as (b' & Hj & Hb'). rewrite (chain_hash_index j i b' b Hj Hi) in Hc by lia.
    assert (c = best) as -> by congruence. by rewrite Z.eqb_refl.
  - unfold known_uncertified_children_for_certified_head. rewrite Hh. apply Nat.ltb_lt, (dedup_same best).
    apply Forall_forall. intros x Hx. pose proof (Hsame x Hx). congruence.
Qed.
Lemma keeps_certificates f : (forall v, quorum_certificates (f v) = quorum_certificates v) ->
  completes certified_chain (modify (with_votes f)).
Proof. intros Hf. apply completes_modify. intros s. apply certified_chain_votes. intros h. by rewrite Hf. Qed.

Lemma resolve_calm v : calm certified_chain (resolve_conflicting_proposal_vote config v).
Proof. unfold resolve_conflicting_proposal_vote. calm_auto. by apply completes_calm, keeps_certificates. Qed.

Lemma store_vote_calm v : calm certified_chain (store_proposal_vote config v).
Proof.
  unfold store_proposal_vote. apply calm_bind; [apply resolve_calm|]. calm_auto.
  by apply completes_calm, keeps_certificates.
Qed.
Lemma buffer_vote_calm v : calm certified_chain (store_buffered_proposal_vote config v).
Proof.
  unfold store_buffered_proposal_vote. apply calm_bind; [apply resolve_calm|]. calm_auto.
  by apply completes_calm, keeps_certificates.
Qed.

Lemma build_calm h : calm certified_chain (maybe_build_qc e h).
Proof.
  unfold maybe_build_qc, insert_qc. calm_auto; apply completes_calm, completes_modify; try by intros s Hs.
  intros s. apply certified_chain_votes. intros k [q Hq]. cbn. apply lookup_insert_is_Some'. right. by exists q.
Qed.

Lemma finalize_calm import h : calm certified_chain (maybe_finalize_quorum_certificate config e import h).
Proof.
  unfold maybe_finalize_quorum_certificate. apply calm_bind; [apply completes_calm, completes_gets|]. intros already.
  apply calm_bind; [apply build_calm|]. intros [qc|]; [|apply completes_calm, completes_ret].
  apply calm_bind; [apply certified_branch_calm|]. intros _. apply calm_bind; [apply better_child_calm|]. intros _.
  unfold announce_certified_progress, broadcast, broadcast_sync_status, broadcast_control, push_sync_to_stale_peers,
    push_best_sync_to, send_best_certified_sync_to, send_anchored_suffix_sync_to, send_best_sync_to,
    send_full_snapshot_to, record_sync_push_served, request_best_available_sync_from_ahead_peers,
    request_best_available_sync_from_ahead_peers_excluding, request_sync_from, request_certified_sync_from,
    request_legacy_sync_from, send_control_to.
  calm_auto.
Qed.

(** A certificate on the chain keeps votes from moving it. *)
Lemma supported_branch_calm import tip : calm certified_chain (maybe_adopt_vote_supported_branch config e import tip).
Proof.
  intros s Hs. unfold maybe_adopt_vote_supported_branch. rewrite run_get.
  unfold certified_head_only_active. rewrite (bool_decide_true (is_Some _)) by by apply certified_head_active.
  rewrite andb_true_r. destruct (consensus_v2 _); exact Hs.
Qed.

Lemma certified_import_calm v : calm certified_chain (import_proposal_vote config e (S fuel) v).
Proof.
  cbn [import_proposal_vote]. unfold import_proposal_vote_step.
  case_match; [apply calm_fail|]. do 2 (apply calm_bind; [apply calm_lift|intros _]).
  apply calm_bind; [apply completes_calm, completes_get|]. intros s0.
  destruct (known_block s0 _) as [b|]; [|apply buffer_vote_calm].
  case_match; [calm_auto|]. apply calm_bind; [apply calm_lift|]. intros _.
  apply calm_bind; [apply store_vote_calm|]. intros inserted.
  apply calm_bind; [|intros; apply completes_calm, completes_ret]. destruct inserted; [|apply completes_calm, completes_ret].
  apply calm_bind; [apply finalize_calm|]. intros [qc|]; [apply completes_calm, completes_ret|].
  apply calm_bind; [apply supported_branch_calm|]. intros. apply completes_calm, completes_ret.
Qed.

Lemma certified_votes_return vs :
  completes certified_chain (for_each vs (fun v => _ ← try (import_proposal_vote config e (S fuel) v); mret tt)).
Proof.
  apply completes_for_each. intros v _. apply completes_bind; [apply completes_try, certified_import_calm|].
  intros. apply completes_ret.
Qed.

Lemma certified_buffered_return b :
  completes certified_chain (import_buffered_proposal_votes_for_block (import_proposal_vote config e (S fuel)) b).
Proof.
  unfold import_buffered_proposal_votes_for_block. apply completes_bind; [apply completes_gets|].
  intros [m|]; [|apply completes_ret]. apply completes_bind; [by apply keeps_certificates|]. intros _.
  apply completes_for_each. intros v _. apply completes_bind; [apply completes_try, certified_import_calm|].
  intros [?|?]; [apply completes_ret|apply completes_log, _].
Qed.
End certified_chain.
