(* ===== verification/Catchup.v ===== *)
(** * Catching up with a peer

    What a node that receives the answer to a synchronisation request has
    afterwards: the chain of the node that served it. *)
From S2P Require Import Prelude F64 Hybrid Types Concrete Crypto Ledger Consensus.
From S2P Require Import Policy Snapshots NodeState Branches Receipts SyncServe Service Votes.
From S2P Require Import Safety Durable Termination Blocks Handlers Invariants Acceptance Scenario Queries Steady.

Open Scope Z_scope.

(** ** Catching up *)

Section catching_up.
Context `{Hashing} `{CryptoBackend}.
Context (e : ConsensusEngine).

(** What keeps the votes [vs] that come with the chain [bs] from moving it,
    for a node in state [s]: votes are refused (first consensus version), or
    none come and none wait, or the blocks are distinct and the node has a
    certificate for one of them. *)
Definition votes_harmless (config : NodeConfig) (bs : list Block) (vs : list ProposalVote) (s : NodeRunner)
    : Prop :=
  consensus_v2 (flags config) = false \/
  (vs = [] /\ buffered_proposal_votes (votes s) = ∅) \/
  (NoDup (empty_hash :: (block_hash <$> bs)) /\
   exists b, b ∈ bs /\ is_Some (quorum_certificates (votes s) !! block_hash b)).

Section receiver.
Context (config : NodeConfig) (fuel rounds : nat).
Context (P : list RelayReceipt -> Prop) (l : LedgerState) (bs : list Block).

(** A node on the chain [bs] with the ledger [l] and nothing beside it, that
    has receipts with [P]. *)
Definition caught_up (s : NodeRunner) : Prop := chain s = mkChain l bs [] [] /\ P (receipts (pool s)).
#[local] Abbreviation I := caught_up.

#[export] Instance caught_up_quiet : Quiet I.
Proof. by split. Qed.

(** The votes of a chain, when their import keeps some [J]. *)
Lemma import_votes_keeping (J : NodeRunner -> Prop) vs s :
  (forall s, J s -> I s) ->
  completes J (for_each vs (fun v => _ ← try (import_proposal_vote config e (S fuel) v); mret tt)) ->
  (forall b, completes J (import_buffered_proposal_votes_for_block (import_proposal_vote config e (S fuel)) b)) ->
  J s -> exists s', import_chain_votes config e (S fuel) vs s = (Done tt, s') /\ I s'.
Proof.
  intros HJ Hvs Hbuf Hs. unfold import_chain_votes. rewrite run_gets, run_bind.
  destruct (Hvs s Hs) as ([] & s1 & -> & Hs1). rewrite run_bind.
  destruct (completes_for_each J (blocks (chain s))
    (fun b => import_buffered_proposal_votes_for_block (import_proposal_vote config e (S fuel)) b)
    (fun b _ => Hbuf b) s1 Hs1) as ([] & s2 & -> & Hs2).
  rewrite !run_modify. eexists. split; [reflexivity|]. by apply HJ in Hs2.
Qed.

Lemma refused_calm v : consensus_v2 (flags config) = false -> calm I (import_proposal_vote config e (S fuel) v).
Proof.
  intros Hv s Hs. cbn [import_proposal_vote]. unfold import_proposal_vote_step. rewrite Hv. exact Hs.
Qed.

Lemma import_chain_votes_completes vs s :
  chain_is_linked empty_hash 1 bs = true -> votes_harmless config bs vs s -> I s ->
  exists s', import_chain_votes config e (S fuel) vs s = (Done tt, s') /\ I s'.
Proof.
  intros Hl [Hv|[[-> Hb]|[Hnd Hq]]] Hs.
  - apply (import_votes_keeping I); [done| | |done].
    + apply completes_for_each. intros v _. apply completes_bind; [by apply completes_try, refused_calm|].
      intros. apply completes_ret.
    + intros b. unfold import_buffered_proposal_votes_for_block. apply completes_bind; [apply completes_gets|].
      intros [m|]; [|apply completes_ret]. apply completes_bind; [by apply completes_modify|]. intros _.
      apply completes_for_each. intros v _. apply completes_bind; [by apply completes_try, refused_calm|].
      intros [?|?]; [apply completes_ret|apply completes_log, _].
  - apply (import_votes_keeping (fun s => I s /\ buffered_proposal_votes (votes s) = ∅)); [by intros ? []| | |done].
    + apply completes_ret.
    + intros b s0 [Hs0 Hb0]. exists tt, s0. split; [|done]. unfold import_buffered_proposal_votes_for_block.
      by rewrite run_gets, Hb0, lookup_empty.
  - apply (import_votes_keeping (certified_chain P l bs)).
    + by intros ? (? & ? & _).
    + by apply certified_votes_return.
    + intros b. by apply certified_buffered_return.
    + destruct Hs. by split_and!.
Qed.

Lemma push_progress_calm : calm I (maybe_push_tip_progress_to_stale_peers config e).
Proof.
  unfold maybe_push_tip_progress_to_stale_peers, broadcast_sync_status, broadcast_control, push_sync_to_stale_peers,
    push_best_sync_to, send_best_certified_sync_to, send_anchored_suffix_sync_to, send_best_sync_to,
    send_full_snapshot_to, record_sync_push_served, send_control_to.
  calm_auto.
Qed.

Lemma request_calm id : calm I (request_sync_from config id).
Proof.
  unfold request_sync_from, request_certified_sync_from, request_legacy_sync_from, send_control_to. calm_auto.
Qed.

Lemma request_completes id p : find_peer config id = Ok p -> completes I (request_sync_from config id).
Proof.
  intros Hp. unfold request_sync_from, request_certified_sync_from, request_legacy_sync_from, send_control_to.
  assert (Hl : completes I (s ← get; let '(h, tip) := sync_request_hint_for_peer config s id in
    peer ← lift (find_peer config id); send_to false peer (MsgSyncRequest (node_id config) h tip))).
  { apply completes_bind; [apply completes_get|]. intros s. destruct (sync_request_hint_for_peer config s id).
    rewrite Hp. apply completes_send, _. }
  destruct (consensus_v2 _); [|exact Hl]. apply completes_bind; [apply completes_gets|]. intros []; [|exact Hl].
  rewrite Hp. apply completes_bind; [apply completes_ret|]. intros q.
  apply completes_bind; [apply completes_get|]. intros s. apply completes_send, _.
Qed.

(** There is no orphan left to promote. *)
Lemma promote_completes : completes I (try_promote_orphans config e (S fuel) rounds).
Proof.
  intros s Hs. exists tt, s. split; [|done]. destruct Hs as (Hc & _).
  destruct rounds; cbn [try_promote_orphans]; rewrite run_get; by rewrite Hc.
Qed.

Lemma after_sync_completes id p c ev :
  find_peer config id = Ok p -> completes I (after_sync config e (S fuel) rounds id c ev).
Proof.
  intros Hp. unfold after_sync. apply completes_bind; [apply promote_completes|]. intros _.
  apply completes_bind; [apply completes_sync, _|]. intros _. apply completes_bind; [apply completes_bump, _|]. intros _.
  apply completes_bind; [apply completes_log, _|]. intros _. apply completes_bind; [apply completes_gets|]. intros ahead.
  apply completes_bind; [destruct ahead; [by eapply request_completes|apply completes_ret]|]. intros _.
  apply completes_or_log; [apply _|apply push_progress_calm].
Qed.
End receiver.

Lemma in_place_linked p n bs : chain_in_place e p n bs -> chain_is_linked p (wadd n 1) bs = true.
Proof.
  revert p n. induction bs as [|b bs IH]; intros p n; [done|]. cbn.
  intros [(_ & Hp & Hn & _) Hc]. rewrite Hp, Hn, !Z.eqb_refl. cbn. apply IH in Hc. by rewrite Hn in Hc.
Qed.

Section applying.
Context (config : NodeConfig) (fuel rounds : nat).

Lemma snapshot_applies c l rs s :
  validate_chain_snapshot (genesis e) e c = Ok (l, rs) -> votes_harmless config (cs_blocks c) (cs_votes c) s ->
  exists s', apply_chain_snapshot config e (S fuel) c s = (Done tt, s') /\
    caught_up (fun x => x = rs) l (cs_blocks c) s'.
Proof.
  intros Hv Hh. unfold apply_chain_snapshot. rewrite run_lift, Hv.
  unfold rebuild_seen_sets, write_chain_files, write_snapshot. run_updates.
  apply validate_chain_snapshot_ok in Hv as (Hc%in_place_linked & _).
  by apply import_chain_votes_completes.
Qed.

Lemma response_catches_up id p c l rs s :
  validate_chain_snapshot (genesis e) e c = Ok (l, rs) -> votes_harmless config (cs_blocks c) (cs_votes c) s ->
  should_adopt_chain_snapshot config s (ledger (chain s)) c = true -> find_peer config id = Ok p ->
  exists s', on_sync_response config e (S fuel) rounds id c s = (Done tt, s') /\
    caught_up (fun x => x = rs) l (cs_blocks c) s'.
Proof.
  intros Hv Hh Ha Hp. unfold on_sync_response, record_peer_sync_status_with_slot. rewrite run_modify, run_get.
  rewrite (Ha : should_adopt_chain_snapshot config (with_sync _ s) (ledger (chain (with_sync _ s))) c = true).
  destruct (snapshot_applies c l rs (with_sync (set_peer_sync_status (record_status id (height (cs_snapshot c))
    (tip_hash (cs_snapshot c)) (last_slot (cs_snapshot c)) None 0 [])) s) Hv Hh) as (s1 & E & Hs1).
  rewrite run_bind. unfold try. rewrite E.
  destruct (after_sync_completes config fuel rounds _ _ _ id p FullSyncApplied "sync-applied" Hp s1 Hs1)
    as ([] & s' & E' & Hs'). by exists s'.
Qed.
End applying.

(** A node whose chain and receipts pass the checks of a snapshot. *)
Definition servable (s : NodeRunner) : Prop :=
  validate_snapshot_receipts e (receipts (pool s)) = Ok (receipts (pool s)) /\
  validate_snapshot_blocks e (from_genesis (genesis e)) empty_hash (blocks (chain s)) = Ok (ledger (chain s)).

(** Its whole chain, as it sends it. *)
Definition exported (s : NodeRunner) : ChainSnapshot :=
  mkChainSnapshot (ledger (chain s)) (blocks (chain s)) (receipts (pool s))
    (votes_for (block_hash <$> blocks (chain s)) (proposal_votes (votes s))).

(** A node that does not hold back a suffix during its own start. *)
Definition serves_all (s : NodeRunner) : Prop :=
  startup_sync_barrier (slots s) = false /\ Z.of_nat (length (blocks (chain s))) < U64_MOD.

Lemma servable_height s : servable s -> Z.of_nat (length (blocks (chain s))) < U64_MOD ->
  height (ledger (chain s)) = Z.of_nat (length (blocks (chain s))) /\
  tip_hash (ledger (chain s)) = tip_of (blocks (chain s)).
Proof.
  intros [_ Hv] Hlen. apply validate_snapshot_blocks_ok in Hv as [Hc Hr].
  destruct (blocks (chain s)) as [|b bs _] eqn:Eb using rev_ind.
  { injection Hr as <-. done. }
  unfold tip_of. rewrite last_snoc. cbn [from_option].
  apply (replay_blocks_tip (genesis e)) in Hr as (Ht & Hh & _). split; [|done].
  rewrite Hh, (chain_in_place_number e _ _ _ (length bs) b Hc); [|by rewrite list_lookup_middle].
  rewrite length_app in *. cbn [length] in *. rewrite wadd_small; cbn; lia.
Qed.

Lemma servable_prefix s : servable s -> serves_all s ->
  sync_export_prefix_len s = length (blocks (chain s)).
Proof.
  intros Hs [Hb Hlen]. destruct (servable_height s Hs Hlen) as [Hh _].
  unfold sync_export_prefix_len, local_sync_view. rewrite Hb. cbn. rewrite Hh. lia.
Qed.

Lemma servable_exports s : servable s -> serves_all s -> build_chain_snapshot e s = Ok (exported s).
Proof.
  intros Hs Ha. unfold build_chain_snapshot, sync_export_snapshot.
  rewrite (servable_prefix s Hs Ha), Nat.eqb_refl. cbn. by rewrite firstn_all.
Qed.

Lemma exported_valid s : servable s ->
  validate_chain_snapshot (genesis e) e (exported s) = Ok (ledger (chain s), receipts (pool s)).
Proof.
  intros [Hr Hb]. unfold validate_chain_snapshot, exported. cbn [cs_receipts cs_blocks cs_snapshot].
  rewrite Hr. cbn. rewrite Hb. cbn. by rewrite bool_decide_true.
Qed.

(** The request of a node that wants everything, and what becomes of it. *)
Lemma full_request_served config fuel rounds from id p s :
  servable s -> serves_all s -> find_peer config id = Ok p ->
  mkOutbound id (MsgSyncResponse (node_id config) (exported s)) false
    ∈ outbox (dispatch config e fuel rounds from (MsgSyncRequest id U64_MAX empty_hash) s).2.
Proof.
  intros Hs Ha Hp. pose proof (find_peer_id _ _ _ Hp) as Hid.
  cbn [dispatch]. unfold on_sync_request, record_peer_sync_status, record_peer_sync_status_with_slot.
  rewrite (eq_refl : is_force_full_snapshot_hint U64_MAX empty_hash = true).
  rewrite run_assoc, run_get, run_modify, run_gets. cbn [negb andb]. rewrite Hp.
  cbn [lift]. unfold send_full_snapshot_to. rewrite run_bind. cbn [mret M_ret]. rewrite run_get.
  set (s1 := with_sync _ s).
  rewrite (servable_exports s1 Hs Ha : build_chain_snapshot e s1 = Ok (exported s)), run_lift.
  unfold bump, send_control_to, send_to. rewrite run_modify. cbn. rewrite Hid.
  apply elem_of_app. right. by left.
Qed.

(** C6: A full synchronisation brings a node to the chain of the one it asks.
    Let [a] be a node whose chain and receipts pass the checks of a snapshot.
    It answers a request for everything with its whole chain, whoever sent
    the request, and a node [b] that prefers this chain to its own takes it
    over when the answer arrives: the handler completes, and [b] has the blocks,
    the ledger and the receipts of [a] and no orphans, and could serve the
    same chain in turn.  The votes that come along must not be able to move
    the chain ([votes_harmless]): they are refused, or there are none, or [b]
    has a certificate for a block of it. *)
Theorem full_sync_catches_up ca cb a b from pb pa fa ra fb rb :
  servable a -> serves_all a -> find_peer ca (node_id cb) = Ok pb -> find_peer cb (node_id ca) = Ok pa ->
  should_adopt_chain_snapshot cb b (ledger (chain b)) (exported a) = true ->
  votes_harmless cb (blocks (chain a)) (cs_votes (exported a)) b ->
  let answer := MsgSyncResponse (node_id ca) (exported a) in
  mkOutbound (node_id cb) answer false
    ∈ outbox (dispatch ca e fa ra from (MsgSyncRequest (node_id cb) U64_MAX empty_hash) a).2 /\
  exists b', dispatch cb e (S fb) rb (node_id ca) answer b = (Done tt, b') /\
    blocks (chain b') = blocks (chain a) /\ ledger (chain b') = ledger (chain a) /\
    receipts (pool b') = receipts (pool a) /\ orphan_blocks (chain b') = [] /\ servable b'.
Proof.
  intros Hs Ha Hpb Hpa Hpref Hh answer. split; [by eapply full_request_served|].
  destruct (response_catches_up cb fb rb (node_id ca) pa (exported a) _ _ b (exported_valid a Hs) Hh Hpref Hpa)
    as (b' & E & Hc & Hr).
  exists b'. cbn [dispatch answer]. split; [exact E|]. unfold servable. by rewrite Hc, Hr.
Qed.

(** ** Only what is missing *)

Lemma validate_snapshot_blocks_app st parent bs cs l :
  validate_snapshot_blocks e st parent (bs ++ cs) = Ok l ->
  exists mid, validate_snapshot_blocks e st parent bs = Ok mid /\
    validate_snapshot_blocks e mid (from_option block_hash parent (last bs)) cs = Ok l.
Proof.
  revert st parent. induction bs as [|b bs IH]; intros st parent; cbn [app validate_snapshot_blocks].
  { intros Hv. by exists st. }
  intros ([] & Hb & (next & Hn & Hv)%result_bind_ok)%result_bind_ok.
  apply IH in Hv as (mid & Hm & Hv). exists mid. rewrite Hb. cbn. rewrite Hn. cbn. split; [done|].
  rewrite last_cons. by destruct (last bs).
Qed.

Lemma check_snapshot_receipts_filter (q : RelayReceipt -> Prop) `{!forall r, Decision (q r)} exact events exact' events' rs out :
  exact' ⊆ exact -> events' ⊆ events ->
  check_snapshot_receipts e exact events rs = Ok out ->
  check_snapshot_receipts e exact' events' (filter q rs) = Ok (filter q rs).
Proof.
  revert exact events exact' events' out. induction rs as [|r rs IH]; intros exact events exact' events' out Hx Hev; [done|].
  cbn [check_snapshot_receipts].
  intros ([] & Hx1 & ([] & Hv1 & (v & Hv & ([] & Hok & (u & Has & (rest & Hrest & Hout)
    %result_bind_ok)%result_bind_ok)%result_bind_ok)%result_bind_ok)%result_bind_ok)%result_bind_ok.
  rewrite filter_cons. destruct (decide (q r)).
  - inv_ok. subst. bool_to_prop. cbn [check_snapshot_receipts].
    rewrite (bool_decide_false (canonical_hash (CReceipt r) ∈ exact')) by set_solver. cbn.
    rewrite (bool_decide_false (receipt_event_hash r ∈ events')) by set_solver. cbn.
    rewrite Hv. cbn. rewrite Has. cbn.
    by rewrite (IH ({[canonical_hash (CReceipt r)]} ∪ exact) ({[receipt_event_hash r]} ∪ events) _ _ rest)
      by (done || set_solver).
  - eapply (IH _ _ exact' events'); [| |exact Hrest]; set_solver.
Qed.

(** What [a] has beyond the blocks of [b]. *)
Definition behind_by (a b : NodeRunner) (new : list Block) : Prop :=
  blocks (chain a) = blocks (chain b) ++ new /\ ledger_ok e (chain b) /\ new <> [] /\
  (length new <= MAX_PREFERRED_INCREMENTAL_SYNC_BLOCKS)%nat.

Lemma behind_heights a b new : servable a -> serves_all a -> behind_by a b new ->
  height (ledger (chain b)) = Z.of_nat (length (blocks (chain b))) /\
  tip_hash (ledger (chain b)) = tip_of (blocks (chain b)) /\
  validate_snapshot_blocks e (ledger (chain b)) (tip_hash (ledger (chain b))) new = Ok (ledger (chain a)).
Proof.
  intros [_ Hv] [_ Hlen] (Hb & Hl & _ & _). rewrite Hb in Hv, Hlen. rewrite length_app in Hlen.
  apply validate_snapshot_blocks_app in Hv as (mid & Hm & Hv).
  assert (mid = ledger (chain b)) as ->.
  { apply validate_snapshot_blocks_ok in Hm as [_ Hr]. unfold ledger_ok, replay_blocks in Hl. congruence. }
  destruct (servable_height (with_pool (set_receipts []) b)) as [Hh Ht].
  { by split. } { cbn. lia. }
  split_and!; [exact Hh|exact Ht|]. cbn in Ht. by rewrite Ht.
Qed.

(** The segment [a] builds for [b]. *)
Lemma behind_segment ca a b new : servable a -> serves_all a -> behind_by a b new ->
  exists rs vs, build_chain_segment ca e a (height (ledger (chain b))) (tip_hash (ledger (chain b))) =
    Ok (Some (mkSegment (height (ledger (chain b))) (tip_hash (ledger (chain b))) (ledger (chain a)) new rs vs)) /\
    validate_snapshot_receipts e rs = Ok rs /\
    vs = votes_for (block_hash <$> new) (proposal_votes (votes a)).
Proof.
  intros Hs Ha Hbeh. destruct (behind_heights a b new Hs Ha Hbeh) as (Hh & Ht & _).
  destruct Hbeh as (Hb & _ & Hne & Hmax). unfold build_chain_segment.
  unfold sync_export_snapshot. rewrite (servable_prefix a Hs Ha), Nat.eqb_refl, firstn_all. cbn [mbind result_bind].
  unfold build_chain_segment_from_chain.
  assert (Hlen : Z.of_nat (length (blocks (chain a))) <=? height (ledger (chain b)) = false).
  { apply Z.leb_gt. rewrite Hb, Hh, length_app. destruct new; [done|]. cbn [length]. lia. }
  rewrite Hlen.
  assert (Hex : expected_tip_at (blocks (chain a)) (height (ledger (chain b))) = Some (tip_hash (ledger (chain b)))).
  { rewrite Hh, Ht, <- expected_tip_at_full. symmetry. apply expected_tip_at_prefix; [|lia].
    rewrite Hb, fmap_app. by exists (block_hash <$> new). }
  rewrite Hex. cbn [mbind option_bind]. rewrite Z.eqb_refl. cbn [negb].
  assert (Hdrop : drop (Z.to_nat (height (ledger (chain b)))) (blocks (chain a)) = new).
  { by rewrite Hh, Nat2Z.id, Hb, drop_app_length. }
  assert (Hfit : forall k, (MAX_PREFERRED_INCREMENTAL_SYNC_BLOCKS <= k)%nat ->
    ((length new =? 0) || (MAX_INCREMENTAL_SYNC_BLOCKS <? length new) || (k <? length new))%nat = false).
  { intros k Hk. destruct new; [done|]. unfold MAX_PREFERRED_INCREMENTAL_SYNC_BLOCKS, MAX_INCREMENTAL_SYNC_BLOCKS in *.
    rewrite !(proj2 (Nat.ltb_ge _ _)) by lia. done. }
  rewrite Hdrop, Hfit by (case_match; unfold MAX_PREFERRED_INCREMENTAL_SYNC_BLOCKS, MAX_INCREMENTAL_SYNC_BLOCKS; lia).
  eexists _, _. split; [reflexivity|]. split; [|reflexivity].
  eapply check_snapshot_receipts_filter; [| |exact (proj1 Hs)]; done.
Qed.

(** What [apply_chain_segment] makes of it. *)
Definition with_receipts_only (l : LedgerState) (bs : list Block) (vs : VoteState) (s : NodeRunner) : Prop :=
  caught_up (fun _ => True) l bs s /\ votes s = vs.
#[export] Instance with_receipts_only_quiet l bs vs : Quiet (with_receipts_only l bs vs).
Proof. by split. Qed.

Lemma store_receipt_completes config l bs vs r :
  completes (with_receipts_only l bs vs) (store_receipt config e r).
Proof.
  unfold store_receipt. apply completes_bind.
  { apply completes_try. unfold validate_receipt, reject_receipt. calm_auto; by apply completes_calm, completes_modify. }
  intros [[]|x]; [|apply completes_bind; [apply completes_log, _|intros; apply completes_ret]].
  intros s Hs. destruct (persist_receipt_spec config r s) as (b & s' & E & (Hc & Hv & _) & _).
  exists b, s'. split; [done|]. unfold with_receipts_only, caught_up. rewrite Hc, Hv. exact Hs.
Qed.

Lemma segment_applies config fuel a b new rs vs : servable a -> serves_all a -> behind_by a b new ->
  validate_snapshot_receipts e rs = Ok rs -> votes_harmless config (blocks (chain a)) vs b ->
  exists b', apply_chain_segment config e (S fuel)
       (mkSegment (height (ledger (chain b))) (tip_hash (ledger (chain b))) (ledger (chain a)) new rs vs) b
     = (Done tt, b') /\ caught_up (fun _ => True) (ledger (chain a)) (blocks (chain a)) b'.
Proof.
  intros Hs Ha Hbeh Hrs Hh.
  assert (Hlinked : chain_is_linked empty_hash 1 (blocks (chain a)) = true).
  { destruct Hs as [_ Hv]. apply validate_snapshot_blocks_ok in Hv as [Hc _]. by apply in_place_linked in Hc. }
  destruct (behind_heights a b new Hs Ha Hbeh) as (Hheight & Ht & Hv). destruct Hbeh as (Hb & Hl & _).
  unfold apply_chain_segment. rewrite run_get. set (seg := mkSegment _ _ _ _ _ _).
  assert (Hbase : sync_repair_base_for_segment config e b seg = Some (Ok (blocks (chain b), ledger (chain b)))).
  { unfold sync_repair_base_for_segment. destruct (consensus_v2 _); [|done]. cbn.
    destruct (highest_local_qc b) as [qc|]; [|done].
    destruct (Z.ltb_spec (qc_block_number qc) (height (ledger (chain b)))); [|done].
    by rewrite (proj2 (Z.eqb_neq (height (ledger (chain b))) (qc_block_number qc))) by lia. }
  rewrite Hbase. cbn [or_panic]. rewrite run_bind. cbn [mret M_ret]. rewrite run_lift.
  assert (Hal : align_chain_segment_to_local_chain (blocks (chain b)) (ledger (chain b)) seg = Ok seg).
  { unfold align_chain_segment_to_local_chain. cbn [base_height base_tip_hash seg].
    rewrite Z.ltb_irrefl, Hheight, expected_tip_at_full, <- Ht. cbn. by rewrite !Z.eqb_refl. }
  cbn [fst snd]. rewrite run_lift, Hal, run_lift. cbn [seg_receipts seg_blocks seg_votes target_snapshot seg].
  rewrite Hrs, run_lift. unfold ledger_ok in Hl. rewrite Hl, run_lift, Hv, run_lift, bool_decide_true by done.
  cbn [ensure]. unfold rebuild_seen_sets, write_chain_files, write_snapshot. run_updates.
  rewrite Hb. unfold replace_chain.
  edestruct (completes_for_each (with_receipts_only (ledger (chain a)) (blocks (chain b) ++ new) (votes b)) rs
    (fun r => _ ← store_receipt config e r; mret tt)) as ([] & s1 & E1 & Hs1 & Hv1).
  3: { rewrite run_bind, E1. rewrite Hb in Hlinked, Hh. apply import_chain_votes_completes; [done| |exact Hs1].
       unfold votes_harmless in *. by rewrite Hv1. }
  { intros r _. apply completes_bind; [apply store_receipt_completes|]. intros. apply completes_ret. }
  by split_and!.
Qed.

Lemma behind_adopts config a b new rs vs : servable a -> serves_all a -> behind_by a b new ->
  should_adopt_chain_segment config b (ledger (chain b))
    (mkSegment (height (ledger (chain b))) (tip_hash (ledger (chain b))) (ledger (chain a)) new rs vs) = true.
Proof.
  intros Hs Ha Hbeh. destruct (behind_heights a b new Hs Ha Hbeh) as (Hh & _).
  destruct (servable_height a Hs (proj2 Ha)) as [Hha _]. destruct Hbeh as (Hb & _ & Hne & _).
  unfold should_adopt_chain_segment, should_adopt_snapshot, snapshot_preference, lex_ltb. cbn [target_snapshot lex_compare].
  rewrite (proj2 (Z.compare_lt_iff _ _)); [done|].
  rewrite Hh, Hha, Hb, length_app. destruct new; [done|]. cbn [length]. lia.
Qed.

(** C7: An incremental synchronisation brings a node up to date: if the chain
    of [b] is the beginning of the chain of [a], which passes the checks of a
    snapshot, and misses between one and twelve blocks, then [a] answers the
    state [b] reports with a segment of exactly these blocks, and the handler
    of [b] for that segment completes with the blocks and the ledger of [a] and
    no orphans, whatever receipts come along and with votes that cannot move
    the chain ([votes_harmless]). *)
Theorem incremental_sync_catches_up ca cb a b new pb pa fb rb :
  servable a -> serves_all a -> behind_by a b new ->
  find_peer ca (node_id cb) = Ok pb -> find_peer cb (node_id ca) = Ok pa ->
  votes_harmless cb (blocks (chain a)) (votes_for (block_hash <$> new) (proposal_votes (votes a))) b ->
  exists seg, seg_blocks seg = new /\
    mkOutbound (node_id cb) (MsgSyncBlocks (node_id ca) seg) false
      ∈ outbox (send_best_sync_to ca e (node_id cb) (height (ledger (chain b))) (tip_hash (ledger (chain b))) a).2 /\
    exists b', dispatch cb e (S fb) rb (node_id ca) (MsgSyncBlocks (node_id ca) seg) b = (Done tt, b') /\
      blocks (chain b') = blocks (chain a) /\ ledger (chain b') = ledger (chain a) /\
      orphan_blocks (chain b') = [].
Proof.
  intros Hs Ha Hbeh Hpb Hpa Hh. pose proof (find_peer_id _ _ _ Hpb) as Hid.
  destruct (behind_segment ca a b new Hs Ha Hbeh) as (rs & vs & Eseg & Hrs & ->).
  set (seg := mkSegment _ _ _ _ _ _) in Eseg. exists seg. split; [done|]. split.
  { unfold send_best_sync_to. rewrite Hpb, run_lift, run_get, Eseg, run_lift.
    unfold bump, send_control_to, send_to. rewrite run_modify. cbn. rewrite Hid. apply elem_of_app. right. by left. }
  cbn [dispatch]. unfold on_sync_blocks, record_peer_sync_status_with_slot. rewrite run_modify, run_get.
  set (b0 := with_sync _ b).
  rewrite (behind_adopts cb a b new rs _ Hs Ha Hbeh : should_adopt_chain_segment cb b0 (ledger (chain b0)) seg = true).
  cbn [negb]. rewrite run_bind. unfold try.
  destruct (segment_applies cb fb a b0 new rs _ Hs Ha Hbeh Hrs Hh) as (b1 & E1 & Hb1).
  change (mkSegment (height (ledger (chain b0))) _ _ _ _ _) with seg in E1. rewrite E1.
  destruct (after_sync_completes cb fb rb _ _ _ (node_id ca) pa IncrementalSyncApplied "sync-blocks-applied" Hpa b1 Hb1)
    as ([] & b' & E & Hc & _).
  exists b'. split; [exact E|]. by rewrite Hc.
Qed.
End catching_up.

(** ** Validator 3 joins validator 1 *)
Module CatchupExample.
#[local] Existing Instance concrete_hashing.
#[local] Existing Instance Scenario.network_backend.
Import Scenario.

Definition v1_flags : FeatureFlags :=
  mkFlags true false false false 3 f64_zero 4 default_service_score_weights.
Definition config_3 : NodeConfig :=
  mkNodeConfig 3 "" "" "" [mkPeer 1 "a"; mkPeer 2 "b"; mkPeer 4 "d"] "" "" v1_flags
    (mkFaults 0 f64_zero false false) false SbDevDeterministic None SeDevDeterministic None None.

Lemma with_block_2_servable : servable engine with_block_2.
Proof. split; vm_compute; reflexivity. Qed.
Lemma with_block_2_serves : serves_all with_block_2.
Proof. by split; vm_compute. Qed.

Lemma full_sync_catches_up_witness : exists b',
  dispatch config_3 engine 1 0 1 (MsgSyncResponse 1 (exported with_block_2)) started = (Done tt, b') /\
  blocks (chain b') = [block_1; block_2].
Proof.
  destruct (full_sync_catches_up engine config config_3 with_block_2 started 4 (mkPeer 3 "c") (mkPeer 1 "a")
    0 0 0 0) as [_ (b' & E & Hb & _)].
  - exact with_block_2_servable.
  - exact with_block_2_serves.
  - reflexivity.
  - reflexivity.
  - vm_compute. reflexivity.
  - left. reflexivity.
  - exists b'. split; [exact E|]. rewrite Hb. vm_compute. reflexivity.
Defined.

(** The node that is behind holds a certificate of the common part, under the
    second consensus version. *)
Definition certified_block_1 : NodeRunner := Eval vm_compute in
  step 2000 (Received 2 (MsgQuorumCertificate certificate_1)) with_block_1.

Lemma incremental_sync_catches_up_witness : exists seg b',
  dispatch config_4 engine 1 0 1 (MsgSyncBlocks 1 seg) certified_block_1 = (Done tt, b') /\
  seg_blocks seg = [block_2] /\ blocks (chain b') = [block_1; block_2].
Proof.
  destruct (incremental_sync_catches_up engine config config_4 with_block_2 certified_block_1 [block_2]
    (mkPeer 4 "d") (mkPeer 1 "a") 0 0) as (seg & Hseg & _ & b' & E & Hb & _).
  - exact with_block_2_servable.
  - exact with_block_2_serves.
  - split; [vm_compute; reflexivity|]. split; [vm_compute; reflexivity|]. split; [discriminate|by apply Nat.leb_le].
  - reflexivity.
  - reflexivity.
  - right; right. split; [eapply (bool_decide_eq_true_1 _); vm_compute; reflexivity|]. exists block_1. split.
    + apply (list_elem_of_lookup_2 _ 0). vm_compute. reflexivity.
    + exists certificate_1. vm_compute. reflexivity.
  - exists seg, b'. split; [exact E|]. split; [exact Hseg|]. rewrite Hb. vm_compute. reflexivity.
Defined.
End CatchupExample.
