(* ===== verification/Crash.v ===== *)
(** * Crashes while a block is accepted

    [accept_block] appends the block to one file and then replaces the
    snapshot in another (crates/entangrid-node/src/lib.rs).  What a crash can
    leave of the two writes, and what [run_node] makes of it. *)
From S2P Require Import Prelude Paths F64 Hybrid Types Concrete Crypto Ledger Consensus.
From S2P Require Import Policy Snapshots NodeState Branches Receipts SyncServe Service Votes.
From S2P Require Import Safety Durable Blocks Handlers Invariants Scenario JsonLines Codecs StorageFiles.

Open Scope Z_scope.

Section crash.
Context `{Hashing} `{CryptoBackend} `{StorageFormats} `{!StorageFormatLaws}.
Context (config : NodeConfig) (e : ConsensusEngine).
Abbreviation p := (storage_new config).

(** The two writes of [accept_block] at the tip, in its order. *)
Definition accept_writes (b : Block) (next : LedgerState) : list FileWrite :=
  [write_of p (AppendBlock b); write_of p (WriteSnapshot next)].

Lemma accept_at_tip_writes fuel next b local s :
  exists rest : M BlockAcceptance, accept_at_tip config e fuel next b local s =
    rest (with_storage (fun d => apply_op (WriteSnapshot next) (apply_op (AppendBlock b) d))
            (with_pool (mark_block_seen b) (with_chain (extend_chain next b) s))).
Proof. unfold accept_at_tip. eexists. cbn. reflexivity. Qed.

(** ** Loading what is left *)

Lemma file_names_differ x y :
  x <> y -> path_join (data_dir config) x <> path_join (data_dir config) y.
Proof. intros Hxy E. by apply (inj (path_join _)) in E. Qed.

(** Only the block file changed. *)
Lemma load_with_blocks fs d t :
  represents p fs d ->
  load_storage p (<[blocks_path p := t]> fs) =
    (bs ← load_json_lines (Some t); Ok (set_blocks_file (fun _ => bs) d)).
Proof.
  intros [_ Ho Hr Hq Ha Hg Hs].
  unfold load_storage, load_blocks, load_receipts, load_service_attestations, load_service_aggregates,
    load_quorum_certificates, load_snapshot, orphan_record.
  rewrite lookup_insert_eq. rewrite !lookup_insert_ne by (by apply file_names_differ).
  rewrite (holds_load _ _ _ Hr), (holds_load _ _ _ Ha), (holds_load _ _ _ Hg),
    (holds_load _ _ _ Hq), (holds_load _ _ _ Ho), Hs.
  destruct (load_json_lines (Some t)) as [bs|]; [|done].
  destruct d as [? ? ? ? ? ? [s|]]; simpl; [|done]. by rewrite document_parses.
Qed.

(** Only the snapshot changed. *)
Lemma load_with_snapshot fs d t :
  represents p fs d ->
  load_storage p (<[snapshot_path p := t]> fs) =
    match document_from_str t with
    | Value s => Ok (set_snapshot_file (Some s) d)
    | Eof => Err "EOF while parsing"
    | Malformed => Err "malformed snapshot"
    end.
Proof.
  intros [Hb Ho Hr Hq Ha Hg _].
  unfold load_storage, load_blocks, load_receipts, load_service_attestations, load_service_aggregates,
    load_quorum_certificates, load_snapshot, orphan_record.
  rewrite lookup_insert_eq. rewrite !lookup_insert_ne by (by apply file_names_differ).
  rewrite (holds_load _ _ _ Hb), (holds_load _ _ _ Hr), (holds_load _ _ _ Ha), (holds_load _ _ _ Hg),
    (holds_load _ _ _ Hq), (holds_load _ _ _ Ho).
  simpl. by destruct (document_from_str t).
Qed.

(** A cut append leaves the whole block or nothing of it. *)
Lemma load_cut_block fs d b k :
  represents p fs d ->
  let fs' := cut k (write_of p (AppendBlock b)) fs in
  load_storage p fs' = Ok d \/ load_storage p fs' = Ok (apply_op (AppendBlock b) d).
Proof.
  intros Hr fs'. unfold fs'. simpl. rewrite (load_with_blocks fs d) by done.
  rewrite (holds_contents fs _ (blocks_file d)) by apply Hr.
  pose proof (json_lines_after_cut (blocks_file d) b k) as Hc.
  unfold torn_append, overwrite_json_lines in Hc. simpl default in Hc. rewrite Hc. simpl.
  destruct (_ <? _)%nat; [left|right]; by destruct d.
Qed.

(** A cut snapshot does not load, a complete one does. *)
Lemma load_cut_snapshot fs d next k :
  represents p fs d ->
  let fs' := cut k (write_of p (WriteSnapshot next)) fs in
  load_storage p fs' = Ok (apply_op (WriteSnapshot next) d) \/ is_ok (load_storage p fs') = false.
Proof.
  intros Hr fs'. unfold fs'. simpl. rewrite (load_with_snapshot fs d) by done.
  destruct (decide (drop k (to_vec_pretty next) = [])) as [Hd|Hd].
  - left. rewrite <- (app_nil_r (take k _)), <- Hd, take_drop. by rewrite document_parses.
  - right. by rewrite (document_truncated next _ (drop k (to_vec_pretty next))) by
      (symmetry; apply take_drop || done).
Qed.

(** ** Starting from it *)

Lemma crashed_writes b next fs fs' : crashed (accept_writes b next) fs fs' ->
  let fs1 := perform (write_of p (AppendBlock b)) fs in
  fs' = fs \/ (exists k, fs' = cut k (write_of p (AppendBlock b)) fs) \/ fs' = fs1 \/
  (exists k, fs' = cut k (write_of p (WriteSnapshot next)) fs1) \/
  fs' = perform (write_of p (WriteSnapshot next)) fs1.
Proof.
  unfold accept_writes. intros Hc. inversion Hc as [| |w ws f f' Hc']; subst; [auto|eauto|].
  inversion Hc' as [| |w ws f f' Hc'']; subst; [auto|eauto 6|].
  inversion Hc''; subst. auto 6.
Qed.

(** A block of the chain is known. *)
Lemma in_chain_known s b : b ∈ blocks (chain s) -> is_Some (known_block s (block_hash b)).
Proof.
  intros Hb. unfold known_block. destruct (find_first _ (blocks (chain s))) as [x|] eqn:E; [done|].
  pose proof (proj1 (find_first_none _ _) E b Hb) as Hn. simpl in Hn.
  by rewrite Z.eqb_refl in Hn.
Qed.

(** C33: A crash while a block is accepted can stop the node for good or split
    its state.  Of the two writes a crash leaves files that load as before
    the block, as after it, or not at all; or the chain with the block but
    the snapshot without.  The last two do happen: with a cut snapshot the
    node never starts again; with the old snapshot it starts on a ledger one
    block behind its chain, and refuses the block as a duplicate. *)
Theorem crash_while_accepting fuel s b next fs :
  reachable config e s -> represents p fs (storage s) -> is_Some (snapshot_file (storage s)) ->
  apply_block_clone (ledger (chain s)) b = Ok next ->
  let behind := apply_op (AppendBlock b) (storage s) in
  (forall fs', crashed (accept_writes b next) fs fs' ->
     load_storage p fs' ∈ [Ok (storage s); Ok behind; Ok (apply_op (WriteSnapshot next) behind)] \/
     is_ok (load_storage p fs') = false) /\
  (exists fs', crashed (accept_writes b next) fs fs' /\ forall now, exists m, start_node config e fs' now = Failed m) /\
  (exists fs', crashed (accept_writes b next) fs fs' /\ load_storage p fs' = Ok behind /\
     forall now s', start_node config e fs' now = Done s' ->
       blocks (chain s') = blocks (chain s) ++ [b] /\ ledger (chain s') = ledger (chain s) /\
       replay_blocks (genesis e) (blocks (chain s')) = Ok next /\
       forall local, accept_block config e fuel b local s' = (Done Duplicate, s')).
Proof.
  intros Hreach Hrep [snap Hsnap] Happ behind.
  set (fs1 := perform (write_of p (AppendBlock b)) fs).
  assert (Hrep1 : represents p fs1 behind) by (by apply represents_op).
  assert (Hrep2 : represents p (perform (write_of p (WriteSnapshot next)) fs1)
                    (apply_op (WriteSnapshot next) behind)) by (by apply represents_op).
  split_and!.
  - intros fs' Hcr%crashed_writes. fold fs1 in Hcr.
    destruct Hcr as [->|[[k ->]|[->|[[k ->]| ->]]]].
    + left. rewrite (load_represented p fs (storage s) Hrep). by left.
    + left. destruct (load_cut_block fs (storage s) b k Hrep) as [-> | ->]; set_solver.
    + left. rewrite (load_represented _ _ _ Hrep1). set_solver.
    + destruct (load_cut_snapshot fs1 behind next k Hrep1) as [-> | ->]; [left; set_solver|by right].
    + left. rewrite (load_represented _ _ _ Hrep2). set_solver.
  - exists (cut 0 (write_of p (WriteSnapshot next)) fs1). split.
    + apply crash_after, crash_in.
    + intros now. unfold start_node. destruct (validate_hybrid_enforcement_genesis _ _); [|by eexists].
      change (cut 0 _ fs1) with (<[snapshot_path p := []]> fs1).
      rewrite (load_with_snapshot fs1 behind) by done.
      rewrite (document_truncated next [] (to_vec_pretty next)) by (apply document_not_empty || done). by eexists.
  - exists fs1. split_and!.
    + apply crash_after, crash_before.
    + by apply load_represented.
    + intros now s' Hstart. unfold start_node in Hstart.
      destruct (validate_hybrid_enforcement_genesis _ _); [|done].
      rewrite (load_represented p fs1 behind Hrep1) in Hstart.
      destruct (loaded_node config e behind now) as [s0|] eqn:Hload; [|done].
      destruct (restore config e behind s0) as [[[]| |] s1] eqn:Hrest; simplify_eq.
      destruct (reachable_ok config e s Hreach) as [_ (Hreplay & _ & Hb & Hs & _)].
      assert (Hl : loaded_ledger e behind = ledger (chain s)).
      { unfold loaded_ledger, behind. simpl. rewrite Hsnap in *. exact Hs. }
      assert (Hc : chain s' = mkChain (ledger (chain s)) (blocks (chain s) ++ [b]) [] []).
      { rewrite (restore_chain config e behind now s0 s'); [|rewrite Hl; exact Hs|done|done].
        rewrite Hl. simpl. by rewrite Hb. }
      rewrite Hc. split_and!; [done|done| |].
      * simpl. rewrite replay_blocks_snoc, Hreplay. exact Happ.
      * intros local. unfold accept_block, get. simpl.
        destruct (in_chain_known s' b) as [x Hx]; [rewrite Hc; simpl; set_solver|].
        unfold mbind, M_bind. by rewrite Hx.
Qed.
End crash.

(** ** On the concrete network *)

Module CrashExample.
Import Scenario.
#[local] Existing Instance concrete_hashing.
#[local] Existing Instance network_backend.

Definition countable_document (T : Type) `{Countable T} : JsonDocument T :=
  {| to_vec_pretty := countable_to_json; document_from_str := countable_from_str |}.
#[local] Instance countable_formats : StorageFormats :=
  {| block_lines := countable_lines Block; receipt_lines := countable_lines RelayReceipt;
     attestation_lines := countable_lines ServiceAttestation;
     aggregate_lines := countable_lines ServiceAggregate;
     certificate_lines := countable_lines QuorumCertificate;
     snapshot_document := countable_document StateSnapshot |}.
#[local] Instance countable_format_laws : StorageFormatLaws.
Proof.
  split; try apply countable_lines_laws. split.
  - done.
  - apply (json_parses (JsonLineLaws := countable_lines_laws)).
  - intros v q s Hq Hs. destruct q as [|c q]; [done|].
    by apply (json_truncated (JsonLineLaws := countable_lines_laws) v (c :: q) s).
Qed.

Lemma storage_files_refine_lists_witness :
  load_storage (storage_new config)
    (foldl (fun fs op => perform (write_of (storage_new config) op) fs) ∅
       [AppendBlock block_1; WriteSnapshot state_0; AppendBlock block_2]) =
  Ok (mkStorage [block_1; block_2] [] [] [] [] [] (Some state_0)).
Proof.
  exact (proj1 (storage_files_refine_lists config engine
    [AppendBlock block_1; WriteSnapshot state_0; AppendBlock block_2] 0)).
Defined.

(** Validator 1 crashes while it accepts the second block. *)
Definition with_block_2_file : Storage := apply_op (AppendBlock block_2) (storage with_block_1).
Lemma with_block_2_file_restarts : restarts with_block_2_file = true.
Proof. vm_compute. reflexivity. Qed.

Lemma crash_while_accepting_witness :
  exists fs' s', start_node config engine fs' 9000 = Done s' /\
    blocks (chain s') = [block_1; block_2] /\ ledger (chain s') = ledger (chain with_block_1) /\
    height (ledger (chain s')) = 1.
Proof.
  destruct (apply_block_clone (ledger (chain with_block_1)) block_2) as [next|x] eqn:Hn;
    [|vm_compute in Hn; discriminate].
  destruct (crash_while_accepting config engine 8 with_block_1 block_2 next
              (files_of config (storage with_block_1)))
    as (_ & _ & fs' & _ & Hload & Hstart).
  - exact with_block_1_reachable.
  - apply files_of_represent.
  - vm_compute. eexists. reflexivity.
  - exact Hn.
  - destruct (restarts_run _ with_block_2_file_restarts) as (s1 & s2 & El & Er).
    assert (Hs : start_node config engine fs' 9000 = Done s2).
    { unfold start_node. rewrite Hload. fold with_block_2_file. rewrite El, Er. reflexivity. }
    destruct (Hstart _ _ Hs) as (Hb & Hl & _). exists fs', s2. split_and!; [exact Hs| |exact Hl|].
    + rewrite Hb. vm_compute. reflexivity.
    + rewrite Hl. vm_compute. reflexivity.
Defined.
End CrashExample.
