(* ===== verification/Localnet.v ===== *)
(** * Local networks

    The set-up half of crates/entangrid-sim/src/lib.rs: [init_localnet] writes
    a genesis file, one configuration per validator, their keys and a manifest;
    [load_scenario] plans the transactions that go to the nodes' inboxes;
    [refresh_genesis_time_for_fresh_localnet] postpones the genesis of a
    network that has not run.  The directory tree is a record of typed files
    by path ([Disk]); TOML and JSON are read back as written, writes do not
    fail, the drawn keys and the clock are arguments. *)
From stdpp Require Import pretty.
From Stdlib Require Import Ascii.
From S2P Require Import Prelude Paths F64 Hybrid Types Concrete Crypto Sessions.

Open Scope Z_scope.

(** ** Files *)

Record LocalnetManifest := mkManifest {
  mn_base_dir : string;
  mn_genesis_path : string;
  mn_node_configs : list string }.

Record Disk := mkDisk {
  genesis_files : gmap string GenesisConfig;
  manifest_files : gmap string LocalnetManifest;
  config_files : gmap string NodeConfig;
  signing_key_files : gmap string MlDsa65KeyFile;
  session_key_files : gmap string MlKemSessionKeyFile;
  data_file_sizes : gmap string Z }.

Definition empty_disk : Disk := mkDisk ∅ ∅ ∅ ∅ ∅ ∅.

Definition write_genesis path g (d : Disk) := mkDisk (<[path := g]> (genesis_files d))
  (manifest_files d) (config_files d) (signing_key_files d) (session_key_files d) (data_file_sizes d).
Definition write_manifest path m (d : Disk) := mkDisk (genesis_files d)
  (<[path := m]> (manifest_files d)) (config_files d) (signing_key_files d) (session_key_files d)
  (data_file_sizes d).
Definition write_config path c (d : Disk) := mkDisk (genesis_files d) (manifest_files d)
  (<[path := c]> (config_files d)) (signing_key_files d) (session_key_files d) (data_file_sizes d).
Definition write_keys sign_path session_path (k : MlDsa65KeyFile * MlKemSessionKeyFile) (d : Disk) :=
  mkDisk (genesis_files d) (manifest_files d) (config_files d)
    (<[sign_path := k.1]> (signing_key_files d)) (<[session_path := k.2]> (session_key_files d))
    (data_file_sizes d).

Definition read_file {A} (files : gmap string A) (path : string) : result A :=
  ok_or (files !! path) "No such file or directory".

(** The nodes read the keys the simulator wrote. *)
Definition disk_key_files (d : Disk) : KeyFiles :=
  {| read_ml_dsa_key_file := read_file (signing_key_files d);
     read_ml_kem_key_file := read_file (session_key_files d) |}.

Definition manifest_path (base_dir : string) : string := path_join base_dir "localnet-manifest.toml".
Definition node_dir (base_dir : string) (id : ValidatorId) : string :=
  path_join base_dir ("node-" +:+ pretty id).

Definition read_manifest (base_dir : string) (d : Disk) : result LocalnetManifest :=
  read_file (manifest_files d) (manifest_path base_dir).

Fixpoint read_configs (paths : list string) (d : Disk) : result (list NodeConfig) :=
  match paths with
  | [] => Ok []
  | p :: paths' => c ← read_file (config_files d) p; cs ← read_configs paths' d; Ok (c :: cs)
  end.
Definition read_node_configs (m : LocalnetManifest) (d : Disk) : result (list NodeConfig) :=
  read_configs (mn_node_configs m) d.

Definition localnet_requires_hybrid_enforcement (m : LocalnetManifest) (d : Disk) : result bool :=
  configs ← read_node_configs m d;
  Ok (existsb (fun c => require_hybrid_validator_signatures (feature_flags c)
        || bool_decide (signing_backend c = SbHybridDeterministicMlDsaExperimental)) configs).

(** ** Parameters *)

Definition recommended_service_score_window_epochs_for_validators (n : Z) : Z :=
  Z.max RECOMMENDED_SERVICE_SCORE_WINDOW_EPOCHS n.

(** The doubling loop: a 64-bit [power] passes any count up to 2^63 within 63
    steps. *)
Fixpoint ceil_log2_from (fuel : nat) (n power ceil_log2 : Z) : Z :=
  match fuel with
  | O => ceil_log2
  | S fuel' => if power <? n then ceil_log2_from fuel' n (wmul power 2) (ceil_log2 + 1) else ceil_log2
  end.

Definition recommended_v2_witness_count_for_validators (n : Z) : Z :=
  let max_relations := saturating_sub n 1 in
  if max_relations <=? 3 then max_relations
  else Z.max 3 (Z.min (ceil_log2_from 64 n 1 0 + 1) max_relations).

Definition default_fault_profile : FaultProfile := mkFaults 0 f64_zero false false.

Definition degraded_fault_profile (id : ValidatorId) (degraded : option ValidatorId) (delay_ms : Z)
    (drop_probability : f64) (disable : bool) : FaultProfile :=
  if negb (bool_decide (degraded = Some id)) then default_fault_profile
  else
    let p := if (delay_ms =? 0) && f64_eqb drop_probability f64_zero && negb disable
             then f64_decimal 85 100 else drop_probability in
    mkFaults delay_ms p false disable.

(** ** Initialising *)

(** The arguments of [init_localnet]. *)
Record InitLocalnet := mkInit {
  in_validators : Z;
  in_base_dir : string;
  in_slot_duration_millis : Z;
  in_slots_per_epoch : Z;
  in_start_delay_millis : Z;
  in_enable_service_gating : bool;
  in_service_gating_start_epoch : Epoch;
  in_service_gating_threshold : f64;
  in_service_score_window_epochs : Z;
  in_service_score_weights : ServiceScoreWeights;
  in_degraded_validator : option ValidatorId;
  in_degraded_delay_ms : Z;
  in_degraded_drop_probability : f64;
  in_degraded_disable_outbound : bool;
  in_consensus_v2 : bool;
  in_hybrid_enforcement : bool }.

Record LocalnetValidatorMaterial := mkMaterial {
  lm_validator : ValidatorConfig;
  lm_signing_backend : SigningBackendKind;
  lm_signing_key_path : option string;
  lm_session_backend : SessionBackendKind;
  lm_session_key_path : option string }.

Definition local_address (port : Z) : string := "127.0.0.1:" +:+ pretty port.
Definition dev_secret_of (id : ValidatorId) : string := "entangrid-dev-secret-" +:+ pretty id.

Section init.
Context `{Hashing}.
(** The keys the random generator draws for a validator. *)
Variable drawn : ValidatorId -> MlDsa65KeyFile * MlKemSessionKeyFile.

Definition deterministic_material (id : ValidatorId) : LocalnetValidatorMaterial :=
  mkMaterial
    (mkValidator id 100 (local_address (4100 + (id - 1))) (dev_secret_of id)
       (deterministic_public_identity id) None)
    SbDevDeterministic None SeDevDeterministic None.

(** [generate_hybrid_validator_material]: draws and writes both key pairs. *)
Definition generate_hybrid_validator_material (id : ValidatorId) (dir : string) (d : Disk)
    : result (LocalnetValidatorMaterial * Disk) :=
  let '(key_file, session_key_file) := drawn id in
  let key_path := path_join dir "ml-dsa-key.json" in
  let session_key_path := path_join dir "ml-kem-session-key.json" in
  let d := write_keys key_path session_key_path (key_file, session_key_file) d in
  identity ← PubId.try_hybrid
    [mkComponent PkDevDeterministic (c_bytes (deterministic_public_identity id));
     mkComponent PkMlDsa (mldsa_verifying_key key_file)];
  session ← SessionId.try_hybrid
    [mkComponent SkDevDeterministic (string_to_bytes ("session-validator-" +:+ pretty id));
     mkComponent SkMlKem (encapsulation_key session_key_file)];
  Ok (mkMaterial
        (mkValidator id 100 (local_address (4100 + (id - 1))) (dev_secret_of id) identity (Some session))
        SbHybridDeterministicMlDsaExperimental (Some key_path)
        SeHybridDeterministicMlKemExperimental (Some session_key_path), d).

Section arguments.
Variable args : InitLocalnet.

Definition validator_ids_of : list ValidatorId := Z.of_nat <$> seq 1 (Z.to_nat (in_validators args)).

Fixpoint build_materials (ids : list ValidatorId) (d : Disk)
    : result (list LocalnetValidatorMaterial * Disk) :=
  match ids with
  | [] => Ok ([], d)
  | id :: ids' =>
      '(m, d) ← (if in_hybrid_enforcement args
                 then generate_hybrid_validator_material id (node_dir (in_base_dir args) id) d
                 else Ok (deterministic_material id, d));
      '(ms, d) ← build_materials ids' d;
      Ok (m :: ms, d)
  end.

Definition initial_balances_of (ids : list ValidatorId) : gmap AccountId Z :=
  foldl (fun m id => <[validator_account id := 1000000]> m) ∅ ids.

Definition uses_v2 : bool := in_consensus_v2 args || in_hybrid_enforcement args.

Definition localnet_genesis (now : Z) (vs : list ValidatorConfig) : GenesisConfig :=
  mkGenesis "entangrid-localnet" empty_hash (wadd now (in_start_delay_millis args))
    (in_slot_duration_millis args) (in_slots_per_epoch args) 128
    (if uses_v2 then recommended_v2_witness_count_for_validators (in_validators args)
     else Z.min 2 (saturating_sub (in_validators args) 1))
    vs (initial_balances_of validator_ids_of).

Definition localnet_flags : FeatureFlags :=
  mkFlags true (in_enable_service_gating args) uses_v2 (in_hybrid_enforcement args)
    (in_service_gating_start_epoch args) (in_service_gating_threshold args)
    (in_service_score_window_epochs args) (in_service_score_weights args).

Definition localnet_node_config (vs : list ValidatorConfig) (m : LocalnetValidatorMaterial)
    : NodeConfig :=
  let v := lm_validator m in
  let dir := node_dir (in_base_dir args) (validator_id v) in
  mkNodeConfig (validator_id v) dir (path_join (in_base_dir args) "genesis.toml") (address v)
    ((fun p => mkPeer (validator_id p) (address p)) <$>
       filter (fun p => validator_id p <> validator_id v) vs)
    (path_join dir "events.log") (path_join dir "metrics.json") localnet_flags
    (degraded_fault_profile (validator_id v) (in_degraded_validator args) (in_degraded_delay_ms args)
       (in_degraded_drop_probability args) (in_degraded_disable_outbound args))
    true (lm_signing_backend m) (lm_signing_key_path m) (lm_session_backend m)
    (lm_session_key_path m) None.

Definition config_path_of (id : ValidatorId) : string :=
  path_join (node_dir (in_base_dir args) id) "node.toml".

Definition write_node_configs (vs : list ValidatorConfig) (ms : list LocalnetValidatorMaterial)
    (d : Disk) : Disk :=
  foldl (fun d m => write_config (config_path_of (validator_id (lm_validator m)))
                      (localnet_node_config vs m) d) d ms.

Definition init_localnet (now : Z) (d : Disk) : result Disk :=
  _ ← ensure (4 <=? in_validators args) "at least 4 validators are recommended";
  _ ← ensure match in_degraded_validator args with
             | Some id => negb (id =? 0) && (id <=? in_validators args)
             | None => true
             end "degraded validator id must be within the validator set";
  '(ms, d) ← build_materials validator_ids_of d;
  let vs := lm_validator <$> ms in
  let genesis_path := path_join (in_base_dir args) "genesis.toml" in
  let d := write_genesis genesis_path (localnet_genesis now vs) d in
  let d := write_node_configs vs ms d in
  Ok (write_manifest (manifest_path (in_base_dir args))
        (mkManifest (in_base_dir args) genesis_path
           ((fun m => config_path_of (validator_id (lm_validator m))) <$> ms)) d).
End arguments.
End init.

(** ** Starting *)

Definition config_is_fresh (c : NodeConfig) (d : Disk) : bool :=
  forallb (fun name => match data_file_sizes d !! path_join (data_dir c) name with
                       | Some size => size <=? 0
                       | None => true
                       end) ["blocks.jsonl"; "receipts.jsonl"; "state_snapshot.json"].

Fixpoint localnet_is_fresh (paths : list string) (d : Disk) : result bool :=
  match paths with
  | [] => Ok true
  | p :: paths' => c ← read_file (config_files d) p;
                   if config_is_fresh c d then localnet_is_fresh paths' d else Ok false
  end.

Definition refresh_genesis_time_for_fresh_localnet (m : LocalnetManifest) (now : Z) (d : Disk)
    : result Disk :=
  fresh ← localnet_is_fresh (mn_node_configs m) d;
  if negb fresh then Ok d
  else
    g ← read_file (genesis_files d) (mn_genesis_path m);
    if now <? genesis_time_unix_millis g then Ok d
    else Ok (write_genesis (mn_genesis_path m)
               (mkGenesis (chain_id g) (genesis_epoch_seed g)
                  (wadd now (Z.max (slot_duration_millis g) 1000)) (slot_duration_millis g)
                  (slots_per_epoch g) (max_txs_per_block g) (witness_count g) (validators g)
                  (initial_balances g)) d).

(** ** Load *)

Inductive LoadScenario := Idle | Steady | Bursty | LargeBlock.

(** One call of [write_transaction_for_validator], in the second it is made. *)
Record LoadStep := mkStep {
  ls_second : Z;
  ls_validator : ValidatorId;
  ls_amount : Z;
  ls_sequence : Z;
  ls_large_memo : bool }.

(** The loops of [load_scenario]. *)
Definition numbers (n : Z) : list Z := Z.of_nat <$> seq 0 (Z.to_nat n).

Definition load_plan (g : GenesisConfig) (scenario : LoadScenario) (duration_secs : Z)
    : list LoadStep :=
  match scenario with
  | Idle => []
  | Steady =>
      concat ((fun second => (fun v => mkStep second (validator_id v) 1 second false)
                               <$> validators g) <$> numbers duration_secs)
  | Bursty =>
      concat ((fun second =>
        if second mod 3 =? 0 then
          concat ((fun v => (fun burst => mkStep second (validator_id v) (1 + burst)
                                            (wadd (wmul second 10) burst) false) <$> numbers 5)
                    <$> validators g)
        else []) <$> numbers duration_secs)
  | LargeBlock =>
      concat ((fun v => (fun index => mkStep 0 (validator_id v) 1 index true)
                          <$> numbers (wmul (max_txs_per_block g) 2)) <$> validators g)
  end.

Section load.
Context `{Hashing}.

Definition deterministic_recipient_id (g : GenesisConfig) (sender sequence amount : Z)
    (large_memo : bool) : option ValidatorId :=
  let recipients := filter (fun id => id <> sender) (validator_id <$> validators g) in
  let selector := canonical_hash (CRecipientSelector (chain_id g) sender sequence amount large_memo) in
  match recipients with
  | [] => None
  | _ => recipients !! Z.to_nat (u64_from_le_prefix selector mod Z.of_nat (length recipients))
  end.

(** A file of a node's inbox; its name is [tx-{written_at}-{sequence}.json]. *)
Record InboxFile := mkInboxFile {
  if_validator : ValidatorId;
  if_written_at : Z;
  if_sequence : Z;
  if_transaction : SignedTransaction }.

Definition large_memo_text : string := String.string_of_list_ascii (replicate 2048 "x"%char).

(** [crypto] is the deterministic backend of the genesis secrets, whatever
    the nodes sign with. *)
Definition write_transaction_for_validator (g : GenesisConfig) (now : Z)
    (next_nonce : gmap AccountId Z) (st : LoadStep) : result (InboxFile * gmap AccountId Z) :=
  let id := ls_validator st in
  let sender := validator_account id in
  recipient ← ok_or (deterministic_recipient_id g id (ls_sequence st) (ls_amount st) (ls_large_memo st))
                "failed to select recipient for validator";
  let nonce := default 0 (next_nonce !! sender) in
  let tx := mkTx sender (validator_account recipient) (ls_amount st) nonce
              (Some (if ls_large_memo st then large_memo_text
                     else "scenario-" +:+ pretty (ls_sequence st))) in
  let tx_hash := canonical_hash (CTransaction tx) in
  signature ← deterministic_sign (from_validators (validators g)) id (hash_to_bytes tx_hash);
  Ok (mkInboxFile id now (ls_sequence st) (mkSignedTx tx id signature tx_hash now),
      <[sender := wadd nonce 1]> next_nonce).

(** The nonces to start from: node 1's snapshot, or zero. *)
Definition current_nonces (g : GenesisConfig) (snapshot : option StateSnapshot) : gmap AccountId Z :=
  match snapshot with
  | Some s => nonces s
  | None => foldl (fun m v => <[validator_account (validator_id v) := 0]> m) ∅ (validators g)
  end.

(** The files written, in order, and how it ended; [clock] says when. *)
Fixpoint run_load (g : GenesisConfig) (clock : nat -> Z) (i : nat) (next_nonce : gmap AccountId Z)
    (steps : list LoadStep) : list InboxFile * result (gmap AccountId Z) :=
  match steps with
  | [] => ([], Ok next_nonce)
  | st :: steps' =>
      match write_transaction_for_validator g (clock i) next_nonce st with
      | Err x => ([], Err x)
      | Ok (f, next_nonce) => let '(fs, r) := run_load g clock (S i) next_nonce steps' in (f :: fs, r)
      end
  end.

Definition load_scenario (g : GenesisConfig) (snapshot : option StateSnapshot)
    (scenario : LoadScenario) (duration_secs : Z) (clock : nat -> Z)
    : list InboxFile * result (gmap AccountId Z) :=
  run_load g clock 0 (current_nonces g snapshot) (load_plan g scenario duration_secs).
End load.
