(* ===== verification/Measure.v ===== *)
(** * Signing measurements

    [measure_signing_backend] of crates/entangrid-crypto/src/lib.rs and the
    pq-measure command of crates/entangrid-sim/src/lib.rs: two measurement
    networks, one signed deterministically and one with ML-DSA-65, the
    sample block and vote, their sizes and the medians of the latencies.  The
    stopwatch readings, the drawn key pair, the temporary directory, the
    process id and the clock are arguments. *)
From stdpp Require Import pretty sorting.
From S2P Require Import Prelude Paths F64 Hybrid Types Concrete Crypto Sessions Handshakes Ledger.
From S2P Require Import Codecs Consensus Snapshots Localnet Blocks.

Open Scope Z_scope.

(** ** Medians *)

(** [median_nanos]. *)
Definition median_nanos (samples : list Z) : Z :=
  if bool_decide (samples = []) then 0
  else let sorted := sort_by Z.compare samples in sorted !!! (length sorted / 2)%nat.

(** A sample with at most half of the samples below it and less than half above. *)
Definition upper_median (samples : list Z) (m : Z) : Prop :=
  m ∈ samples /\
  (2 * length (filter (fun x => (x < m)%Z) samples) <= length samples)%nat /\
  (2 * length (filter (fun x => (m < x)%Z) samples) < length samples)%nat.

Lemma filter_none (P : Z -> Prop) `{!forall x, Decision (P x)} l :
  (forall x, x ∈ l -> ~ P x) -> length (filter P l) = 0%nat.
Proof.
  induction l as [|x l IH]; intros Hl; [done|]. rewrite filter_cons_False by (apply Hl; by left).
  apply IH. intros y Hy. apply Hl. by right.
Qed.

Lemma median_nanos_upper samples : samples <> [] -> upper_median samples (median_nanos samples).
Proof.
  intros Hne. unfold median_nanos. rewrite bool_decide_false by done.
  set (l := sort_by Z.compare samples).
  assert (Hp : l ≡ₚ samples) by apply sort_by_perm.
  assert (Hlen : (length l / 2 < length l)%nat).
  { apply Nat.div_lt; [|lia]. rewrite Hp. destruct samples; [done|simpl; lia]. }
  destruct (lookup_lt_is_Some_2 l _ Hlen) as [m Hm]. rewrite (list_lookup_total_correct _ _ _ Hm).
  pose proof (take_drop_middle _ _ _ Hm) as Hsplit.
  pose proof (sort_by_Z_sorted samples) as Hs. fold l in Hs. rewrite <- Hsplit in Hs.
  apply StronglySorted_app in Hs as (Hlow & _ & Hhigh). inversion_clear Hhigh as [|? ? _ Hafter].
  rewrite Forall_forall in Hafter.
  assert (Hbefore : forall x, x ∈ take (length l / 2) l -> x <= m).
  { intros x Hx. apply Hlow; [done|]. by left. }
  assert (Hdiv : (2 * (length l / 2) <= length l < 2 * (length l / 2) + 2)%nat)
    by (pose proof (Nat.div_mod_eq (length l) 2); pose proof (Nat.mod_upper_bound (length l) 2); lia).
  assert (Hlens : length l = length samples) by (by rewrite Hp).
  unfold upper_median. rewrite <- Hlens. clearbody l.
  split_and!.
  - rewrite <- Hp. by eapply list_elem_of_lookup_2.
  - rewrite <- Hp, <- Hsplit at 1.
    rewrite filter_app, length_app, filter_cons_False by lia.
    rewrite (filter_none _ (drop _ _)) by (intros x Hx; specialize (Hafter x Hx); lia).
    pose proof (length_filter (fun x => (x < m)%Z) (take (length l / 2) l)) as Hf.
    rewrite length_take in Hf. lia.
  - rewrite <- Hp, <- Hsplit at 1.
    rewrite filter_app, length_app, filter_cons_False by lia.
    rewrite (filter_none _ (take _ _)) by (intros x Hx; specialize (Hbefore x Hx); lia).
    pose proof (length_filter (fun x => (m < x)%Z) (drop (S (length l / 2)) l)) as Hf.
    rewrite length_drop in Hf. lia.
Qed.

(** ** One backend *)

Record SigningMeasurementReport := mkSigningReport {
  sr_backend : string;
  sr_signature_scheme : SignatureScheme;
  public_identity_size_bytes : Z;
  signature_size_bytes : Z;
  median_sign_latency_nanos : Z;
  median_verify_latency_nanos : Z;
  sr_iterations : Z }.

Definition backend_display_name (backend : string) (scheme : SignatureScheme) : string :=
  match scheme with
  | SigDevDeterministic => "Deterministic"
  | SigMlDsa => "ML-DSA"
  | SigHybrid => "Hybrid"
  | _ => backend
  end.

(** [{:?}] of the scheme. *)
Definition scheme_debug (s : SignatureScheme) : string :=
  match s with
  | SigDevDeterministic => "DevDeterministic" | SigEd25519 => "Ed25519"
  | SigMlDsa => "MlDsa" | SigHybrid => "Hybrid"
  end.

Definition newline : string := String (Ascii.ascii_of_nat 10) "".

Definition render_signing_measurement_report (reports : list SigningMeasurementReport) : string :=
  foldl (fun markdown r =>
    markdown +:+ "## " +:+ backend_display_name (sr_backend r) (sr_signature_scheme r) +:+ newline +:+ newline
      +:+ "- Backend id: `" +:+ sr_backend r +:+ "`" +:+ newline
      +:+ "- Signature scheme: `" +:+ scheme_debug (sr_signature_scheme r) +:+ "`" +:+ newline
      +:+ "- Public identity size: `" +:+ pretty (public_identity_size_bytes r) +:+ "` bytes" +:+ newline
      +:+ "- Signature size: `" +:+ pretty (signature_size_bytes r) +:+ "` bytes" +:+ newline
      +:+ "- Median sign latency: `" +:+ pretty (median_sign_latency_nanos r) +:+ "` ns" +:+ newline
      +:+ "- Median verify latency: `" +:+ pretty (median_verify_latency_nanos r) +:+ "` ns" +:+ newline
      +:+ "- Iterations: `" +:+ pretty (sr_iterations r) +:+ "`" +:+ newline +:+ newline)
    ("# PQ Signing Measurements" +:+ newline +:+ newline) reports.

(** The two readings of the stopwatch in an iteration: signing, verifying. *)
Abbreviation Latency := (nat -> Z * Z).

Section one.
Context `{Hashing} `{MlDsa} `{KeyFiles}.
Context `{!Bincode PublicIdentity} `{!Bincode TypedSignature}.

(** The loop: iterations [i] to [i + n - 1]. *)
Fixpoint measure_rounds (b : ConfiguredCryptoBackend) (id : ValidatorId) (message : bytes)
    (latency : Latency) (i n : nat) (signs verifies : list Z) (signature : option TypedSignature)
    : result (list Z * list Z * option TypedSignature) :=
  match n with
  | O => Ok (signs, verifies, signature)
  | S n' =>
      signed ← configured_sign b id message;
      verified ← configured_verify b id message signed;
      _ ← ensure verified "signature verification failed while measuring backend";
      measure_rounds b id message latency (S i) n' (signs ++ [(latency i).1])
        (verifies ++ [(latency i).2]) (Some signed)
  end.

Definition measure_signing_backend (backend : string) (g : GenesisConfig) (config : NodeConfig)
    (id : ValidatorId) (message : bytes) (iterations : Z) (latency : Latency)
    : result SigningMeasurementReport :=
  b ← build_crypto_backend g config;
  validator ← validator_config g id;
  let iterations := Z.max iterations 1 in
  '(signs, verifies, signature) ←
    measure_rounds b id message latency 0 (Z.to_nat iterations) [] [] None;
  signature ← ok_or signature "missing measured signature";
  identity ← encode_to_vec (public_identity validator);
  encoded ← encode_to_vec signature;
  Ok (mkSigningReport backend (c_scheme signature) (Z.of_nat (length identity))
        (Z.of_nat (length encoded)) (median_nanos signs) (median_nanos verifies) iterations).
End one.

(** ** The measurement networks *)

Definition default_feature_flags : FeatureFlags :=
  mkFlags false false false false 0 f64_zero 0 default_service_score_weights.

Definition measurement_ids (validator_count : Z) : list ValidatorId :=
  Z.of_nat <$> seq 1 (Z.to_nat validator_count).

Definition build_measurement_validators (validator_count : Z) (validator_one_identity : PublicIdentity)
    : list ValidatorConfig :=
  (fun id => mkValidator id 100 (local_address (3000 + id)) ("secret-" +:+ pretty id)
     (if id =? 1 then validator_one_identity else deterministic_public_identity id) None)
  <$> measurement_ids validator_count.

Definition build_measurement_genesis (validator_count : Z) (validator_one_identity : PublicIdentity)
    : GenesisConfig :=
  mkGenesis "entangrid-pq-measurement" empty_hash 0 1000 6 16
    (Z.max (saturating_sub validator_count 2) 2)
    (build_measurement_validators validator_count validator_one_identity)
    (foldl (fun m id => <[validator_account id := 1000]> m) ∅ (measurement_ids validator_count)).

Definition deterministic_measurement_config : NodeConfig :=
  mkNodeConfig 1 "/tmp/pq-measure-deterministic" "/tmp/pq-measure-genesis.toml" "127.0.0.1:3001" []
    "/tmp/pq-measure-events.log" "/tmp/pq-measure-metrics.json" default_feature_flags
    default_fault_profile true SbDevDeterministic None SeDevDeterministic None None.

Definition ml_dsa_measurement_config (key_path : string) : NodeConfig :=
  mkNodeConfig 1 "/tmp/pq-measure-deterministic" "/tmp/pq-measure-genesis.toml" "127.0.0.1:3001" []
    "/tmp/pq-measure-events.log" "/tmp/pq-measure-metrics.json" default_feature_flags
    default_fault_profile true SbMlDsa65Experimental (Some key_path) SeDevDeterministic None None.

Definition write_signing_key path (k : MlDsa65KeyFile) (d : Disk) : Disk :=
  mkDisk (genesis_files d) (manifest_files d) (config_files d) (<[path := k]> (signing_key_files d))
    (session_key_files d) (data_file_sizes d).

(** [ml_dsa_measurement_setup] with the drawn keys, [std::env::temp_dir] and
    [std::process::id]. *)
Definition ml_dsa_measurement_setup (drawn : MlDsa65KeyFile) (temp_dir : string) (pid : Z)
    (validator_count : Z) (d : Disk) : GenesisConfig * NodeConfig * Disk :=
  let key_path := path_join temp_dir ("entangrid-pq-measure-" +:+ pretty validator_count +:+ "-"
                                       +:+ pretty pid +:+ ".key") in
  (build_measurement_genesis validator_count (single PkMlDsa (mldsa_verifying_key drawn)),
   ml_dsa_measurement_config key_path, write_signing_key key_path drawn d).

(** ** The sample messages *)

Section samples.
Context `{Hashing}.

Definition sample_header (parent : HashBytes) : BlockHeader :=
  mkHeader 2 parent 2 0 1 1000 (canonical_hash (CText "state-root")) (canonical_hash (CTransactions []))
    (topology_root_of None).

Definition sample_block (parent : HashBytes) (signature : TypedSignature) : Block :=
  mkBlock (sample_header parent) [] None [] signature
    (canonical_hash (CBlockContent (sample_header parent) [] None)).

Definition unsigned_proposal_vote : ProposalVote :=
  mkVote 1 (canonical_hash (CText "proposal-vote-block")) 2 0 2 TypedSig.default.

Definition sample_block_signing_hash : HashBytes :=
  canonical_hash (CBlockContent (sample_header empty_hash) [] None).

(** [vote.signature = signature]. *)
Definition signed_vote (signature : TypedSignature) : ProposalVote :=
  let v := unsigned_proposal_vote in
  mkVote (pv_validator v) (pv_block_hash v) (pv_block_number v) (pv_epoch v) (pv_slot v) signature.
End samples.

Section sizes.
Context `{Hashing} `{MlDsa} `{KeyFiles} `{!Bincode Block} `{!Bincode ProposalVote}.

Definition signed_block_size (g : GenesisConfig) (config : NodeConfig) (id : ValidatorId) : result Z :=
  crypto ← build_crypto_backend g config;
  signature ← configured_sign crypto id (hash_to_bytes sample_block_signing_hash);
  encoded ← encode_to_vec (sample_block empty_hash signature);
  Ok (Z.of_nat (length encoded)).

Definition signed_vote_size (g : GenesisConfig) (config : NodeConfig) (id : ValidatorId) : result Z :=
  crypto ← build_crypto_backend g config;
  let vote_hash := proposal_vote_signing_hash unsigned_proposal_vote in
  signature ← configured_sign crypto id (hash_to_bytes vote_hash);
  encoded ← encode_to_vec (signed_vote signature);
  Ok (Z.of_nat (length encoded)).
End sizes.

(** ** The report *)

Record PqMeasurementScenario := mkPqScenario {
  pq_label : string;
  deterministic_signature_size_bytes : Z;
  ml_dsa_signature_size_bytes : Z;
  deterministic_message_size_bytes : Z;
  ml_dsa_message_size_bytes : Z;
  deterministic_median_sign_latency_nanos : Z;
  ml_dsa_median_sign_latency_nanos : Z;
  deterministic_median_verify_latency_nanos : Z;
  ml_dsa_median_verify_latency_nanos : Z }.

Record PqMeasurementReport := mkPqReport {
  pq_generated_at_unix_millis : Z;
  pq_validator_count : Z;
  pq_iterations : Z;
  pq_output_path : string;
  pq_scenarios : list PqMeasurementScenario }.

Definition join_lines (lines : list string) : string := String.concat newline lines.

Definition scenario_row (s : PqMeasurementScenario) : string :=
  "| " +:+ pq_label s +:+ " | " +:+ pretty (deterministic_signature_size_bytes s) +:+ " bytes | "
    +:+ pretty (ml_dsa_signature_size_bytes s) +:+ " bytes | "
    +:+ pretty (deterministic_message_size_bytes s) +:+ " bytes | "
    +:+ pretty (ml_dsa_message_size_bytes s) +:+ " bytes | "
    +:+ pretty (deterministic_median_sign_latency_nanos s) +:+ " ns | "
    +:+ pretty (ml_dsa_median_sign_latency_nanos s) +:+ " ns | "
    +:+ pretty (deterministic_median_verify_latency_nanos s) +:+ " ns | "
    +:+ pretty (ml_dsa_median_verify_latency_nanos s) +:+ " ns |".

Definition render_markdown (r : PqMeasurementReport) : string :=
  join_lines (
    ["# Entangrid PQ Signing Measurements"; "";
     "Generated at unix millis `" +:+ pretty (pq_generated_at_unix_millis r) +:+ "` with validator count `"
       +:+ pretty (pq_validator_count r) +:+ "` and iterations `" +:+ pretty (pq_iterations r) +:+ "`."; "";
     "| Scenario | Deterministic signature size | ML-DSA signature size | Deterministic message size | ML-DSA message size | Deterministic Median sign latency | ML-DSA Median sign latency | Deterministic Median verify latency | ML-DSA Median verify latency |";
     "|---|---|---|---|---|---|---|---|---|"]%string
    ++ (scenario_row <$> pq_scenarios r)
    ++ [""; "## Measurement Notes"; "";
        "- Public identity and signature sizes come from the real configured signing backends.";
        "- Block and proposal-vote message sizes are proxy serialized sizes, not a full live-network benchmark.";
        "- Median timings are local-machine measurements and should be treated as indicative."]%string).

Section report.
Context `{Hashing} `{MlDsa}.
Context `{!Bincode PublicIdentity} `{!Bincode TypedSignature} `{!Bincode Block} `{!Bincode ProposalVote}.

(** [build_pq_measurement_report]: the stopwatch of the four measurements in
    their order, the clock at the end. *)
Definition build_pq_measurement_report (drawn : MlDsa65KeyFile) (temp_dir : string) (pid : Z)
    (latency : nat -> Latency) (now : Z) (validator_count iterations : Z) (output_path : string) (d : Disk)
    : result (PqMeasurementReport * Disk) :=
  let deterministic_genesis := build_measurement_genesis validator_count (deterministic_public_identity 1) in
  let deterministic_config := deterministic_measurement_config in
  let '(ml_dsa_genesis, ml_dsa_config, d) := ml_dsa_measurement_setup drawn temp_dir pid validator_count d in
  let files := disk_key_files d in
  let block_hash := hash_to_bytes sample_block_signing_hash in
  let vote_hash := hash_to_bytes (proposal_vote_signing_hash unsigned_proposal_vote) in
  deterministic_block ← measure_signing_backend (H1 := files) "deterministic" deterministic_genesis
    deterministic_config 1 block_hash iterations (latency 0%nat);
  ml_dsa_block ← measure_signing_backend (H1 := files) "ml-dsa" ml_dsa_genesis
    ml_dsa_config 1 block_hash iterations (latency 1%nat);
  deterministic_vote ← measure_signing_backend (H1 := files) "deterministic" deterministic_genesis
    deterministic_config 1 vote_hash iterations (latency 2%nat);
  ml_dsa_vote ← measure_signing_backend (H1 := files) "ml-dsa" ml_dsa_genesis
    ml_dsa_config 1 vote_hash iterations (latency 3%nat);
  deterministic_block_size ← signed_block_size (H1 := files) deterministic_genesis deterministic_config 1;
  ml_dsa_block_size ← signed_block_size (H1 := files) ml_dsa_genesis ml_dsa_config 1;
  deterministic_vote_size ← signed_vote_size (H1 := files) deterministic_genesis deterministic_config 1;
  ml_dsa_vote_size ← signed_vote_size (H1 := files) ml_dsa_genesis ml_dsa_config 1;
  let scenario label det mldsa det_size mldsa_size :=
    mkPqScenario label (signature_size_bytes det) (signature_size_bytes mldsa) det_size mldsa_size
      (median_sign_latency_nanos det) (median_sign_latency_nanos mldsa)
      (median_verify_latency_nanos det) (median_verify_latency_nanos mldsa) in
  Ok (mkPqReport now validator_count iterations output_path
        [scenario "block" deterministic_block ml_dsa_block deterministic_block_size ml_dsa_block_size;
         scenario "proposal_vote" deterministic_vote ml_dsa_vote deterministic_vote_size ml_dsa_vote_size], d).

(** [run_pq_measurement]: the text it writes to the output path. *)
Definition run_pq_measurement (drawn : MlDsa65KeyFile) (temp_dir : string) (pid : Z)
    (latency : nat -> Latency) (now : Z) (output_path : string) (validator_count iterations : Z) (d : Disk)
    : result (string * Disk) :=
  '(report, d) ← build_pq_measurement_report drawn temp_dir pid latency now validator_count iterations
    output_path d;
  Ok (render_markdown report, d).
End report.

(** ** The backends load and sign *)

Lemma measurement_ids_NoDup n : NoDup (measurement_ids n).
Proof. apply NoDup_fmap_2; [|apply NoDup_seq]. intros x y E. by apply Nat2Z.inj in E. Qed.
Lemma measurement_validator_ids n p : validator_id <$> build_measurement_validators n p = measurement_ids n.
Proof.
  unfold build_measurement_validators. rewrite <- list_fmap_compose.
  rewrite <- (list_fmap_id (measurement_ids n)) at 2. by apply list_fmap_ext.
Qed.

Lemma first_measured n p : 1 <= n ->
  validator_config (build_measurement_genesis n p) 1 =
    Ok (mkValidator 1 100 (local_address 3001) "secret-1" p None).
Proof.
  intros Hn. unfold validator_config, build_measurement_genesis, build_measurement_validators. simpl.
  unfold measurement_ids. destruct (Z.to_nat n) as [|k] eqn:E; [lia|]. done.
Qed.

Section loading.
Context `{Hashing} `{MlDsa} `{KeyFiles}.

Lemma verifying_keys_ok vs : forall m,
  Forall (fun v => match encoded_ml_dsa_key (public_identity v) with
                   | None => True | Some k => exists vk, decode_verifying_key k = Ok vk end) vs ->
  exists keys, build_ml_dsa_verifying_key_map_from m vs = Ok keys.
Proof.
  induction vs as [|v vs IH]; intros m Hvs; simpl; [eauto|]. apply Forall_cons in Hvs as [Hv Hvs].
  destruct (encoded_ml_dsa_key _) as [k|]; [|by apply IH]. destruct Hv as [vk ->]. simpl. by apply IH.
Qed.

Lemma measurement_keys n p :
  match encoded_ml_dsa_key p with None => True | Some k => exists vk, decode_verifying_key k = Ok vk end ->
  exists keys, build_ml_dsa_verifying_key_map (build_measurement_genesis n p) = Ok keys.
Proof.
  intros Hp. apply verifying_keys_ok. simpl. apply Forall_forall.
  intros v (id & -> & _)%list_elem_of_fmap. simpl. by destruct (id =? 1).
Qed.

Lemma deterministic_measurement_backend n : 1 <= n ->
  exists b, build_crypto_backend (build_measurement_genesis n (deterministic_public_identity 1))
              deterministic_measurement_config = Ok b.
Proof.
  intros Hn. unfold build_crypto_backend. rewrite (first_measured n) by done. simpl.
  destruct (measurement_keys n (deterministic_public_identity 1) I)
    as [keys ->]. simpl. eauto.
Qed.

Lemma ml_dsa_measurement_backend n path file sk vk : 1 <= n ->
  read_ml_dsa_key_file path = Ok file -> decode_signing_key (mldsa_signing_key file) = Ok sk ->
  decode_verifying_key (mldsa_verifying_key file) = Ok vk -> mldsa_verifying_key file = encode_verifying_key vk ->
  exists b, build_crypto_backend
              (build_measurement_genesis n (single PkMlDsa (mldsa_verifying_key file)))
              (ml_dsa_measurement_config path) = Ok b.
Proof.
  intros Hn Hf Hsk Hvk He. unfold build_crypto_backend. rewrite (first_measured n) by done. simpl.
  unfold load_ml_dsa_signing_material. simpl. rewrite Hf. simpl. rewrite Hsk. simpl. rewrite Hvk. simpl.
  rewrite bool_decide_true by (by rewrite <- He). simpl.
  destruct (measurement_keys n (single PkMlDsa (mldsa_verifying_key file))) as [keys Hk]; [by exists vk|].
  rewrite Hk. simpl. eauto.
Qed.
End loading.

(** ** What is measured *)

Definition sign_samples (iterations : Z) (latency : Latency) : list Z :=
  (fun i => (latency i).1) <$> seq 0 (Z.to_nat (Z.max iterations 1)).
Definition verify_samples (iterations : Z) (latency : Latency) : list Z :=
  (fun i => (latency i).2) <$> seq 0 (Z.to_nat (Z.max iterations 1)).

Section measured.
Context `{Hashing} `{MlDsa} `{KeyFiles}.
Context `{!Bincode PublicIdentity} `{!Bincode TypedSignature} `{!Bincode Block} `{!Bincode ProposalVote}.
Context `{!BincodeLaws PublicIdentity} `{!BincodeLaws TypedSignature}.
Context `{!BincodeLaws Block} `{!BincodeLaws ProposalVote}.

(** [n] is the size of a block (a vote) the backend accepts. *)
Definition valid_block_size (b : ConfiguredCryptoBackend) (n : Z) : Prop := exists blk encoded,
  check_block_seal (H0 := configured_backend b) blk = Ok tt /\
  encode_to_vec blk = Ok encoded /\ n = Z.of_nat (length encoded).
Definition valid_vote_size (b : ConfiguredCryptoBackend) (n : Z) : Prop := exists v encoded,
  configured_verify b (pv_validator v) (hash_to_bytes (proposal_vote_signing_hash v)) (pv_signature v) = Ok true /\
  encode_to_vec v = Ok encoded /\ n = Z.of_nat (length encoded).
(** [n] is the size of a signature of [m] the backend accepts. *)
Definition valid_signature_size (b : ConfiguredCryptoBackend) (m : bytes) (n : Z) : Prop :=
  exists s encoded, configured_verify b 1 m s = Ok true /\ encode_to_vec s = Ok encoded /\
    n = Z.of_nat (length encoded).

Lemma measure_rounds_ok b id m latency s n : forall i signs verifies last,
  configured_sign b id m = Ok s -> configured_verify b id m s = Ok true ->
  measure_rounds b id m latency i n signs verifies last =
    Ok (signs ++ ((fun i => (latency i).1) <$> seq i n), verifies ++ ((fun i => (latency i).2) <$> seq i n),
        match n with O => last | S _ => Some s end).
Proof.
  induction n as [|n IH]; intros i signs verifies last Hs Hv; simpl; [by rewrite !app_nil_r|].
  rewrite Hs. simpl. rewrite Hv. simpl. rewrite IH by done. rewrite <- !app_assoc. by destruct n.
Qed.

Section backend.
Context (name : string) (g : GenesisConfig) (c : NodeConfig) (b : ConfiguredCryptoBackend).
Context (v : ValidatorConfig).
Hypothesis built : build_crypto_backend g c = Ok b.
Hypothesis first : validator_config g 1 = Ok v.
(** Its first validator's signatures verify. *)
Hypothesis signs : forall m, exists s, configured_sign b 1 m = Ok s /\ configured_verify b 1 m s = Ok true.

Lemma measure_signing_backend_ok m iterations latency :
  exists r, measure_signing_backend name g c 1 m iterations latency = Ok r /\
    valid_signature_size b m (signature_size_bytes r) /\ sr_iterations r = Z.max iterations 1 /\
    upper_median (sign_samples iterations latency) (median_sign_latency_nanos r) /\
    upper_median (verify_samples iterations latency) (median_verify_latency_nanos r).
Proof.
  destruct (signs m) as (s & Hs & Hv). unfold measure_signing_backend. rewrite built. simpl. rewrite first. simpl.
  rewrite (measure_rounds_ok b 1 m latency s) by done. simpl.
  destruct (Z.to_nat (Z.max iterations 1)) as [|n] eqn:En; [lia|]. cbn [mbind result_bind ok_or].
  destruct (encode_total (public_identity v)) as [ib Hib]. rewrite Hib. cbn [mbind result_bind].
  destruct (encode_total s) as [sb Hsb]. rewrite Hsb. cbn [mbind result_bind].
  eexists. split; [reflexivity|]. unfold sign_samples, verify_samples. rewrite En.
  split_and!; [by exists s, sb|done|by apply median_nanos_upper..].
Qed.

Lemma signed_block_size_ok : exists n, signed_block_size g c 1 = Ok n /\ valid_block_size b n.
Proof.
  destruct (signs (hash_to_bytes sample_block_signing_hash)) as (s & Hs & Hv).
  destruct (encode_total (sample_block empty_hash s)) as [eb Heb].
  eexists. split.
  - unfold signed_block_size. rewrite built. cbn [mbind result_bind]. rewrite Hs. cbn [mbind result_bind].
    rewrite Heb. reflexivity.
  - exists (sample_block empty_hash s), eb. split_and!; [|done|done]. unfold check_block_seal.
    change (block_content_hash (sample_block empty_hash s)) with (block_hash (sample_block empty_hash s)).
    rewrite Z.eqb_refl. cbn [ensure mbind result_bind verify configured_backend].
    change (configured_verify b (proposer_id _) _ _)
      with (configured_verify b 1 (hash_to_bytes sample_block_signing_hash) s). by rewrite Hv.
Qed.

Lemma signed_vote_size_ok : exists n, signed_vote_size g c 1 = Ok n /\ valid_vote_size b n.
Proof.
  destruct (signs (hash_to_bytes (proposal_vote_signing_hash unsigned_proposal_vote))) as (s & Hs & Hv).
  destruct (encode_total (signed_vote s)) as [eb Heb]. eexists. split.
  - unfold signed_vote_size. rewrite built. cbn [mbind result_bind]. rewrite Hs. cbn [mbind result_bind].
    rewrite Heb. reflexivity.
  - exists (signed_vote s), eb. split_and!; [exact Hv|done|done].
Qed.
End backend.
End measured.

(** ** The command *)

Section command.
Context `{Hashing} `{MlDsa}.
Context `{!Bincode PublicIdentity} `{!Bincode TypedSignature} `{!Bincode Block} `{!Bincode ProposalVote}.
Context `{!BincodeLaws PublicIdentity} `{!BincodeLaws TypedSignature}.
Context `{!BincodeLaws Block} `{!BincodeLaws ProposalVote}.
Context (drawn : MlDsa65KeyFile) (sk : SigningKey) (vk : VerifyingKey).

(** The drawn file holds the encodings of a key pair. *)
Hypothesis key_codec : forall vk, decode_verifying_key (encode_verifying_key vk) = Ok vk.
Hypothesis drawn_signing_key : decode_signing_key (mldsa_signing_key drawn) = Ok sk.
Hypothesis drawn_verifying_key : mldsa_verifying_key drawn = encode_verifying_key vk.
Hypothesis drawn_pair : key_pair sk vk.

(** What a row of the table says of the two backends. *)
Definition row_measures (deterministic ml_dsa : ConfiguredCryptoBackend)
    (message : bytes) (valid_size : ConfiguredCryptoBackend -> Z -> Prop)
    (iterations : Z) (det_latency ml_dsa_latency : Latency) (s : PqMeasurementScenario) : Prop :=
  valid_signature_size deterministic message (deterministic_signature_size_bytes s) /\
  valid_signature_size ml_dsa message (ml_dsa_signature_size_bytes s) /\
  valid_size deterministic (deterministic_message_size_bytes s) /\
  valid_size ml_dsa (ml_dsa_message_size_bytes s) /\
  upper_median (sign_samples iterations det_latency) (deterministic_median_sign_latency_nanos s) /\
  upper_median (sign_samples iterations ml_dsa_latency) (ml_dsa_median_sign_latency_nanos s) /\
  upper_median (verify_samples iterations det_latency) (deterministic_median_verify_latency_nanos s) /\
  upper_median (verify_samples iterations ml_dsa_latency) (ml_dsa_median_verify_latency_nanos s).

Lemma measurement_signs g c b (files : KeyFiles) :
  node_id c = 1 -> NoDup (validator_id <$> validators g) -> signing_setup (H1 := files) g c ->
  build_crypto_backend (H1 := files) g c = Ok b ->
  forall m, exists s, configured_sign b 1 m = Ok s /\ configured_verify b 1 m s = Ok true.
Proof.
  intros Hc Hnd Hset Hb m. rewrite <- Hc. exact (built_backend_signs key_codec g c c b b m Hnd Hset Hb Hb).
Qed.

(** Both networks load a backend that signs for their first validator. *)
Lemma measurement_backends validator_count path d :
  1 <= validator_count ->
  let d' := write_signing_key path drawn d in
  let gd := build_measurement_genesis validator_count (deterministic_public_identity 1) in
  let g := build_measurement_genesis validator_count (single PkMlDsa (mldsa_verifying_key drawn)) in
  let c := ml_dsa_measurement_config path in
  exists det ml,
    build_crypto_backend (H1 := disk_key_files d') gd deterministic_measurement_config = Ok det /\
    build_crypto_backend (H1 := disk_key_files d') g c = Ok ml /\
    (forall m, exists s, configured_sign det 1 m = Ok s /\ configured_verify det 1 m s = Ok true) /\
    (forall m, exists s, configured_sign ml 1 m = Ok s /\ configured_verify ml 1 m s = Ok true).
Proof.
  intros Hn d' gd g c.
  assert (Hfile : read_ml_dsa_key_file (KeyFiles := disk_key_files d') path = Ok drawn).
  { simpl. unfold read_file. simpl. by rewrite lookup_insert_eq. }
  assert (Hvk : decode_verifying_key (mldsa_verifying_key drawn) = Ok vk) by (by rewrite drawn_verifying_key).
  destruct (deterministic_measurement_backend (H1 := disk_key_files d') validator_count Hn) as [det Hdet].
  destruct (ml_dsa_measurement_backend (H1 := disk_key_files d') validator_count path drawn sk vk Hn Hfile
    drawn_signing_key Hvk drawn_verifying_key) as [ml Hml].
  assert (Hnd : forall p, NoDup (validator_id <$> validators (build_measurement_genesis validator_count p)))
    by (intros p; simpl; rewrite measurement_validator_ids; apply measurement_ids_NoDup).
  assert (Hset : signing_setup (H1 := disk_key_files d') g c).
  { split; [|done]. intros path' file sk' vk' [= <-] Hf' Hsk' Hvk'. rewrite Hfile in Hf'.
    injection Hf' as <-. rewrite drawn_signing_key in Hsk'. rewrite Hvk in Hvk'.
    injection Hsk' as <-. by injection Hvk' as <-. }
  exists det, ml. split_and!; [done|done|..].
  - exact (measurement_signs gd deterministic_measurement_config det (disk_key_files d') eq_refl (Hnd _) I Hdet).
  - exact (measurement_signs g c ml (disk_key_files d') eq_refl (Hnd _) Hset Hml).
Qed.

(** The measurement of one or more validators always completes, whatever
    the number of iterations: both networks load their backends and the
    report has a row for the block and one for the vote, in which every
    message size is that of a message the backend's verifiers accept (a block
    whose seal checks, a vote whose signature verifies), every signature size
    that of a verifying signature, and every latency an upper median of the
    readings of at least one iteration. *)
Lemma measurement_completes temp_dir pid latency now validator_count iterations output_path d :
  1 <= validator_count ->
  exists report d' det ml_dsa block vote,
    build_pq_measurement_report drawn temp_dir pid latency now validator_count iterations output_path d =
      Ok (report, d') /\
    build_crypto_backend (H1 := disk_key_files d')
      (build_measurement_genesis validator_count (deterministic_public_identity 1))
      deterministic_measurement_config = Ok det /\
    build_crypto_backend (H1 := disk_key_files d')
      (ml_dsa_measurement_setup drawn temp_dir pid validator_count d).1.1
      (ml_dsa_measurement_setup drawn temp_dir pid validator_count d).1.2 = Ok ml_dsa /\
    pq_scenarios report = [block; vote] /\ pq_label block = "block"%string /\ pq_label vote = "proposal_vote"%string /\
    row_measures det ml_dsa (hash_to_bytes sample_block_signing_hash) valid_block_size iterations
      (latency 0%nat) (latency 1%nat) block /\
    row_measures det ml_dsa (hash_to_bytes (proposal_vote_signing_hash unsigned_proposal_vote)) valid_vote_size
      iterations (latency 2%nat) (latency 3%nat) vote.
Proof.
  intros Hn. unfold build_pq_measurement_report.
  destruct (ml_dsa_measurement_setup drawn temp_dir pid validator_count d) as [[g c] d'] eqn:Esetup.
  unfold ml_dsa_measurement_setup in Esetup.
  set (path := path_join temp_dir _) in Esetup. injection Esetup as <- <- <-.
  destruct (measurement_backends validator_count path d Hn) as (det & ml & Hdet & Hml & Hsd & Hsm).
  assert (Hfd := first_measured validator_count (deterministic_public_identity 1) Hn).
  assert (Hfm := first_measured validator_count (single PkMlDsa (mldsa_verifying_key drawn)) Hn).
  set (d' := write_signing_key path drawn d) in *. set (gd := build_measurement_genesis _ _) in Hdet, Hfd |- *.
  set (g := build_measurement_genesis _ _) in Hml, Hfm |- *. set (c := ml_dsa_measurement_config path) in *.
  set (bm := hash_to_bytes sample_block_signing_hash). set (vm := hash_to_bytes _).
  destruct (measure_signing_backend_ok "deterministic" gd _ det _ Hdet Hfd Hsd bm iterations (latency 0%nat))
    as (r0 & E0 & Hs0 & _ & Hm0 & Hv0).
  destruct (measure_signing_backend_ok "ml-dsa" g c ml _ Hml Hfm Hsm bm iterations (latency 1%nat))
    as (r1 & E1 & Hs1 & _ & Hm1 & Hv1).
  destruct (measure_signing_backend_ok "deterministic" gd _ det _ Hdet Hfd Hsd vm iterations (latency 2%nat))
    as (r2 & E2 & Hs2 & _ & Hm2 & Hv2).
  destruct (measure_signing_backend_ok "ml-dsa" g c ml _ Hml Hfm Hsm vm iterations (latency 3%nat))
    as (r3 & E3 & Hs3 & _ & Hm3 & Hv3).
  destruct (signed_block_size_ok gd _ det Hdet Hsd) as (n0 & F0 & G0).
  destruct (signed_block_size_ok g c ml Hml Hsm) as (n1 & F1 & G1).
  destruct (signed_vote_size_ok gd _ det Hdet Hsd) as (n2 & F2 & G2).
  destruct (signed_vote_size_ok g c ml Hml Hsm) as (n3 & F3 & G3).
  rewrite E0. cbn [mbind result_bind]. rewrite E1. cbn [mbind result_bind]. rewrite E2. cbn [mbind result_bind].
  rewrite E3. cbn [mbind result_bind]. rewrite F0. cbn [mbind result_bind]. rewrite F1. cbn [mbind result_bind].
  rewrite F2. cbn [mbind result_bind]. rewrite F3. cbn [mbind result_bind].
  eexists _, d', det, ml, _, _. by split_and!.
Qed.
End command.

Module MeasureExample.
#[local] Existing Instance concrete_hashing.
#[local] Existing Instance concrete_mldsa.
#[local] Existing Instance HandshakeExample.countable_bincode.
#[local] Existing Instance HandshakeExample.countable_bincode_laws.
#[local] Instance public_scheme_countable : Countable PublicKeyScheme.
Proof.
  refine (inj_countable' (fun s => match s with PkDevDeterministic => 0 | PkEd25519 => 1
                                              | PkMlDsa => 2 | PkHybrid => 3 end)
    (fun z => match z with 0 => PkDevDeterministic | 1 => PkEd25519 | 2 => PkMlDsa | _ => PkHybrid end) _).
  by intros [].
Defined.

Definition example_key : MlDsa65KeyFile := mkMlDsaKeyFile [9] [9].
Definition example_latency (run i : nat) : Z * Z := (Z.of_nat (10 - 3 * i), Z.of_nat (run + i)).

Example median_of_four : median_nanos [4; 1; 9; 7] = 7.
Proof. reflexivity. Qed.

Example one_report :
  render_signing_measurement_report [mkSigningReport "ml-dsa" SigMlDsa 10 20 30 40 5] =
  ("# PQ Signing Measurements" +:+ newline +:+ newline +:+ "## ML-DSA" +:+ newline +:+ newline
   +:+ "- Backend id: `ml-dsa`" +:+ newline +:+ "- Signature scheme: `MlDsa`" +:+ newline
   +:+ "- Public identity size: `10` bytes" +:+ newline +:+ "- Signature size: `20` bytes" +:+ newline
   +:+ "- Median sign latency: `30` ns" +:+ newline +:+ "- Median verify latency: `40` ns" +:+ newline
   +:+ "- Iterations: `5`" +:+ newline +:+ newline).
Proof. vm_compute. reflexivity. Qed.

(** Two validators, no iterations asked for: one is made. *)
Lemma measurement_completes_witness : exists report d' block vote,
  build_pq_measurement_report example_key "/tmp" 7 example_latency 100 2 0 "out.md" empty_disk = Ok (report, d') /\
  pq_scenarios report = [block; vote] /\ upper_median [10] (ml_dsa_median_sign_latency_nanos block) /\
  upper_median [2] (deterministic_median_verify_latency_nanos vote).
Proof.
  destruct (measurement_completes (H0 := concrete_mldsa) example_key 9 9 (fun _ => eq_refl) eq_refl eq_refl) with
    (temp_dir := "/tmp"%string) (pid := 7) (latency := example_latency) (now := 100) (validator_count := 2)
    (iterations := 0) (output_path := "out.md"%string) (d := empty_disk)
    as (report & d' & det & ml & block & vote & Hr & _ & _ & Hs & _ & _ & Hb & Hv).
  - intros m. split; [done|]. by apply bool_decide_true.
  - done.
  - exists report, d', block, vote. split_and!; [exact Hr|exact Hs|apply Hb|apply Hv].
Defined.
End MeasureExample.
