(* ===== verification/Load.v ===== *)
(** * What the load generator sends

    Theorems about [load_scenario] of Localnet: the transactions it writes are
    executable in the order written, never pay the sender, and conserve the
    supply; a network with hybrid enforcement refuses all of them. *)
From stdpp Require Import pretty.
From S2P Require Import Prelude F64 Hybrid Types Concrete Crypto Sessions Ledger Consensus Policy.
From S2P Require Import NodeState Branches Receipts Localnet.

Open Scope Z_scope.

Lemma validator_account_inj i j : validator_account i = validator_account j -> i = j.
Proof. unfold validator_account. intros E%(inj _). by apply (inj pretty) in E. Qed.

Lemma numbers_nonneg n i : i ∈ numbers n -> 0 <= i.
Proof. intros (k & -> & _)%list_elem_of_fmap. lia. Qed.

Lemma Forall_concat_map {A B} (P : B -> Prop) (f : A -> list B) (l : list A) :
  (forall a, a ∈ l -> Forall P (f a)) -> Forall P (concat (f <$> l)).
Proof.
  induction l as [|a l IH]; intros Hf; csimpl; [constructor|].
  apply Forall_app. split; [apply Hf; set_solver|]. apply IH. set_solver.
Qed.

Section load.
Context `{Hashing}.

Lemma recipient_other g id q a large r :
  deterministic_recipient_id g id q a large = Some r -> r <> id.
Proof.
  unfold deterministic_recipient_id. destruct (filter _ _) as [|x l] eqn:E; [done|].
  rewrite <- E. intros Hr%list_elem_of_lookup_2. by apply list_elem_of_filter in Hr as [? _].
Qed.

(** With another validator there is always a recipient. *)
Lemma recipient_exists g id other q a large :
  other ∈ validator_id <$> validators g -> other <> id ->
  is_Some (deterministic_recipient_id g id q a large).
Proof.
  intros Hin Hne. unfold deterministic_recipient_id.
  assert (Ho : other ∈ filter (fun x => x <> id) (validator_id <$> validators g))
    by (by apply list_elem_of_filter).
  destruct (filter _ _) as [|x l] eqn:E; [by apply elem_of_nil in Ho|].
  apply lookup_lt_is_Some_2. rewrite <- E.
  match goal with |- (Z.to_nat (?z mod ?n) < _)%nat =>
    pose proof (Z.mod_pos_bound z n) as Hb end.
  rewrite E in *. simpl in *. lia.
Qed.

(** What the account pays in these steps. *)
Definition outgoing (a : AccountId) (steps : list LoadStep) : Z :=
  foldr (fun s acc => (if decide (validator_account (ls_validator s) = a) then ls_amount s else 0) + acc)
    0 steps.

Lemma outgoing_nonneg a steps : Forall (fun s => 0 <= ls_amount s) steps -> 0 <= outgoing a steps.
Proof. induction 1; simpl; [lia|]. case_decide; lia. Qed.

Context `{CryptoBackend}.
Variable g : GenesisConfig.

(** The nodes accept the deterministic signatures of the genesis validators. *)
Hypothesis accepts_deterministic : forall id m s, id ∈ validator_id <$> validators g ->
  deterministic_sign (from_validators (validators g)) id m = Ok s -> verify id m s = Ok true.
Hypothesis ids_distinct : NoDup (validator_id <$> validators g).
Hypothesis two_validators : (2 <= length (validators g))%nat.

Lemma another_validator id : exists other, other ∈ validator_id <$> validators g /\ other <> id.
Proof.
  pose proof ids_distinct as Hnd. destruct (validators g) as [|v [|w l]]; simpl in *; [lia..|].
  rewrite !NoDup_cons, not_elem_of_cons in Hnd. destruct Hnd as ((Hvw & _) & _).
  destruct (decide (validator_id v = id)) as [<-|Hv].
  - exists (validator_id w). split; [set_solver|]. congruence.
  - exists (validator_id v). split; [set_solver|done].
Qed.

Lemma can_sign_for id m : id ∈ validator_id <$> validators g ->
  exists s, deterministic_sign (from_validators (validators g)) id m = Ok s.
Proof.
  intros (v & -> & Hv)%list_elem_of_fmap. unfold deterministic_sign, secret, from_validators.
  rewrite (foldl_insert_lookup validator_id dev_secret _ _ v) by done. simpl. eauto.
Qed.

(** The ledger and the generator agree on the nonces. *)
Definition same_nonces (st : LedgerState) (next_nonce : gmap AccountId Z) : Prop :=
  forall a, nonce_of st a = default 0 (next_nonce !! a).

(** A written transaction is valid and leaves the agreement intact. *)
Lemma write_executes now nn st s :
  ls_validator s ∈ validator_id <$> validators g -> same_nonces st nn ->
  0 <= ls_amount s <= balance_of st (validator_account (ls_validator s)) ->
  exists f nn' st', write_transaction_for_validator g now nn s = Ok (f, nn') /\
    validate_tx st (if_transaction f) = Ok tt /\
    apply_transaction st (if_transaction f) = Ok st' /\ same_nonces st' nn' /\
    let tx := stx_transaction (if_transaction f) in
    tx_from tx = validator_account (ls_validator s) /\ tx_amount tx = ls_amount s /\
    tx_from tx <> tx_to tx.
Proof.
  intros Hid Hn Ha. unfold write_transaction_for_validator.
  destruct (another_validator (ls_validator s)) as (other & Ho & Hne).
  destruct (recipient_exists g (ls_validator s) other (ls_sequence s) (ls_amount s)
    (ls_large_memo s) Ho Hne) as [r Hr].
  rewrite Hr. simpl.
  match goal with |- context [deterministic_sign _ _ ?m] =>
    destruct (can_sign_for (ls_validator s) m Hid) as [sig Hs] end.
  rewrite Hs. simpl. do 3 eexists. split; [reflexivity|]. simpl.
  set (acct := validator_account (ls_validator s)) in *.
  unfold validate_tx, apply_transaction. simpl. rewrite Z.eqb_refl, String.eqb_refl. simpl.
  rewrite (accepts_deterministic _ _ _ Hid Hs). simpl.
  destruct (Z.leb_spec (ls_amount s) (balance_of st acct)); [|lia]. simpl.
  rewrite (Hn acct), Z.eqb_refl. destruct (Z.ltb_spec (balance_of st acct) (ls_amount s)); [lia|].
  split_and!; try reflexivity.
  - intros a. unfold nonce_of, get_or_zero. simpl. rewrite !lookup_insert.
    fold acct. destruct (decide (acct = a)); [done|]. apply Hn.
  - simpl. intros E%validator_account_inj. by apply recipient_other in Hr.
Qed.

(** What a transfer leaves to the other accounts. *)
Lemma transfer_keeps_balance st t st' a :
  supply_ok st -> 0 <= tx_amount (stx_transaction t) ->
  tx_from (stx_transaction t) <> tx_to (stx_transaction t) -> apply_transaction st t = Ok st' ->
  balance_of st a - (if decide (tx_from (stx_transaction t) = a) then tx_amount (stx_transaction t) else 0)
    <= balance_of st' a.
Proof.
  intros Hok Ha Hne Happ. destruct (apply_transaction_supply st t st' Hok Ha Hne Happ) as [Hs [Hn' _]].
  destruct Hok as [Hn Hmax]. unfold apply_transaction in Happ.
  destruct (Z.ltb_spec (balance_of st (tx_from (stx_transaction t))) (tx_amount (stx_transaction t)));
    [done|]. injection Happ as <-. unfold balance_of in *. simpl in *.
  set (from := tx_from (stx_transaction t)) in *. set (to := tx_to (stx_transaction t)) in *.
  rewrite !get_or_zero_insert.
  assert (Hsum : get_or_zero (balances st) from + get_or_zero (balances st) to <= supply (balances st)).
  { rewrite (supply_delete _ from).
    assert (Hd : non_negative (delete from (balances st))) by (by apply map_Forall_delete).
    pose proof (balance_le_supply _ to Hd) as Hb. unfold get_or_zero at 2. unfold get_or_zero in Hb.
    rewrite lookup_delete_ne in Hb by done. lia. }
  pose proof (balance_le_supply _ from Hn). pose proof (balance_le_supply _ to Hn).
  repeat case_decide; subst; try done; try lia. rewrite wadd_small; lia.
Qed.

Definition step_ok (s : LoadStep) : Prop :=
  ls_validator s ∈ validator_id <$> validators g /\ 0 <= ls_amount s.

Lemma run_load_executes clock i nn st steps :
  supply_ok st -> same_nonces st nn -> Forall step_ok steps ->
  (forall a, outgoing a steps <= balance_of st a) ->
  exists fs nn' st', run_load g clock i nn steps = (fs, Ok nn') /\ length fs = length steps /\
    apply_transactions st (if_transaction <$> fs) = (st', Ok tt) /\
    supply (balances st') = supply (balances st) /\
    Forall (fun f => tx_from (stx_transaction (if_transaction f)) <>
                     tx_to (stx_transaction (if_transaction f))) fs.
Proof.
  revert i nn st. induction steps as [|s steps IH]; intros i nn st Hok Hn Hst Hout.
  { exists [], nn, st. done. }
  apply Forall_cons in Hst as [[Hid Hamt] Hst].
  assert (Hrest : forall a, 0 <= outgoing a steps)
    by (intros a; apply outgoing_nonneg; eapply Forall_impl; [exact Hst|]; by intros x [_ ?]).
  destruct (write_executes (clock i) nn st s Hid Hn) as (f & nn1 & st1 & Hw & Hv & Ha & Hn1 & Hf & Hfa & Hne).
  { specialize (Hout (validator_account (ls_validator s))). simpl in Hout.
    rewrite decide_True in Hout by done. specialize (Hrest (validator_account (ls_validator s))). lia. }
  destruct (apply_transaction_supply st _ st1 Hok ltac:(rewrite Hfa; done) Hne Ha) as [Hs1 Hok1].
  destruct (IH (S i) nn1 st1 Hok1 Hn1 Hst) as (fs & nn' & st' & Hr & Hl & Hap & Hs & Hfs).
  { intros a. pose proof (transfer_keeps_balance st _ st1 a Hok ltac:(rewrite Hfa; done) Hne Ha) as Hk.
    specialize (Hout a). simpl in Hout. rewrite Hf, Hfa in Hk. lia. }
  exists (f :: fs), nn', st'. csimpl. rewrite Hw, Hr, Hv. simpl. rewrite Ha. simpl. rewrite Hap.
  split_and!; try done.
  - by rewrite Hl.
  - lia.
  - by constructor.
Qed.

(** Every step of a scenario is for a genesis validator. *)
Lemma load_plan_ok scenario duration : Forall step_ok (load_plan g scenario duration).
Proof.
  clear accepts_deterministic ids_distinct two_validators.
  assert (Hv : forall v, v ∈ validators g -> validator_id v ∈ validator_id <$> validators g)
    by (intros v Hv; by apply list_elem_of_fmap_2).
  destruct scenario; unfold load_plan; [by apply Forall_nil|..]; apply Forall_concat_map.
  - intros second _. apply Forall_fmap, Forall_forall. intros v Hin. by split; [apply Hv|].
  - intros second _. destruct (_ =? 0); [|constructor]. apply Forall_concat_map. intros v Hin.
    apply Forall_fmap, Forall_forall. intros b Hb%numbers_nonneg. split; [by apply Hv|simpl; lia].
  - intros v Hin. apply Forall_fmap, Forall_forall. intros b _. by split; [apply Hv|].
Qed.

(** Without a snapshot the generator starts from zero, as the ledger does. *)
Lemma fresh_nonces : same_nonces (from_genesis g) (current_nonces g None).
Proof.
  intros a. unfold nonce_of, get_or_zero, from_genesis. simpl. rewrite lookup_empty. simpl.
  enough (Hz : forall vs m, (forall a, default 0 (m !! a) = 0) -> forall a,
    default 0 (foldl (fun m v => <[validator_account (validator_id v) := 0]> m) m vs !! a) = 0)
    by (by rewrite Hz by (intros; by rewrite lookup_empty)).
  clear. intros vs. induction vs as [|v vs IH]; intros m Hm a; simpl; [apply Hm|].
  apply IH. intros a'. rewrite lookup_insert. case_decide; [done|apply Hm].
Qed.

(** C38: A load scenario always runs through, one file per planned transaction,
    and the transactions execute in the order written on the ledger whose
    nonces it read: each is signed and numbered as the ledger expects, is
    covered when every sender owns what it is to pay, goes to another
    account, and the total supply stays the same. *)
Theorem load_executes scenario duration snapshot clock st :
  match snapshot with Some s => st = s | None => st = from_genesis g end ->
  supply_ok st -> (forall a, outgoing a (load_plan g scenario duration) <= balance_of st a) ->
  exists fs nn' st', load_scenario g snapshot scenario duration clock = (fs, Ok nn') /\
    length fs = length (load_plan g scenario duration) /\
    apply_transactions st (if_transaction <$> fs) = (st', Ok tt) /\
    supply (balances st') = supply (balances st) /\
    Forall (fun f => tx_from (stx_transaction (if_transaction f)) <>
                     tx_to (stx_transaction (if_transaction f))) fs.
Proof.
  intros Hsnap Hok Hout. apply run_load_executes; [done| |apply load_plan_ok|done].
  destruct snapshot as [s|]; subst st; [done|apply fresh_nonces].
Qed.
End load.

(** ** Hybrid enforcement *)

Section hybrid.
Context `{Hashing} `{CryptoBackend}.

Lemma written_signature g now nn s f nn' :
  write_transaction_for_validator g now nn s = Ok (f, nn') ->
  c_scheme (stx_signature (if_transaction f)) = SigDevDeterministic.
Proof.
  unfold write_transaction_for_validator.
  intros (r & _ & (sig & Hs & [= <- _])%result_bind_ok)%result_bind_ok. simpl.
  by apply deterministic_sign_inv in Hs as (-> & _).
Qed.

Lemma run_load_signatures g clock i nn steps :
  Forall (fun f => c_scheme (stx_signature (if_transaction f)) = SigDevDeterministic)
    (run_load g clock i nn steps).1.
Proof.
  revert i nn. induction steps as [|s steps IH]; intros i nn; simpl; [constructor|].
  destruct (write_transaction_for_validator g (clock i) nn s) as [[f nn']|] eqn:E; [|constructor].
  specialize (IH (S i) nn'). destruct (run_load g clock (S i) nn' steps) as [fs r]. simpl in *.
  constructor; [by eapply written_signature|done].
Qed.

(** The generator signs with the deterministic backend whatever the nodes
    sign with, so a node that enforces hybrid signatures admits none of its
    transactions: each one leaves the node as it was. *)
Lemma hybrid_network_refuses_load config e g snapshot scenario duration clock s :
  require_hybrid_validator_signatures (feature_flags config) = true ->
  Forall (fun f => (handle_transaction config e (if_transaction f) (node_id config) true s).2 = s)
    (load_scenario g snapshot scenario duration clock).1.
Proof.
  intros Hreq. eapply Forall_impl; [apply run_load_signatures|]. intros f Hf. simpl in Hf.
  unfold handle_transaction. rewrite run_gets. destruct (bool_decide _); [done|].
  rewrite run_get. unfold validate_tx_against_mempool.
  assert (Hp : is_ok (validate_hybrid_transaction_policy config (if_transaction f)) = false).
  { unfold validate_hybrid_transaction_policy, hybrid_policy, flags. rewrite Hreq, Hf. done. }
  destruct (validate_hybrid_transaction_policy config (if_transaction f)); [done|]. done.
Qed.
End hybrid.

(** ** A small network *)

Module LoadExample.
#[local] Existing Instance concrete_hashing.

Definition small_validator (id : ValidatorId) : ValidatorConfig :=
  mkValidator id 100 "127.0.0.1" (dev_secret_of id) (deterministic_public_identity id) None.
Definition small_genesis : GenesisConfig :=
  mkGenesis "small" 0 0 1000 10 16 1 [small_validator 1; small_validator 2]
    {[validator_account 1 := 50; validator_account 2 := 50]}.
Definition secrets : gmap ValidatorId string := from_validators (validators small_genesis).
#[local] Instance small_backend : CryptoBackend := DeterministicCryptoBackend secrets.

Lemma small_supply : supply_ok (from_genesis small_genesis).
Proof.
  split; [|vm_compute; reflexivity]. apply map_Forall_lookup. intros a x Hx.
  change ((<[validator_account 1 := 50]> {[validator_account 2 := 50]} : gmap AccountId Z) !! a = Some x)
    in Hx.
  apply lookup_insert_Some in Hx as [[_ <-]|[_ Hx]]; [lia|].
  apply lookup_singleton_Some in Hx as [_ <-]. lia.
Qed.

Lemma load_executes_witness :
  exists fs nn' st', load_scenario small_genesis None Steady 2 Z.of_nat = (fs, Ok nn') /\
    length fs = 4%nat /\
    apply_transactions (from_genesis small_genesis) (if_transaction <$> fs) = (st', Ok tt) /\
    supply (balances st') = 100.
Proof.
  destruct (load_executes small_genesis) with (scenario := Steady) (duration := 2)
    (snapshot := @None StateSnapshot) (clock := Z.of_nat) (st := from_genesis small_genesis)
    as (fs & nn' & st' & Hr & Hl & Ha & Hs & _).
  - intros id m s _. apply deterministic_sign_verify.
  - vm_compute. apply NoDup_cons. split; [|apply NoDup_singleton].
    intros Hin. apply list_elem_of_singleton in Hin. discriminate.
  - simpl. lia.
  - reflexivity.
  - exact small_supply.
  - intros a. unfold outgoing, load_plan. simpl.
    pose proof (balance_le_supply _ a (proj1 small_supply)) as Hb.
    unfold balance_of. simpl in *. repeat case_decide; subst; try (vm_compute; discriminate); lia.
  - exists fs, nn', st'. split_and!; [exact Hr|exact Hl|exact Ha|]. rewrite Hs. vm_compute. reflexivity.
Defined.

Definition strict_config : NodeConfig :=
  mkNodeConfig 1 "" "" "" [] "" ""
    (mkFlags true false true true 3 f64_zero 4 default_service_score_weights)
    default_fault_profile false SbDevDeterministic None SeDevDeterministic None None.
Definition some_node : NodeRunner :=
  mkNode (mkChain (from_genesis small_genesis) [] [] []) (mkVotes ∅ ∅ ∅) (mkPool ∅ ∅ ∅ [] ∅ ∅)
    (mkService ∅ ∅ ∅ ∅ ∅ ∅ 0 0 ∅ ∅ ∅ ∅) (mkSlots None None None None false)
    (mkSync ∅ ∅ None None ∅ ∅ ∅) (mkStorage [] [] [] [] [] [] None)
    (mkMetrics (fun _ => 0) 0 0 0 f64_zero default_counters ∅) [] [] 0.

Lemma hybrid_network_refuses_load_witness :
  let fs := (load_scenario small_genesis None Steady 2 Z.of_nat).1 in
  length fs = 4%nat /\
  Forall (fun f => (handle_transaction strict_config (new_engine small_genesis) (if_transaction f) 1
                      true some_node).2 = some_node) fs.
Proof.
  split; [vm_compute; reflexivity|].
  exact (hybrid_network_refuses_load strict_config (new_engine small_genesis) small_genesis None Steady
           2 Z.of_nat some_node eq_refl).
Defined.
End LoadExample.
