(* ===== verification/Startup.v ===== *)
(** * Initialised networks run

    Theorems about [init_localnet] of Localnet: the files it writes describe
    a consistent network, and every node started from them loads its keys and
    completes handshakes with every other. *)
From stdpp Require Import pretty.
From Stdlib Require Import Ascii.
From S2P Require Import Prelude Paths F64 Hybrid Types Concrete Crypto Sessions Handshakes Ledger.
From S2P Require Import Consensus Policy NodeState Branches Receipts Localnet Load.

Open Scope Z_scope.

(** ** Paths *)

Lemma digit_no_slash n : (n < 10)%N -> pretty_N_char n <> "/"%char.
Proof. intros Hn. destruct n as [|p]; [done|]. do 4 (destruct p as [p|p|]; try done; try lia). Qed.

Lemma pretty_N_go_slash x s : s <> ""%string -> ends_with_slash (pretty_N_go x s) = ends_with_slash s.
Proof.
  revert s. induction (N.lt_wf_0 x) as [x _ IH]. intros s Hs.
  destruct (decide (x = 0%N)) as [->|Hx]; [by rewrite pretty_N_go_0|].
  rewrite pretty_N_go_step by lia. rewrite IH; [|apply N.div_lt; lia|done].
  destruct s as [|c s]; [done|]. done.
Qed.

Lemma pretty_no_slash (z : Z) : ends_with_slash (pretty z) = false.
Proof.
  assert (Hn : forall x, ends_with_slash (pretty (N.pos x)) = false).
  { intros x. unfold pretty, pretty_N. rewrite decide_False by done.
    rewrite pretty_N_go_step by lia. rewrite pretty_N_go_slash by done.
    unfold ends_with_slash. simpl. apply bool_decide_false, digit_no_slash, N.mod_lt. done. }
  destruct z as [|p|p]; [done|apply Hn|]. unfold pretty, pretty_Z.
  change (pretty p) with (pretty (N.pos p)).
  rewrite ends_with_slash_app; [apply Hn|]. intros E. specialize (Hn p). by rewrite E in Hn.
Qed.

Lemma node_dir_no_slash base id : ends_with_slash (node_dir base id) = false.
Proof.
  assert (Hne : "node-" +:+ pretty id <> ""%string) by done.
  assert (Hs : ends_with_slash ("node-" +:+ pretty id) = false).
  { rewrite ends_with_slash_app; [apply pretty_no_slash|]. intros E.
    pose proof (pretty_no_slash id) as Hp. by rewrite E in Hp. }
  unfold node_dir, path_join. destruct (ends_with_slash base).
  - by rewrite ends_with_slash_app.
  - rewrite ends_with_slash_app by done. by rewrite ends_with_slash_app.
Qed.

(** Files of one name in different node directories are different. *)
Lemma in_node_dir_inj base name i j :
  path_join (node_dir base i) name = path_join (node_dir base j) name -> i = j.
Proof.
  unfold path_join at 1 2. rewrite !node_dir_no_slash. intros E%string_app_inv_r.
  apply (inj (path_join _)) in E. apply (inj _) in E. by apply (inj pretty) in E.
Qed.

Section init.
Context `{Hashing}.
Variable drawn : ValidatorId -> MlDsa65KeyFile * MlKemSessionKeyFile.
Variable args : InitLocalnet.

Definition signing_path (id : ValidatorId) : string :=
  path_join (node_dir (in_base_dir args) id) "ml-dsa-key.json".
Definition session_path (id : ValidatorId) : string :=
  path_join (node_dir (in_base_dir args) id) "ml-kem-session-key.json".

(** What a validator gets, in closed form. *)
Definition material_of (id : ValidatorId) : LocalnetValidatorMaterial :=
  if in_hybrid_enforcement args then
    mkMaterial
      (mkValidator id 100 (local_address (4100 + (id - 1))) (dev_secret_of id)
         (mkContainer PkHybrid []
            [mkComponent PkDevDeterministic (string_to_bytes (validator_account id));
             mkComponent PkMlDsa (mldsa_verifying_key (drawn id).1)])
         (Some (mkContainer SkHybrid []
            [mkComponent SkDevDeterministic (string_to_bytes ("session-validator-" +:+ pretty id));
             mkComponent SkMlKem (encapsulation_key (drawn id).2)])))
      SbHybridDeterministicMlDsaExperimental (Some (signing_path id))
      SeHybridDeterministicMlKemExperimental (Some (session_path id))
  else deterministic_material id.

Definition write_drawn (d : Disk) (id : ValidatorId) : Disk :=
  if in_hybrid_enforcement args then write_keys (signing_path id) (session_path id) (drawn id) d else d.

Lemma build_materials_ok ids d :
  build_materials drawn args ids d = Ok (material_of <$> ids, foldl write_drawn d ids).
Proof.
  revert d. induction ids as [|id ids IH]; intros d; [done|]. csimpl.
  unfold write_drawn at 2, material_of at 1, generate_hybrid_validator_material.
  destruct (in_hybrid_enforcement args).
  - destruct (drawn id) as [kf sf] eqn:E. simpl. by rewrite IH.
  - simpl. by rewrite IH.
Qed.

Lemma material_id id : validator_id (lm_validator (material_of id)) = id.
Proof. unfold material_of. by destruct (in_hybrid_enforcement args). Qed.
Lemma material_address id : address (lm_validator (material_of id)) = local_address (4100 + (id - 1)).
Proof. unfold material_of. by destruct (in_hybrid_enforcement args). Qed.

Lemma drawn_other_files ids d :
  genesis_files (foldl write_drawn d ids) = genesis_files d /\
  manifest_files (foldl write_drawn d ids) = manifest_files d /\
  config_files (foldl write_drawn d ids) = config_files d.
Proof.
  revert d. induction ids as [|id ids IH]; intros d; [done|]. simpl.
  destruct (IH (write_drawn d id)) as (-> & -> & ->). unfold write_drawn.
  by destruct (in_hybrid_enforcement args).
Qed.

(** The keys are where the configuration says. *)
Lemma drawn_keys_written ids d id :
  in_hybrid_enforcement args = true -> NoDup ids -> id ∈ ids ->
  signing_key_files (foldl write_drawn d ids) !! signing_path id = Some (drawn id).1 /\
  session_key_files (foldl write_drawn d ids) !! session_path id = Some (drawn id).2.
Proof.
  intros Hh Hnd Hin.
  assert (Hinj : forall name, NoDup ((fun id => path_join (node_dir (in_base_dir args) id) name) <$> ids))
    by (intros name; apply NoDup_fmap_2_strong; [|done]; intros i j _ _; apply in_node_dir_inj).
  assert (Hs : forall d, signing_key_files (foldl write_drawn d ids) =
    foldl (fun m id => <[signing_path id := (drawn id).1]> m) (signing_key_files d) ids /\
    session_key_files (foldl write_drawn d ids) =
    foldl (fun m id => <[session_path id := (drawn id).2]> m) (session_key_files d) ids).
  { clear Hnd Hin Hinj. unfold write_drawn. rewrite Hh.
    induction ids as [|i ids IH]; intros d0; [done|]. simpl. apply IH. }
  destruct (Hs d) as [-> ->]. split.
  - apply (foldl_insert_lookup signing_path (fun id => (drawn id).1)); [apply Hinj|done].
  - apply (foldl_insert_lookup session_path (fun id => (drawn id).2)); [apply Hinj|done].
Qed.

(** ** What [init_localnet] leaves *)

Definition args_ok : bool :=
  (4 <=? in_validators args) &&
  match in_degraded_validator args with
  | Some id => negb (id =? 0) && (id <=? in_validators args)
  | None => true
  end.

Definition localnet_validators : list ValidatorConfig :=
  (fun id => lm_validator (material_of id)) <$> validator_ids_of args.
Definition localnet_configs : list NodeConfig :=
  (fun id => localnet_node_config args localnet_validators (material_of id)) <$> validator_ids_of args.

Lemma validator_ids_NoDup : NoDup (validator_ids_of args).
Proof. apply NoDup_fmap_2; [|apply NoDup_seq]. intros x y E. by apply Nat2Z.inj in E. Qed.
Lemma validator_ids_range id : id ∈ validator_ids_of args <-> 1 <= id <= in_validators args.
Proof.
  unfold validator_ids_of. rewrite list_elem_of_fmap. split.
  - intros (k & -> & Hk%elem_of_seq). lia.
  - intros Hid. exists (Z.to_nat id). split; [lia|]. apply elem_of_seq. lia.
Qed.
Lemma localnet_ids : validator_id <$> localnet_validators = validator_ids_of args.
Proof.
  unfold localnet_validators. rewrite <- list_fmap_compose. rewrite <- (list_fmap_id (validator_ids_of _)) at 2.
  apply list_fmap_ext. intros i id _. apply material_id.
Qed.

Lemma config_files_written vs ids d :
  config_files (write_node_configs args vs (material_of <$> ids) d) =
  foldl (fun m id => <[config_path_of args id := localnet_node_config args vs (material_of id)]> m)
    (config_files d) ids.
Proof.
  unfold write_node_configs. revert d. induction ids as [|id ids IH]; intros d; [done|]. csimpl.
  rewrite IH. simpl. by rewrite material_id.
Qed.
Lemma write_node_configs_keeps vs ms d :
  let d' := write_node_configs args vs ms d in
  genesis_files d' = genesis_files d /\ signing_key_files d' = signing_key_files d /\
  session_key_files d' = session_key_files d.
Proof.
  unfold write_node_configs. revert d. induction ms as [|m ms IH]; intros d; [done|]. simpl.
  by destruct (IH (write_config (config_path_of args (validator_id (lm_validator m)))
    (localnet_node_config args vs m) d)) as (-> & -> & ->).
Qed.

Lemma read_configs_ok {A} (path : A -> string) (cfg : A -> NodeConfig) (l : list A) d :
  (forall a, a ∈ l -> config_files d !! path a = Some (cfg a)) ->
  read_configs (path <$> l) d = Ok (cfg <$> l).
Proof.
  induction l as [|a l IH]; intros Hl; [done|]. csimpl. unfold read_file at 1.
  rewrite Hl by set_solver. simpl. rewrite IH by set_solver. done.
Qed.

(** The manifest of the network. *)
Definition localnet_manifest : LocalnetManifest :=
  mkManifest (in_base_dir args) (path_join (in_base_dir args) "genesis.toml")
    (config_path_of args <$> validator_ids_of args).

Lemma init_localnet_ok now d :
  args_ok = true ->
  exists d', init_localnet drawn args now d = Ok d' /\
    read_manifest (in_base_dir args) d' = Ok localnet_manifest /\
    read_file (genesis_files d') (mn_genesis_path localnet_manifest) =
      Ok (localnet_genesis args now localnet_validators) /\
    read_node_configs localnet_manifest d' = Ok localnet_configs /\
    (in_hybrid_enforcement args = true -> forall id, id ∈ validator_ids_of args ->
       read_file (signing_key_files d') (signing_path id) = Ok (drawn id).1 /\
       read_file (session_key_files d') (session_path id) = Ok (drawn id).2).
Proof.
  intros [Hn Hd]%andb_true_iff. unfold init_localnet. rewrite Hn. simpl. rewrite Hd. simpl.
  rewrite build_materials_ok. simpl. eexists. split; [reflexivity|].
  assert (Hpaths : (fun m => config_path_of args (validator_id (lm_validator m))) <$>
    (material_of <$> validator_ids_of args) = config_path_of args <$> validator_ids_of args).
  { rewrite <- list_fmap_compose. apply list_fmap_ext. intros i id _. simpl. by rewrite material_id. }
  rewrite Hpaths, <- (list_fmap_compose material_of lm_validator).
  change (lm_validator ∘ material_of <$> validator_ids_of args) with localnet_validators.
  set (d1 := foldl write_drawn d _). set (g := localnet_genesis _ _ _).
  set (d2 := write_genesis _ g d1).
  pose proof (write_node_configs_keeps localnet_validators (material_of <$> validator_ids_of args) d2)
    as (Hg & Hs & Hk).
  split_and!.
  - unfold read_manifest, read_file. simpl. by rewrite lookup_insert_eq.
  - unfold read_file. simpl. rewrite Hg. simpl. by rewrite lookup_insert_eq.
  - unfold read_node_configs. simpl. apply read_configs_ok. intros id Hid. simpl.
    rewrite config_files_written.
    apply (foldl_insert_lookup (config_path_of args)
             (fun id => localnet_node_config args localnet_validators (material_of id))); [|done].
    apply NoDup_fmap_2_strong; [|apply validator_ids_NoDup]. intros i j _ _. apply in_node_dir_inj.
  - intros Hh id Hid. unfold read_file. simpl. rewrite Hs, Hk. unfold d2, d1. simpl.
    destruct (drawn_keys_written (validator_ids_of args) d id Hh validator_ids_NoDup Hid) as [-> ->].
    done.
Qed.
End init.

(** ** The witness count *)

Lemma ceil_log2_from_ok fuel n k :
  1 <= n <= 2 ^ 63 -> 0 <= k <= Z.log2_up n -> 64 <= Z.of_nat fuel + k ->
  ceil_log2_from fuel n (2 ^ k) k = Z.log2_up n.
Proof.
  intros Hn. assert (H63 : Z.log2_up n <= 63) by (apply Z.log2_up_le_pow2; lia).
  revert k. induction fuel as [|fuel IH]; intros k Hk Hf; simpl; [lia|].
  destruct (Z.ltb_spec (2 ^ k) n) as [Hlt|Hge].
  - apply Z.log2_up_lt_pow2 in Hlt; [|lia]. unfold wmul.
    replace (2 ^ k * 2) with (2 ^ (k + 1)) by (rewrite Z.pow_add_r; lia).
    rewrite Z.mod_small by (split; [lia|]; apply Z.pow_lt_mono_r; lia). apply IH; lia.
  - apply Z.log2_up_le_pow2 in Hge; lia.
Qed.

(** A v2 network has ceil(log2 n) + 1 witnesses, at least three and at most
    all others. *)
Lemma recommended_witness_count n : 4 <= n <= 2 ^ 63 ->
  recommended_v2_witness_count_for_validators n = Z.max 3 (Z.min (Z.log2_up n + 1) (n - 1)).
Proof.
  intros Hn. unfold recommended_v2_witness_count_for_validators, saturating_sub.
  replace (Z.max 0 (n - 1)) with (n - 1) by lia.
  destruct (Z.leb_spec (n - 1) 3) as [Hs|Hl].
  - assert (n = 4) as -> by lia. reflexivity.
  - pose proof (Z.log2_up_nonneg n).
    assert (E : ceil_log2_from 64 n (2 ^ 0) 0 = Z.log2_up n)
      by (apply ceil_log2_from_ok; [lia|lia|reflexivity || (simpl; lia)]).
    change (2 ^ 0) with 1 in E. by rewrite E.
Qed.

(** ** The network is consistent *)

Section network.
Context `{Hashing}.
Variable drawn : ValidatorId -> MlDsa65KeyFile * MlKemSessionKeyFile.
Variable args : InitLocalnet.

Lemma init_localnet_args now d d' : init_localnet drawn args now d = Ok d' -> args_ok args = true.
Proof.
  unfold init_localnet, args_ok.
  intros (u & Hn%ensure_ok & (u' & Hd%ensure_ok & _)%result_bind_ok)%result_bind_ok.
  by rewrite Hn, Hd.
Qed.

Lemma config_of c : c ∈ localnet_configs drawn args ->
  exists id, id ∈ validator_ids_of args /\
    c = localnet_node_config args (localnet_validators drawn args) (material_of drawn args id) /\
    node_id c = id /\ listen_address c = local_address (4100 + (id - 1)).
Proof.
  intros (id & -> & Hid)%list_elem_of_fmap. exists id. split_and!; [done|done|apply material_id|].
  apply material_address.
Qed.

(** Distinct validators, each configured to dial exactly the others. *)
Definition network_consistent (g : GenesisConfig) (configs : list NodeConfig) : Prop :=
  NoDup (validator_id <$> validators g) /\ node_id <$> configs = validator_id <$> validators g /\
  NoDup (listen_address <$> configs) /\
  Forall (fun c => forall p, p ∈ peers c <->
    exists c', c' ∈ configs /\ node_id c' <> node_id c /\ p = mkPeer (node_id c') (listen_address c'))
    configs /\
  Forall (fun v => initial_balances g !! validator_account (validator_id v) = Some 1000000)
    (validators g) /\
  0 < witness_count g < Z.of_nat (length (validators g)).

(** C36: Whatever [init_localnet] accepts becomes a consistent network: manifest,
    genesis and configurations can be read back; the validators are numbered
    1 to n and funded, every node listens on an address of its own and lists
    exactly the other nodes with theirs, each validator can have the
    configured number of distinct witnesses, in a v2 network of
    ceil(log2 n) + 1 between three and all others, and only the validator
    named as degraded gets a fault profile. *)
Theorem localnet_consistent now d d' :
  in_validators args <= 2 ^ 63 -> init_localnet drawn args now d = Ok d' ->
  exists m g configs, read_manifest (in_base_dir args) d' = Ok m /\
    read_file (genesis_files d') (mn_genesis_path m) = Ok g /\ read_node_configs m d' = Ok configs /\
    validator_id <$> validators g = validator_ids_of args /\ network_consistent g configs /\
    (uses_v2 args = true -> witness_count g =
       Z.max 3 (Z.min (Z.log2_up (in_validators args) + 1) (in_validators args - 1))) /\
    Forall (fun c => fault_profile c <> default_fault_profile ->
                     in_degraded_validator args = Some (node_id c)) configs.
Proof.
  intros Hmax Hinit. pose proof (init_localnet_args _ _ _ Hinit) as Hok.
  destruct (init_localnet_ok drawn args now d Hok) as (d'' & Hinit' & Hm & Hg & Hc & _).
  rewrite Hinit in Hinit'. injection Hinit' as <-.
  apply andb_true_iff in Hok as [Hn%Z.leb_le _].
  exists (localnet_manifest args), (localnet_genesis args now (localnet_validators drawn args)),
    (localnet_configs drawn args). split_and!; [done..|apply localnet_ids| | |].
  - unfold network_consistent. simpl. rewrite localnet_ids.
    assert (Hids : node_id <$> localnet_configs drawn args = validator_ids_of args).
    { unfold localnet_configs. rewrite <- list_fmap_compose.
      rewrite <- (list_fmap_id (validator_ids_of args)) at 2. apply list_fmap_ext.
      intros i id _. apply material_id. }
    split_and!; [apply validator_ids_NoDup|done| | | | |].
    + unfold localnet_configs. rewrite <- list_fmap_compose. apply NoDup_fmap_2_strong;
        [|apply validator_ids_NoDup]. intros i j _ _. simpl. rewrite !material_address.
      unfold local_address. intros E%(inj _)%(inj pretty). lia.
    + apply Forall_forall. intros c (id & Hid & -> & Hn' & _)%config_of p. rewrite Hn'. simpl.
      rewrite material_id, list_elem_of_fmap. split.
      * intros (v & -> & [Hne Hv]%list_elem_of_filter).
        apply list_elem_of_fmap in Hv as (j & -> & Hj). rewrite material_id in Hne.
        eexists. split; [by apply list_elem_of_fmap_2|]. simpl. by rewrite material_id.
      * intros (c' & (j & Hj & -> & Hnj & _)%config_of & Hne & ->). rewrite Hnj in Hne.
        exists (lm_validator (material_of drawn args j)). simpl. split; [done|].
        apply list_elem_of_filter. rewrite material_id. split; [done|].
        by apply (list_elem_of_fmap_2 (fun id => lm_validator (material_of drawn args id))).
    + apply Forall_forall. intros v Hv. apply (foldl_insert_lookup validator_account (fun _ => 1000000)).
      * apply NoDup_fmap_2_strong; [|apply validator_ids_NoDup]. intros i j _ _. apply validator_account_inj.
      * rewrite <- (localnet_ids drawn). by apply list_elem_of_fmap_2.
    + unfold localnet_genesis. simpl. destruct (uses_v2 args).
      * rewrite recommended_witness_count by lia. lia.
      * unfold saturating_sub. lia.
    + unfold localnet_genesis, localnet_validators, validator_ids_of. simpl.
      rewrite !length_fmap, length_seq. destruct (uses_v2 args).
      * rewrite recommended_witness_count by lia. lia.
      * unfold saturating_sub. lia.
  - intros Hv2. simpl. rewrite Hv2. by apply recommended_witness_count.
  - apply Forall_forall. intros c (id & Hid & -> & -> & _)%config_of. simpl. rewrite material_id.
    unfold degraded_fault_profile. by case_bool_decide.
Qed.
End network.

(** ** The nodes start *)

Section start.
Context `{Hashing} `{MlDsa} `{MlKem}.
Variable drawn : ValidatorId -> MlDsa65KeyFile * MlKemSessionKeyFile.

(** What key generation promises: pairs of keys, in their encodings. *)
Class KeyGeneration : Prop := {
  verifying_key_codec : forall vk, decode_verifying_key (encode_verifying_key vk) = Ok vk;
  drawn_signing : forall id, exists sk vk, decode_signing_key (mldsa_signing_key (drawn id).1) = Ok sk /\
    mldsa_verifying_key (drawn id).1 = encode_verifying_key vk /\ key_pair sk vk;
  drawn_session : forall id, kem_pair (encapsulation_key (drawn id).2) (decapsulation_key (drawn id).2) /\
    decapsulation_key (drawn id).2 <> [] /\ encapsulation_key (drawn id).2 <> [] }.
Context `{!KeyGeneration}.
Variable args : InitLocalnet.
Variable files : KeyFiles.
Hypothesis keys_written : in_hybrid_enforcement args = true -> forall id, id ∈ validator_ids_of args ->
  read_ml_dsa_key_file (signing_path args id) = Ok (drawn id).1 /\
  read_ml_kem_key_file (session_path args id) = Ok (drawn id).2.
#[local] Existing Instance files.

Lemma hybrid_cases : {in_hybrid_enforcement args = true} + {in_hybrid_enforcement args = false}.
Proof. clear keys_written. destruct (in_hybrid_enforcement args); auto. Qed.

Abbreviation vs := (localnet_validators drawn args).
Abbreviation config_for id := (localnet_node_config args vs (material_of drawn args id)).

Lemma localnet_validator now id : id ∈ validator_ids_of args ->
  validator_config (localnet_genesis args now vs) id = Ok (lm_validator (material_of drawn args id)).
Proof.
  intros Hid. unfold validator_config. simpl.
  destruct (find_first _ _) as [v|] eqn:E; simpl.
  - apply find_first_some in E as [(j & -> & _)%list_elem_of_fmap Hj%Z.eqb_eq].
    rewrite material_id in Hj. by subst j.
  - exfalso. pose proof (proj1 (find_first_none _ _) E (lm_validator (material_of drawn args id))) as Hf.
    simpl in Hf. rewrite material_id, Z.eqb_refl in Hf. discriminate Hf.
    by apply (list_elem_of_fmap_2 (fun id => lm_validator (material_of drawn args id))).
Qed.

Lemma hybrid_signing_loads id : in_hybrid_enforcement args = true -> id ∈ validator_ids_of args ->
  exists sk, load_ml_dsa_signing_material (lm_validator (material_of drawn args id)) (config_for id) = Ok sk.
Proof.
  intros Hh Hid. destruct (drawn_signing id) as (sk & vk & Hsk & Hvk & _).
  destruct (keys_written Hh id Hid) as [Hf _]. exists sk.
  unfold load_ml_dsa_signing_material, material_of. rewrite Hh. simpl. rewrite Hf. simpl.
  rewrite Hsk. simpl. rewrite Hvk, verifying_key_codec. simpl. by rewrite bool_decide_true.
Qed.

Lemma hybrid_session_loads id : in_hybrid_enforcement args = true -> id ∈ validator_ids_of args ->
  exists mat, load_ml_kem_session_material (lm_validator (material_of drawn args id)) (config_for id) = Ok mat.
Proof.
  intros Hh Hid. destruct (drawn_session id) as (_ & Hdk & Hek).
  destruct (keys_written Hh id Hid) as [_ Hf]. eexists.
  unfold load_ml_kem_session_material, material_of. rewrite Hh. simpl. rewrite Hf. simpl.
  rewrite (bool_decide_false (decapsulation_key _ = [])), (bool_decide_false (encapsulation_key _ = []))
    by done. simpl. by rewrite bool_decide_true.
Qed.

Lemma verifying_keys_build now :
  exists keys, build_ml_dsa_verifying_key_map (localnet_genesis args now vs) = Ok keys.
Proof.
  clear keys_written. unfold build_ml_dsa_verifying_key_map. simpl. unfold localnet_validators.
  generalize (∅ : gmap ValidatorId VerifyingKey).
  induction (validator_ids_of args) as [|id ids IH]; intros m; csimpl; [eauto|].
  unfold material_of at 1. destruct (in_hybrid_enforcement args) eqn:Hh; simpl.
  - destruct (drawn_signing id) as (sk & vk & _ & Hvk & _). rewrite Hvk, verifying_key_codec. apply IH.
  - apply IH.
Qed.

(** A node whose keys are in place builds its backend. *)
Lemma localnet_backend now id : id ∈ validator_ids_of args ->
  exists b, build_crypto_backend (localnet_genesis args now vs) (config_for id) = Ok b.
Proof.
  intros Hid. unfold build_crypto_backend.
  assert (Hn : node_id (config_for id) = id) by apply material_id. rewrite Hn.
  rewrite (localnet_validator now id Hid). simpl.
  destruct (verifying_keys_build now) as [keys Hkeys].
  unfold build_local_session_backend. simpl.
  assert (Hdet : validate_deterministic_identity (lm_validator (material_of drawn args id)) = Ok tt).
  { unfold validate_deterministic_identity, material_of. destruct (in_hybrid_enforcement args); simpl.
    - by rewrite bool_decide_true by reflexivity.
    - by rewrite bool_decide_true by reflexivity. }
  assert (Hs : signing_backend (config_for id) = lm_signing_backend (material_of drawn args id)) by done.
  destruct hybrid_cases as [Hh|Hh].
  - destruct (hybrid_signing_loads id Hh Hid) as [sk Hsk].
    destruct (hybrid_session_loads id Hh Hid) as [mat Hmat].
    assert (Hse : lm_session_backend (material_of drawn args id) = SeHybridDeterministicMlKemExperimental)
      by (unfold material_of; by rewrite Hh).
    assert (Hsb : lm_signing_backend (material_of drawn args id) = SbHybridDeterministicMlDsaExperimental)
      by (unfold material_of; by rewrite Hh).
    rewrite Hse, Hmat. simpl. rewrite Hsb, Hdet. simpl. rewrite Hsk. simpl. rewrite Hkeys. simpl. eauto.
  - assert (Hse : lm_session_backend (material_of drawn args id) = SeDevDeterministic)
      by (unfold material_of; by rewrite Hh).
    assert (Hsb : lm_signing_backend (material_of drawn args id) = SbDevDeterministic)
      by (unfold material_of; by rewrite Hh).
    rewrite Hse. simpl. rewrite Hsb, Hdet. simpl. rewrite Hkeys. simpl. eauto.
Qed.

Lemma localnet_enforcement now id :
  validate_hybrid_enforcement_genesis (config_for id) (localnet_genesis args now vs) = Ok tt.
Proof.
  clear keys_written. unfold validate_hybrid_enforcement_genesis, flags. simpl.
  destruct (in_hybrid_enforcement args) eqn:Hh; [|done]. simpl. apply ensure_ok, forallb_forall.
  intros v Hv. apply list_elem_of_In, list_elem_of_fmap in Hv as (j & -> & _).
  unfold material_of. by rewrite Hh.
Qed.

Lemma localnet_setup now id : id ∈ validator_ids_of args ->
  signing_setup (localnet_genesis args now vs) (config_for id) /\ session_setup (config_for id).
Proof.
  intros Hid. unfold signing_setup, session_setup.
  change (signing_backend (config_for id)) with (lm_signing_backend (material_of drawn args id)).
  change (session_backend (config_for id)) with (lm_session_backend (material_of drawn args id)).
  change (signing_key_path (config_for id)) with (lm_signing_key_path (material_of drawn args id)).
  change (session_key_path (config_for id)) with (lm_session_key_path (material_of drawn args id)).
  change (node_id (config_for id)) with (validator_id (lm_validator (material_of drawn args id))).
  rewrite material_id. rewrite (localnet_validator now id Hid).
  destruct hybrid_cases as [Hh|Hh].
  - destruct (keys_written Hh id Hid) as [Hf Hf'].
    destruct (drawn_signing id) as (sk & vk & Hsk & Hvk & Hp).
    unfold material_of. rewrite Hh. cbn [lm_signing_backend lm_session_backend lm_signing_key_path
      lm_session_key_path lm_validator]. split; [split|].
    + intros path file sk' vk' [= <-] Hr Hsk' Hvk'. rewrite Hf in Hr. injection Hr as <-.
      rewrite Hsk in Hsk'. rewrite Hvk, verifying_key_codec in Hvk'. by simplify_eq.
    + intros _ v [= <-]. done.
    + intros path file [= <-] Hr. rewrite Hf' in Hr. injection Hr as <-. apply drawn_session.
  - unfold material_of. by rewrite Hh.
Qed.
End start.

Section connect.
Context `{Hashing} `{MlDsa} `{MlKem}.
Context `{!Bincode ClientHelloTuple} `{!Bincode ServerHelloTuple}.
Context `{!Bincode SessionClientHello} `{!Bincode SessionServerHello}.
Context `{!BincodeLaws ClientHelloTuple} `{!BincodeLaws ServerHelloTuple}.
Context `{!BincodeLaws SessionClientHello} `{!BincodeLaws SessionServerHello}.
Context (drawn : ValidatorId -> MlDsa65KeyFile * MlKemSessionKeyFile) `{!KeyGeneration drawn}.

(** C37: [init_localnet] succeeds on four or more validators with a degraded
    validator among them, if any, and the network it writes, hybrid or not,
    comes up: from the files on disk every node passes the genesis check and
    loads its backend, and any two nodes complete a handshake that leaves
    both with the same session. *)
Theorem localnet_nodes_start_and_connect args now d :
  args_ok args = true ->
  exists d' m g configs, init_localnet drawn args now d = Ok d' /\
    read_manifest (in_base_dir args) d' = Ok m /\
    read_file (genesis_files d') (mn_genesis_path m) = Ok g /\ read_node_configs m d' = Ok configs /\
    Z.of_nat (length configs) = in_validators args /\
    Forall (fun c => validate_hybrid_enforcement_genesis c g = Ok tt /\
      is_ok (build_crypto_backend (H1 := disk_key_files d') g c) = true) configs /\
    forall cc cs bc bs nonce rng, cc ∈ configs -> cs ∈ configs ->
      build_crypto_backend (H1 := disk_key_files d') g cc = Ok bc ->
      build_crypto_backend (H1 := disk_key_files d') g cs = Ok bs ->
      exists hello reply session,
        configured_build_client_hello bc (node_id cc) (node_id cs) nonce = Ok hello /\
        configured_accept_client_hello bs rng (node_id cs) hello = Ok (reply, session) /\
        configured_finalize_client_session bc (node_id cc) hello reply = Ok session.
Proof.
  intros Hok. destruct (init_localnet_ok drawn args now d Hok) as (d' & Hinit & Hm & Hg & Hc & Hk).
  exists d', (localnet_manifest args), (localnet_genesis args now (localnet_validators drawn args)),
    (localnet_configs drawn args). split_and!; [done..| | |].
  - apply andb_true_iff in Hok as [Hn%Z.leb_le _]. unfold localnet_configs, validator_ids_of.
    rewrite !length_fmap, length_seq. lia.
  - apply Forall_forall. intros c (id & -> & Hid)%list_elem_of_fmap.
    split; [apply (localnet_enforcement drawn args)|].
    destruct (localnet_backend drawn args (disk_key_files d') Hk now id Hid) as [b Hb].
    cbv beta. by rewrite Hb.
  - intros cc cs bc bs nonce rng (i & -> & Hi)%list_elem_of_fmap (j & -> & Hj)%list_elem_of_fmap Hbc Hbs.
    destruct (localnet_setup drawn args (disk_key_files d') Hk now i Hi) as [Hsi Hki].
    destruct (localnet_setup drawn args (disk_key_files d') Hk now j Hj) as [Hsj _].
    apply (honest_handshake_completes (H2 := disk_key_files d') (verifying_key_codec drawn)
             (localnet_genesis args now (localnet_validators drawn args))); [|exact Hbc|exact Hbs| |by split|exact Hsj].
    + simpl. rewrite localnet_ids. apply validator_ids_NoDup.
    + simpl. unfold material_of. by destruct (in_hybrid_enforcement args).
Qed.
End connect.

(** ** Five validators with hybrid keys *)

Module StartupExample.
#[local] Existing Instance concrete_hashing.
#[local] Existing Instance concrete_mldsa.
#[local] Existing Instance HandshakeExample.concrete_kem.
#[local] Existing Instance HandshakeExample.countable_bincode.
#[local] Existing Instance HandshakeExample.countable_bincode_laws.
#[local] Existing Instance HandshakeExample.container_countable.
#[local] Existing Instance HandshakeExample.session_scheme_countable.
#[local] Existing Instance HandshakeExample.signature_scheme_countable.
#[local] Existing Instance HandshakeExample.client_hello_countable.
#[local] Existing Instance HandshakeExample.server_hello_countable.

Definition example_keys (id : ValidatorId) : MlDsa65KeyFile * MlKemSessionKeyFile :=
  (mkMlDsaKeyFile [id] [id], mkMlKemKeyFile [id] [id]).
#[local] Instance example_generation : KeyGeneration example_keys.
Proof.
  split.
  - done.
  - intros id. exists id, id. split_and!; [done|done|]. intros m. split; [done|]. by apply bool_decide_true.
  - intros id. split_and!; [|done|done]. exists id, id. split_and!; [done|done|].
    intros rng. by exists rng, (id :: rng).
Qed.

Definition example_args : InitLocalnet :=
  mkInit 5 "net" 1000 10 0 false 3 f64_zero 5 default_service_score_weights (Some 2) 0 f64_zero false
    true true.

Lemma localnet_consistent_witness :
  exists d' configs, init_localnet example_keys example_args 100 empty_disk = Ok d' /\
    read_node_configs (localnet_manifest example_args) d' = Ok configs /\
    Forall (fun c => fault_profile c <> default_fault_profile -> node_id c = 2) configs.
Proof.
  destruct (init_localnet_ok example_keys example_args 100 empty_disk eq_refl)
    as (d' & Hi & Hm' & _ & Hc' & _).
  destruct (localnet_consistent example_keys example_args 100 empty_disk d' ltac:(vm_compute; discriminate) Hi)
    as (m & g & configs & Hm & _ & Hc & _ & _ & _ & Hf).
  exists d', configs. split; [exact Hi|]. rewrite Hm in Hm'. injection Hm' as ->. split; [exact Hc|].
  eapply Forall_impl; [exact Hf|]. intros c Hfc Hne. specialize (Hfc Hne). injection Hfc as <-. reflexivity.
Defined.

Lemma localnet_nodes_start_and_connect_witness :
  exists d' m g configs, init_localnet example_keys example_args 100 empty_disk = Ok d' /\
    read_manifest "net" d' = Ok m /\ read_file (genesis_files d') (mn_genesis_path m) = Ok g /\
    read_node_configs m d' = Ok configs /\ Z.of_nat (length configs) = 5.
Proof.
  destruct (localnet_nodes_start_and_connect example_keys example_args 100 empty_disk eq_refl)
    as (d' & m & g & configs & Hi & Hm & Hg & Hc & Hl & _).
  exists d', m, g, configs. split_and!; [exact Hi|exact Hm|exact Hg|exact Hc|exact Hl].
Defined.
End StartupExample.
