(* ===== verification/Reports.v ===== *)
(** * Reports on a local network

    The evaluation half of crates/entangrid-sim/src/lib.rs: what
    [build_localnet_report] and [build_structural_report] read from the nodes'
    files, the matrix scenarios with what each expects, the wait for the
    expectations, the verdict, and the comparison of branches.  The nodes'
    files are given per manifest entry ([NodeFiles]); JSON parsing is the
    parameter of JsonLines.  Render has the texts of the reports. *)
From S2P Require Import Prelude F64 Hybrid Types JsonLines Localnet.

Open Scope Z_scope.

(** ** The files of a node *)

(** The fields of the metrics file that the report uses. *)
Record MetricsFile := mkMetricsFile {
  mf_validator_id : ValidatorId;
  mf_current_epoch : Epoch;
  mf_current_slot : Slot;
  mf_last_local_service_score : f64;
  mf_service_score_weights : ServiceScoreWeights;
  mf_last_local_service_counters : ServiceCounters;
  mf_service_gating_rejections : Z;
  mf_missed_proposer_slots : Z;
  mf_duplicate_receipts_ignored : Z;
  mf_peer_rate_limit_drops : Z;
  mf_inbound_session_drops : Z;
  mf_blocks_proposed : Z;
  mf_blocks_validated : Z;
  mf_tx_ingress : Z;
  mf_receipts_created : Z;
  mf_service_attestations_emitted : Z;
  mf_service_attestations_imported : Z;
  mf_service_aggregates_published : Z;
  mf_service_aggregates_imported : Z }.

Record EventLogEntry := mkEvent { ev_timestamp : Z; ev_event : string; ev_detail : string }.

(** A file that is not there is [None], one that does not parse an error. *)
Record NodeFiles := mkNodeFiles {
  nf_config : NodeConfig;
  nf_metrics : option (result MetricsFile);
  nf_blocks : file;
  nf_snapshot : option (result StateSnapshot);
  nf_events : file;
  nf_stderr : file }.

(** ** Comparisons *)

(** [f64::total_cmp]; the model has one NaN, above every number. *)
Definition f64_total_cmp (x y : f64) : comparison :=
  match x, y with
  | S754_nan, S754_nan => Eq
  | S754_nan, _ => Gt
  | _, S754_nan => Lt
  | S754_zero sx, S754_zero sy =>
      match sx, sy with true, false => Lt | false, true => Gt | _, _ => Eq end
  | _, _ => match SFcompare x y with Some c => c | None => Eq end
  end.

(** [Iterator::min_by]: the first of the least elements. *)
Fixpoint min_by_from {A} (cmp : A -> A -> comparison) (best : A) (l : list A) : A :=
  match l with
  | [] => best
  | x :: l' => min_by_from cmp match cmp best x with Gt => x | _ => best end l'
  end.
Definition min_by {A} (cmp : A -> A -> comparison) (l : list A) : option A :=
  match l with [] => None | x :: l' => Some (min_by_from cmp x l') end.

(** ** The report on the metrics *)

Record ValidatorReport := mkValidatorReport {
  vr_validator_id : ValidatorId;
  vr_current_epoch : Epoch;
  vr_current_slot : Slot;
  vr_last_local_service_score : f64;
  vr_service_score_weights : ServiceScoreWeights;
  vr_failed_sessions : Z;
  vr_invalid_receipts : Z;
  vr_service_gating_rejections : Z;
  vr_missed_proposer_slots : Z;
  vr_duplicate_receipts_ignored : Z;
  vr_peer_rate_limit_drops : Z;
  vr_inbound_session_drops : Z;
  vr_blocks_proposed : Z;
  vr_blocks_validated : Z;
  vr_tx_ingress : Z;
  vr_receipts_created : Z;
  vr_service_attestations_emitted : Z;
  vr_service_attestations_imported : Z;
  vr_service_aggregates_published : Z;
  vr_service_aggregates_imported : Z }.

Record LocalnetReport := mkLocalnetReport {
  lr_base_dir : string;
  configured_validators : nat;
  validators_with_metrics : nat;
  total_blocks_proposed : Z;
  total_missed_slots : Z;
  total_gating_rejections : Z;
  total_duplicate_receipts_ignored : Z;
  total_peer_rate_limit_drops : Z;
  total_inbound_session_drops : Z;
  total_service_attestations_emitted : Z;
  total_service_attestations_imported : Z;
  total_service_aggregates_published : Z;
  total_service_aggregates_imported : Z;
  lowest_score : option (ValidatorId * f64);
  highest_score : option (ValidatorId * f64);
  lr_validators : list ValidatorReport }.

Definition validator_report (m : MetricsFile) : ValidatorReport :=
  mkValidatorReport (mf_validator_id m) (mf_current_epoch m) (mf_current_slot m)
    (mf_last_local_service_score m) (mf_service_score_weights m)
    (failed_sessions (mf_last_local_service_counters m))
    (invalid_receipts (mf_last_local_service_counters m)) (mf_service_gating_rejections m)
    (mf_missed_proposer_slots m) (mf_duplicate_receipts_ignored m) (mf_peer_rate_limit_drops m)
    (mf_inbound_session_drops m) (mf_blocks_proposed m) (mf_blocks_validated m) (mf_tx_ingress m)
    (mf_receipts_created m) (mf_service_attestations_emitted m) (mf_service_attestations_imported m)
    (mf_service_aggregates_published m) (mf_service_aggregates_imported m).

(** The running [u64] totals. *)
Definition total (field : MetricsFile -> Z) (ms : list MetricsFile) : Z :=
  foldl (fun acc m => wadd acc (field m)) 0 ms.

Definition score_of (v : ValidatorReport) : ValidatorId * f64 :=
  (vr_validator_id v, vr_last_local_service_score v).
Definition score_cmp (x y : ValidatorId * f64) : comparison := f64_total_cmp x.2 y.2.

(** The metrics that are there, in the order of the manifest. *)
Fixpoint read_metrics (nodes : list NodeFiles) : result (list MetricsFile) :=
  match nodes with
  | [] => Ok []
  | n :: nodes' =>
      match nf_metrics n with
      | None => read_metrics nodes'
      | Some metrics => m ← metrics; ms ← read_metrics nodes'; Ok (m :: ms)
      end
  end.

Definition localnet_report (base_dir : string) (configured : nat) (ms : list MetricsFile)
    : LocalnetReport :=
  let vs := sort_by (fun a b => vr_validator_id a ?= vr_validator_id b) (validator_report <$> ms) in
  mkLocalnetReport base_dir configured (length vs) (total mf_blocks_proposed ms)
    (total mf_missed_proposer_slots ms) (total mf_service_gating_rejections ms)
    (total mf_duplicate_receipts_ignored ms) (total mf_peer_rate_limit_drops ms)
    (total mf_inbound_session_drops ms) (total mf_service_attestations_emitted ms)
    (total mf_service_attestations_imported ms) (total mf_service_aggregates_published ms)
    (total mf_service_aggregates_imported ms)
    (min_by score_cmp (score_of <$> vs)) (max_by score_cmp (score_of <$> vs)) vs.

Definition build_localnet_report (base_dir : string) (nodes : list NodeFiles) : result LocalnetReport :=
  ms ← read_metrics nodes; Ok (localnet_report base_dir (length nodes) ms).

(** ** The report on the chains *)

Record StructuralNodeReport := mkStructuralNode {
  sn_validator_id : ValidatorId;
  sn_blocks : nat;
  sn_parent_ok : bool;
  sn_tip_matches_snapshot : bool;
  sn_stderr_clean : bool }.

Record StructuralReport := mkStructuralReport {
  same_chain_count : nat;
  canonical_height : nat;
  min_height : nat;
  max_height : nat;
  height_spread : nat;
  distinct_tip_count : nat;
  tip_spread : nat;
  total_fork_observed : Z;
  total_sync_blocks_rejected : Z;
  all_parent_ok : bool;
  all_tips_match : bool;
  all_stderr_clean : bool;
  sr_nodes : list StructuralNodeReport }.

(** The parent loop: numbers from 1, each block on the one before. *)
Fixpoint parents_ok (number : Z) (previous_hash : HashBytes) (bs : list Block) : bool :=
  match bs with
  | [] => true
  | b :: bs' =>
      if negb (block_number (header b) =? number) || negb (parent_hash (header b) =? previous_hash)
      then false else parents_ok (number + 1) (block_hash b) bs'
  end.

Definition last_hash (bs : list Block) : HashBytes :=
  match last bs with Some b => block_hash b | None => empty_hash end.

Definition count_events (name : string) (events : list EventLogEntry) : Z :=
  Z.of_nat (length (filter (fun e => ev_event e = name) events)).

(** What the loop collects from one node. *)
Record NodeObservation := mkObservation {
  ob_chain : list HashBytes;
  ob_tip : HashBytes;
  ob_forks : Z;
  ob_rejected : Z;
  ob_report : StructuralNodeReport }.

Definition read_state_snapshot (n : NodeFiles) : result (option StateSnapshot) :=
  match nf_snapshot n with
  | None => Ok None
  | Some snapshot => s ← snapshot; Ok (Some s)
  end.

Section reports.
Context `{JsonLine Block} `{JsonLine EventLogEntry}.

Definition observe_node (n : NodeFiles) : result NodeObservation :=
  bs ← read_json_lines (T := Block) (nf_blocks n);
  snapshot ← read_state_snapshot n;
  events ← read_json_lines (T := EventLogEntry) (nf_events n);
  let tip := last_hash bs in
  let tip_matches := match snapshot with
                     | Some s => (tip_hash s =? tip) && (height s =? Z.of_nat (length bs))
                     | None => false
                     end in
  let clean := match nf_stderr n with Some s => is_blank s | None => true end in
  Ok (mkObservation (block_hash <$> bs) tip (count_events "fork-observed" events)
        (count_events "sync-blocks-rejected" events)
        (mkStructuralNode (node_id (nf_config n)) (length bs) (parents_ok 1 empty_hash bs)
           tip_matches clean)).

Fixpoint observe_nodes (nodes : list NodeFiles) : result (list NodeObservation) :=
  match nodes with
  | [] => Ok []
  | n :: nodes' => o ← observe_node n; os ← observe_nodes nodes'; Ok (o :: os)
  end.

Definition length_cmp {A} (x y : list A) : comparison := (length x ?= length y)%nat.

Definition canonical_chain (chains : list (list HashBytes)) : list HashBytes :=
  default [] (max_by length_cmp chains).

Definition structural_report (os : list NodeObservation) : StructuralReport :=
  let chains := ob_chain <$> os in
  let heights := length <$> chains in
  let tips : gset HashBytes := list_to_set (ob_tip <$> os) in
  let nodes := sort_by (fun a b => sn_validator_id a ?= sn_validator_id b) (ob_report <$> os) in
  let low := default O (min_by Nat.compare heights) in
  let high := default O (max_by Nat.compare heights) in
  mkStructuralReport
    (length (filter (fun c => c = canonical_chain chains) chains))
    (length (canonical_chain chains)) low high (high - low) (size tips) (size tips - 1)
    (foldl (fun acc o => wadd acc (ob_forks o)) 0 os)
    (foldl (fun acc o => wadd acc (ob_rejected o)) 0 os)
    (forallb sn_parent_ok nodes) (forallb sn_tip_matches_snapshot nodes)
    (forallb sn_stderr_clean nodes) nodes.

Definition build_structural_report (nodes : list NodeFiles) : result StructuralReport :=
  os ← observe_nodes nodes; Ok (structural_report os).
End reports.

(** ** Scenarios *)

Inductive AbusePattern :=
| SyncControlFlood (source_validator_id : ValidatorId) (duration_secs bursts_per_second : Z)
| InboundConnectionFlood (target_validator_id : ValidatorId) (concurrent_connections : Z)
    (hold_millis rounds : Z).

Record MatrixScenario := mkScenario {
  sc_name : string;
  sc_validators : Z;
  sc_slot_duration_millis : Z;
  sc_slots_per_epoch : Z;
  sc_start_delay_millis : Z;
  sc_enable_service_gating : bool;
  sc_service_gating_start_epoch : Epoch;
  sc_service_gating_threshold : f64;
  sc_service_score_window_epochs : Z;
  sc_service_score_weights : ServiceScoreWeights;
  sc_degraded_validator : option ValidatorId;
  sc_degraded_delay_ms : Z;
  sc_degraded_drop_probability : f64;
  sc_degraded_disable_outbound : bool;
  sc_load_scenario : LoadScenario;
  sc_load_duration_secs : Z;
  sc_abuse_pattern : option AbusePattern;
  sc_settle_secs : Z;
  sc_expected_lowest_validator : option ValidatorId;
  sc_min_lowest_score : option f64;
  sc_max_lowest_score : option f64;
  sc_min_validator_gating_rejections : option (ValidatorId * Z);
  sc_max_non_target_below_threshold_count : option nat;
  sc_max_non_target_gating_rejections : option Z;
  sc_min_total_peer_rate_limit_drops : option Z;
  sc_min_total_inbound_session_drops : option Z }.

Record MatrixScenarioResult := mkMatrixResult {
  mr_name : string;
  mr_base_dir : string;
  mr_load_scenario : LoadScenario;
  mr_load_duration_secs : Z;
  mr_abuse_pattern : option AbusePattern;
  mr_settle_secs : Z;
  mr_gating_enabled : bool;
  mr_gating_threshold : f64;
  mr_score_window_epochs : Z;
  mr_score_weights : ServiceScoreWeights;
  mr_policy_target_validator : option ValidatorId;
  mr_expected_lowest_validator : option ValidatorId;
  mr_min_lowest_score : option f64;
  mr_max_lowest_score : option f64;
  mr_min_validator_gating_rejections : option (ValidatorId * Z);
  mr_max_non_target_below_threshold_count : option nat;
  mr_max_non_target_gating_rejections : option Z;
  mr_min_total_peer_rate_limit_drops : option Z;
  mr_min_total_inbound_session_drops : option Z;
  mr_non_target_below_threshold_count : nat;
  mr_non_target_gating_rejections : Z;
  mr_localnet_report : LocalnetReport;
  mr_structural_report : StructuralReport }.

Definition is_target (target : option ValidatorId) (v : ValidatorReport) : bool :=
  bool_decide (Some (vr_validator_id v) = target).

Definition count_non_target_below_threshold (r : LocalnetReport) (threshold : f64)
    (target : option ValidatorId) : nat :=
  length (filter (fun v => negb (is_target target v)
                           && f64_ltb (vr_last_local_service_score v) threshold) (lr_validators r)).

Definition total_non_target_gating_rejections (r : LocalnetReport) (target : option ValidatorId) : Z :=
  foldl (fun acc v => wadd acc (vr_service_gating_rejections v)) 0
    (filter (fun v => negb (is_target target v)) (lr_validators r)).

Definition policy_target (sc : MatrixScenario) : option ValidatorId :=
  match sc_degraded_validator sc with Some id => Some id | None => sc_expected_lowest_validator sc end.

(** [if let Some(x) = o { if bad(x) { return false; } }]. *)
Definition unless {A} (o : option A) (bad : A -> bool) : bool :=
  match o with Some a => negb (bad a) | None => true end.
(** [Option::is_none_or]. *)
Definition is_none_or {A} (o : option A) (good : A -> bool) : bool :=
  match o with Some a => good a | None => true end.
(** [o.map(f).unwrap_or(d)]. *)
Definition map_or {A} (o : option A) (d : bool) (f : A -> bool) : bool :=
  match o with Some a => f a | None => d end.

Definition validator_entry (r : LocalnetReport) (id : ValidatorId) : option ValidatorReport :=
  find_first (fun v => vr_validator_id v =? id) (lr_validators r).

(** [node_configs] is the number of entries of the manifest. *)
Definition scenario_expectations_met (sc : MatrixScenario) (node_configs : nat) (r : LocalnetReport)
    (s : StructuralReport) : bool :=
  negb (negb (Nat.eqb (same_chain_count s) node_configs) || negb (all_parent_ok s)
        || negb (all_tips_match s) || negb (all_stderr_clean s))
  && unless (sc_expected_lowest_validator sc)
       (fun id => negb (bool_decide (fst <$> lowest_score r = Some id)))
  && unless (sc_min_lowest_score sc)
       (fun m => map_or (lowest_score r) true (fun x => f64_ltb x.2 m))
  && unless (sc_max_lowest_score sc)
       (fun m => map_or (lowest_score r) true (fun x => f64_ltb m x.2))
  && unless (sc_min_validator_gating_rejections sc)
       (fun '(id, minimum) =>
          map_or (validator_entry r id) true (fun v => vr_service_gating_rejections v <? minimum))
  && unless (sc_min_total_peer_rate_limit_drops sc)
       (fun minimum => total_peer_rate_limit_drops r <? minimum)
  && unless (sc_min_total_inbound_session_drops sc)
       (fun minimum => total_inbound_session_drops r <? minimum)
  && unless (sc_max_non_target_below_threshold_count sc)
       (fun maximum => (maximum <? count_non_target_below_threshold r
                          (sc_service_gating_threshold sc) (policy_target sc))%nat)
  && unless (sc_max_non_target_gating_rejections sc)
       (fun maximum => maximum <? total_non_target_gating_rejections r (policy_target sc)).

(** What [run_matrix_scenario] records when the network is down again. *)
Definition matrix_result (base_dir : string) (sc : MatrixScenario) (r : LocalnetReport)
    (s : StructuralReport) : MatrixScenarioResult :=
  let target := policy_target sc in
  mkMatrixResult (sc_name sc) base_dir (sc_load_scenario sc) (sc_load_duration_secs sc)
    (sc_abuse_pattern sc) (sc_settle_secs sc) (sc_enable_service_gating sc)
    (sc_service_gating_threshold sc) (sc_service_score_window_epochs sc) (sc_service_score_weights sc)
    target (sc_expected_lowest_validator sc) (sc_min_lowest_score sc) (sc_max_lowest_score sc)
    (sc_min_validator_gating_rejections sc) (sc_max_non_target_below_threshold_count sc)
    (sc_max_non_target_gating_rejections sc) (sc_min_total_peer_rate_limit_drops sc)
    (sc_min_total_inbound_session_drops sc)
    (count_non_target_below_threshold r (sc_service_gating_threshold sc) target)
    (total_non_target_gating_rejections r target) r s.

Definition passed (m : MatrixScenarioResult) : bool :=
  let r := mr_localnet_report m in
  let s := mr_structural_report m in
  Nat.eqb (same_chain_count s) (configured_validators r)
  && all_parent_ok s && all_tips_match s && all_stderr_clean s
  && is_none_or (mr_expected_lowest_validator m)
       (fun id => bool_decide (fst <$> lowest_score r = Some id))
  && is_none_or (mr_min_lowest_score m)
       (fun x => map_or (lowest_score r) false (fun y => f64_geb y.2 x))
  && is_none_or (mr_max_lowest_score m)
       (fun x => map_or (lowest_score r) false (fun y => f64_geb x y.2))
  && is_none_or (mr_min_validator_gating_rejections m)
       (fun '(id, minimum) =>
          map_or (validator_entry r id) false (fun v => minimum <=? vr_service_gating_rejections v))
  && is_none_or (mr_min_total_peer_rate_limit_drops m)
       (fun minimum => minimum <=? total_peer_rate_limit_drops r)
  && is_none_or (mr_min_total_inbound_session_drops m)
       (fun minimum => minimum <=? total_inbound_session_drops r)
  && is_none_or (mr_max_non_target_below_threshold_count m)
       (fun maximum => (mr_non_target_below_threshold_count m <=? maximum)%nat)
  && is_none_or (mr_max_non_target_gating_rejections m)
       (fun maximum => mr_non_target_gating_rejections m <=? maximum).

Inductive FailureSignal := SyncFork | PolicyGating.

Definition failure_signal (m : MatrixScenarioResult) : option FailureSignal :=
  if passed m then None
  else
    let s := mr_structural_report m in
    if negb (Nat.eqb (same_chain_count s) (configured_validators (mr_localnet_report m)))
       || (0 <? height_spread s)%nat || (0 <? tip_spread s)%nat
       || (0 <? total_fork_observed s) || (0 <? total_sync_blocks_rejected s)
    then Some SyncFork else Some PolicyGating.

Section waiting.
Context `{JsonLine Block} `{JsonLine EventLogEntry}.

(** [wait_for_scenario_expectations]: what the files hold at each look before
    the deadline, and at the look after it. *)
Fixpoint wait_for_scenario_expectations (base_dir : string) (sc : MatrixScenario)
    (looks : list (list NodeFiles)) (final : list NodeFiles)
    : result (LocalnetReport * StructuralReport) :=
  match looks with
  | [] => r ← build_localnet_report base_dir final; s ← build_structural_report final; Ok (r, s)
  | nodes :: looks' =>
      match build_localnet_report base_dir nodes, build_structural_report nodes with
      | Ok r, Ok s => if scenario_expectations_met sc (length nodes) r s then Ok (r, s)
                      else wait_for_scenario_expectations base_dir sc looks' final
      | _, _ => wait_for_scenario_expectations base_dir sc looks' final
      end
  end.
End waiting.

(** ** Comparing branches *)

Record BenchmarkTarget := mkTarget {
  bt_name : string; bt_variant : string; bt_mode : string; bt_validators : Z }.

Record BranchComparisonCase := mkCase {
  bc_name : string;
  bc_variant : string;
  bc_mode : string;
  bc_validators : Z;
  bc_same_chain_count : Z;
  bc_configured_validators : Z;
  bc_distinct_tip_count : Z;
  bc_height_spread : Z;
  bc_target_validator : option ValidatorId;
  bc_target_score : option f64;
  bc_target_gating_rejections : Z;
  bc_honest_min_score : option f64 }.

Record BranchComparisonReport := mkComparison {
  cases : list BranchComparisonCase;
  benchmark_cases : list BranchComparisonCase }.

Definition v1_benchmark_targets : list BenchmarkTarget :=
  [mkTarget "v1-degraded-4" "v1" "degraded" 4; mkTarget "v1-degraded-5" "v1" "degraded" 5].

Definition matches_target (c : BranchComparisonCase) (t : BenchmarkTarget) : bool :=
  String.eqb (bt_name t) (bc_name c) && String.eqb (bt_variant t) (bc_variant c)
  && String.eqb (bt_mode t) (bc_mode c) && (bt_validators t =? bc_validators c).

Definition build_branch_comparison_report (cs : list BranchComparisonCase) : BranchComparisonReport :=
  mkComparison cs (filter (fun c => existsb (matches_target c) v1_benchmark_targets) cs).
