(* ===== verification/Flood.v ===== *)
(** * Abuse traffic

    [run_abuse_pattern] and [send_protocol_message] of
    crates/entangrid-sim/src/lib.rs: a flood of authenticated synchronisation
    requests, each over a connection of its own, and a flood of idle
    connections.  The sockets and the clock are the environment of Network;
    the theorems are that the simulator's own copy of the client side of the
    protocol is one the nodes understand, and that every pattern ends.  The
    monotonic clock that times a flood is the environment's clock. *)
From S2P Require Import Prelude F64 Hybrid Types Concrete Crypto Sessions Handshakes.
From S2P Require Import Codecs Consensus Policy Network Channel Reports.

Open Scope Z_scope.

(** [read_u32] and [read_exact], without a limit on the length. *)
Definition read_whole_frame (s : InStream) : (Error + bytes) * InStream :=
  match read_exact 4 s with
  | (inl x, s') => (inl x, s')
  | (inr prefix, s') => read_exact (Z.to_nat (u32_of_bytes prefix)) s'
  end.

Definition flood_message (source : ValidatorId) : ProtocolMessage := MsgReceiptFetch source 0 source.

(** [(1_000 / bursts_per_second.max(1)).max(1)]. *)
Definition flood_interval (bursts_per_second : Z) : Z := Z.max 1 (1000 / Z.max 1 bursts_per_second).

Section flood.
Context `{Hashing} `{CryptoBackend} `{HandshakeProvider} `{Aead} `{Environment}.
Context `{!Bincode SessionClientHello} `{!Bincode SessionServerHello}.
Context `{!Bincode SignedEnvelope} `{!Bincode ProtocolMessage} `{!Bincode NonceTuple}.

(** [TcpStream::connect], once. *)
Definition connect_once : string -> N unit := connect_from 0.

Definition read_bincode_frame {T} `{Bincode T} : N T := fun w =>
  match read_whole_frame (w_in w) with
  | (inl x, s) => (inl x, set_in s w)
  | (inr b, s) =>
      (match decode_from_slice b with
       | Ok x => inr x
       | Err m => inl (Message m)
       end, set_in s w)
  end.

Definition send_protocol_message (from : ValidatorId) (peer : PeerConfig) (payload : ProtocolMessage)
    : N unit :=
  _ ← connect_once (peer_address peer);
  nonce ← session_nonce from (peer_id peer);
  hello ← n_lift (build_client_hello from (peer_id peer) nonce);
  _ ← write_bincode_frame hello;
  i ← tick;
  _ ← n_modify (set_in (reply_at i));
  reply ← read_bincode_frame (T := SessionServerHello);
  session ← n_lift (finalize_client_session from hello reply);
  message_hash ← hash_of payload;
  signature ← n_lift (sign from (hash_to_bytes message_hash));
  b ← n_lift (encode_to_vec (mkEnvelope from message_hash signature payload));
  frame ← n_lift (if encrypt_frames session then encrypt_frame_payload session Outbound 0 b else Ok b);
  write_frame log_frame frame.

(** One burst: every peer of the source, whatever becomes of the others. *)
Fixpoint flood_peers (source : ValidatorId) (peers : list PeerConfig) : N unit :=
  match peers with
  | [] => mret tt
  | p :: peers' =>
      _ ← n_try (send_protocol_message source p (flood_message source));
      flood_peers source peers'
  end.

(** The loop on the clock, [false] if [rounds] was too small. *)
Fixpoint sync_control_flood (rounds : nat) (source : ValidatorId) (peers : list PeerConfig)
    (start duration_secs interval : Z) : N bool :=
  now ← now_unix_millis;
  if saturating_sub now start <? duration_secs * 1000 then
    match rounds with
    | O => mret false
    | S rounds' =>
        _ ← flood_peers source peers;
        _ ← sleep interval;
        sync_control_flood rounds' source peers start duration_secs interval
    end
  else mret true.

Fixpoint open_streams (n : nat) (address : string) : N unit :=
  match n with
  | O => mret tt
  | S n' => _ ← n_try (connect_once address); open_streams n' address
  end.

Fixpoint inbound_connection_flood (rounds : nat) (address : string) (connections : nat)
    (hold_millis : Z) : N unit :=
  match rounds with
  | O => mret tt
  | S rounds' =>
      _ ← open_streams connections address;
      _ ← sleep hold_millis;
      _ ← sleep 150;
      inbound_connection_flood rounds' address connections hold_millis
  end.

(** [run_abuse_pattern] on the configurations it read from the manifest. *)
Definition run_abuse_pattern (bursts : nat) (configs : list NodeConfig) (pattern : option AbusePattern)
    : N bool :=
  match pattern with
  | None => mret true
  | Some pattern =>
      _ ← sleep 2000;
      match pattern with
      | SyncControlFlood source duration_secs bursts_per_second =>
          c ← n_lift (ok_or (find_first (fun c => node_id c =? source) configs)
                        "unknown abuse source validator");
          start ← now_unix_millis;
          sync_control_flood bursts source (peers c) start duration_secs
            (flood_interval bursts_per_second)
      | InboundConnectionFlood target concurrent_connections hold_millis rounds =>
          c ← n_lift (ok_or (find_first (fun c => node_id c =? target) configs)
                        "unknown abuse target validator");
          _ ← inbound_connection_flood (Z.to_nat rounds) (listen_address c)
                (Z.to_nat concurrent_connections) hold_millis;
          mret true
      end
  end.
End flood.

(** ** Frames *)

Lemma read_whole_wire_frame b rest e :
  Z.of_nat (length b) <= MAX_FRAME_SIZE_BYTES ->
  read_whole_frame (mkIn (wire_frame b ++ rest) e) = (inr b, mkIn rest e).
Proof.
  intros Hb. pose proof (read_wire_frame b rest e Hb) as Hr. unfold read_frame in Hr.
  unfold read_whole_frame. destruct (read_exact 4 _) as [[x|prefix] s]; [by destruct x as [[]| |]|].
  destruct (_ <? _); [done|].
  destruct (read_exact _ s) as [[x|frame] s']; [done|]. injection Hr as -> ->. done.
Qed.

(** ** Runs of the primitives *)

Lemma n_run_modify {A} f (k : unit -> N A) w : (n_modify f ≫= k) w = k tt (f w).
Proof. done. Qed.
Lemma run_tick {A} (k : nat -> N A) w : (tick ≫= k) w = k (w_io w) (set_io S w).
Proof. done. Qed.
Lemma n_run_lift {A B} (r : result A) a (k : A -> N B) w : r = Ok a -> (n_lift r ≫= k) w = k a w.
Proof. by intros ->. Qed.
Lemma run_write `{Environment} {A} log b (k : unit -> N A) w :
  write_at (w_io w) = None ->
  (write_frame log b ≫= k) w = k tt (set_connections (on_current (log b)) (set_io S w)).
Proof. intros Hw. unfold write_frame. rewrite n_run_bind, run_tick. by rewrite Hw. Qed.
Lemma run_encoded `{Environment} {T} `{Bincode T} {A} (x : T) b (k : unit -> N A) w :
  encode_to_vec x = Ok b -> write_at (w_io w) = None ->
  (write_bincode_frame x ≫= k) w = k tt (set_connections (on_current (log_handshake b)) (set_io S w)).
Proof.
  intros Hb Hw. unfold write_bincode_frame. rewrite n_run_bind, (n_run_lift _ b) by done.
  pose proof (run_write log_handshake b k w Hw) as Hr. rewrite n_run_bind in Hr. exact Hr.
Qed.
Lemma run_metrics {A} f (k : unit -> N A) w : (update_metrics f ≫= k) w = k tt (set_metrics f w).
Proof. done. Qed.
Lemma n_run_get {A} (k : World -> N A) w : (n_get ≫= k) w = k w w.
Proof. done. Qed.
Lemma run_now `{Environment} {A} (k : Z -> N A) w :
  (now_unix_millis ≫= k) w = k (clock_at (w_io w)) (set_io S w).
Proof. done. Qed.
Lemma run_try {A B} (m : N A) (k : Error + A -> N B) w a w' :
  m w = (inr a, w') -> (n_try m ≫= k) w = k (inr a) w'.
Proof. intros Hm. rewrite n_run_bind. unfold n_try. by rewrite Hm. Qed.
Lemma run_hash `{Hashing} {T} `{Bincode T} {A} (x : T) b (k : HashBytes -> N A) w :
  encode_to_vec x = Ok b -> (hash_of x ≫= k) w = k (blake3 b) w.
Proof. intros Hb. unfold hash_of. by rewrite Hb. Qed.
Lemma run_nonce `{Hashing} `{Environment} `{Bincode NonceTuple} {A} local peer b
    (k : HashBytes -> N A) w :
  encode_to_vec ("entangrid-network-session"%string, local, peer, clock_at (w_io w)) = Ok b ->
  (session_nonce local peer ≫= k) w = k (blake3 b) (set_io S w).
Proof.
  intros Hb. unfold session_nonce, now_unix_millis. rewrite n_run_bind, n_run_bind, run_tick.
  cbn [mret N_ret]. pose proof (run_hash _ _ k (set_io S w) Hb) as Hr. rewrite n_run_bind in Hr. exact Hr.
Qed.

(** ** Delivery *)

Section delivery.
Context `{Hashing} `{Aead} `{!AeadLaws}.
Context `{!Bincode ClientHelloTuple} `{!Bincode ServerHelloTuple}.
Context `{!Bincode SessionClientHello} `{!Bincode SessionServerHello}.
Context `{!Bincode SignedEnvelope} `{!Bincode ProtocolMessage} `{!Bincode NonceTuple}.
Context `{!BincodeLaws ClientHelloTuple} `{!BincodeLaws ServerHelloTuple}.
Context `{!BincodeLaws SessionClientHello} `{!BincodeLaws SessionServerHello}.
Context `{!BincodeLaws SignedEnvelope} `{!BincodeLaws ProtocolMessage} `{!BincodeLaws NonceTuple}.
Variable secrets : gmap ValidatorId string.
#[local] Instance genesis_backend : CryptoBackend := DeterministicCryptoBackend secrets.
#[local] Instance genesis_handshakes : HandshakeProvider := deterministic_handshakes secrets.

Lemma decodes {T} `{Bincode T} `{!BincodeLaws T} (x : T) b : encode_to_vec x = Ok b -> decode_from_slice b = Ok x.
Proof. intros Hb. rewrite <- (app_nil_r b). by apply bincode_decodes. Qed.

(** The deterministic handshake of two validators with secrets. *)
Lemma det_handshake from peer nonce :
  is_Some (secrets !! from) -> is_Some (secrets !! peer) ->
  exists hello reply session,
    det_build_client_hello secrets from peer nonce = Ok hello /\
    det_accept_client_hello secrets peer hello = Ok (reply, session) /\
    det_finalize_client_session secrets from hello reply = Ok session /\
    ch_initiator hello = from /\ encrypt_frames session = false.
Proof.
  intros Hf Hp. set (identity := deterministic_session_public_identity).
  assert (Hmsg : exists msg, client_hello_signing_message
    (mkClientHello from peer nonce (identity from) [] TypedSig.default) = Ok msg) by apply encode_total.
  destruct Hmsg as [msg Hmsg]. destruct (deterministic_can_sign secrets from msg Hf) as [sig Hsig].
  pose proof (deterministic_sign_verify _ _ _ _ Hsig) as Hver.
  set (hello := mkClientHello from peer nonce (identity from) [] sig).
  assert (Hmsg1 : client_hello_signing_message hello = Ok msg) by exact Hmsg.
  assert (Hreply : exists msg', server_hello_signing_message hello
    (mkServerHello peer from nonce (identity peer) [] TypedSig.default) = Ok msg').
  { unfold server_hello_signing_message. rewrite Hmsg1. apply encode_total. }
  destruct Hreply as [msg' Hmsg']. destruct (deterministic_can_sign secrets peer msg' Hp) as [sig' Hsig'].
  pose proof (deterministic_sign_verify _ _ _ _ Hsig') as Hver'.
  set (reply := mkServerHello peer from nonce (identity peer) [] sig').
  assert (Hmsg1' : server_hello_signing_message hello reply = Ok msg') by exact Hmsg'.
  assert (Hth : exists th, session_transcript_hash hello reply = Ok th).
  { unfold session_transcript_hash. destruct (encode_total hello) as [b1 ->].
    destruct (encode_total reply) as [b2 Hb2]. simpl. rewrite Hb2. simpl. eauto. }
  destruct Hth as [th Hth].
  assert (Hcomp : exists d, deterministic_session_component secrets peer from nonce = Ok d).
  { unfold deterministic_session_component, deterministic_open_session, secret.
    destruct Hf as [kf ->], Hp as [kp ->]. cbn [ok_or mbind result_bind].
    destruct (peer <=? from); eexists; reflexivity. }
  destruct Hcomp as [d Hd].
  assert (Hd' : deterministic_session_component secrets from peer nonce = Ok d).
  { unfold deterministic_session_component. by rewrite deterministic_open_session_sym. }
  eexists hello, reply, _. split_and!; [| | |done|].
  - unfold det_build_client_hello, sign_client_hello. fold identity. rewrite Hmsg. simpl. by rewrite Hsig.
  - unfold det_accept_client_hello, sign_server_hello. rewrite Hmsg1.
    change (ch_responder hello) with peer. change (ch_initiator hello) with from.
    change (ch_nonce hello) with nonce. change (ch_identity hello) with (identity from).
    change (ch_signature hello) with sig. fold identity.
    rewrite Z.eqb_refl, bool_decide_true by done. cbn [ensure mbind result_bind]. rewrite Hver.
    cbn [ensure mbind result_bind]. rewrite Hmsg'. cbn [mbind result_bind]. rewrite Hsig'.
    cbn [mbind result_bind sh_responder sh_initiator sh_nonce sh_identity sh_kem_ciphertext].
    rewrite Hd. cbn [mbind result_bind]. fold reply. unfold derive_session_material. rewrite Hth.
    reflexivity.
  - unfold det_finalize_client_session, check_server_transcript. rewrite Hmsg1'.
    change (ch_responder hello) with peer. change (ch_initiator hello) with from.
    change (ch_nonce hello) with nonce. change (sh_responder reply) with peer.
    change (sh_initiator reply) with from. change (sh_nonce reply) with nonce.
    change (sh_identity reply) with (identity peer). change (sh_signature reply) with sig'. fold identity.
    rewrite !Z.eqb_refl, bool_decide_true by done. cbn [ensure mbind result_bind andb]. rewrite Hver'.
    cbn [ensure mbind result_bind]. rewrite Hd'. cbn [mbind result_bind].
    unfold derive_session_material. by rewrite Hth.
  - done.
Qed.

Definition fits (b : bytes) : Prop := Z.of_nat (length b) <= MAX_FRAME_SIZE_BYTES.

Context (client server : Environment) (ttl : option Z).

(** The client's network, with the peer's answer on every connection. *)
Definition answered (reply : bytes) : Environment :=
  {| clock_at := clock_at (Environment := client); connect_at := connect_at (Environment := client);
     nodelay_at := nodelay_at (Environment := client); write_at := write_at (Environment := client);
     random_at := random_at (Environment := client);
     reply_at := fun _ => mkIn (wire_frame reply) None |}.

(** The network between the two is up. *)
Hypothesis client_connects : forall i a, connect_at (Environment := client) i a = None.
Hypothesis client_writes : forall i, write_at (Environment := client) i = None.
Hypothesis server_writes : forall i, write_at (Environment := server) i = None.

(** The envelope of a payload is one the receiver accepts. *)
Lemma envelope_ready from payload :
  is_Some (secrets !! from) ->
  exists pb sig b, encode_to_vec payload = Ok pb /\
    deterministic_sign secrets from (hash_to_bytes (blake3 pb)) = Ok sig /\
    encode_to_vec (mkEnvelope from (blake3 pb) sig payload) = Ok b /\ acceptable from b payload.
Proof.
  intros Hf. destruct (encode_total payload) as [pb Hpb].
  destruct (deterministic_can_sign secrets from (hash_to_bytes (blake3 pb)) Hf) as [sig Hsig].
  destruct (encode_total (mkEnvelope from (blake3 pb) sig payload)) as [b Hb].
  exists pb, sig, b. split_and!; try done.
  exists (mkEnvelope from (blake3 pb) sig payload), pb. split_and!; try done; [by apply decodes|].
  by apply (deterministic_sign_verify secrets).
Qed.

(** What the client writes, given the handshake and the envelope. *)
Lemma flood_sent from peer payload w nb hello hb reply rb session pb sig b :
  encode_to_vec ("entangrid-network-session"%string, from, peer_id peer,
    clock_at (Environment := client) (S (w_io w))) = Ok nb ->
  det_build_client_hello secrets from (peer_id peer) (blake3 nb) = Ok hello ->
  det_finalize_client_session secrets from hello reply = Ok session -> encrypt_frames session = false ->
  encode_to_vec hello = Ok hb -> encode_to_vec reply = Ok rb ->
  encode_to_vec payload = Ok pb -> deterministic_sign secrets from (hash_to_bytes (blake3 pb)) = Ok sig ->
  encode_to_vec (mkEnvelope from (blake3 pb) sig payload) = Ok b -> fits rb ->
  exists w', send_protocol_message (H3 := answered rb) from peer payload w = (inr tt, w') /\
    w_connections w' = mkConnection [hb] [b] None :: w_connections w.
Proof.
  intros Hnb Hh Hs Hclear Hhb Hrb Hpb Hsig Hb Hfit.
  unfold send_protocol_message, connect_once. cbn [connect_from].
  rewrite n_run_bind, n_run_modify, run_tick. cbn [connect_at answered]. rewrite client_connects. unfold n_modify at 1.
  rewrite (run_nonce from (peer_id peer) nb) by exact Hnb.
  rewrite (n_run_lift _ hello) by done. rewrite (run_encoded _ hb) by (done || apply client_writes).
  rewrite run_tick, n_run_modify. cbn [reply_at answered]. rewrite n_run_bind. unfold read_bincode_frame.
  cbn [w_in set_in]. rewrite <- (app_nil_r (wire_frame rb)), read_whole_wire_frame by done.
  rewrite (decodes _ _ Hrb), (n_run_lift _ session) by done.
  rewrite (run_hash _ pb) by done.
  rewrite (n_run_lift _ sig), (n_run_lift _ b), Hclear, (n_run_lift _ b) by done.
  unfold write_frame. rewrite run_tick. cbn [write_at answered]. rewrite client_writes. eexists. split; [reflexivity|].
  reflexivity.
Qed.

(** What the peer makes of it. *)
Lemma flood_received from peer payload hello hb reply rb session b wr :
  det_accept_client_hello secrets peer hello = Ok (reply, session) -> ch_initiator hello = from ->
  encrypt_frames session = false -> encode_to_vec hello = Ok hb -> encode_to_vec reply = Ok rb ->
  acceptable from b payload -> fits hb -> fits b ->
  w_in wr = mkIn (wire_frame hb ++ wire_frame b) None ->
  exists wr', handle_inbound (H3 := server) peer ttl wr = (inr tt, wr') /\
    w_events wr' = w_events wr ++ received from session b payload /\
    w_connections (accept_inbound_handshake (H3 := server) peer wr).2 =
      on_current (log_handshake rb) (w_connections wr).
Proof.
  intros Hr Hinit Hclear Hhb Hrb Hacc Hfh Hfe Hin.
  assert (Haccept : forall w0, w_in w0 = w_in wr ->
    exists w1, accept_inbound_handshake (H3 := server) peer w0 =
    (inr (from, session), w1) /\ w_in w1 = mkIn (wire_frame b) None /\ w_events w1 = w_events w0 /\
    w_connections w1 = on_current (log_handshake rb) (w_connections w0)).
  { intros w0 Hw0. unfold accept_inbound_handshake. rewrite n_run_bind. unfold read_frame_bytes at 1.
    rewrite Hw0, Hin, read_wire_frame by done. rewrite n_run_bind. cbn [mret N_ret].
    unfold decode_frame. rewrite (n_run_lift _ hello) by (by apply decodes).
    rewrite run_tick, (n_run_lift _ (reply, session)) by done.
    rewrite (run_encoded _ rb) by done. rewrite Hinit. by eexists. }
  destruct (Haccept (set_metrics add_attempt wr) eq_refl) as (w1 & Ha & Hi1 & Hv1 & _).
  destruct (Haccept wr eq_refl) as (w2 & Ha2 & _ & _ & Hc2).
  unfold handle_inbound. rewrite run_metrics, (run_try _ _ _ _ _ Ha), run_metrics, run_now, n_run_get.
  set (w3 := set_io S (set_metrics (set_active 1) w1)).
  assert (Hi3 : w_in w3 = mkIn (concat (wire_frame <$> [b])) None).
  { unfold w3. simpl. rewrite Hi1. simpl. by rewrite app_nil_r. }
  destruct (receive_all (H3 := server) from session
    (clock_at (w_io (set_metrics (set_active 1) w1))) (effective_session_ttl_millis ttl session) 0
    [b] [b] (next_counter session 0) [payload] (S (length (arriving (w_in w3)))) w3) as (w4 & Hw4 & Hv4).
  + intros i. unfold effective_session_ttl_millis. by rewrite Hclear.
  + econstructor; [|constructor]. unfold seal. by rewrite Hclear.
  + by constructor.
  + by constructor.
  + exact Hi3.
  + rewrite Hi3. simpl. rewrite !length_app. simpl. lia.
  + exists w4. split_and!; [exact Hw4| |by rewrite Ha2].
    rewrite Hv4. unfold w3. simpl. by rewrite Hv1.
Qed.

End delivery.

(** ** The flood ends *)

(** Runs that do not panic and do not take interactions back. *)
Definition proceeds {A} (m : N A) : Prop := forall w,
  match (m w).1 with inl (Panic _) => False | _ => True end /\ (w_io w <= w_io (m w).2)%nat.

Lemma p_bind {A B} (m : N A) (f : A -> N B) :
  proceeds m -> (forall a, proceeds (f a)) -> proceeds (m ≫= f).
Proof.
  intros Hm Hf w. rewrite n_run_bind. destruct (Hm w) as [Hp Hi].
  destruct (m w) as [[x|a] w'] eqn:E; simpl in *; [done|].
  destruct (Hf a w') as [Hp' Hi']. split; [done|lia].
Qed.
Lemma p_try {A} (m : N A) : proceeds m -> forall w, exists r, (n_try m w).1 = inr r /\
  (w_io w <= w_io (n_try m w).2)%nat.
Proof.
  intros Hm w. destruct (Hm w) as [Hp Hi]. unfold n_try.
  destruct (m w) as [[[k|t|t]|a] w']; simpl in *; [by eexists..|done|by eexists].
Qed.
Lemma p_ret {A} (a : A) : proceeds (mret a).
Proof. by intros w. Qed.
Lemma p_lift {A} (r : result A) : proceeds (n_lift r).
Proof. intros w. by destruct r. Qed.
Lemma p_modify f : (forall w, w_io w <= w_io (f w))%nat -> proceeds (n_modify f).
Proof. intros Hf w. split; [done|apply Hf]. Qed.
Lemma p_tick : proceeds tick.
Proof. intros w. split; [done|simpl; lia]. Qed.
Lemma p_sleep t : proceeds (sleep t).
Proof. by apply p_modify. Qed.
#[local] Hint Resolve p_ret p_lift p_modify p_tick p_sleep : core.

Section ends.
Context `{Hashing} `{CryptoBackend} `{HandshakeProvider} `{Aead} `{Environment}.
Context `{!Bincode SessionClientHello} `{!Bincode SessionServerHello}.
Context `{!Bincode SignedEnvelope} `{!Bincode ProtocolMessage} `{!Bincode NonceTuple}.
Context `{!BincodeLaws ProtocolMessage} `{!BincodeLaws NonceTuple}.

Lemma p_now : proceeds now_unix_millis.
Proof. unfold now_unix_millis. apply p_bind; auto. Qed.
Lemma p_hash {T} `{Bincode T} `{!BincodeLaws T} (x : T) : proceeds (hash_of x).
Proof. unfold hash_of. destruct (encode_total x) as [b ->]. auto. Qed.
Lemma p_write log b : proceeds (write_frame log b).
Proof.
  unfold write_frame. apply p_bind; [auto|]. intros i. destruct (write_at i); [by intros w|by apply p_modify].
Qed.
Lemma p_read {T} `{Bincode T} : proceeds (read_bincode_frame (T := T)).
Proof.
  intros w. unfold read_bincode_frame.
  destruct (read_whole_frame (w_in w)) as [[x|b] s] eqn:E; [|by destruct (decode_from_slice b)].
  unfold read_whole_frame, read_exact in E. simpl. split; [|done].
  destruct (4 <=? _)%nat; simpl in E.
  - destruct (_ <=? _)%nat; [done|injection E as <- _]. done.
  - injection E as <- _. done.
Qed.

Lemma p_connect address : proceeds (connect_once address).
Proof.
  unfold connect_once. cbn [connect_from]. apply p_bind; [by apply p_modify|]. intros _.
  apply p_bind; [auto|]. intros i. destruct (connect_at i _) as [k|]; [|by apply p_modify].
  by destruct (negb _); intros w.
Qed.

Lemma p_send from peer payload : proceeds (send_protocol_message from peer payload).
Proof.
  unfold send_protocol_message. apply p_bind; [apply p_connect|].
  intros _. apply p_bind; [apply p_bind; [apply p_now|intros; apply p_hash]|]. intros nonce.
  apply p_bind; [auto|]. intros hello.
  apply p_bind; [apply p_bind; [auto|intros; apply p_write]|]. intros _.
  apply p_bind; [auto|]. intros i. apply p_bind; [by apply p_modify|]. intros _.
  apply p_bind; [apply p_read|]. intros reply. apply p_bind; [auto|]. intros session.
  apply p_bind; [apply p_hash|]. intros h. apply p_bind; [auto|]. intros sig.
  apply p_bind; [auto|]. intros b. apply p_bind; [auto|]. intros f. apply p_write.
Qed.

Lemma flood_peers_returns source peers w :
  (flood_peers source peers w).1 = inr tt /\ (w_io w <= w_io (flood_peers source peers w).2)%nat.
Proof.
  revert w. induction peers as [|p peers IH]; intros w; [done|]. cbn [flood_peers]. rewrite n_run_bind.
  destruct (p_try _ (p_send source p (flood_message source)) w) as (r & Hr & Hi).
  destruct (n_try _ w) as [[x|a] w'] eqn:E; simpl in Hr, Hi; [done|].
  destruct (IH w') as [H5 H6]. split; [exact H5|lia].
Qed.

Hypothesis clock_advances : forall i, clock_at i < clock_at (S i).

Lemma clock_beyond i k : clock_at i + Z.of_nat k <= clock_at (k + i)%nat.
Proof. induction k as [|k IH]; [simpl; lia|]. specialize (clock_advances (k + i)%nat). simpl. lia. Qed.

(** The synchronisation flood ends when its time is over, whatever its
    connections do: each burst takes every error of every peer, so with a
    clock that advances the loop leaves after at most one round per
    millisecond of the duration. *)
Lemma sync_control_flood_ends rounds source peers start duration_secs interval w :
  duration_secs * 1000 <= clock_at (w_io w) + Z.of_nat rounds - start ->
  exists w', sync_control_flood rounds source peers start duration_secs interval w = (inr true, w').
Proof.
  revert w. induction rounds as [|rounds IH]; intros w Hr; cbn [sync_control_flood];
    rewrite run_now; unfold saturating_sub; (destruct (_ <? _) eqn:Hl; [|by eexists]).
  - apply Z.ltb_lt in Hl. lia.
  - rewrite n_run_bind. destruct (flood_peers_returns source peers (set_io S w)) as [Hf Hi].
    destruct (flood_peers source peers (set_io S w)) as [r w1]. simpl in Hf, Hi. subst r.
    rewrite n_run_bind. cbn [sleep n_modify]. apply IH. simpl.
    pose proof (clock_beyond (w_io w) (w_io w1 - w_io w)) as Hc.
    replace (w_io w1 - w_io w + w_io w)%nat with (w_io w1) in Hc by lia. lia.
Qed.
Lemma p_try_any {A} (m : N A) : proceeds m -> proceeds (n_try m).
Proof. intros Hm w. destruct (p_try _ Hm w) as (r & Hr & Hi). by rewrite Hr. Qed.
Lemma p_open_streams n address : proceeds (open_streams n address).
Proof.
  induction n as [|n IH]; cbn [open_streams]; [auto|].
  apply p_bind; [apply p_try_any, p_connect|]. by intros _.
Qed.
Lemma p_connection_flood rounds address connections hold :
  proceeds (inbound_connection_flood rounds address connections hold).
Proof.
  induction rounds as [|rounds IH]; cbn [inbound_connection_flood]; [auto|].
  apply p_bind; [apply p_open_streams|]. intros _. apply p_bind; [auto|]. intros _.
  apply p_bind; [auto|]. by intros _.
Qed.

(** Every pattern ends, without a panic. *)
Lemma run_abuse_ends bursts configs pattern w :
  match pattern with
  | Some (SyncControlFlood _ duration_secs _) => duration_secs * 1000 <= Z.of_nat bursts
  | _ => True
  end ->
  match (run_abuse_pattern bursts configs pattern w).1 with
  | inl (Panic _) | inr false => False
  | _ => True
  end.
Proof.
  intros Hb. unfold run_abuse_pattern. destruct pattern as [pattern|]; [|done].
  rewrite n_run_bind. cbn [sleep n_modify].
  destruct pattern as [source duration rate|target connections hold rounds]; rewrite n_run_bind;
    destruct (find_first _ configs) as [c|]; simpl; try done.
  - match goal with |- match (?m ?v).1 with _ => _ end => generalize v end. intros w1.
    rewrite run_now.
    destruct (sync_control_flood_ends bursts source (peers c) (clock_at (w_io w1)) duration
      (flood_interval rate) (set_io S w1)) as (w' & ->); [|done].
    cbn [w_io set_io]. specialize (clock_advances (w_io w1)). simpl. lia.
  - match goal with |- match (?m ?v).1 with _ => _ end => set (w1 := v) end.
    rewrite n_run_bind.
    destruct (p_connection_flood (Z.to_nat rounds) (listen_address c) (Z.to_nat connections) hold w1) as [Hp _].
    destruct (inbound_connection_flood _ _ _ _ w1) as [[x|u] w2]; simpl in *; [by destruct x|done].
Qed.
End ends.

Module FloodExample.
#[local] Existing Instance concrete_hashing.
#[local] Existing Instance HandshakeExample.countable_bincode.
#[local] Existing Instance HandshakeExample.countable_bincode_laws.
#[local] Existing Instance HandshakeExample.session_scheme_countable.
#[local] Existing Instance HandshakeExample.client_hello_countable.
#[local] Existing Instance HandshakeExample.server_hello_countable.
#[local] Existing Instance ChannelExample.cipher.
#[local] Existing Instance ChannelExample.cipher_laws.

#[local] Instance envelope_eq_dec : EqDecision SignedEnvelope.
Proof. solve_decision. Defined.
#[local] Instance envelope_countable : Countable SignedEnvelope.
Proof.
  refine (inj_countable' (fun e => (env_from e, env_hash e, env_signature e, env_payload e))
    (fun '(a, b, c, d) => mkEnvelope a b c d) _). by intros [].
Defined.

Definition secrets : gmap ValidatorId string := {[1 := "s1"%string; 2 := "s2"%string]}.
#[local] Instance network : Environment :=
  {| clock_at := fun i => Z.of_nat i; connect_at := fun _ _ => None; nodelay_at := fun _ => None;
     write_at := fun _ => None; random_at := fun _ => []; reply_at := fun _ => mkIn [] None |}.
Definition start : World :=
  mkWorld 0 (mkSessionMetrics 0 0 0 0 0 0) [] None (mkIn [] None) [] 0 0.

Lemma one_word {T} `{Countable T} (x : T) b : encode_to_vec x = Ok b -> fits b.
Proof. intros [= <-]. unfold fits. vm_compute. discriminate. Qed.

#[local] Instance backend : CryptoBackend := genesis_backend secrets.
#[local] Instance handshakes : HandshakeProvider :=
  genesis_handshakes (Bincode0 := HandshakeExample.countable_bincode)
    (Bincode1 := HandshakeExample.countable_bincode) secrets.
Definition message : ProtocolMessage := flood_message 1.

(** A network that refuses every connection does not hold the flood up. *)
#[local] Instance refusing : Environment :=
  {| clock_at := fun i => Z.of_nat i; connect_at := fun _ _ => Some ConnectionRefused;
     nodelay_at := fun _ => None; write_at := fun _ => None; random_at := fun _ => [];
     reply_at := fun _ => mkIn [] None |}.
Lemma sync_control_flood_ends_witness : exists w',
  sync_control_flood (H3 := refusing) 1000 1 [mkPeer 2 "b"] 0 1 (flood_interval 20) start = (inr true, w').
Proof.
  apply (sync_control_flood_ends (H3 := refusing)).
  - intros i. simpl. lia.
  - vm_compute. discriminate.
Defined.

End FloodExample.
