(* ===== verification/Matrix.v ===== *)
(** * The rigorous matrix

    [rigorous_matrix_scenarios] of crates/entangrid-sim/src/lib.rs, scenario
    by scenario, the [InitLocalnet] arguments [run_matrix_scenario] derives
    from one, and a check of the matrix itself: each scenario's network can be
    initialised, refers to validators it has, and executes its load. *)
From stdpp Require Import pretty.
From S2P Require Import Prelude F64 Hybrid Types Concrete Crypto Sessions Handshakes Ledger.
From S2P Require Import Consensus Policy NodeState Branches Receipts JsonLines Localnet Load Startup Reports.

Open Scope Z_scope.

(** [ServiceScoreWeights { penalty_weight, ..default_service_score_weights() }]. *)
Definition with_penalty (penalty : f64) : ServiceScoreWeights :=
  mkWeights (uptime_weight default_service_score_weights) (delivery_weight default_service_score_weights)
    (diversity_weight default_service_score_weights) penalty.

Definition baseline_4_steady (settle_secs : Z) : MatrixScenario := {|
  sc_name := "baseline-4-steady";
  sc_validators := 4;
  sc_slot_duration_millis := 1000;
  sc_slots_per_epoch := 5;
  sc_start_delay_millis := 1000;
  sc_enable_service_gating := false;
  sc_service_gating_start_epoch := RECOMMENDED_SERVICE_GATING_START_EPOCH;
  sc_service_gating_threshold := RECOMMENDED_SERVICE_GATING_THRESHOLD;
  sc_service_score_window_epochs := (recommended_service_score_window_epochs_for_validators 4);
  sc_service_score_weights := default_service_score_weights;
  sc_degraded_validator := None;
  sc_degraded_delay_ms := 0;
  sc_degraded_drop_probability := f64_zero;
  sc_degraded_disable_outbound := false;
  sc_load_scenario := Steady;
  sc_load_duration_secs := 12;
  sc_abuse_pattern := None;
  sc_settle_secs := settle_secs;
  sc_expected_lowest_validator := None;
  sc_min_lowest_score := (Some (f64_decimal 95 100));
  sc_max_lowest_score := None;
  sc_min_validator_gating_rejections := None;
  sc_max_non_target_below_threshold_count := None;
  sc_max_non_target_gating_rejections := None;
  sc_min_total_peer_rate_limit_drops := None;
  sc_min_total_inbound_session_drops := None |}.

Definition baseline_6_bursty (settle_secs : Z) : MatrixScenario := {|
  sc_name := "baseline-6-bursty";
  sc_validators := 6;
  sc_slot_duration_millis := 800;
  sc_slots_per_epoch := 6;
  sc_start_delay_millis := 1000;
  sc_enable_service_gating := false;
  sc_service_gating_start_epoch := RECOMMENDED_SERVICE_GATING_START_EPOCH;
  sc_service_gating_threshold := RECOMMENDED_SERVICE_GATING_THRESHOLD;
  sc_service_score_window_epochs := (recommended_service_score_window_epochs_for_validators 6);
  sc_service_score_weights := default_service_score_weights;
  sc_degraded_validator := None;
  sc_degraded_delay_ms := 0;
  sc_degraded_drop_probability := f64_zero;
  sc_degraded_disable_outbound := false;
  sc_load_scenario := Bursty;
  sc_load_duration_secs := 18;
  sc_abuse_pattern := None;
  sc_settle_secs := settle_secs;
  sc_expected_lowest_validator := None;
  sc_min_lowest_score := (Some (f64_decimal 45 100));
  sc_max_lowest_score := None;
  sc_min_validator_gating_rejections := None;
  sc_max_non_target_below_threshold_count := None;
  sc_max_non_target_gating_rejections := None;
  sc_min_total_peer_rate_limit_drops := None;
  sc_min_total_inbound_session_drops := None |}.

Definition gated_6_bursty (settle_secs : Z) : MatrixScenario := {|
  sc_name := "gated-6-bursty";
  sc_validators := 6;
  sc_slot_duration_millis := 800;
  sc_slots_per_epoch := 6;
  sc_start_delay_millis := 1000;
  sc_enable_service_gating := true;
  sc_service_gating_start_epoch := RECOMMENDED_SERVICE_GATING_START_EPOCH;
  sc_service_gating_threshold := RECOMMENDED_SERVICE_GATING_THRESHOLD;
  sc_service_score_window_epochs := (recommended_service_score_window_epochs_for_validators 6);
  sc_service_score_weights := default_service_score_weights;
  sc_degraded_validator := None;
  sc_degraded_delay_ms := 0;
  sc_degraded_drop_probability := f64_zero;
  sc_degraded_disable_outbound := false;
  sc_load_scenario := Bursty;
  sc_load_duration_secs := 18;
  sc_abuse_pattern := None;
  sc_settle_secs := settle_secs;
  sc_expected_lowest_validator := None;
  sc_min_lowest_score := (Some (f64_decimal 7 10));
  sc_max_lowest_score := None;
  sc_min_validator_gating_rejections := None;
  sc_max_non_target_below_threshold_count := (Some 0%nat);
  sc_max_non_target_gating_rejections := (Some 0);
  sc_min_total_peer_rate_limit_drops := None;
  sc_min_total_inbound_session_drops := None |}.

Definition gated_drop85 (settle_secs : Z) : MatrixScenario := {|
  sc_name := "gated-drop85";
  sc_validators := 4;
  sc_slot_duration_millis := 1000;
  sc_slots_per_epoch := 5;
  sc_start_delay_millis := 1000;
  sc_enable_service_gating := true;
  sc_service_gating_start_epoch := RECOMMENDED_SERVICE_GATING_START_EPOCH;
  sc_service_gating_threshold := RECOMMENDED_SERVICE_GATING_THRESHOLD;
  sc_service_score_window_epochs := (recommended_service_score_window_epochs_for_validators 4);
  sc_service_score_weights := default_service_score_weights;
  sc_degraded_validator := (Some 4);
  sc_degraded_delay_ms := 0;
  sc_degraded_drop_probability := (f64_decimal 85 100);
  sc_degraded_disable_outbound := false;
  sc_load_scenario := Steady;
  sc_load_duration_secs := 18;
  sc_abuse_pattern := None;
  sc_settle_secs := settle_secs;
  sc_expected_lowest_validator := (Some 4);
  sc_min_lowest_score := None;
  sc_max_lowest_score := (Some (f64_decimal 85 100));
  sc_min_validator_gating_rejections := None;
  sc_max_non_target_below_threshold_count := (Some 0%nat);
  sc_max_non_target_gating_rejections := (Some 0);
  sc_min_total_peer_rate_limit_drops := None;
  sc_min_total_inbound_session_drops := None |}.

Definition gated_drop95 (settle_secs : Z) : MatrixScenario := {|
  sc_name := "gated-drop95";
  sc_validators := 4;
  sc_slot_duration_millis := 1000;
  sc_slots_per_epoch := 5;
  sc_start_delay_millis := 1000;
  sc_enable_service_gating := true;
  sc_service_gating_start_epoch := RECOMMENDED_SERVICE_GATING_START_EPOCH;
  sc_service_gating_threshold := RECOMMENDED_SERVICE_GATING_THRESHOLD;
  sc_service_score_window_epochs := (recommended_service_score_window_epochs_for_validators 4);
  sc_service_score_weights := default_service_score_weights;
  sc_degraded_validator := (Some 3);
  sc_degraded_delay_ms := 0;
  sc_degraded_drop_probability := (f64_decimal 95 100);
  sc_degraded_disable_outbound := false;
  sc_load_scenario := Steady;
  sc_load_duration_secs := 20;
  sc_abuse_pattern := None;
  sc_settle_secs := settle_secs;
  sc_expected_lowest_validator := (Some 3);
  sc_min_lowest_score := None;
  sc_max_lowest_score := None;
  sc_min_validator_gating_rejections := (Some (3, 1));
  sc_max_non_target_below_threshold_count := (Some 0%nat);
  sc_max_non_target_gating_rejections := (Some 0);
  sc_min_total_peer_rate_limit_drops := None;
  sc_min_total_inbound_session_drops := None |}.

Definition gated_outbound_disabled (settle_secs : Z) : MatrixScenario := {|
  sc_name := "gated-outbound-disabled";
  sc_validators := 4;
  sc_slot_duration_millis := 1000;
  sc_slots_per_epoch := 5;
  sc_start_delay_millis := 1000;
  sc_enable_service_gating := true;
  sc_service_gating_start_epoch := RECOMMENDED_SERVICE_GATING_START_EPOCH;
  sc_service_gating_threshold := RECOMMENDED_SERVICE_GATING_THRESHOLD;
  sc_service_score_window_epochs := (recommended_service_score_window_epochs_for_validators 4);
  sc_service_score_weights := default_service_score_weights;
  sc_degraded_validator := (Some 3);
  sc_degraded_delay_ms := 0;
  sc_degraded_drop_probability := f64_zero;
  sc_degraded_disable_outbound := true;
  sc_load_scenario := Steady;
  sc_load_duration_secs := 20;
  sc_abuse_pattern := None;
  sc_settle_secs := settle_secs;
  sc_expected_lowest_validator := (Some 3);
  sc_min_lowest_score := None;
  sc_max_lowest_score := (Some (f64_decimal 5 100));
  sc_min_validator_gating_rejections := (Some (3, 1));
  sc_max_non_target_below_threshold_count := (Some 0%nat);
  sc_max_non_target_gating_rejections := (Some 0);
  sc_min_total_peer_rate_limit_drops := None;
  sc_min_total_inbound_session_drops := None |}.

Definition policy_threshold_025 (settle_secs : Z) : MatrixScenario := {|
  sc_name := "policy-threshold-025";
  sc_validators := 4;
  sc_slot_duration_millis := 1000;
  sc_slots_per_epoch := 5;
  sc_start_delay_millis := 1000;
  sc_enable_service_gating := true;
  sc_service_gating_start_epoch := RECOMMENDED_SERVICE_GATING_START_EPOCH;
  sc_service_gating_threshold := (f64_decimal 25 100);
  sc_service_score_window_epochs := (recommended_service_score_window_epochs_for_validators 4);
  sc_service_score_weights := default_service_score_weights;
  sc_degraded_validator := (Some 3);
  sc_degraded_delay_ms := 0;
  sc_degraded_drop_probability := (f64_decimal 95 100);
  sc_degraded_disable_outbound := false;
  sc_load_scenario := Steady;
  sc_load_duration_secs := 20;
  sc_abuse_pattern := None;
  sc_settle_secs := settle_secs;
  sc_expected_lowest_validator := (Some 3);
  sc_min_lowest_score := None;
  sc_max_lowest_score := None;
  sc_min_validator_gating_rejections := (Some (3, 1));
  sc_max_non_target_below_threshold_count := (Some 0%nat);
  sc_max_non_target_gating_rejections := (Some 0);
  sc_min_total_peer_rate_limit_drops := None;
  sc_min_total_inbound_session_drops := None |}.

Definition policy_threshold_055 (settle_secs : Z) : MatrixScenario := {|
  sc_name := "policy-threshold-055";
  sc_validators := 4;
  sc_slot_duration_millis := 1000;
  sc_slots_per_epoch := 5;
  sc_start_delay_millis := 1000;
  sc_enable_service_gating := true;
  sc_service_gating_start_epoch := RECOMMENDED_SERVICE_GATING_START_EPOCH;
  sc_service_gating_threshold := (f64_decimal 55 100);
  sc_service_score_window_epochs := (recommended_service_score_window_epochs_for_validators 4);
  sc_service_score_weights := default_service_score_weights;
  sc_degraded_validator := (Some 3);
  sc_degraded_delay_ms := 0;
  sc_degraded_drop_probability := (f64_decimal 95 100);
  sc_degraded_disable_outbound := false;
  sc_load_scenario := Steady;
  sc_load_duration_secs := 20;
  sc_abuse_pattern := None;
  sc_settle_secs := settle_secs;
  sc_expected_lowest_validator := (Some 3);
  sc_min_lowest_score := None;
  sc_max_lowest_score := None;
  sc_min_validator_gating_rejections := (Some (3, 1));
  sc_max_non_target_below_threshold_count := (Some 0%nat);
  sc_max_non_target_gating_rejections := (Some 0);
  sc_min_total_peer_rate_limit_drops := None;
  sc_min_total_inbound_session_drops := None |}.

Definition policy_window_1 (settle_secs : Z) : MatrixScenario := {|
  sc_name := "policy-window-1";
  sc_validators := 4;
  sc_slot_duration_millis := 1000;
  sc_slots_per_epoch := 5;
  sc_start_delay_millis := 1000;
  sc_enable_service_gating := true;
  sc_service_gating_start_epoch := RECOMMENDED_SERVICE_GATING_START_EPOCH;
  sc_service_gating_threshold := RECOMMENDED_SERVICE_GATING_THRESHOLD;
  sc_service_score_window_epochs := 1;
  sc_service_score_weights := default_service_score_weights;
  sc_degraded_validator := (Some 3);
  sc_degraded_delay_ms := 0;
  sc_degraded_drop_probability := (f64_decimal 95 100);
  sc_degraded_disable_outbound := false;
  sc_load_scenario := Steady;
  sc_load_duration_secs := 22;
  sc_abuse_pattern := None;
  sc_settle_secs := settle_secs;
  sc_expected_lowest_validator := (Some 3);
  sc_min_lowest_score := None;
  sc_max_lowest_score := None;
  sc_min_validator_gating_rejections := (Some (3, 1));
  sc_max_non_target_below_threshold_count := (Some 1%nat);
  sc_max_non_target_gating_rejections := (Some 1);
  sc_min_total_peer_rate_limit_drops := None;
  sc_min_total_inbound_session_drops := None |}.

Definition policy_window_8 (settle_secs : Z) : MatrixScenario := {|
  sc_name := "policy-window-8";
  sc_validators := 4;
  sc_slot_duration_millis := 1000;
  sc_slots_per_epoch := 5;
  sc_start_delay_millis := 1000;
  sc_enable_service_gating := true;
  sc_service_gating_start_epoch := RECOMMENDED_SERVICE_GATING_START_EPOCH;
  sc_service_gating_threshold := RECOMMENDED_SERVICE_GATING_THRESHOLD;
  sc_service_score_window_epochs := 8;
  sc_service_score_weights := default_service_score_weights;
  sc_degraded_validator := (Some 3);
  sc_degraded_delay_ms := 0;
  sc_degraded_drop_probability := (f64_decimal 95 100);
  sc_degraded_disable_outbound := false;
  sc_load_scenario := Steady;
  sc_load_duration_secs := 24;
  sc_abuse_pattern := None;
  sc_settle_secs := settle_secs;
  sc_expected_lowest_validator := (Some 3);
  sc_min_lowest_score := None;
  sc_max_lowest_score := None;
  sc_min_validator_gating_rejections := (Some (3, 1));
  sc_max_non_target_below_threshold_count := (Some 0%nat);
  sc_max_non_target_gating_rejections := (Some 0);
  sc_min_total_peer_rate_limit_drops := None;
  sc_min_total_inbound_session_drops := None |}.

Definition policy_penalty_050 (settle_secs : Z) : MatrixScenario := {|
  sc_name := "policy-penalty-050";
  sc_validators := 4;
  sc_slot_duration_millis := 1000;
  sc_slots_per_epoch := 5;
  sc_start_delay_millis := 1000;
  sc_enable_service_gating := true;
  sc_service_gating_start_epoch := RECOMMENDED_SERVICE_GATING_START_EPOCH;
  sc_service_gating_threshold := RECOMMENDED_SERVICE_GATING_THRESHOLD;
  sc_service_score_window_epochs := (recommended_service_score_window_epochs_for_validators 4);
  sc_service_score_weights := (with_penalty (f64_decimal 5 10));
  sc_degraded_validator := (Some 3);
  sc_degraded_delay_ms := 0;
  sc_degraded_drop_probability := (f64_decimal 95 100);
  sc_degraded_disable_outbound := false;
  sc_load_scenario := Steady;
  sc_load_duration_secs := 20;
  sc_abuse_pattern := None;
  sc_settle_secs := settle_secs;
  sc_expected_lowest_validator := (Some 3);
  sc_min_lowest_score := None;
  sc_max_lowest_score := None;
  sc_min_validator_gating_rejections := (Some (3, 1));
  sc_max_non_target_below_threshold_count := (Some 0%nat);
  sc_max_non_target_gating_rejections := (Some 0);
  sc_min_total_peer_rate_limit_drops := None;
  sc_min_total_inbound_session_drops := None |}.

Definition policy_penalty_150 (settle_secs : Z) : MatrixScenario := {|
  sc_name := "policy-penalty-150";
  sc_validators := 4;
  sc_slot_duration_millis := 1000;
  sc_slots_per_epoch := 5;
  sc_start_delay_millis := 1000;
  sc_enable_service_gating := true;
  sc_service_gating_start_epoch := RECOMMENDED_SERVICE_GATING_START_EPOCH;
  sc_service_gating_threshold := RECOMMENDED_SERVICE_GATING_THRESHOLD;
  sc_service_score_window_epochs := (recommended_service_score_window_epochs_for_validators 4);
  sc_service_score_weights := (with_penalty (f64_decimal 15 10));
  sc_degraded_validator := (Some 3);
  sc_degraded_delay_ms := 0;
  sc_degraded_drop_probability := (f64_decimal 95 100);
  sc_degraded_disable_outbound := false;
  sc_load_scenario := Steady;
  sc_load_duration_secs := 20;
  sc_abuse_pattern := None;
  sc_settle_secs := settle_secs;
  sc_expected_lowest_validator := (Some 3);
  sc_min_lowest_score := None;
  sc_max_lowest_score := None;
  sc_min_validator_gating_rejections := (Some (3, 1));
  sc_max_non_target_below_threshold_count := (Some 0%nat);
  sc_max_non_target_gating_rejections := (Some 0);
  sc_min_total_peer_rate_limit_drops := None;
  sc_min_total_inbound_session_drops := None |}.

Definition abuse_sync_control_flood (settle_secs : Z) : MatrixScenario := {|
  sc_name := "abuse-sync-control-flood";
  sc_validators := 4;
  sc_slot_duration_millis := 1000;
  sc_slots_per_epoch := 5;
  sc_start_delay_millis := 1000;
  sc_enable_service_gating := false;
  sc_service_gating_start_epoch := RECOMMENDED_SERVICE_GATING_START_EPOCH;
  sc_service_gating_threshold := RECOMMENDED_SERVICE_GATING_THRESHOLD;
  sc_service_score_window_epochs := (recommended_service_score_window_epochs_for_validators 4);
  sc_service_score_weights := default_service_score_weights;
  sc_degraded_validator := None;
  sc_degraded_delay_ms := 0;
  sc_degraded_drop_probability := f64_zero;
  sc_degraded_disable_outbound := false;
  sc_load_scenario := Steady;
  sc_load_duration_secs := 12;
  sc_abuse_pattern := (Some (SyncControlFlood 4 8 20));
  sc_settle_secs := settle_secs;
  sc_expected_lowest_validator := None;
  sc_min_lowest_score := (Some (f64_decimal 85 100));
  sc_max_lowest_score := None;
  sc_min_validator_gating_rejections := None;
  sc_max_non_target_below_threshold_count := None;
  sc_max_non_target_gating_rejections := None;
  sc_min_total_peer_rate_limit_drops := (Some 8);
  sc_min_total_inbound_session_drops := None |}.

Definition abuse_inbound_connection_flood (settle_secs : Z) : MatrixScenario := {|
  sc_name := "abuse-inbound-connection-flood";
  sc_validators := 4;
  sc_slot_duration_millis := 1000;
  sc_slots_per_epoch := 5;
  sc_start_delay_millis := 1000;
  sc_enable_service_gating := false;
  sc_service_gating_start_epoch := RECOMMENDED_SERVICE_GATING_START_EPOCH;
  sc_service_gating_threshold := RECOMMENDED_SERVICE_GATING_THRESHOLD;
  sc_service_score_window_epochs := (recommended_service_score_window_epochs_for_validators 4);
  sc_service_score_weights := default_service_score_weights;
  sc_degraded_validator := None;
  sc_degraded_delay_ms := 0;
  sc_degraded_drop_probability := f64_zero;
  sc_degraded_disable_outbound := false;
  sc_load_scenario := Steady;
  sc_load_duration_secs := 12;
  sc_abuse_pattern := (Some (InboundConnectionFlood 1 96 750 3));
  sc_settle_secs := settle_secs;
  sc_expected_lowest_validator := None;
  sc_min_lowest_score := (Some (f64_decimal 85 100));
  sc_max_lowest_score := None;
  sc_min_validator_gating_rejections := None;
  sc_max_non_target_below_threshold_count := None;
  sc_max_non_target_gating_rejections := None;
  sc_min_total_peer_rate_limit_drops := None;
  sc_min_total_inbound_session_drops := (Some 1) |}.

Definition rigorous_matrix_scenarios (settle_secs : Z) : list MatrixScenario :=
  (fun sc => sc settle_secs) <$>
  [baseline_4_steady; baseline_6_bursty; gated_6_bursty; gated_drop85; gated_drop95; gated_outbound_disabled; policy_threshold_025; policy_threshold_055; policy_window_1; policy_window_8; policy_penalty_050; policy_penalty_150; abuse_sync_control_flood; abuse_inbound_connection_flood].

(** What [run_matrix_scenario] passes to [init_localnet]. *)
Definition matrix_init (base_dir : string) (sc : MatrixScenario) : InitLocalnet :=
  mkInit (sc_validators sc) base_dir (sc_slot_duration_millis sc) (sc_slots_per_epoch sc)
    (sc_start_delay_millis sc) (sc_enable_service_gating sc) (sc_service_gating_start_epoch sc)
    (sc_service_gating_threshold sc) (sc_service_score_window_epochs sc) (sc_service_score_weights sc)
    (sc_degraded_validator sc) (sc_degraded_delay_ms sc) (sc_degraded_drop_probability sc)
    (sc_degraded_disable_outbound sc) true false.

Definition abuse_validator (p : AbusePattern) : ValidatorId :=
  match p with
  | SyncControlFlood source _ _ => source
  | InboundConnectionFlood target _ _ _ => target
  end.

(** The validators a scenario refers to. *)
Definition scenario_refers_to (sc : MatrixScenario) : list ValidatorId :=
  option_list (sc_degraded_validator sc) ++ option_list (sc_expected_lowest_validator sc)
  ++ option_list (fst <$> sc_min_validator_gating_rejections sc)
  ++ option_list (abuse_validator <$> sc_abuse_pattern sc).

(** ** Initial balances *)

Lemma supply_initial ids m :
  NoDup ids -> (forall id, id ∈ ids -> m !! validator_account id = None) -> non_negative m ->
  let m' := foldl (fun m id => <[validator_account id := 1000000]> m) m ids in
  non_negative m' /\ supply m' = supply m + 1000000 * Z.of_nat (length ids).
Proof.
  revert m. induction ids as [|id ids IH]; intros m Hnd Hm Hn; simpl; [split; [done|lia]|].
  apply NoDup_cons in Hnd as [Hid Hnd].
  assert (Hnone : m !! validator_account id = None) by (apply Hm; by left).
  destruct (IH (<[validator_account id := 1000000]> m) Hnd) as [Hn' Hs].
  - intros j Hj. rewrite lookup_insert_ne; [apply Hm; by right|].
    intros ->%validator_account_inj. done.
  - by apply map_Forall_insert_2.
  - split; [done|]. rewrite Hs, supply_insert_new by done. lia.
Qed.

Section fresh.
Context `{Hashing}.
Variable drawn : ValidatorId -> MlDsa65KeyFile * MlKemSessionKeyFile.
Variable args : InitLocalnet.
Variable now : Z.
Hypothesis size : 4 <= in_validators args <= 1000000.

Abbreviation g := (localnet_genesis args now (localnet_validators drawn args)).

Lemma fresh_supply :
  supply_ok (from_genesis g) /\ supply (initial_balances g) = 1000000 * in_validators args.
Proof.
  destruct (supply_initial (validator_ids_of args) ∅ (validator_ids_NoDup args)) as [Hn Hs].
  - intros id _. apply lookup_empty.
  - apply map_Forall_empty.
  - assert (Hl : Z.of_nat (length (validator_ids_of args)) = in_validators args)
      by (unfold validator_ids_of; rewrite length_fmap, length_seq; lia).
    rewrite supply_empty, Hl in Hs. change (supply (initial_balances g) = 0 + 1000000 * in_validators args) in Hs.
    split; [split; [exact Hn|]|lia]. change U64_MOD with 18446744073709551616.
    change (balances (from_genesis g)) with (initial_balances g). lia.
Qed.

(** The amounts of a plan. *)
Definition plan_total (steps : list LoadStep) : Z := foldr (fun s acc => ls_amount s + acc) 0 steps.

Lemma outgoing_funded steps :
  Forall (step_ok g) steps -> plan_total steps <= 1000000 ->
  forall a, outgoing a steps <= balance_of (from_genesis g) a.
Proof.
  intros Hsteps Htotal a.
  assert (Hle : outgoing a steps <= plan_total steps).
  { clear Htotal. induction Hsteps as [|s steps [_ Ha] _ IH]; simpl; [lia|]. case_decide; lia. }
  destruct (decide (a ∈ validator_account <$> validator_ids_of args)) as [(id & -> & Hid)%list_elem_of_fmap|Hno].
  - unfold balance_of, get_or_zero. simpl. unfold initial_balances_of.
    rewrite (foldl_insert_lookup validator_account (fun _ => 1000000) (validator_ids_of args) ∅ id); [simpl; lia| |done].
    apply NoDup_fmap_2_strong; [|apply validator_ids_NoDup]. intros i j _ _. apply validator_account_inj.
  - assert (E : outgoing a steps = 0).
    { clear Htotal Hle. induction Hsteps as [|s steps [Hs _] _ IH]; simpl; [done|].
      rewrite decide_False; [lia|]. intros <-. apply Hno, list_elem_of_fmap_2.
      simpl in Hs. by rewrite localnet_ids in Hs. }
    rewrite E. destruct fresh_supply as [[Hn _] _]. unfold balance_of, get_or_zero.
    destruct (balances (from_genesis g) !! a) as [x|] eqn:Ex; simpl; [|lia].
    exact (map_Forall_lookup_1 _ _ _ _ Hn Ex).
Qed.

(** The nodes of a fresh network accept a load its validators can pay. *)
Lemma fresh_network_executes_load scenario duration clock :
  plan_total (load_plan g scenario duration) <= 1000000 ->
  let _ := DeterministicCryptoBackend (from_validators (validators g)) in
  exists fs nn st, load_scenario g None scenario duration clock = (fs, Ok nn) /\
    length fs = length (load_plan g scenario duration) /\
    apply_transactions (from_genesis g) (if_transaction <$> fs) = (st, Ok tt) /\
    supply (balances st) = 1000000 * in_validators args.
Proof.
  intros Htotal backend.
  destruct (run_load_executes g) with (clock := clock) (i := O) (nn := current_nonces g None)
    (st := from_genesis g) (steps := load_plan g scenario duration) as (fs & nn & st & Hr & Hl & Ha & Hs & _).
  - intros id m s _. apply deterministic_sign_verify.
  - simpl. rewrite localnet_ids. apply validator_ids_NoDup.
  - rewrite <- (length_fmap validator_id). simpl. rewrite localnet_ids. unfold validator_ids_of.
    rewrite length_fmap, length_seq. lia.
  - apply fresh_supply.
  - apply fresh_nonces.
  - apply load_plan_ok.
  - apply outgoing_funded; [apply load_plan_ok|done].
  - exists fs, nn, st. split_and!; [done..|]. rewrite Hs. apply fresh_supply.
Qed.
End fresh.

(** ** The matrix *)

Section matrix.
Context `{Hashing}.
Variable drawn : ValidatorId -> MlDsa65KeyFile * MlKemSessionKeyFile.

(** What the runner needs of a scenario, as a check. *)
Definition scenario_sound (sc : MatrixScenario) : bool :=
  args_ok (matrix_init "" sc) && (sc_validators sc <=? 1000000)
  && forallb (fun id => (1 <=? id) && (id <=? sc_validators sc)) (scenario_refers_to sc)
  && (0 <? sc_slots_per_epoch sc) && (0 <? sc_slot_duration_millis sc)
  && match sc_min_lowest_score sc, sc_max_lowest_score sc with
     | Some lo, Some hi => f64_geb hi lo
     | Some x, None | None, Some x => f64_geb x f64_zero && f64_geb f64_one x
     | None, None => true
     end.

(** Which steps a plan has depends on the validators' ids only. *)
Lemma plan_total_ids g g' scenario duration :
  validator_id <$> validators g = validator_id <$> validators g' ->
  max_txs_per_block g = max_txs_per_block g' ->
  load_plan g scenario duration = load_plan g' scenario duration.
Proof.
  intros Hids Hmax.
  assert (Hf : forall {B} (f : ValidatorId -> B), (fun v => f (validator_id v)) <$> validators g =
                                    (fun v => f (validator_id v)) <$> validators g').
  { intros B f. change ((f ∘ validator_id) <$> validators g = (f ∘ validator_id) <$> validators g').
    by rewrite !list_fmap_compose, Hids. }
  destruct scenario; unfold load_plan; [done|..].
  - f_equal. apply list_fmap_ext. intros _ second _. apply (Hf _ (fun id => mkStep second id 1 second false)).
  - f_equal. apply list_fmap_ext. intros _ second _. destruct (_ =? 0); [|done]. f_equal.
    apply (Hf _ (fun id => (fun burst => mkStep second id (1 + burst) (wadd (wmul second 10) burst) false)
                             <$> numbers 5)).
  - f_equal. rewrite Hmax. apply (Hf _ (fun id => (fun index => mkStep 0 id 1 index true)
                             <$> numbers (wmul (max_txs_per_block g') 2))).
Qed.

(** The ids alone, for evaluating a plan. *)
Definition bare_genesis (n : Z) : GenesisConfig :=
  mkGenesis "" 0 0 0 0 128 0
    ((fun id => mkValidator id 0 "" "" (mkContainer PkDevDeterministic [] []) None) <$> (Z.of_nat <$> seq 1 (Z.to_nat n))) ∅.

Definition scenario_total (sc : MatrixScenario) : Z :=
  plan_total (load_plan (bare_genesis (sc_validators sc)) (sc_load_scenario sc) (sc_load_duration_secs sc)).

Lemma matrix_checks settle_secs :
  forallb (fun sc => scenario_sound sc && (scenario_total sc <=? 1000000))
    (rigorous_matrix_scenarios settle_secs) = true.
Proof. vm_compute. reflexivity. Qed.

(** The matrix is sound and each of its scenarios can run: the names are
    distinct, the bounds a scenario puts on the lowest score leave room and
    the validators it degrades, expects or abuses belong to its network;
    [init_localnet] writes that network, and the whole load the scenario
    plans executes on its genesis ledger, which keeps its supply. *)
Lemma matrix_networks_run settle_secs base now d clock :
  NoDup (sc_name <$> rigorous_matrix_scenarios settle_secs) /\
  Forall (fun sc => scenario_sound sc = true /\
    exists d' m g, init_localnet drawn (matrix_init base sc) now d = Ok d' /\
      read_manifest base d' = Ok m /\ read_file (genesis_files d') (mn_genesis_path m) = Ok g /\
      (forall id, id ∈ scenario_refers_to sc -> id ∈ validator_id <$> validators g) /\
      exists fs nn st,
        load_scenario g None (sc_load_scenario sc) (sc_load_duration_secs sc) clock = (fs, Ok nn) /\
        apply_transactions (H0 := DeterministicCryptoBackend (from_validators (validators g)))
          (from_genesis g) (if_transaction <$> fs) = (st, Ok tt) /\
        supply (balances st) = 1000000 * sc_validators sc)
    (rigorous_matrix_scenarios settle_secs).
Proof.
  split; [apply (bool_decide_unpack _); vm_compute; exact I|].
  apply Forall_forall. intros sc Hsc.
  pose proof (proj1 (forallb_forall _ _) (matrix_checks settle_secs) sc (proj1 (list_elem_of_In _ _) Hsc)) as Hc.
  apply andb_true_iff in Hc as [Hsound Htotal%Z.leb_le]. split; [done|].
  unfold scenario_sound in Hsound.
  apply andb_true_iff in Hsound as [[[[[Hargs Hn%Z.leb_le]%andb_true_iff Hids]%andb_true_iff _]%andb_true_iff _]%andb_true_iff _].
  assert (Hn4 : 4 <= sc_validators sc) by (apply andb_true_iff in Hargs as [Hn4%Z.leb_le _]; exact Hn4).
  destruct (init_localnet_ok drawn (matrix_init base sc) now d Hargs) as (d' & Hinit & Hm & Hg & _).
  set (g := localnet_genesis _ _ _) in *.
  exists d', (localnet_manifest (matrix_init base sc)), g. split_and!; [done..| |].
  - intros id Hid. rewrite forallb_forall in Hids. specialize (Hids id (proj1 (list_elem_of_In _ _) Hid)).
    apply andb_true_iff in Hids as [H1%Z.leb_le H2%Z.leb_le]. unfold g. simpl. rewrite localnet_ids.
    apply validator_ids_range. simpl. lia.
  - destruct (fresh_network_executes_load drawn (matrix_init base sc) now (conj Hn4 Hn)
      (sc_load_scenario sc) (sc_load_duration_secs sc) clock) as (fs & nn & st & Hl & _ & Ha & Hs).
    + rewrite (plan_total_ids _ (bare_genesis (sc_validators sc))); [exact Htotal| |done].
      simpl. rewrite localnet_ids. rewrite <- list_fmap_compose. unfold validator_ids_of.
      symmetry. apply list_fmap_id.
    + exists fs, nn, st. done.
Qed.
End matrix.
