(* ===== verification/Processes.v ===== *)
(** * Processes of a local network

    [up_localnet], [spawn_localnet_children], [shutdown_children],
    [ensure_node_binary_built], [node_binary_path], [run_matrix_scenario] and
    [run_rigorous_matrix] of crates/entangrid-sim/src/lib.rs, built with the
    post-quantum features: how the simulator starts and stops the nodes of a
    network and what it runs in between.  The operating system answers each
    interaction ([Machine]); what the simulator does to processes is a log. *)
From stdpp Require Import pretty.
From S2P Require Import Prelude Paths F64 JsonLines Hybrid Types Codecs Concrete Crypto Sessions Handshakes.
From S2P Require Import Consensus Policy Network Channel NodeState Localnet Load Startup Reports Flood Matrix.

Open Scope Z_scope.

(** ** The machine *)

(** [cargo build] with or without the features, the simulator's executable
    and the files on disk, the error of creating a log file, of spawning and
    of waiting for Ctrl-C, whether a node exits within two seconds, and the
    clock; the numbered ones by interaction. *)
Class Machine := {
  cargo_build : bool -> result bool;
  current_exe : result (list string);
  workspace_root : result string;
  file_exists : list string -> bool;
  create_at : nat -> option string;
  spawn_at : nat -> option string;
  ctrl_c_at : nat -> option string;
  exits_at : nat -> bool;
  time_at : nat -> Z }.

(** Nodes are numbered in the order they are spawned. *)
Inductive ProcEvent :=
| Built (hybrid : bool)
| Spawned (child : nat) (config_path : string)
| Signalled (child : nat)
| Killed (child : nat)
| Reaped (child : nat).

Record ProcWorld := mkProcWorld {
  pw_disk : Disk;
  pw_inbox : list InboxFile;
  pw_children : nat;
  pw_io : nat;
  pw_log : list ProcEvent }.

Definition pw_set_disk d (w : ProcWorld) := mkProcWorld d (pw_inbox w) (pw_children w) (pw_io w) (pw_log w).
Definition pw_add_inbox fs (w : ProcWorld) :=
  mkProcWorld (pw_disk w) (pw_inbox w ++ fs) (pw_children w) (pw_io w) (pw_log w).
Definition pw_tick (w : ProcWorld) :=
  mkProcWorld (pw_disk w) (pw_inbox w) (pw_children w) (S (pw_io w)) (pw_log w).
Definition pw_emit ev (w : ProcWorld) :=
  mkProcWorld (pw_disk w) (pw_inbox w) (pw_children w) (pw_io w) (pw_log w ++ [ev]).
Definition pw_spawned path (w : ProcWorld) :=
  mkProcWorld (pw_disk w) (pw_inbox w) (S (pw_children w)) (pw_io w)
    (pw_log w ++ [Spawned (pw_children w) path]).

Definition P (A : Type) : Type := ProcWorld -> outcome A * ProcWorld.
#[export] Instance P_ret : MRet P := fun A a w => (Done a, w).
#[export] Instance P_bind : MBind P := fun A B f m w =>
  match m w with
  | (Done a, w') => f a w'
  | (Failed x, w') => (Failed x, w')
  | (Halted r, w') => (Halted r, w')
  end.
Definition p_fail {A} (m : string) : P A := fun w => (Failed m, w).
Definition p_lift {A} (r : result A) : P A := match r with Ok a => mret a | Err m => p_fail m end.
Definition p_modify (f : ProcWorld -> ProcWorld) : P unit := fun w => (Done tt, f w).
Definition p_disk {A} (f : Disk -> result A) : P A := fun w => p_lift (f (pw_disk w)) w.
Definition p_tick : P nat := fun w => (Done (pw_io w), pw_tick w).
Definition or_fail (r : option string) : P unit :=
  match r with None => mret tt | Some m => p_fail m end.

(** ** The node's executable *)

(** On the components of an absolute path; [/] has no parent. *)
Definition parent (path : list string) : option (list string) :=
  match path with [] => None | _ => Some (removelast path) end.

(** Not on Windows. *)
Definition node_binary_candidate_paths (sim_exe : list string) : result (list (list string)) :=
  dir ← ok_or (parent sim_exe) "sim executable has no parent directory";
  Ok ((dir ++ ["entangrid-node"%string]) ::
      (if bool_decide (last dir = Some "deps"%string)
       then match parent dir with
            | Some debug_dir => [debug_dir ++ ["entangrid-node"%string]]
            | None => []
            end
       else [])).

Section processes.
Context `{Machine}.

Definition node_binary_path : result (list string) :=
  exe ← current_exe;
  candidates ← node_binary_candidate_paths exe;
  ok_or (find_first file_exists candidates) "expected node binary, build the workspace first".

Definition ensure_node_binary_built (require_hybrid_features : bool) : P unit :=
  _ ← p_lift workspace_root;
  success ← p_lift (cargo_build require_hybrid_features);
  if (success : bool) then p_modify (pw_emit (Built require_hybrid_features))
  else p_fail "failed to build entangrid-node".

(** ** Starting *)

(** The loop over the configurations, with the children so far. *)
Fixpoint spawn_nodes (config_paths : list string) (children : list nat) : P (list nat) :=
  match config_paths with
  | [] => mret children
  | path :: config_paths' =>
      _ ← p_disk (fun d => read_file (config_files d) path);
      i ← p_tick; _ ← or_fail (create_at i);
      i ← p_tick; _ ← or_fail (create_at i);
      i ← p_tick; _ ← or_fail (spawn_at i);
      child ← (fun w => (Done (pw_children w), w));
      _ ← p_modify (pw_spawned path);
      spawn_nodes config_paths' (children ++ [child])
  end.

Definition refresh_genesis_time (m : LocalnetManifest) : P unit := fun w =>
  match refresh_genesis_time_for_fresh_localnet m (time_at (pw_io w)) (pw_disk w) with
  | Ok d => (Done tt, pw_set_disk d (pw_tick w))
  | Err x => (Failed x, pw_tick w)
  end.

Definition spawn_localnet_children (base_dir : string) : P (list nat) :=
  manifest ← p_disk (read_manifest base_dir);
  require_hybrid_features ← p_disk (localnet_requires_hybrid_enforcement manifest);
  _ ← ensure_node_binary_built require_hybrid_features;
  _ ← refresh_genesis_time manifest;
  _ ← p_lift node_binary_path;
  spawn_nodes (mn_node_configs manifest) [].

(** ** Stopping *)

Fixpoint signal_children (children : list nat) : P unit :=
  match children with
  | [] => mret tt
  | c :: children' => _ ← p_modify (pw_emit (Signalled c)); signal_children children'
  end.

(** Two seconds each, then a kill. *)
Fixpoint reap_children (children : list nat) : P unit :=
  match children with
  | [] => mret tt
  | c :: children' =>
      i ← p_tick;
      _ ← (if exits_at i then mret tt else p_modify (pw_emit (Killed c)));
      _ ← p_modify (pw_emit (Reaped c));
      reap_children children'
  end.

Definition shutdown_children (children : list nat) : P unit :=
  _ ← signal_children children; reap_children children.

Definition up_localnet (base_dir : string) : P unit :=
  children ← spawn_localnet_children base_dir;
  i ← p_tick; _ ← or_fail (ctrl_c_at i);
  shutdown_children children.
End processes.

(** ** A scenario of the matrix *)

(** What happens outside while it runs: the first node's snapshot when the
    load starts, the clock of the load, the rounds of a flood, the network,
    and what the files hold at each look. *)
Record ScenarioInputs := mkInputs {
  si_snapshot : option StateSnapshot;
  si_load_clock : nat -> Z;
  si_bursts : nat;
  si_network : World;
  si_looks : list (list NodeFiles);
  si_final : list NodeFiles }.

Record MatrixReport := mkMatrixReport {
  mx_generated_at_unix_millis : Z;
  mx_base_dir : string;
  mx_output_dir : string;
  mx_scenarios : list MatrixScenarioResult }.

Section runs.
Context `{Machine} `{Hashing} `{Aead} `{Environment}.
Context `{!Bincode ClientHelloTuple} `{!Bincode ServerHelloTuple}.
Context `{!Bincode SessionClientHello} `{!Bincode SessionServerHello}.
Context `{!Bincode SignedEnvelope} `{!Bincode ProtocolMessage} `{!Bincode NonceTuple}.
Context `{JsonLine Block} `{JsonLine EventLogEntry}.
Variable drawn : ValidatorId -> MlDsa65KeyFile * MlKemSessionKeyFile.

Definition abuse_outcome (g : GenesisConfig) (configs : result (list NodeConfig))
    (pattern : option AbusePattern) (inputs : ScenarioInputs) : outcome unit :=
  match pattern, configs with
  | None, _ => Done tt
  | _, Err m => Failed m
  | _, Ok configs =>
      let secrets := from_validators (validators g) in
      match (run_abuse_pattern (H0 := DeterministicCryptoBackend secrets)
               (H1 := deterministic_handshakes secrets) (si_bursts inputs) configs pattern
               (si_network inputs)).1 with
      | inr true => Done tt
      | inr false => Halted OutOfFuel
      | inl (Message m) => Failed m
      | inl (IoError _) => Failed "io error"
      | inl (Panic _) => Halted Panicked
      end
  end.

(** The [async] block: load and abuse side by side, then the wait. *)
Definition run_load_and_abuse (base_dir : string) (sc : MatrixScenario) (inputs : ScenarioInputs)
    : P (LocalnetReport * StructuralReport) :=
  manifest ← p_disk (read_manifest base_dir);
  g ← p_disk (fun d => read_file (genesis_files d) (mn_genesis_path manifest));
  let '(files, load_result) := load_scenario g (si_snapshot inputs) (sc_load_scenario sc)
    (sc_load_duration_secs sc) (si_load_clock inputs) in
  _ ← p_modify (pw_add_inbox files);
  abuse_result ← (fun w => (Done (abuse_outcome g (read_node_configs manifest (pw_disk w))
                                    (sc_abuse_pattern sc) inputs), w));
  match abuse_result with
  | Halted r => fun w => (Halted r, w)
  | _ =>
      _ ← p_lift load_result;
      _ ← match abuse_result with Failed m => p_fail m | _ => mret tt end;
      p_lift (wait_for_scenario_expectations base_dir sc (si_looks inputs) (si_final inputs))
  end.

(** The result as a value; a panic goes on. *)
Definition p_result {A} (m : P A) : P (result A) := fun w =>
  match m w with
  | (Done a, w') => (Done (Ok a), w')
  | (Failed x, w') => (Done (Err x), w')
  | (Halted r, w') => (Halted r, w')
  end.

Definition initialise (args : InitLocalnet) : P unit := fun w =>
  match init_localnet drawn args (time_at (pw_io w)) (pw_disk w) with
  | Ok d => (Done tt, pw_set_disk d (pw_tick w))
  | Err x => (Failed x, pw_tick w)
  end.

Definition run_matrix_scenario (base_dir : string) (sc : MatrixScenario) (inputs : ScenarioInputs)
    : P MatrixScenarioResult :=
  _ ← initialise (matrix_init base_dir sc);
  children ← spawn_localnet_children base_dir;
  run_result ← p_result (run_load_and_abuse base_dir sc inputs);
  _ ← shutdown_children children;
  '(localnet_report, structural_report) ← p_lift run_result;
  mret (matrix_result base_dir sc localnet_report structural_report).

Fixpoint run_scenarios (base_dir : string) (run_id : Z) (inputs : string -> ScenarioInputs)
    (scenarios : list MatrixScenario) (results : list MatrixScenarioResult)
    : P (list MatrixScenarioResult) :=
  match scenarios with
  | [] => mret results
  | sc :: scenarios' =>
      r ← run_matrix_scenario (path_join base_dir (sc_name sc +:+ "-" +:+ pretty run_id)) sc
            (inputs (sc_name sc));
      run_scenarios base_dir run_id inputs scenarios' (results ++ [r])
  end.

Definition p_now : P Z := i ← p_tick; mret (time_at i).

(** The report it writes as JSON and Markdown. *)
Definition run_rigorous_matrix (base_dir output_dir : string) (settle_secs : Z)
    (inputs : string -> ScenarioInputs) : P MatrixReport :=
  run_id ← p_now;
  results ← run_scenarios base_dir run_id inputs (rigorous_matrix_scenarios settle_secs) [];
  generated_at ← p_now;
  mret (mkMatrixReport generated_at base_dir output_dir results).
End runs.

(** ** What starting and stopping log *)

Fixpoint spawned_from (n : nat) (paths : list string) : list ProcEvent :=
  match paths with [] => [] | p :: paths' => Spawned n p :: spawned_from (S n) paths' end.

Definition is_start (ev : ProcEvent) : bool :=
  match ev with Built _ | Spawned _ _ => true | _ => false end.

(** Each child reaped in turn, some after a kill. *)
Definition reaping (children : list nat) (evs : list ProcEvent) : Prop :=
  exists kills : list bool, length kills = length children /\
    evs = concat (zip_with (fun (k : bool) c => if k then [Killed c; Reaped c] else [Reaped c]) kills children).

Lemma p_run_bind {A B} (m : P A) (f : A -> P B) w :
  (m ≫= f) w = match m w with
               | (Done a, w') => f a w'
               | (Failed x, w') => (Failed x, w')
               | (Halted r, w') => (Halted r, w')
               end.
Proof. done. Qed.

Section starting.
Context `{Machine}.

(** Reading, waiting and failing do not touch processes. *)
Definition keeps_nodes {A} (m : P A) : Prop := forall w,
  match m w with
  | (Halted _, _) => False
  | (_, w') => pw_log w' = pw_log w /\ pw_children w' = pw_children w
  end.
Lemma nodes_lift {A} (r : result A) : keeps_nodes (p_lift r).
Proof. by destruct r; intros w. Qed.
Lemma nodes_disk {A} (f : Disk -> result A) : keeps_nodes (p_disk f).
Proof. intros w. unfold p_disk. by destruct (f (pw_disk w)). Qed.
Lemma nodes_tick : keeps_nodes p_tick.
Proof. by intros w. Qed.
Lemma nodes_or_fail r : keeps_nodes (or_fail r).
Proof. by destruct r; intros w. Qed.
Lemma nodes_refresh m : keeps_nodes (refresh_genesis_time m).
Proof. intros w. unfold refresh_genesis_time. by destruct (refresh_genesis_time_for_fresh_localnet _ _ _). Qed.
Lemma nodes_bind {A B} (m : P A) (f : A -> P B) :
  keeps_nodes m -> (forall a, keeps_nodes (f a)) -> keeps_nodes (m ≫= f).
Proof.
  intros Hm Hf w. rewrite p_run_bind. specialize (Hm w). destruct (m w) as [[a|x|r] w1]; [|done..].
  destruct Hm as [<- <-]. apply Hf.
Qed.

(** What spawning leaves: the nodes of a prefix of the configurations. *)
Definition starts (n : nat) (log : list ProcEvent) (paths : list string) (w' : ProcWorld) : Prop :=
  pw_log w' = log ++ spawned_from n paths /\ pw_children w' = (n + length paths)%nat.

(** From [n] and [log] on: all of [paths], numbered after [children], or a
    proper prefix and a failure. *)
Definition spawning (n : nat) (log : list ProcEvent) (paths : list string) (children : list nat)
    (r : outcome (list nat) * ProcWorld) : Prop :=
  match r with
  | (Done cs, w') => cs = children ++ seq n (length paths) /\ starts n log paths w'
  | (Failed _, w') => exists k, (k < length paths)%nat /\ starts n log (take k paths) w'
  | (Halted _, _) => False
  end.

Lemma spawning_step {A} n log p paths children (m : P A) (f : A -> P (list nat)) w :
  keeps_nodes m -> pw_log w = log /\ pw_children w = n ->
  (forall a w1, pw_log w1 = log /\ pw_children w1 = n -> spawning n log (p :: paths) children (f a w1)) ->
  spawning n log (p :: paths) children ((m ≫= f) w).
Proof.
  intros Hm [Hl Hc] Hf. rewrite p_run_bind. specialize (Hm w).
  destruct (m w) as [[a|x|r] w1]; [| |done]; destruct Hm as [Hl1 Hc1].
  - apply Hf. split; congruence.
  - exists 0%nat. unfold starts. simpl. rewrite app_nil_r. split; [lia|]. split; [congruence|lia].
Qed.

Lemma spawn_nodes_log paths : forall children w,
  spawning (pw_children w) (pw_log w) paths children (spawn_nodes paths children w).
Proof.
  induction paths as [|p paths IH]; intros children w.
  { simpl. unfold starts. rewrite !app_nil_r. split; [done|]. split; [done|]. simpl. lia. }
  cbn [spawn_nodes]. apply spawning_step; [apply nodes_disk|done|]. intros _ w1 L1.
  do 3 (apply spawning_step; [apply nodes_tick|done|]; clear L1; intros ? ? L1;
        apply spawning_step; [apply nodes_or_fail|done|]; clear L1; intros _ ? L1).
  match type of L1 with pw_log ?v = _ /\ _ => rename v into w7 end. destruct L1 as [L7 C7].
  rewrite p_run_bind. cbv beta. rewrite p_run_bind. cbn [p_modify].
  specialize (IH (children ++ [pw_children w7]) (pw_spawned p w7)). cbn in IH. unfold spawning in *.
  destruct (spawn_nodes paths _ _) as [[cs|x|r] w8]; [| |done].
  - destruct IH as [-> [Hl Hc]]. rewrite L7, C7 in *. split; [by rewrite <- app_assoc|].
    split; [by rewrite Hl, <- app_assoc|]. simpl. lia.
  - destruct IH as (k & Hk & Hl & Hc). rewrite L7, C7 in *. exists (S k). simpl. split; [lia|].
    split; [by rewrite Hl, <- app_assoc|]. simpl. lia.
Qed.

Lemma spawned_from_starts n paths : Forall (fun ev => is_start ev = true) (spawned_from n paths).
Proof. revert n. induction paths; intros n; simpl; by constructor. Qed.

(** The whole start-up: a build, then the manifest's nodes in order. *)
Lemma spawn_localnet_log base_dir w :
  match spawn_localnet_children base_dir w with
  | (Done cs, w') => exists m hybrid, read_manifest base_dir (pw_disk w) = Ok m /\
      cs = seq (pw_children w) (length (mn_node_configs m)) /\
      pw_log w' = pw_log w ++ Built hybrid :: spawned_from (pw_children w) (mn_node_configs m)
  | (Failed _, w') => exists new, pw_log w' = pw_log w ++ new /\ Forall (fun ev => is_start ev = true) new
  | (Halted _, _) => False
  end.
Proof.
  assert (Hnone : forall x w', pw_log w' = pw_log w -> match (Failed x : outcome (list nat), w') with
    | (Done cs, w') => False
    | (Failed _, w') => exists new, pw_log w' = pw_log w ++ new /\ Forall (fun ev => is_start ev = true) new
    | (Halted _, _) => False end).
  { intros x w' Hl. exists []. by rewrite app_nil_r. }
  unfold spawn_localnet_children. rewrite p_run_bind. unfold p_disk at 1.
  destruct (read_manifest base_dir (pw_disk w)) as [m|x]; [|by apply Hnone]. cbn [p_lift mret P_ret].
  rewrite p_run_bind. unfold p_disk.
  destruct (localnet_requires_hybrid_enforcement m (pw_disk w)) as [hybrid|x]; [|by apply Hnone].
  cbn [p_lift mret P_ret]. rewrite p_run_bind. unfold ensure_node_binary_built. rewrite p_run_bind.
  destruct workspace_root as [root|x]; [|by apply Hnone]. cbn [p_lift mret P_ret]. rewrite p_run_bind.
  destruct (cargo_build hybrid) as [[]|x]; [|by apply Hnone..]. cbn [p_lift mret P_ret p_modify].
  rewrite p_run_bind. pose proof (nodes_refresh m (pw_emit (Built hybrid) w)) as Hr.
  assert (Hone : forall log', log' = pw_log w ++ [Built hybrid] -> exists new, log' = pw_log w ++ new /\
    Forall (fun ev => is_start ev = true) new).
  { intros log' ->. exists [Built hybrid]. split; [done|]. by repeat constructor. }
  destruct (refresh_genesis_time m _) as [[u|x|r] w1]; [|by apply Hone, Hr|done]. destruct Hr as [Hl Hc].
  rewrite p_run_bind. destruct node_binary_path as [path|x]; [|by apply Hone].
  cbn [p_lift mret P_ret]. pose proof (spawn_nodes_log (mn_node_configs m) [] w1) as Hs. unfold spawning in Hs.
  rewrite Hl, Hc in Hs. cbn in Hs.
  destruct (spawn_nodes _ _ w1) as [[cs|x|r] w2]; [| |done].
  - destruct Hs as [-> [Hl2 _]]. exists m, hybrid. split_and!; [done|done|]. by rewrite Hl2, <- app_assoc.
  - destruct Hs as (k & _ & Hl2 & _). eexists. split; [by rewrite Hl2, <- app_assoc|].
    constructor; [done|apply spawned_from_starts].
Qed.

(** Shutting down signals every child, then reaps every child. *)
Lemma signal_children_log children w :
  exists w', signal_children children w = (Done tt, w') /\ pw_log w' = pw_log w ++ (Signalled <$> children).
Proof.
  revert w. induction children as [|c children IH]; intros w; [eexists; split; [done|by rewrite app_nil_r]|].
  cbn [signal_children]. rewrite p_run_bind. cbn [p_modify].
  destruct (IH (pw_emit (Signalled c) w)) as (w' & -> & Hl). exists w'. split; [done|].
  rewrite Hl. simpl. by rewrite <- app_assoc.
Qed.
Lemma reap_children_log children w :
  exists w' evs, reap_children children w = (Done tt, w') /\ pw_log w' = pw_log w ++ evs /\ reaping children evs.
Proof.
  revert w. induction children as [|c children IH]; intros w.
  { exists w, []. rewrite app_nil_r. split_and!; [done|done|]. by exists []. }
  cbn [reap_children]. rewrite p_run_bind. cbn [p_tick]. rewrite p_run_bind.
  destruct (exits_at (pw_io w)) eqn:Ex; cbn [mret P_ret p_modify]; rewrite p_run_bind; cbn [p_modify].
  - destruct (IH (pw_emit (Reaped c) (pw_tick w))) as (w' & evs & -> & Hl & ks & Hks & ->).
    exists w'. eexists. split; [done|]. rewrite Hl. simpl. rewrite <- app_assoc. split; [done|].
    exists (false :: ks). simpl. by rewrite Hks.
  - destruct (IH (pw_emit (Reaped c) (pw_emit (Killed c) (pw_tick w)))) as (w' & evs & -> & Hl & ks & Hks & ->).
    exists w'. eexists. split; [done|]. rewrite Hl. simpl. rewrite <- !app_assoc. split; [done|].
    exists (true :: ks). simpl. by rewrite Hks.
Qed.
Lemma shutdown_children_log children w :
  exists w' evs, shutdown_children children w = (Done tt, w') /\
    pw_log w' = pw_log w ++ (Signalled <$> children) ++ evs /\ reaping children evs.
Proof.
  unfold shutdown_children. rewrite p_run_bind. destruct (signal_children_log children w) as (w1 & -> & H1).
  destruct (reap_children_log children w1) as (w2 & evs & -> & H2 & Hr).
  exists w2, evs. split; [done|]. rewrite H2, H1, <- app_assoc. done.
Qed.
End starting.

(** ** A scenario run stops what it started *)

Section stops.
Context `{Machine} `{Hashing} `{Aead} `{Environment}.
Context `{!Bincode ClientHelloTuple} `{!Bincode ServerHelloTuple}.
Context `{!Bincode SessionClientHello} `{!Bincode SessionServerHello}.
Context `{!Bincode SignedEnvelope} `{!Bincode ProtocolMessage} `{!Bincode NonceTuple}.
Context `{!BincodeLaws ProtocolMessage} `{!BincodeLaws NonceTuple}.
Context `{JsonLine Block} `{JsonLine EventLogEntry}.
Variable drawn : ValidatorId -> MlDsa65KeyFile * MlKemSessionKeyFile.
Hypothesis clock_advances : forall i, clock_at i < clock_at (S i).

(** Rounds for every millisecond of a flood. *)
Definition enough_bursts (sc : MatrixScenario) (inputs : ScenarioInputs) : Prop :=
  match sc_abuse_pattern sc with
  | Some (SyncControlFlood _ duration_secs _) => duration_secs * 1000 <= Z.of_nat (si_bursts inputs)
  | _ => True
  end.

Lemma abuse_outcome_ends g configs sc inputs :
  enough_bursts sc inputs ->
  match abuse_outcome g configs (sc_abuse_pattern sc) inputs with Halted _ => False | _ => True end.
Proof.
  intros Hb. unfold abuse_outcome, enough_bursts in *.
  destruct (sc_abuse_pattern sc) as [pattern|]; [|done]. destruct configs as [configs|]; [|done].
  pose proof (run_abuse_ends (H0 := DeterministicCryptoBackend (from_validators (validators g)))
    (H1 := deterministic_handshakes (from_validators (validators g))) clock_advances
    (si_bursts inputs) configs (Some pattern) (si_network inputs) Hb) as He.
  destruct (run_abuse_pattern _ _ _ _) as [[[k|x|x]|[]] w']; done.
Qed.

Lemma keeps_load_and_abuse base_dir sc inputs :
  enough_bursts sc inputs -> keeps_nodes (run_load_and_abuse base_dir sc inputs).
Proof.
  intros Hb. unfold run_load_and_abuse. apply nodes_bind; [apply nodes_disk|]. intros m.
  apply nodes_bind; [apply nodes_disk|]. intros g.
  destruct (load_scenario _ _ _ _ _) as [files load_result].
  apply nodes_bind; [by intros w|]. intros _ w. rewrite p_run_bind. cbv beta.
  pose proof (abuse_outcome_ends g (read_node_configs m (pw_disk w)) sc inputs Hb) as Ha.
  destruct (abuse_outcome _ _ _ _) as [u|x|r]; [| |done];
    (eapply nodes_bind; [apply nodes_lift|]; intros _; apply nodes_bind; [|intros _; apply nodes_lift]).
  - by intros w'.
  - by intros w'.
Qed.

Lemma initialise_log args w :
  match initialise drawn args w with
  | (Done _, w') => args_ok args = true /\ pw_log w' = pw_log w /\ pw_children w' = pw_children w /\
      read_manifest (in_base_dir args) (pw_disk w') = Ok (localnet_manifest args)
  | (Failed _, w') => pw_log w' = pw_log w
  | (Halted _, _) => False
  end.
Proof.
  unfold initialise. destruct (init_localnet drawn args (time_at (pw_io w)) (pw_disk w)) as [d'|x] eqn:E; [|done].
  pose proof (init_localnet_args _ _ _ _ _ E) as Hok.
  destruct (init_localnet_ok drawn args (time_at (pw_io w)) (pw_disk w) Hok) as (d'' & E' & Hm & _).
  rewrite E in E'. injection E' as <-. done.
Qed.

(** From [w] on: one node per validator started in order, all of them
    signalled, then all reaped, and an ordinary result. *)
Definition ran_and_stopped (base_dir : string) (sc : MatrixScenario) (w : ProcWorld) (children : list nat)
    (r : outcome MatrixScenarioResult) (w' : ProcWorld) : Prop := exists hybrid stopped,
  children = seq (pw_children w) (Z.to_nat (sc_validators sc)) /\
  pw_log w' = pw_log w ++ Built hybrid
    :: spawned_from (pw_children w) (config_path_of (matrix_init base_dir sc) <$>
         validator_ids_of (matrix_init base_dir sc))
    ++ (Signalled <$> children) ++ stopped /\
  reaping children stopped /\ match r with Halted _ => False | _ => True end.

(** The end of [run_matrix_scenario], whatever the result of the run. *)
Lemma stop_and_report base_dir sc w children hybrid w2 rr :
  children = seq (pw_children w) (Z.to_nat (sc_validators sc)) ->
  pw_log w2 = pw_log w ++ Built hybrid :: spawned_from (pw_children w)
    (config_path_of (matrix_init base_dir sc) <$> validator_ids_of (matrix_init base_dir sc)) ->
  let '(r, w') := (shutdown_children children ≫= fun _ => '(lr, sr) ← p_lift rr;
    mret (matrix_result base_dir sc lr sr)) w2 in
  ran_and_stopped base_dir sc w children r w'.
Proof.
  intros Hch Hl2. rewrite p_run_bind.
  destruct (shutdown_children_log children w2) as (w4 & evs & -> & Hl4 & Hr).
  destruct rr as [[lr sr]|x]; simpl; exists hybrid, evs;
    (split_and!; [done| |done|done]); by rewrite Hl4, Hl2, <- app_assoc.
Qed.

(** C34: A scenario run stops the nodes it starts: it starts one node per
    validator, in order, and however the load, the abuse traffic and the wait
    for the expectations end, then signals every one of them before it waits
    for any, and reaps every one, killing those that do not exit in time.
    Only when starting itself fails it returns that error at once, and then
    the nodes that were already started are left running. *)
Theorem matrix_scenario_stops_nodes base_dir sc inputs w :
  enough_bursts sc inputs ->
  let started := (initialise drawn (matrix_init base_dir sc) ≫= fun _ => spawn_localnet_children base_dir) w in
  let '(r, w') := run_matrix_scenario drawn base_dir sc inputs w in
  match started.1 with
  | Done children => ran_and_stopped base_dir sc w children r w'
  | Failed m => r = Failed m /\ exists new, pw_log w' = pw_log w ++ new /\
      Forall (fun ev => is_start ev = true) new
  | Halted _ => False
  end.
Proof.
  intros Hb. cbv zeta. rewrite p_run_bind. unfold run_matrix_scenario. rewrite p_run_bind.
  pose proof (initialise_log (matrix_init base_dir sc) w) as Hi.
  destruct (initialise _ _ w) as [[u|x|h] w1]; [| |done].
  2: { split; [done|]. exists []. by rewrite app_nil_r. }
  destruct Hi as (Hok & Hl1 & Hc1 & Hm). rewrite p_run_bind.
  pose proof (spawn_localnet_log base_dir w1) as Hs.
  destruct (spawn_localnet_children base_dir w1) as [[children|x|h] w2]; [| |done].
  2: { split; [done|]. by rewrite <- Hl1. }
  destruct Hs as (m & hybrid & Hm' & Hch & Hl2). change base_dir with (in_base_dir (matrix_init base_dir sc)) in Hm'.
  rewrite Hm in Hm'. injection Hm' as <-. rewrite p_run_bind.
  pose proof (keeps_load_and_abuse base_dir sc inputs Hb w2) as Hk. unfold p_result.
  assert (Hlen : length (mn_node_configs (localnet_manifest (matrix_init base_dir sc))) = Z.to_nat (sc_validators sc)).
  { simpl. unfold validator_ids_of. by rewrite !length_fmap, length_seq. }
  rewrite Hlen, Hc1 in Hch. rewrite Hl1, Hc1 in Hl2. simpl.
  destruct (run_load_and_abuse base_dir sc inputs w2) as [[a|x|h] w3]; [| |done];
    (apply (stop_and_report base_dir sc w children hybrid); [done|]; destruct Hk as [-> _]; done).
Qed.
End stops.

(** ** A run whose second node does not start *)

Module ProcessesExample.
#[local] Existing Instance concrete_hashing.
#[local] Existing Instance HandshakeExample.countable_bincode.
#[local] Existing Instance HandshakeExample.countable_bincode_laws.
#[local] Existing Instance HandshakeExample.client_hello_countable.
#[local] Existing Instance HandshakeExample.server_hello_countable.
#[local] Existing Instance HandshakeExample.session_scheme_countable.
#[local] Existing Instance ChannelExample.cipher.
#[local] Existing Instance FloodExample.envelope_countable.
#[local] Existing Instance FloodExample.network.
#[local] Instance any_lines {T} : JsonLine T := {| to_json := fun _ => []; from_str := fun _ => Malformed |}.

(** The third node does not exit in time. *)
Definition machine (spawn_error : nat -> option string) : Machine :=
  {| cargo_build := fun _ => Ok true; current_exe := Ok ["target"; "debug"; "deps"; "sim"]%string;
     workspace_root := Ok "/src"%string;
     file_exists := fun p => bool_decide (p = ["target"; "debug"; "entangrid-node"]%string);
     create_at := fun _ => None; spawn_at := spawn_error; ctrl_c_at := fun _ => None;
     exits_at := fun i => negb (Nat.eqb i 16); time_at := fun _ => 100 |}.
Definition blank : ProcWorld := mkProcWorld empty_disk [] 0 0 [].
Definition keys (id : ValidatorId) : MlDsa65KeyFile * MlKemSessionKeyFile :=
  (mkMlDsaKeyFile [id] [id], mkMlKemKeyFile [id] [id]).
Definition inputs : ScenarioInputs := mkInputs None (fun i => Z.of_nat i) 0 FloodExample.start [] [].

Example found_beside_deps : node_binary_path (H := machine (fun _ => None)) =
  Ok ["target"; "debug"; "entangrid-node"]%string.
Proof. vm_compute. reflexivity. Qed.

Lemma network_clock i : clock_at (Environment := FloodExample.network) i < clock_at (Environment := FloodExample.network) (S i).
Proof. simpl. lia. Qed.

Lemma matrix_scenario_stops_nodes_witness :
  exists r w', run_matrix_scenario (H := machine (fun _ => None)) keys "m" (baseline_4_steady 5) inputs blank = (r, w') /\
    ran_and_stopped "m" (baseline_4_steady 5) blank [0; 1; 2; 3]%nat r w'.
Proof.
  pose proof (matrix_scenario_stops_nodes (H := machine (fun _ => None)) keys
    network_clock "m" (baseline_4_steady 5) inputs blank I) as Hs. cbv zeta in Hs.
  assert (E : ((initialise (H := machine (fun _ => None)) keys (matrix_init "m" (baseline_4_steady 5)) ≫=
    fun _ => spawn_localnet_children (H := machine (fun _ => None)) "m") blank).1 = Done [0; 1; 2; 3]%nat)
    by (vm_compute; reflexivity).
  destruct (run_matrix_scenario _ _ _ _ _) as [r w']. rewrite E in Hs. by exists r, w'.
Defined.

(** The first node of a start that fails is left running. *)
Lemma failed_start_leaves_node :
  let '(r, w') := run_matrix_scenario
    (H := machine (fun i => if Nat.eqb i 7 then Some "out of processes"%string else None))
    keys "m" (baseline_4_steady 5) inputs blank in
  r = Failed "out of processes" /\ pw_log w' = [Built false; Spawned 0 "m/node-1/node.toml"].
Proof. vm_compute. split; reflexivity. Qed.
End ProcessesExample.
