(* ===== verification/Render.v ===== *)
(** * The texts of the reports

    [render_text] and [render_markdown] of the reports of
    crates/entangrid-sim/src/lib.rs and [describe_abuse_pattern], with the
    formatting they use: [format!] with [{}] replaced in order, and floats
    with a fixed number of decimals. *)
From stdpp Require Import pretty.
From Stdlib Require Import Ascii.
From S2P Require Import Prelude F64 Hybrid Types JsonLines NodeState Localnet Reports Processes Measure.

Open Scope Z_scope.

(** ** Formatting *)

(** [format!]: every [{}] is replaced by the next argument. *)
Fixpoint format (template : string) (args : list string) : string :=
  match template with
  | String "{" (String "}" rest) =>
      match args with [] => "" | a :: args' => a +:+ format rest args' end
  | String c rest => String c (format rest args)
  | EmptyString => ""
  end.

(** The nearest integer to [n / d], ties to even. *)
Definition div_nearest (n d : Z) : Z :=
  let q := n / d in
  let twice := 2 * (n mod d) in
  if twice <? d then q else if d <? twice then q + 1 else if Z.even q then q else q + 1.

(** [m * 2^e * 10^d] as an integer. *)
Definition scaled (m : positive) (e : Z) (d : nat) : Z :=
  let n := Zpos m * 10 ^ Z.of_nat d in
  if 0 <=? e then n * 2 ^ e else div_nearest n (2 ^ (- e)).

Fixpoint pad_zeros (n : nat) (s : string) : string :=
  if (String.length s <? n)%nat then match n with O => s | S n' => "0" +:+ pad_zeros n' s end else s.

(** [{:.d}] for [d > 0]. *)
Definition fixed (d : nat) (x : f64) : string :=
  let decimals n := pretty (n / 10 ^ Z.of_nat d) +:+ "." +:+ pad_zeros d (pretty (n mod 10 ^ Z.of_nat d)) in
  match x with
  | S754_nan => "NaN"
  | S754_infinity s => if s then "-inf" else "inf"
  | S754_zero s => (if s then "-" else "") +:+ decimals 0
  | S754_finite s m e => (if s then "-" else "") +:+ decimals (scaled m e d)
  end.

Definition show_bool (b : bool) : string := if b then "true" else "false".

Example thirds : fixed 3 (f64_decimal 1 3) = "0.333"%string. Proof. vm_compute. reflexivity. Qed.
Example tie_to_even : fixed 3 (f64_decimal 1 16) = "0.062"%string. Proof. vm_compute. reflexivity. Qed.
Example carries : fixed 2 (f64_decimal 1999 1000) = "2.00"%string. Proof. vm_compute. reflexivity. Qed.
Example small : fixed 3 (f64_decimal 7 1000) = "0.007"%string. Proof. vm_compute. reflexivity. Qed.

(** The printed number is a nearest one. *)
Lemma div_nearest_spec n d : 0 < d -> 0 <= n ->
  2 * Z.abs (n - d * div_nearest n d) <= d /\
  (2 * Z.abs (n - d * div_nearest n d) = d -> Z.even (div_nearest n d) = true).
Proof.
  intros Hd Hn. pose proof (Z.div_mod n d ltac:(lia)) as Hdm. pose proof (Z.mod_pos_bound n d Hd) as Hb.
  unfold div_nearest. set (q := n / d) in *. set (r := n mod d) in *.
  destruct (Z.ltb_spec (2 * r) d); [replace (n - d * q) with r by lia; rewrite Z.abs_eq by lia; lia|].
  destruct (Z.ltb_spec d (2 * r)).
  { replace (n - d * (q + 1)) with (r - d) by lia. lia. }
  destruct (Z.even q) eqn:Eq; [replace (n - d * q) with r by lia; rewrite Z.abs_eq by lia; split; [lia|done]|].
  replace (n - d * (q + 1)) with (r - d) by lia. split; [lia|]. intros _.
  rewrite Z.even_add, Eq. done.
Qed.

(** ** The local network *)

Definition render_weights (w : ServiceScoreWeights) : list string :=
  [fixed 2 (uptime_weight w); fixed 2 (delivery_weight w); fixed 2 (diversity_weight w);
   fixed 2 (penalty_weight w)].

Definition render_validator (v : ValidatorReport) : string :=
  format "validator {}: epoch {} slot {} score {} weights [{},{},{},-{}] failed_sessions {} invalid_receipts {} proposed {} validated {} txs {} receipts {} attestations_emitted {} attestations_imported {} aggregates_published {} aggregates_imported {} missed {} gated {} duplicate_receipts {} peer_rate_limited {} inbound_session_drops {}"
    ([pretty (vr_validator_id v); pretty (vr_current_epoch v); pretty (vr_current_slot v);
      fixed 3 (vr_last_local_service_score v)]
     ++ render_weights (vr_service_score_weights v)
     ++ (pretty <$> [vr_failed_sessions v; vr_invalid_receipts v; vr_blocks_proposed v; vr_blocks_validated v;
           vr_tx_ingress v; vr_receipts_created v; vr_service_attestations_emitted v;
           vr_service_attestations_imported v; vr_service_aggregates_published v;
           vr_service_aggregates_imported v; vr_missed_proposer_slots v; vr_service_gating_rejections v;
           vr_duplicate_receipts_ignored v; vr_peer_rate_limit_drops v; vr_inbound_session_drops v]))%list.

Definition render_score (template : string) (score : option (ValidatorId * f64)) : list string :=
  match score with
  | Some (id, x) => [format template [pretty id; fixed 3 x]]
  | None => []
  end.

Definition localnet_render_text (r : LocalnetReport) : string :=
  join_lines
    ([format "Localnet report: {}" [lr_base_dir r];
      format "validators with metrics: {}/{}" [pretty (validators_with_metrics r); pretty (configured_validators r)];
      format "total blocks proposed: {}" [pretty (total_blocks_proposed r)];
      format "total missed proposer slots: {}" [pretty (total_missed_slots r)];
      format "total gating rejections: {}" [pretty (total_gating_rejections r)];
      format "total duplicate receipts ignored: {}" [pretty (total_duplicate_receipts_ignored r)];
      format "total peer rate-limit drops: {}" [pretty (total_peer_rate_limit_drops r)];
      format "total inbound session drops: {}" [pretty (total_inbound_session_drops r)];
      format "total service attestations emitted: {}" [pretty (total_service_attestations_emitted r)];
      format "total service attestations imported: {}" [pretty (total_service_attestations_imported r)];
      format "total service aggregates published: {}" [pretty (total_service_aggregates_published r)];
      format "total service aggregates imported: {}" [pretty (total_service_aggregates_imported r)]]
     ++ render_score "highest score: validator {} = {}" (highest_score r)
     ++ render_score "lowest score: validator {} = {}" (lowest_score r)
     ++ (render_validator <$> lr_validators r))%list.

(** [report_localnet]: what it prints. *)
Definition report_localnet (base_dir : string) (nodes : list NodeFiles) : result string :=
  r ← build_localnet_report base_dir nodes; Ok (localnet_render_text r).

(** ** The matrix *)

Definition describe_abuse_pattern (p : AbusePattern) : string :=
  match p with
  | SyncControlFlood source duration_secs bursts_per_second =>
      format "sync-control-flood source v{} duration {}s bursts/s {}"
        [pretty source; pretty duration_secs; pretty bursts_per_second]
  | InboundConnectionFlood target concurrent_connections hold_millis rounds =>
      format "inbound-connection-flood target v{} connections {} hold {}ms rounds {}"
        [pretty target; pretty concurrent_connections; pretty hold_millis; pretty rounds]
  end.

Definition status (m : MatrixScenarioResult) : string := if passed m then "PASS" else "FAIL".
Definition signal_text (m : MatrixScenarioResult) : string :=
  match failure_signal m with
  | Some SyncFork => "sync/fork"
  | Some PolicyGating => "policy/gating"
  | None => "ok"
  end.
Definition lowest_score_text (r : LocalnetReport) : string :=
  match lowest_score r with Some (id, x) => format "v{}={}" [pretty id; fixed 3 x] | None => "n/a" end.

Definition passed_count (scenarios : list MatrixScenarioResult) : nat :=
  length (filter (fun m => passed m) scenarios).

Definition scenario_line (m : MatrixScenarioResult) : string :=
  let s := mr_structural_report m in
  let r := mr_localnet_report m in
  format "{}: {} signal {} same_chain {}/{} height_spread {} tip_spread {} fork_observed {} sync_blocks_rejected {} parent_ok {} tips_ok {} stderr_clean {} lowest_score {} gating_rejections {} honest_below_threshold {} honest_gating_rejections {} weights [{},{},{},-{}] rate_limit_drops {} inbound_drops {}"
    ([mr_name m; status m; signal_text m; pretty (same_chain_count s); pretty (configured_validators r);
      pretty (height_spread s); pretty (tip_spread s); pretty (total_fork_observed s);
      pretty (total_sync_blocks_rejected s); show_bool (all_parent_ok s); show_bool (all_tips_match s);
      show_bool (all_stderr_clean s); lowest_score_text r; pretty (total_gating_rejections r);
      pretty (mr_non_target_below_threshold_count m); pretty (mr_non_target_gating_rejections m)]
     ++ render_weights (mr_score_weights m)
     ++ [pretty (total_peer_rate_limit_drops r); pretty (total_inbound_session_drops r)])%list.

Definition matrix_render_text (x : MatrixReport) : string :=
  join_lines
    ("Rigorous Entangrid localnet matrix"%string
     :: format "scenarios passed: {}/{}" [pretty (passed_count (mx_scenarios x)); pretty (length (mx_scenarios x))]
     :: (scenario_line <$> mx_scenarios x))%list.

Definition matrix_row (m : MatrixScenarioResult) : string :=
  let s := mr_structural_report m in
  let r := mr_localnet_report m in
  format "| {} | {} | {} | {} | {}/{} | {} | {} | {} | {} | {} | {} | {} | {} | {} | {} | {} |"
    [mr_name m; status m; signal_text m; pretty (configured_validators r); pretty (same_chain_count s);
     pretty (height_spread s); pretty (tip_spread s); pretty (configured_validators r);
     show_bool (all_parent_ok s); show_bool (all_tips_match s); show_bool (all_stderr_clean s);
     lowest_score_text r; pretty (total_fork_observed s); pretty (total_sync_blocks_rejected s);
     pretty (total_gating_rejections r); pretty (mr_non_target_below_threshold_count m);
     pretty (mr_non_target_gating_rejections m)].

Definition load_debug (l : LoadScenario) : string :=
  match l with Idle => "Idle" | Steady => "Steady" | Bursty => "Bursty" | LargeBlock => "LargeBlock" end.

Definition scenario_section (m : MatrixScenarioResult) : list string :=
  let s := mr_structural_report m in
  let r := mr_localnet_report m in
  ([""; format "## {}" [mr_name m]; "";
    format "- Load: `{}` for {}s, settle {}s"
      [load_debug (mr_load_scenario m); pretty (mr_load_duration_secs m); pretty (mr_settle_secs m)]]%string
   ++ match mr_abuse_pattern m with
      | Some p => [format "- Abuse: `{}`" [describe_abuse_pattern p]]
      | None => []
      end
   ++ [format "- Gating: `{}` threshold `{}` score window `{}` epochs weights `[{}, {}, {}, -{}]`"
         ([show_bool (mr_gating_enabled m); fixed 3 (mr_gating_threshold m); pretty (mr_score_window_epochs m)]
          ++ render_weights (mr_score_weights m))]
   ++ match mr_policy_target_validator m with
      | Some target =>
          [format "- Policy target validator: `v{}`; non-target validators below threshold `{}`; non-target gating rejections `{}`"
             [pretty target; pretty (mr_non_target_below_threshold_count m);
              pretty (mr_non_target_gating_rejections m)]]
      | None => []
      end
   ++ [format "- Structural: same chain `{}/{}`, height spread `{}` (range `{}..{}`), tip spread `{}` ({} unique tips), fork-observed `{}`, sync-blocks-rejected `{}`, parent hashes `{}`, snapshots `{}`, clean stderr `{}`"
         [pretty (same_chain_count s); pretty (configured_validators r); pretty (height_spread s);
          pretty (min_height s); pretty (max_height s); pretty (tip_spread s); pretty (distinct_tip_count s);
          pretty (total_fork_observed s); pretty (total_sync_blocks_rejected s); show_bool (all_parent_ok s);
          show_bool (all_tips_match s); show_bool (all_stderr_clean s)];
       format "- Abuse counters: peer rate-limit drops `{}`, inbound session drops `{}`"
         [pretty (total_peer_rate_limit_drops r); pretty (total_inbound_session_drops r)];
       ""%string;
       "| Validator | Score | Penalty Weight | Failed Sessions | Invalid Receipts | Proposed | Validated | Missed | Gated | Receipts | Rate-Limited | Inbound Drops |"%string;
       "|---|---|---|---|---|---|---|---|---|---|---|---|"%string]
   ++ ((fun v => format "| {} | {} | {} | {} | {} | {} | {} | {} | {} | {} | {} | {} |"
         ([pretty (vr_validator_id v); fixed 3 (vr_last_local_service_score v);
           fixed 2 (penalty_weight (vr_service_score_weights v))]
          ++ (pretty <$> [vr_failed_sessions v; vr_invalid_receipts v; vr_blocks_proposed v;
                vr_blocks_validated v; vr_missed_proposer_slots v; vr_service_gating_rejections v;
                vr_receipts_created v; vr_peer_rate_limit_drops v; vr_inbound_session_drops v])))
       <$> lr_validators r))%list.

Definition matrix_render_markdown (x : MatrixReport) : string :=
  join_lines
    (["# Entangrid Rigorous Matrix"%string; ""%string;
      format "Generated at unix millis `{}`. Scenarios passed: `{}/{}`."
        [pretty (mx_generated_at_unix_millis x); pretty (passed_count (mx_scenarios x));
         pretty (length (mx_scenarios x))];
      ""%string;
      "| Scenario | Status | Signal | Validators | Same Chain | Height Spread | Tip Spread | Parent Hashes | Snapshots | Clean stderr | Lowest Score | Fork Observed | Sync Blocks Rejected | Gating Rejections | Honest Below Threshold | Honest Gating Rejections |"%string;
      "|---|---|---|---|---|---|---|---|---|---|---|---|---|---|---|---|"%string]
     ++ (matrix_row <$> mx_scenarios x) ++ concat (scenario_section <$> mx_scenarios x))%list.

(** The row does not fit its header: under "Same Chain" stands the chain count
    over the height spread, under "Height Spread" the tip spread, and under
    "Tip Spread" the number of validators. *)
Lemma matrix_row_columns m :
  let s := mr_structural_report m in
  let r := mr_localnet_report m in
  exists rest, matrix_row m =
    "| " +:+ mr_name m +:+ " | " +:+ status m +:+ " | " +:+ signal_text m
    +:+ " | " +:+ pretty (configured_validators r)
    +:+ " | " +:+ pretty (same_chain_count s) +:+ "/" +:+ pretty (height_spread s)
    +:+ " | " +:+ pretty (tip_spread s)
    +:+ " | " +:+ pretty (configured_validators r) +:+ " | " +:+ rest.
Proof. eexists. reflexivity. Qed.
