(* ===== verification/Cli.v ===== *)
(** * Commands

    The command line of crates/entangrid-sim/src/lib.rs after clap has parsed
    it: an option is [None] where the user gave none, [with_defaults] fills in
    what the [#[arg(default_value_t = ...)]] attributes say, and [cli_main]
    runs the command. *)
From stdpp Require Import pretty.
From S2P Require Import Prelude F64 JsonLines Hybrid Types Crypto Sessions Handshakes Consensus Policy.
From S2P Require Import Concrete Network Channel NodeState Localnet Load Startup Reports Flood Matrix Processes Measure Render.

Open Scope Z_scope.

(** The options of [init-localnet]; flags are booleans. *)
Record InitOptions := mkOptions {
  o_validators : option Z;
  o_base_dir : option string;
  o_slot_duration_millis : option Z;
  o_slots_per_epoch : option Z;
  o_start_delay_millis : option Z;
  o_enable_service_gating : bool;
  o_consensus_v2 : bool;
  o_service_gating_start_epoch : option Z;
  o_service_gating_threshold : option f64;
  o_service_score_window_epochs : option Z;
  o_service_score_uptime_weight : option f64;
  o_service_score_delivery_weight : option f64;
  o_service_score_diversity_weight : option f64;
  o_service_score_penalty_weight : option f64;
  o_degraded_validator : option ValidatorId;
  o_degraded_delay_ms : option Z;
  o_degraded_drop_probability : option f64;
  o_degraded_disable_outbound : bool;
  o_hybrid_enforcement : bool }.

Inductive Commands :=
| CmdInitLocalnet (o : InitOptions)
| CmdUp (base_dir : option string)
| CmdLoad (base_dir : option string) (scenario : option LoadScenario) (duration_secs : option Z)
| CmdReport (base_dir : option string)
| CmdMatrix (base_dir output_dir : option string) (settle_secs : option Z)
| CmdPqMeasure (validators iterations : option Z) (output_path : option string).

Definition no_options : InitOptions :=
  mkOptions None None None None None false false None None None None None None None None None None false false.

Definition with_defaults (o : InitOptions) : InitLocalnet :=
  let validators := default 4 (o_validators o) in
  mkInit validators (default "var/localnet"%string (o_base_dir o))
    (default 2000 (o_slot_duration_millis o)) (default 10 (o_slots_per_epoch o))
    (default 3000 (o_start_delay_millis o)) (o_enable_service_gating o)
    (default RECOMMENDED_SERVICE_GATING_START_EPOCH (o_service_gating_start_epoch o))
    (default RECOMMENDED_SERVICE_GATING_THRESHOLD (o_service_gating_threshold o))
    (default (recommended_service_score_window_epochs_for_validators validators)
       (o_service_score_window_epochs o))
    (mkWeights (default RECOMMENDED_SERVICE_UPTIME_WEIGHT (o_service_score_uptime_weight o))
       (default RECOMMENDED_SERVICE_DELIVERY_WEIGHT (o_service_score_delivery_weight o))
       (default RECOMMENDED_SERVICE_DIVERSITY_WEIGHT (o_service_score_diversity_weight o))
       (default RECOMMENDED_SERVICE_PENALTY_WEIGHT (o_service_score_penalty_weight o)))
    (o_degraded_validator o) (default 0 (o_degraded_delay_ms o))
    (default f64_zero (o_degraded_drop_probability o)) (o_degraded_disable_outbound o)
    (o_consensus_v2 o) (o_hybrid_enforcement o).

Definition local_dir (base_dir : option string) : string := default "var/localnet"%string base_dir.

Section commands.
Context `{Machine} `{Hashing} `{MlDsa} `{Aead} `{Environment}.
Context `{!Bincode ClientHelloTuple} `{!Bincode ServerHelloTuple}.
Context `{!Bincode SessionClientHello} `{!Bincode SessionServerHello}.
Context `{!Bincode SignedEnvelope} `{!Bincode ProtocolMessage} `{!Bincode NonceTuple}.
Context `{!Bincode PublicIdentity} `{!Bincode TypedSignature} `{!Bincode Block} `{!Bincode ProposalVote}.
Context `{JsonLine Block} `{JsonLine EventLogEntry}.
Variable drawn : ValidatorId -> MlDsa65KeyFile * MlKemSessionKeyFile.

(** What a command finds outside: the files of the nodes, the inputs of its
    runs, a drawn signing key, the temporary directory, the process id and
    the stopwatch. *)
Variable nodes : list NodeFiles.
Variable inputs : string -> ScenarioInputs.
Variable drawn_key : MlDsa65KeyFile.
Variable temp_dir : string.
Variable pid : Z.
Variable latency : nat -> Latency.

Definition load_command (base_dir : string) (scenario : LoadScenario) (duration_secs : Z) : P unit :=
  manifest ← p_disk (read_manifest base_dir);
  g ← p_disk (fun d => read_file (genesis_files d) (mn_genesis_path manifest));
  let '(files, load_result) := load_scenario g (si_snapshot (inputs base_dir)) scenario duration_secs
    (si_load_clock (inputs base_dir)) in
  _ ← p_modify (pw_add_inbox files);
  _ ← p_lift load_result; mret tt.

(** [cli_main]: the text printed or written. *)
Definition cli_main (command : Commands) : P string :=
  match command with
  | CmdInitLocalnet o => _ ← initialise drawn (with_defaults o); mret ""%string
  | CmdUp base_dir => _ ← up_localnet (local_dir base_dir); mret ""%string
  | CmdLoad base_dir scenario duration_secs =>
      _ ← load_command (local_dir base_dir) (default Steady scenario) (default 12 duration_secs);
      mret ""%string
  | CmdReport base_dir =>
      _ ← p_disk (read_manifest (local_dir base_dir));
      p_lift (report_localnet (local_dir base_dir) nodes)
  | CmdMatrix base_dir output_dir settle_secs =>
      report ← run_rigorous_matrix drawn (default "var/localnet-matrix"%string base_dir)
                 (default "test-results"%string output_dir) (default 18 settle_secs) inputs;
      mret (matrix_render_text report)
  | CmdPqMeasure validators iterations output_path =>
      now ← p_now;
      d ← p_disk Ok;
      '(text, d') ← p_lift (run_pq_measurement drawn_key temp_dir pid latency now
        (default "test-results/pq-ml-dsa-measurements.md"%string output_path)
        (default 4 validators) (default 32 iterations) d);
      _ ← p_modify (pw_set_disk d');
      mret text
  end.

(** The defaults make a network: only a number of validators below four or a
    degraded validator that is not one of them is refused. *)
Lemma with_defaults_ok o :
  args_ok (with_defaults o) = true <->
  4 <= default 4 (o_validators o) /\
  match o_degraded_validator o with
  | Some id => id <> 0 /\ id <= default 4 (o_validators o)
  | None => True
  end.
Proof.
  unfold args_ok. simpl. rewrite andb_true_iff, Z.leb_le. destruct (o_degraded_validator o) as [id|]; simpl.
  - rewrite andb_true_iff, negb_true_iff, Z.eqb_neq, Z.leb_le. done.
  - tauto.
Qed.

(** [init-localnet] writes the network the options describe and [up] or a
    report finds its manifest. *)
Lemma init_command o w :
  args_ok (with_defaults o) = true ->
  exists w', cli_main (CmdInitLocalnet o) w = (Done ""%string, w') /\ pw_log w' = pw_log w /\
    read_manifest (in_base_dir (with_defaults o)) (pw_disk w') = Ok (localnet_manifest (with_defaults o)).
Proof.
  intros Hok. cbn [cli_main]. rewrite p_run_bind. unfold initialise.
  destruct (init_localnet_ok drawn (with_defaults o) (time_at (pw_io w)) (pw_disk w) Hok) as (d' & -> & Hm & _).
  eexists. split_and!; [reflexivity|done|exact Hm].
Qed.
End commands.
