(* ===== verification/Verdicts.v ===== *)
(** * What a matrix verdict means

    Theorems about Reports: the verdict [passed] and the expectations the
    runner waits for are one condition, the wait gives a verdict whenever the
    files can be read, and a network that passes agrees on one linked chain. *)
From S2P Require Import Prelude F64 Hybrid Types JsonLines Localnet Reports Matrix.

Open Scope Z_scope.

(** ** Lists *)

Section min.
Context {A : Type}.
Implicit Types l : list A.

Lemma min_by_elem cmp l x : min_by cmp l = Some x -> x ∈ l.
Proof.
  destruct l as [|y l]; intros [= <-]. revert y. induction l as [|z l IH]; intros y; simpl; [by left|].
  specialize (IH match cmp y z with Gt => z | _ => y end).
  destruct (cmp y z); rewrite !elem_of_cons in *; naive_solver.
Qed.

(** The count of elements with a property is the length when all have it. *)
Lemma filter_length_all (P : A -> Prop) `{!forall x, Decision (P x)} l :
  length (filter P l) = length l -> Forall P l.
Proof.
  induction l as [|x l IH]; [constructor|]. destruct (decide (P x)) as [Hp|Hp].
  - rewrite filter_cons_True by done. simpl. intros E. constructor; [done|]. apply IH. lia.
  - rewrite filter_cons_False by done. simpl. intros E. pose proof (length_filter P l). lia.
Qed.
End min.

Lemma forallb_sorted {A} (p : A -> bool) (le : A -> A -> comparison) l :
  forallb p (sort_by le l) = true -> Forall (fun a => p a = true) l.
Proof.
  intros Hp. apply Forall_forall. intros a Ha. rewrite forallb_forall in Hp. apply Hp.
  apply list_elem_of_In. by rewrite sort_by_perm.
Qed.

(** ** The verdict is the expectation *)

(** The scores a report and a scenario compare are numbers. *)
Definition numeric_report (r : LocalnetReport) : Prop :=
  forall x, lowest_score r = Some x -> is_nan x.2 = false.
Definition numeric_scenario (sc : MatrixScenario) : Prop :=
  (forall x, sc_min_lowest_score sc = Some x -> is_nan x = false) /\
  (forall x, sc_max_lowest_score sc = Some x -> is_nan x = false).

Lemma not_ltb_geb x y : is_nan x = false -> is_nan y = false -> negb (f64_ltb x y) = f64_geb x y.
Proof.
  intros Hx Hy. destruct (f64_ltb x y) eqn:E; simpl.
  - by rewrite f64_lt_not_geb.
  - by rewrite f64_not_lt_geb.
Qed.

Lemma unless_is_none_or {A} (o : option A) bad good :
  (forall a, o = Some a -> negb (bad a) = good a) -> unless o bad = is_none_or o good.
Proof. destruct o as [a|]; simpl; [|done]. intros Ha. by apply Ha. Qed.

Lemma negb_map_or {A} (o : option A) bad good :
  (forall a, o = Some a -> negb (bad a) = good a) -> negb (map_or o true bad) = map_or o false good.
Proof. destruct o as [a|]; simpl; [|done]. intros Ha. by apply Ha. Qed.

Lemma expectations_met_passed base sc r s :
  numeric_report r -> numeric_scenario sc ->
  scenario_expectations_met sc (configured_validators r) r s = passed (matrix_result base sc r s).
Proof.
  intros Hr [Hmin Hmax]. unfold scenario_expectations_met, passed. simpl.
  rewrite !negb_orb, !negb_involutive. f_equal; [f_equal; [f_equal; [f_equal; [f_equal;
    [f_equal; [f_equal; [f_equal|]|]|]|]|]|]|]; apply unless_is_none_or.
  - intros id _. apply negb_involutive.
  - intros x Hx. apply negb_map_or. intros y Hy. apply not_ltb_geb; [by apply Hr|by apply Hmin].
  - intros x Hx. apply negb_map_or. intros y Hy. apply not_ltb_geb; [by apply Hmax|by apply Hr].
  - intros [id minimum] _. apply negb_map_or. intros v _. symmetry; apply Z.leb_antisym.
  - intros m _. symmetry; apply Z.leb_antisym.
  - intros m _. symmetry; apply Z.leb_antisym.
  - intros m _. symmetry; apply Nat.leb_antisym.
  - intros m _. symmetry; apply Z.leb_antisym.
Qed.

(** The scores in the metrics files are numbers, as JSON numbers are. *)
Definition numeric_metrics (nodes : list NodeFiles) : Prop :=
  Forall (fun n => forall m, nf_metrics n = Some (Ok m) ->
                     is_nan (mf_last_local_service_score m) = false) nodes.

Lemma read_metrics_from nodes ms m :
  read_metrics nodes = Ok ms -> m ∈ ms -> exists n, n ∈ nodes /\ nf_metrics n = Some (Ok m).
Proof.
  revert ms. induction nodes as [|n nodes IH]; intros ms; simpl; [intros [= <-] Hm; by apply elem_of_nil in Hm|].
  destruct (nf_metrics n) as [[m'|e]|] eqn:En; simpl; [|done|].
  - intros (ms' & Hms & [= <-])%result_bind_ok [->|Hm]%elem_of_cons; [exists n; by split; [left|]|].
    destruct (IH _ Hms Hm) as (n' & Hn' & ?). exists n'. by split; [right|].
  - intros Hms Hm. destruct (IH _ Hms Hm) as (n' & Hn' & ?). exists n'. by split; [right|].
Qed.

Lemma lowest_score_numeric base nodes r :
  numeric_metrics nodes -> build_localnet_report base nodes = Ok r ->
  numeric_report r /\ configured_validators r = length nodes.
Proof.
  intros Hn (ms & Hms & [= <-])%result_bind_ok. split; [|done]. intros x Hx%min_by_elem. simpl in Hx.
  apply list_elem_of_fmap in Hx as (v & -> & Hv%sort_by_elem_of).
  apply list_elem_of_fmap in Hv as (m & -> & Hm). simpl.
  destruct (read_metrics_from _ _ _ Hms Hm) as (n & Hin & En).
  unfold numeric_metrics in Hn. rewrite Forall_forall in Hn. by eapply Hn.
Qed.

Section verdicts.
Context `{JsonLine Block} `{JsonLine EventLogEntry}.
Variables (base : string) (sc : MatrixScenario).
Hypothesis sc_numeric : numeric_scenario sc.

(** The verdict [run_matrix_scenario] records for the files as they are. *)
Definition verdict (nodes : list NodeFiles) : result bool :=
  r ← build_localnet_report base nodes; s ← build_structural_report nodes;
  Ok (passed (matrix_result base sc r s)).

Definition passes (nodes : list NodeFiles) : bool :=
  match verdict nodes with Ok b => b | Err _ => false end.

Lemma expectations_are_verdict nodes r s :
  numeric_metrics nodes -> build_localnet_report base nodes = Ok r ->
  build_structural_report nodes = Ok s ->
  scenario_expectations_met sc (length nodes) r s = passes nodes.
Proof.
  intros Hn Hr Hs. destruct (lowest_score_numeric base nodes r Hn Hr) as [Hnum <-].
  rewrite (expectations_met_passed base) by done. unfold passes, verdict. by rewrite Hr, Hs.
Qed.

(** C39: Waiting for the expectations and judging the result are the same
    condition: the runner records a pass exactly if at some look the files
    pass, the last look after the deadline included; it fails to give a
    verdict only if no look passed and the files are unreadable at the last. *)
Theorem wait_records_the_verdict looks final :
  Forall numeric_metrics (looks ++ [final]) ->
  let waited := wait_for_scenario_expectations base sc looks final in
  (rs ← waited; Ok (passed (matrix_result base sc rs.1 rs.2))) =
    if existsb passes looks then Ok true else verdict final.
Proof.
  induction looks as [|nodes looks IH]; simpl; intros Hl.
  - unfold verdict. destruct (build_localnet_report base final); [|done].
    by destruct (build_structural_report final).
  - inversion Hl as [|? ? Hn Hl']; subst. specialize (IH Hl').
    destruct (build_localnet_report base nodes) as [r|e] eqn:Hr; [|by unfold passes at 1, verdict at 1; rewrite Hr].
    destruct (build_structural_report nodes) as [s|e] eqn:Hs;
      [|by unfold passes at 1, verdict at 1; rewrite Hr, Hs].
    rewrite (expectations_are_verdict nodes r s) by done.
    destruct (passes nodes) eqn:Hp; [|exact IH].
    unfold passes, verdict in Hp. rewrite Hr, Hs in Hp. simpl in *. by rewrite Hp.
Qed.
End verdicts.

(** ** A network that passes agrees *)

(** The blocks form one chain from the empty hash. *)
Definition linked (bs : list Block) : Prop :=
  forall i b, bs !! i = Some b ->
    block_number (header b) = Z.of_nat i + 1 /\
    parent_hash (header b) = match i with O => empty_hash | S j => default 0 (block_hash <$> bs !! j) end.

Lemma parents_ok_from number previous bs i b :
  parents_ok number previous bs = true -> bs !! i = Some b ->
  block_number (header b) = Z.of_nat i + number /\
  parent_hash (header b) = match i with O => previous | S j => default 0 (block_hash <$> bs !! j) end.
Proof.
  revert number previous i. induction bs as [|b' bs IH]; intros number previous i; [done|]. simpl.
  destruct (negb _ || negb _) eqn:E; [done|]. apply orb_false_iff in E as [En Ep].
  apply negb_false_iff, Z.eqb_eq in En, Ep. intros Hp. destruct i as [|i]; simpl.
  - intros [= ->]. auto with lia.
  - intros Hi. destruct (IH _ _ _ Hp Hi) as [Hb ->]. split; [lia|]. by destruct i.
Qed.

Section agreement.
Context `{JsonLine Block} `{JsonLine EventLogEntry}.

(** A node stores these blocks. *)
Definition stores (chain : list HashBytes) (n : NodeFiles) : Prop :=
  exists bs, read_json_lines (nf_blocks n) = Ok bs /\ block_hash <$> bs = chain.

(** A node whose chain is linked, whose snapshot is that of its tip and which
    reported nothing on its error output. *)
Definition healthy (n : NodeFiles) : Prop :=
  exists bs s, read_json_lines (nf_blocks n) = Ok bs /\ linked bs /\
    nf_snapshot n = Some (Ok s) /\ tip_hash s = last_hash bs /\ height s = Z.of_nat (length bs) /\
    forall e, nf_stderr n = Some e -> is_blank e = true.

Lemma observe_nodes_ok nodes os :
  observe_nodes nodes = Ok os <-> Forall2 (fun n o => observe_node n = Ok o) nodes os.
Proof.
  revert os. induction nodes as [|n nodes IH]; intros os; simpl.
  - split; [by intros [= <-]|]. by inversion 1.
  - split.
    + intros (o & Ho & (os' & Hos & [= <-])%result_bind_ok)%result_bind_ok.
      constructor; [done|by apply IH].
    + inversion 1 as [|? o ? os' Ho Hos]; subst. rewrite Ho. simpl. apply IH in Hos. by rewrite Hos.
Qed.

Lemma observed_chain n o : observe_node n = Ok o -> stores (ob_chain o) n.
Proof. intros (bs & Hbs & (sn & Hsn & (es & _ & [= <-])%result_bind_ok)%result_bind_ok)%result_bind_ok. by exists bs. Qed.

Lemma observed_tip n o : observe_node n = Ok o -> ob_tip o = default empty_hash (last (ob_chain o)).
Proof.
  intros (bs & _ & (sn & _ & (es & _ & [= <-])%result_bind_ok)%result_bind_ok)%result_bind_ok. simpl.
  rewrite fmap_last. unfold last_hash. by destruct (last bs).
Qed.

Lemma observed_healthy n o : observe_node n = Ok o ->
  sn_parent_ok (ob_report o) = true -> sn_tip_matches_snapshot (ob_report o) = true ->
  sn_stderr_clean (ob_report o) = true -> healthy n.
Proof.
  intros (bs & Hbs & (sn & Hsn & (es & _ & [= <-])%result_bind_ok)%result_bind_ok)%result_bind_ok. simpl.
  intros Hp Ht Hc. destruct sn as [s|]; [|done].
  assert (Hs : nf_snapshot n = Some (Ok s)).
  { unfold read_state_snapshot in Hsn. by destruct (nf_snapshot n) as [[s'|]|]; simplify_eq/=. }
  apply andb_true_iff in Ht as [Ht%Z.eqb_eq Hh%Z.eqb_eq].
  exists bs, s. split_and!; [done| |done..|].
  - intros i b Hi. destruct (parents_ok_from _ _ _ _ _ Hp Hi) as [-> Hpar]. split; [lia|done].
  - intros e He. by rewrite He in Hc.
Qed.

(** With one chain everywhere heights and tips do not spread. *)
Lemma same_chains_no_spread c os :
  Forall (fun o => ob_chain o = c) os ->
  Forall (fun o => ob_tip o = default empty_hash (last (ob_chain o))) os ->
  height_spread (structural_report os) = O /\ tip_spread (structural_report os) = O.
Proof.
  intros Hc Ht. rewrite Forall_forall in Hc, Ht.
  assert (Hh : forall h, h ∈ length <$> (ob_chain <$> os) -> h = length c).
  { intros h (ch & -> & (o & -> & Ho)%list_elem_of_fmap)%list_elem_of_fmap. by rewrite (Hc o Ho). }
  split; simpl.
  - destruct (max_by Nat.compare _) as [high|] eqn:Emax; simpl; [|done].
    pose proof (Hh high (max_by_elem _ _ _ Emax)) as ->.
    destruct (min_by Nat.compare _) as [low|] eqn:Emin; simpl.
    + apply min_by_elem, Hh in Emin as ->. lia.
    + by destruct os.
  - enough (Hs : list_to_set (C := gset HashBytes) (ob_tip <$> os) ⊆ {[default empty_hash (last c)]}).
    { apply subseteq_size in Hs. rewrite size_singleton in Hs. lia. }
    intros t (o & -> & Ho)%elem_of_list_to_set%list_elem_of_fmap.
    rewrite (Ht o Ho), (Hc o Ho). set_solver.
Qed.

Lemma observed_transfer (P : NodeObservation -> Prop) (Q : NodeFiles -> Prop) nodes os :
  Forall2 (fun n o => observe_node n = Ok o) nodes os -> Forall P os ->
  (forall n o, observe_node n = Ok o -> P o -> Q n) -> Forall Q nodes.
Proof. intros Hos HP HPQ. induction Hos; inversion HP; subst; constructor; eauto. Qed.

(** C40: Unless the failure signal is a fork or sync failure every node of the
    network stores the same chain; and if the verdict is a pass every node's
    chain is linked from the empty hash with the numbers 1, 2, ..., its
    snapshot is the one of that chain's tip, its error output is empty, and
    the reported spreads of heights and tips are zero. *)
Theorem verdict_means_agreement base sc nodes r s :
  build_localnet_report base nodes = Ok r -> build_structural_report nodes = Ok s ->
  let m := matrix_result base sc r s in
  (failure_signal m <> Some SyncFork -> exists chain, Forall (stores chain) nodes) /\
  (passed m = true -> Forall healthy nodes /\ height_spread s = O /\ tip_spread s = O).
Proof.
  intros (ms & _ & [= <-])%result_bind_ok (os & Hos%observe_nodes_ok & [= <-])%result_bind_ok m.
  assert (Hsame : same_chain_count (structural_report os) = length nodes ->
                  Forall (fun o => ob_chain o = canonical_chain (ob_chain <$> os)) os).
  { simpl. rewrite (Forall2_length _ _ _ Hos), <- (length_fmap ob_chain os).
    intros Hf%filter_length_all. by rewrite Forall_fmap in Hf. }
  assert (Hstores : same_chain_count (structural_report os) = length nodes ->
                    exists chain, Forall (stores chain) nodes).
  { intros E%Hsame. exists (canonical_chain (ob_chain <$> os)).
    apply (observed_transfer _ _ _ _ Hos E). intros n o Ho Hc. simpl in Hc. rewrite <- Hc.
    by apply observed_chain. }
  assert (Hcount : passed m = true -> same_chain_count (structural_report os) = length nodes).
  { unfold passed. intros Hp. repeat apply andb_true_iff in Hp as [Hp _]. by apply Nat.eqb_eq in Hp. }
  split.
  - unfold failure_signal. destruct (passed m) eqn:Hp; [intros _; by apply Hstores, Hcount|].
    destruct (_ || _) eqn:E; [done|]. intros _. apply Hstores.
    repeat apply orb_false_iff in E as [E _]. apply negb_false_iff, Nat.eqb_eq in E. done.
  - intros Hp. pose proof (Hsame (Hcount Hp)) as Hc. split.
    + assert (Hall : all_parent_ok (structural_report os) = true /\
                     all_tips_match (structural_report os) = true /\
                     all_stderr_clean (structural_report os) = true).
      { unfold passed in Hp. simpl in Hp.
        do 8 apply andb_true_iff in Hp as [Hp _].
        apply andb_true_iff in Hp as [[[_ ?]%andb_true_iff ?]%andb_true_iff ?]. auto. }
      destruct Hall as (H1%forallb_sorted & H2%forallb_sorted & H3%forallb_sorted).
      rewrite Forall_fmap in H1, H2, H3.
      apply (observed_transfer _ _ _ _ Hos (proj2 (Forall_and _ _) (conj H1 (proj2 (Forall_and _ _) (conj H2 H3))))).
      intros n o Ho (? & ? & ?). by eapply observed_healthy.
    + apply (same_chains_no_spread _ _ Hc). clear -Hos.
      induction Hos; constructor; [by eapply observed_tip|done].
Qed.
End agreement.

(** ** A network that passed the baseline *)

Module VerdictsExample.
Definition block_at (n previous hash : Z) : Block :=
  mkBlock (mkHeader n previous n 0 1 0 0 0 0) [] None [] (mkContainer SigDevDeterministic [] []) hash.
Definition sample : list Block := [block_at 1 empty_hash 71; block_at 2 71 72].

(** One character per block. *)
#[local] Instance block_lines : JsonLine Block :=
  {| to_json := fun b => [64 + block_number (header b)];
     from_str := fun s => match s with
                          | [c] => match sample !! Z.to_nat (c - 65) with
                                   | Some b => Value b
                                   | None => Malformed
                                   end
                          | _ => Malformed
                          end |}.
#[local] Instance event_lines : JsonLine EventLogEntry :=
  {| to_json := fun e => [64]; from_str := fun _ => Value (mkEvent 0 "started" "") |}.

Definition metrics_of (id : ValidatorId) : MetricsFile :=
  mkMetricsFile id 4 20 f64_one default_service_score_weights default_counters
    0 0 0 0 0 5 15 12 9 3 3 1 1.
Definition node_of (id : ValidatorId) (blocks : file) : NodeFiles :=
  mkNodeFiles (mkNodeConfig id "" "" "" [] "" ""
                 (mkFlags true false true false 3 f64_zero 4 default_service_score_weights)
                 default_fault_profile false SbDevDeterministic None SeDevDeterministic None None)
    (Some (Ok (metrics_of id))) blocks (Some (Ok (mkSnapshot ∅ ∅ 72 2 2))) (Some [64; newline]) None.
Definition settled : list NodeFiles :=
  (fun id => node_of id (overwrite_json_lines sample)) <$> [1; 2; 3; 4].
Definition behind : list NodeFiles :=
  node_of 1 (Some [65; newline]) :: ((fun id => node_of id (overwrite_json_lines sample)) <$> [2; 3; 4]).
Definition baseline : MatrixScenario := baseline_4_steady 30.

Lemma wait_records_the_verdict_witness :
  (rs ← wait_for_scenario_expectations "net" baseline [behind; settled] behind;
   Ok (passed (matrix_result "net" baseline rs.1 rs.2))) = Ok true.
Proof.
  rewrite (wait_records_the_verdict "net" baseline).
  - vm_compute. reflexivity.
  - split; intros x Hx; [|discriminate]. injection Hx as <-. vm_compute. reflexivity.
  - repeat constructor; intros m Hm; injection Hm as <-; vm_compute; reflexivity.
Defined.

Lemma verdict_means_agreement_witness :
  exists s, build_structural_report settled = Ok s /\
    (exists chain, Forall (stores chain) settled) /\ Forall healthy settled /\ height_spread s = O.
Proof.
  destruct (build_structural_report settled) as [s|e] eqn:Hs; [|vm_compute in Hs; discriminate].
  destruct (build_localnet_report "net" settled) as [r|e] eqn:Hr; [|vm_compute in Hr; discriminate].
  destruct (verdict_means_agreement "net" baseline settled r s Hr Hs) as [Hsame Hpass].
  assert (Hp : passed (matrix_result "net" baseline r s) = true).
  { vm_compute in Hs, Hr. injection Hs as <-. injection Hr as <-. vm_compute. reflexivity. }
  exists s. split; [reflexivity|]. split.
  - apply Hsame. unfold failure_signal. rewrite Hp. discriminate.
  - destruct (Hpass Hp) as (Hh & Hsp & _). exact (conj Hh Hsp).
Defined.
End VerdictsExample.
